(** * AI_Bank_Pi: the spreadsheet fact extractor and the document
      field-filling engine, embedded in Rocq.

    The development follows the two JavaScript classes of the repository,
    [FileParser] (file parser module) and [TemplateEngine]
    (js/templateEngine.js).  JavaScript strings are sequences of UTF-16
    code units, numbers are IEEE 754 binary64 values (the [spec_float]
    specification of the Standard Library at precision 53), objects used
    as dictionaries are finite maps, and regular expressions are
    evaluated by a backtracking matcher written in the
    continuation-passing style of the ECMAScript specification. *)

From Stdlib Require Import ZArith NArith List Ascii String Bool Lia.
From Stdlib Require Import Floats.SpecFloat.
From stdpp Require Import base option list gmap strings.

From stdpp Require Import sorting.
Import ListNotations.

(* ===================================================================== *)
(** * JavaScript strings *)
(* ===================================================================== *)

Module JsStr.

(** A code unit is a 16-bit value, kept in [N]; a string is a list of
    code units, [list N]. *)

Open Scope N_scope.

(** Code points above the Basic Multilingual Plane take two code units. *)
Definition utf16_of_cp (cp : N) : list N :=
  if cp <? 0x10000 then [cp]
  else let v := cp - 0x10000 in [0xD800 + v / 0x400; 0xDC00 + v mod 0x400].

(** The source files are UTF-8; [decode] turns the bytes of a literal
    into the code units a JavaScript engine stores for it. *)
Fixpoint decode (s : string) (need : nat) (acc : N) : list N :=
  match s with
  | EmptyString => []
  | String a rest =>
      let b := N_of_ascii a in
      match need with
      | O =>
          if b <? 0x80 then b :: decode rest 0 0
          else if b <? 0xE0 then decode rest 1 (N.land b 0x1F)
          else if b <? 0xF0 then decode rest 2 (N.land b 0x0F)
          else decode rest 3 (N.land b 0x07)
      | S O => utf16_of_cp (acc * 64 + N.land b 0x3F) ++ decode rest 0 0
      | S k => decode rest k (acc * 64 + N.land b 0x3F)
      end
  end.

(** [L "..."] is the JavaScript string written as that literal. *)
Definition L (s : string) : list N := decode s 0 0.

(** The code unit of an ASCII character. *)
Definition ch (a : ascii) : N := N_of_ascii a.

(** WhiteSpace and LineTerminator of ECMAScript: the characters removed
    by [trim], matched by [\s] and skipped by [parseFloat]. *)
Definition isWhiteSpace (c : N) : bool :=
  ((0x09 <=? c) && (c <=? 0x0D)) || (c =? 0x20) || (c =? 0xA0)
  || (c =? 0x1680) || ((0x2000 <=? c) && (c <=? 0x200A))
  || (c =? 0x2028) || (c =? 0x2029) || (c =? 0x202F) || (c =? 0x205F)
  || (c =? 0x3000) || (c =? 0xFEFF).

Definition isLineTerminator (c : N) : bool :=
  (c =? 0x0A) || (c =? 0x0D) || (c =? 0x2028) || (c =? 0x2029).

Definition isDigit (c : N) : bool := (0x30 <=? c) && (c <=? 0x39).

Fixpoint trimStart (s : list N) : list N :=
  match s with
  | c :: rest => if isWhiteSpace c then trimStart rest else s
  | [] => []
  end.

Definition trimEnd (s : list N) : list N := rev (trimStart (rev s)).

(** [String.prototype.trim]. *)
Definition trim (s : list N) : list N := trimEnd (trimStart s).

(** [s.startsWith(t)]. *)
Fixpoint startsWith (s t : list N) : bool :=
  match t, s with
  | [], _ => true
  | _ :: _, [] => false
  | a :: t', b :: s' => (a =? b) && startsWith s' t'
  end.

(** [s.includes(t)]. *)
Fixpoint includes (s t : list N) : bool :=
  startsWith s t ||
  match s with
  | [] => false
  | _ :: rest => includes rest t
  end.

(** [s.lastIndexOf(t)], [None] for -1: the scan keeps the greatest
    position at which [t] starts. *)
Fixpoint lastIndexFrom (i : nat) (s t : list N) (found : option nat) : option nat :=
  let found' := if startsWith s t then Some i else found in
  match s with
  | [] => found'
  | _ :: rest => lastIndexFrom (S i) rest t found'
  end.

Definition lastIndexOf (s t : list N) : option nat := lastIndexFrom 0 s t None.

(** [s.split(sep)] for a separator of one code unit. *)
Fixpoint splitOn (sep : N) (s : list N) : list (list N) :=
  match s with
  | [] => [[]]
  | c :: rest =>
      if c =? sep then [] :: splitOn sep rest
      else match splitOn sep rest with
           | l :: ls => (c :: l) :: ls
           | [] => [[c]]
           end
  end.

(** [arr.join(sep)]. *)
Fixpoint join (sep : list N) (parts : list (list N)) : list N :=
  match parts with
  | [] => []
  | [p] => p
  | p :: ps => p ++ sep ++ join sep ps
  end.

(** Decimal digits of a natural number, most significant first. *)
Fixpoint digitsFuel (fuel : nat) (n : N) (acc : list N) : list N :=
  match fuel with
  | O => acc
  | S k =>
      let acc' := (0x30 + n mod 10) :: acc in
      if n <? 10 then acc' else digitsFuel k (n / 10) acc'
  end.

Definition digitsOfN (n : N) : list N := digitsFuel (S (N.to_nat (N.log2 n))) n [].

(** [s.padStart(len, "0")]. *)
Definition padStart0 (len : nat) (s : list N) : list N :=
  repeat 0x30 (len - length s) ++ s.

End JsStr.

(* ===================================================================== *)
(** * JavaScript numbers *)
(* ===================================================================== *)

Module JsNum.
Import JsStr.

Open Scope Z_scope.

(** Number values are binary64: 53 bits of precision, exponents below 1024. *)
Definition prec : Z := 53.
Definition emax : Z := 1024.

Definition ofZ (z : Z) : spec_float := binary_normalize prec emax z 0 false.

Definition isNaN (x : spec_float) : bool :=
  match x with S754_nan => true | _ => false end.

Definition isFinite (x : spec_float) : bool :=
  match x with S754_nan | S754_infinity _ => false | _ => true end.

Definition isZero (x : spec_float) : bool :=
  match x with S754_zero _ => true | _ => false end.

(** The arithmetic operators and [===] on numbers. *)
Definition sub (x y : spec_float) : spec_float := SFsub prec emax x y.
Definition mul (x y : spec_float) : spec_float := SFmul prec emax x y.
Definition div (x y : spec_float) : spec_float := SFdiv prec emax x y.
Definition strictEq (x y : spec_float) : bool := SFeqb x y.

(** The Number value of the decimal [(-1)^neg * m * 10^e] for [m >= 0]:
    the nearest binary64, ties to even. *)
Definition ofDecimal (neg : bool) (m e : Z) : spec_float :=
  match m with
  | Zpos p =>
      if 0 <=? e then binary_normalize prec emax (cond_Zopp neg (Zpos p * 10 ^ e)) 0 false
      else SFdiv prec emax (S754_finite neg p 0)
                           (S754_finite false (Z.to_pos (10 ^ (- e))) 0)
  | _ => S754_zero neg
  end.

(** ** [parseFloat] *)

Fixpoint spanDigits (s : list N) : list N * list N :=
  match s with
  | c :: r =>
      if isDigit c then let (d, r') := spanDigits r in (c :: d, r') else ([], s)
  | [] => ([], [])
  end.

Definition digitsValue (d : list N) : Z :=
  fold_left (fun acc c => acc * 10 + Z.of_N (c - 0x30)) d 0.

(** The ExponentPart at the head of [s]: its value and what follows it;
    value 0 and [s] itself when there is none. *)
Definition parseExponent (s : list N) : Z * list N :=
  match s with
  | c :: r =>
      if (c =? ch "e")%N || (c =? ch "E")%N then
        let '(sgn, r1) :=
          match r with
          | x :: r' =>
              if (x =? ch "+")%N then (false, r')
              else if (x =? ch "-")%N then (true, r') else (false, r)
          | [] => (false, r)
          end in
        match spanDigits r1 with
        | ([], _) => (0, s)
        | (d, r2) => (if sgn then - digitsValue d else digitsValue d, r2)
        end
      else (0, s)
  | [] => (0, s)
  end.

(** The longest prefix of [s] that is a StrUnsignedDecimalLiteral: its
    Number value and the rest of [s]; [None] when no prefix is one. *)
Definition parseUnsigned (neg : bool) (s : list N) : option (spec_float * list N) :=
  if startsWith s (L "Infinity") then Some (S754_infinity neg, drop 8 s)
  else
    let (ip, r1) := spanDigits s in
    let '(fp, r2) :=
      match r1 with
      | c :: r => if (c =? ch ".")%N then spanDigits r else ([], r1)
      | [] => ([], r1)
      end in
    match ip ++ fp with
    | [] => None
    | ds =>
        let (ex, r3) := parseExponent r2 in
        Some (ofDecimal neg (digitsValue ds) (ex - Z.of_nat (length fp)), r3)
    end.

(** A StrDecimalLiteral prefix: an optional sign and the unsigned literal. *)
Definition parseSigned (t : list N) : option (spec_float * list N) :=
  match t with
  | c :: r =>
      if (c =? ch "+")%N then parseUnsigned false r
      else if (c =? ch "-")%N then parseUnsigned true r
      else parseUnsigned false t
  | [] => None
  end.

Definition parseFloat (s : list N) : spec_float :=
  match parseSigned (trimStart s) with
  | Some (x, _) => x
  | None => S754_nan
  end.

(** ** [StringToNumber], the conversion applied by arithmetic operators *)

Definition radixDigit (radix : N) (c : N) : option N :=
  let v := if isDigit c then Some (c - 0x30)%N
           else if ((0x61 <=? c) && (c <=? 0x66))%N then Some (c - 0x61 + 10)%N
           else if ((0x41 <=? c) && (c <=? 0x46))%N then Some (c - 0x41 + 10)%N
           else None in
  match v with
  | Some d => if (d <? radix)%N then Some d else None
  | None => None
  end.

Fixpoint radixValue (radix : N) (s : list N) (acc : Z) : option Z :=
  match s with
  | [] => Some acc
  | c :: r =>
      match radixDigit radix c with
      | Some d => radixValue radix r (acc * Z.of_N radix + Z.of_N d)
      | None => None
      end
  end.

Definition nonDecimal (t : list N) : option (option Z) :=
  match t with
  | z :: x :: (_ :: _) as ds =>
      if (z =? 0x30)%N then
        if (x =? ch "x")%N || (x =? ch "X")%N then Some (radixValue 16 ds 0)
        else if (x =? ch "o")%N || (x =? ch "O")%N then Some (radixValue 8 ds 0)
        else if (x =? ch "b")%N || (x =? ch "B")%N then Some (radixValue 2 ds 0)
        else None
      else None
  | _ => None
  end.

Definition stringToNumber (s : list N) : spec_float :=
  let t := trim s in
  match t with
  | [] => S754_zero false
  | _ =>
      match nonDecimal t with
      | Some (Some v) => ofZ v
      | Some None => S754_nan
      | None =>
          match parseSigned t with
          | Some (x, []) => x
          | _ => S754_nan
          end
      end
  end.

(** ** [Number::toString] *)

(** The exact value of the positive finite number [m * 2^e] as a fraction. *)
Definition fracOf (m : positive) (e : Z) : Z * Z :=
  if 0 <=? e then (Zpos m * 2 ^ e, 1) else (Zpos m, 2 ^ (- e)).

(** [floor (n/d / 10^p)]. *)
Definition scaledFloor (nd : Z * Z) (p : Z) : Z :=
  let (n, d) := nd in
  if 0 <=? p then n / (d * 10 ^ p) else (n * 10 ^ (- p)) / d.

Definition roundTrips (x : spec_float) (s p : Z) : bool :=
  (0 <? s) && SFeqb (ofDecimal false s p) x.

(** Of [s] and [s+1], the one with [s * 10^p] nearer to [n/d]; the even
    one on a tie. *)
Definition nearer (nd : Z * Z) (s p : Z) : Z :=
  let (n, d) := nd in
  let '(a, b, v) :=
    if 0 <=? p then (s * 10 ^ p * d, (s + 1) * 10 ^ p * d, n)
    else (s * d, (s + 1) * d, n * 10 ^ (- p)) in
  match Z.abs (a - v) ?= Z.abs (b - v) with
  | Lt => s
  | Gt => s + 1
  | Eq => if Z.even s then s else s + 1
  end.

(** The digits [s] and the exponent [p] with [s * 10^p] converting back
    to [x] and [p] as large, hence [s] as short, as possible. *)
Fixpoint shortestFrom (fuel : nat) (x : spec_float) (nd : Z * Z) (p : Z) : Z * Z :=
  match fuel with
  | O => (0, p)
  | S k =>
      let s := scaledFloor nd p in
      let ok1 := roundTrips x s p in
      let ok2 := roundTrips x (s + 1) p in
      if ok1 && ok2 then (nearer nd s p, p)
      else if ok1 then (s, p)
      else if ok2 then (s + 1, p)
      else shortestFrom k x nd (p - 1)
  end.

Definition shortest (m : positive) (e : Z) : Z * Z :=
  let b := Zpos (digits2_pos m) + e in
  shortestFrom 400 (S754_finite false m e) (fracOf m e) (b * 30103 / 100000 + 3).

Definition zeros (n : Z) : list N := repeat 0x30%N (Z.to_nat n).

Definition formatShortest (s p : Z) : list N :=
  let ds := digitsOfN (Z.to_N s) in
  let k := Z.of_nat (length ds) in
  let n := p + k in
  if (k <=? n) && (n <=? 21) then ds ++ zeros (n - k)
  else if (0 <? n) && (n <=? 21) then
    take (Z.to_nat n) ds ++ L "." ++ drop (Z.to_nat n) ds
  else if (-6 <? n) && (n <=? 0) then L "0." ++ zeros (- n) ++ ds
  else
    let e := n - 1 in
    let es := (if 0 <=? e then L "+" else L "-") ++ digitsOfN (Z.to_N (Z.abs e)) in
    match ds with
    | [d] => [d] ++ L "e" ++ es
    | d :: ds' => [d] ++ L "." ++ ds' ++ L "e" ++ es
    | [] => []
    end.

Definition toString (x : spec_float) : list N :=
  match x with
  | S754_nan => L "NaN"
  | S754_zero _ => L "0"
  | S754_infinity false => L "Infinity"
  | S754_infinity true => L "-Infinity"
  | S754_finite sg m e =>
      (if sg then L "-" else []) ++ let (s, p) := shortest m e in formatShortest s p
  end.

(** ** [Number.prototype.toFixed] *)

Definition toFixed (f : nat) (x : spec_float) : list N :=
  match x with
  | S754_finite sg m e =>
      let (n, d) := fracOf m e in
      (if sg then L "-" else []) ++
      (if 10 ^ 21 * d <=? n then toString (S754_finite false m e)
       else
         let r := (2 * n * 10 ^ Z.of_nat f + d) / (2 * d) in
         let ds := digitsOfN (Z.to_N r) in
         let ds := repeat 0x30%N (S f - length ds) ++ ds in
         match f with
         | O => ds
         | _ => take (length ds - f) ds ++ L "." ++ drop (length ds - f) ds
         end)
  | S754_zero _ =>
      match f with
      | O => L "0"
      | _ => L "0." ++ repeat 0x30%N f
      end
  | _ => toString x
  end.

(** ** [parseInt] without a radix *)

(** The longest prefix of [s] made of digits of the radix. *)
Fixpoint radixPrefix (radix : N) (s : list N) : list N :=
  match s with
  | c :: r =>
      match radixDigit radix c with
      | Some _ => c :: radixPrefix radix r
      | None => []
      end
  | [] => []
  end.

(** White space is skipped, a sign is read, [0x] selects radix 16, and
    the digits that follow give the value; [NaN] when there is none. *)
Definition parseInt (string : list N) : spec_float :=
  let s := trimStart string in
  let '(neg, s1) :=
    match s with
    | c :: r =>
        if (c =? ch "-")%N then (true, r)
        else if (c =? ch "+")%N then (false, r) else (false, s)
    | [] => (false, s)
    end in
  let '(radix, s2) :=
    match s1 with
    | z :: x :: r =>
        if (z =? 0x30)%N && ((x =? ch "x")%N || (x =? ch "X")%N) then (16%N, r)
        else (10%N, s1)
    | _ => (10%N, s1)
    end in
  match radixPrefix radix s2 with
  | [] => S754_nan
  | ds =>
      match radixValue radix ds 0 with
      | Some 0 => S754_zero neg
      | Some v => ofZ (if neg then - v else v)
      | None => S754_nan
      end
  end.

(** The comparisons [x < y] and [x > y] on numbers. *)
Definition lt (x y : spec_float) : bool := SFltb x y.
Definition gt (x y : spec_float) : bool := SFltb y x.

End JsNum.

(* ===================================================================== *)
(** * JavaScript values *)
(* ===================================================================== *)

Module JsVal.
Import JsStr JsNum.

(** The primitive values a spreadsheet cell, a metric or a context field
    can hold. *)
Inductive jsval :=
| VUndefined
| VNull
| VBool (b : bool)
| VNum (x : spec_float)
| VStr (s : list N).

(** ToBoolean: the test of [if (v)], [!v] and [v || d]. *)
Definition toBoolean (v : jsval) : bool :=
  match v with
  | VUndefined | VNull => false
  | VBool b => b
  | VNum x => negb (isZero x || isNaN x)
  | VStr s => match s with [] => false | _ => true end
  end.

(** [String(v)]. *)
Definition toStr (v : jsval) : list N :=
  match v with
  | VUndefined => L "undefined"
  | VNull => L "null"
  | VBool true => L "true"
  | VBool false => L "false"
  | VNum x => toString x
  | VStr s => s
  end.

(** ToNumber, applied by [-], [*] and [/]. *)
Definition toNumber (v : jsval) : spec_float :=
  match v with
  | VUndefined => S754_nan
  | VNull => S754_zero false
  | VBool true => ofZ 1
  | VBool false => S754_zero false
  | VNum x => x
  | VStr s => stringToNumber s
  end.

(** [a || b]. *)
Definition orElse (a b : jsval) : jsval := if toBoolean a then a else b.

(** [obj[key]] on an object used as a dictionary: [undefined] when the
    key is absent. *)
Definition prop (obj : gmap string jsval) (key : string) : jsval :=
  default VUndefined (obj !! key).

End JsVal.

(* ===================================================================== *)
(** * Objects and arrays of the runtime *)
(* ===================================================================== *)

Module JsObj.
Import JsStr JsNum JsVal.

(** An object whose properties are created while the program runs: the
    keys with their values, in the order of creation. *)
Definition object (A : Type) : Type := list (list N * A).

(** [o[key]]. *)
Fixpoint get {A : Type} (o : object A) (key : list N) : option A :=
  match o with
  | [] => None
  | (k, v) :: o' => if bool_decide (k = key) then Some v else get o' key
  end.

(** [o[key] = v]: an existing property keeps its place. *)
Fixpoint set {A : Type} (o : object A) (key : list N) (v : A) : object A :=
  match o with
  | [] => [(key, v)]
  | (k, w) :: o' =>
      if bool_decide (k = key) then (k, v) :: o' else (k, w) :: set o' key v
  end.

(** An array index: the canonical decimal string of an integer below
    [2^32 - 1]. *)
Definition arrayIndex (key : list N) : option N :=
  match key with
  | [] => None
  | c :: _ =>
      if forallb isDigit key then
        let n := Z.to_N (digitsValue key) in
        if bool_decide (digitsOfN n = key) && (n <? 4294967295)%N then Some n else None
      else None
  end.

Fixpoint insertIndex (n : N) (l : list N) : list N :=
  match l with
  | [] => [n]
  | k :: l' => if (n <=? k)%N then n :: l else k :: insertIndex n l'
  end.

(** [Object.keys(o)]: the array indices in ascending order, then the
    other keys in the order of creation. *)
Definition keys {A : Type} (o : object A) : list (list N) :=
  map digitsOfN (fold_right insertIndex [] (omap arrayIndex (map fst o)))
  ++ List.filter (fun k => match arrayIndex k with Some _ => false | None => true end)
       (map fst o).

(** [arr.sort(comparefn)].  For a comparator that orders the elements
    consistently the result is fixed by the language: the elements in
    ascending order, those that compare equal in the order they had.
    [x] goes behind [y] when [comparefn(x, y) > 0]. *)
Fixpoint insertSorted {A : Type} (comparefn : A -> A -> spec_float) (x : A)
    (l : list A) : list A :=
  match l with
  | [] => [x]
  | y :: l' =>
      if gt (comparefn x y) (S754_zero false) then y :: insertSorted comparefn x l'
      else x :: l
  end.

Definition sort {A : Type} (comparefn : A -> A -> spec_float) (arr : list A) : list A :=
  fold_right (insertSorted comparefn) [] arr.

End JsObj.

(* ===================================================================== *)
(** * Regular expressions *)
(* ===================================================================== *)

Module Regex.
Import JsStr.

(** The patterns of the program use literal characters, character
    classes, the dot, sequence, alternation, greedy and lazy [*],
    capturing groups and the two anchors.  [r+] is [Seq r (Star true r)]
    and [r?] is [Alt r Empty] (non-capturing groups only shape the tree). *)
Inductive regex :=
| Empty
| Char (c : N)
| Class (neg : bool) (p : N -> bool)
| Dot
| Seq (r1 r2 : regex)
| Alt (r1 r2 : regex)
| Star (greedy : bool) (r : regex)
| Group (n : nat) (r : regex)
| Bol
| Eol.

Record flags := { ignoreCase : bool; dotAll : bool }.

(** Canonicalize of ECMAScript without the unicode flag maps a character
    to its upper case unless that leaves or enters ASCII; on the ASCII
    letters it is this map.  The pattern characters of the program are
    ASCII or have no case, so no other case pair can arise. *)
Definition asciiUpper (c : N) : N :=
  if ((0x61 <=? c) && (c <=? 0x7A))%N then (c - 0x20)%N else c.
Definition asciiLower (c : N) : N :=
  if ((0x41 <=? c) && (c <=? 0x5A))%N then (c + 0x20)%N else c.

Definition charMatches (fl : flags) (c x : N) : bool :=
  if ignoreCase fl then (asciiUpper c =? asciiUpper x)%N else (c =? x)%N.

Definition classMatches (fl : flags) (neg : bool) (p : N -> bool) (x : N) : bool :=
  xorb neg (p x || (ignoreCase fl && (p (asciiUpper x) || p (asciiLower x)))).

Definition dotMatches (fl : flags) (x : N) : bool :=
  dotAll fl || negb (isLineTerminator x).

(** A match state: the index reached, the input that remains and the
    captures made so far. *)
Record mstate := { pos : nat; rest : list N; caps : gmap nat (list N) }.

Definition advance (x : mstate) (s' : list N) : mstate :=
  {| pos := S (pos x); rest := s'; caps := caps x |}.

Definition oneChar (ok : N -> bool) (x : mstate)
    (k : mstate -> option mstate) : option mstate :=
  match rest x with
  | c :: s' => if ok c then k (advance x s') else None
  | [] => None
  end.

(** RepeatMatcher for [*]: try the body once more and loop, or leave the
    loop through the continuation [k]; a greedy [*] tries the body
    first, a lazy one the continuation.  A turn of the body that
    consumes nothing is rejected, so the turns are bounded by the input
    that remains, which is what [fuel] counts. *)
Fixpoint starLoop (body : mstate -> (mstate -> option mstate) -> option mstate)
    (greedy : bool) (k : mstate -> option mstate) (fuel : nat) (x : mstate)
    {struct fuel} : option mstate :=
  match fuel with
  | O => None
  | S f =>
      let again :=
        body x (fun y =>
          if (length (rest y) <? length (rest x))%nat
          then starLoop body greedy k f y else None) in
      if greedy then
        match again with
        | Some z => Some z
        | None => k x
        end
      else
        match k x with
        | Some z => Some z
        | None => again
        end
  end.

(** [m fl r x k]: match [r] at state [x], then continue with [k];
    alternatives are tried in order and the first success is kept. *)
Fixpoint m (fl : flags) (r : regex) (x : mstate)
    (k : mstate -> option mstate) {struct r} : option mstate :=
  match r with
  | Empty => k x
  | Char c => oneChar (charMatches fl c) x k
  | Class neg p => oneChar (classMatches fl neg p) x k
  | Dot => oneChar (dotMatches fl) x k
  | Seq r1 r2 => m fl r1 x (fun y => m fl r2 y k)
  | Alt r1 r2 =>
      match m fl r1 x k with
      | Some z => Some z
      | None => m fl r2 x k
      end
  | Star greedy r1 => starLoop (m fl r1) greedy k (S (length (rest x))) x
  | Group n r1 =>
      m fl r1 x (fun y =>
        k {| pos := pos y; rest := rest y;
             caps := <[n := take (pos y - pos x) (rest x)]> (caps y) |})
  | Bol => if (pos x =? 0)%nat then k x else None
  | Eol => match rest x with [] => k x | _ => None end
  end.

(** The literal pattern for a string. *)
Fixpoint lit (s : list N) : regex :=
  match s with
  | [] => Empty
  | [c] => Char c
  | c :: s' => Seq (Char c) (lit s')
  end.

(** Sequence and alternation of several patterns. *)
Fixpoint seqs (rs : list regex) : regex :=
  match rs with
  | [] => Empty
  | [r] => r
  | r :: rs' => Seq r (seqs rs')
  end.

Fixpoint alts (rs : list regex) : regex :=
  match rs with
  | [] => Empty
  | [r] => r
  | r :: rs' => Alt r (alts rs')
  end.

Definition oneOrMore (r : regex) : regex := Seq r (Star true r).
Definition optional (r : regex) : regex := Alt r Empty.

(** The number of capturing groups of a pattern. *)
Fixpoint ngroups (r : regex) : nat :=
  match r with
  | Seq r1 r2 | Alt r1 r2 => ngroups r1 + ngroups r2
  | Star _ r1 => ngroups r1
  | Group _ r1 => S (ngroups r1)
  | _ => 0
  end.

(** What one successful match reports: the input before it, the matched
    text, the input after it and the captures. *)
Record matchInfo := {
  before : list N;
  matched : list N;
  after : list N;
  groups : gmap nat (list N)
}.

(** The match of [r] that starts exactly at the head of [s], [pre] being
    the input before it. *)
Definition matchAt (fl : flags) (r : regex) (pre s : list N) : option matchInfo :=
  match m fl r {| pos := length pre; rest := s; caps := ∅ |} Some with
  | Some y =>
      let len := (pos y - length pre)%nat in
      Some {| before := pre; matched := take len s; after := drop len s;
              groups := caps y |}
  | None => None
  end.

(** RegExpBuiltinExec without the sticky flag: the match at the least
    index not below the current one. *)
Fixpoint execFrom (fl : flags) (r : regex) (pre s : list N) : option matchInfo :=
  match matchAt fl r pre s with
  | Some mi => Some mi
  | None =>
      match s with
      | [] => None
      | c :: s' => execFrom fl r (pre ++ [c]) s'
      end
  end.

(** [r.exec(s)] and [s.match(r)] for a pattern without the global flag,
    and [r.test(s)]. *)
Definition exec (fl : flags) (r : regex) (s : list N) : option matchInfo :=
  execFrom fl r [] s.

Definition test (fl : flags) (r : regex) (s : list N) : bool :=
  match exec fl r s with Some _ => true | None => false end.

(** The successive matches of a global pattern: after a match the search
    resumes at its end, one position further when the match is empty.
    [skip] counts the characters of the last match still to pass. *)
Fixpoint matchesFrom (fl : flags) (r : regex) (pre : list N) (skip : nat)
    (s : list N) : list matchInfo :=
  match skip with
  | S k =>
      match s with
      | [] => []
      | c :: s' => matchesFrom fl r (pre ++ [c]) k s'
      end
  | O =>
      match matchAt fl r pre s with
      | Some mi =>
          mi :: match s with
                | [] => []
                | c :: s' => matchesFrom fl r (pre ++ [c]) (length (matched mi) - 1) s'
                end
      | None =>
          match s with
          | [] => []
          | c :: s' => matchesFrom fl r (pre ++ [c]) 0 s'
          end
      end
  end.

Definition matchAll (fl : flags) (r : regex) (s : list N) : list matchInfo :=
  matchesFrom fl r [] 0 s.

(** [s.replace(r, f)] for a global pattern: every match is replaced by
    what [f] returns for it, the text between matches is kept. *)
Fixpoint replaceFrom (fl : flags) (r : regex) (f : matchInfo -> list N)
    (pre : list N) (skip : nat) (s : list N) : list N :=
  match skip with
  | S k =>
      match s with
      | [] => []
      | c :: s' => replaceFrom fl r f (pre ++ [c]) k s'
      end
  | O =>
      match matchAt fl r pre s with
      | Some mi =>
          f mi ++
          match s with
          | [] => []
          | c :: s' =>
              match matched mi with
              | [] => c :: replaceFrom fl r f (pre ++ [c]) 0 s'
              | _ :: t => replaceFrom fl r f (pre ++ [c]) (length t) s'
              end
          end
      | None =>
          match s with
          | [] => []
          | c :: s' => c :: replaceFrom fl r f (pre ++ [c]) 0 s'
          end
      end
  end.

Definition replaceAll (fl : flags) (r : regex) (f : matchInfo -> list N)
    (s : list N) : list N :=
  replaceFrom fl r f [] 0 s.

(** GetSubstitution: the expansion of a replacement string.  [$$] is a
    dollar, [$&] the match, [$`] and [$'] the input before and after it,
    [$n] and [$nn] a capture when the pattern has that many groups; any
    other [$] stands for itself. *)
Definition capture (mi : matchInfo) (n : nat) : list N :=
  default [] (groups mi !! n).

Definition digitVal (c : N) : nat := N.to_nat (c - 0x30).

Fixpoint getSubstitution (ncap : nat) (mi : matchInfo) (t : list N) : list N :=
  match t with
  | [] => []
  | c :: t1 =>
      if negb (c =? ch "$")%N then c :: getSubstitution ncap mi t1
      else
        match t1 with
        | [] => [c]
        | d :: t2 =>
            if (d =? ch "$")%N then d :: getSubstitution ncap mi t2
            else if (d =? ch "&")%N then matched mi ++ getSubstitution ncap mi t2
            else if (d =? 0x60)%N then before mi ++ getSubstitution ncap mi t2
            else if (d =? 0x27)%N then after mi ++ getSubstitution ncap mi t2
            else if isDigit d then
              let one :=
                let i := digitVal d in
                if ((1 <=? i) && (i <=? ncap))%nat
                then capture mi i ++ getSubstitution ncap mi t2
                else c :: d :: getSubstitution ncap mi t2 in
              match t2 with
              | d2 :: t3 =>
                  if isDigit d2 then
                    let i := (10 * digitVal d + digitVal d2)%nat in
                    if (ncap <? i)%nat then one
                    else if (1 <=? i)%nat
                    then capture mi i ++ getSubstitution ncap mi t3
                    else c :: d :: d2 :: getSubstitution ncap mi t3
                  else one
              | [] => one
              end
            else c :: getSubstitution ncap mi t1
        end
  end.

(** [s.replace(r, template)] for a global pattern. *)
Definition replaceTemplate (fl : flags) (r : regex) (template : list N)
    (s : list N) : list N :=
  replaceAll fl r (fun mi => getSubstitution (ngroups r) mi template) s.

End Regex.

(* ===================================================================== *)
(** * The file parser *)
(* ===================================================================== *)

Module FileParser.
Import JsStr JsNum JsVal Regex.

Open Scope string_scope.
Open Scope list_scope.

(** The result object of one workbook, as far as extraction reads and
    writes it: the two dictionaries of metrics. *)
Record result := {
  balanceSheet : gmap string jsval;
  incomeStatement : gmap string jsval
}.

Definition emptyResult : result :=
  {| balanceSheet := ∅; incomeStatement := ∅ |}.

(** The label dictionaries, in the order [Object.entries] lists them. *)
Definition balanceSheetTerms : list (list N * string) :=
  [ (L "资产总计", "totalAssets");
    (L "资产总额", "totalAssets");
    (L "资产合计", "totalAssets");
    (L "资产总数", "totalAssets");
    (L "总资产", "totalAssets");
    (L "负债总计", "totalLiabilities");
    (L "负债总额", "totalLiabilities");
    (L "负债合计", "totalLiabilities");
    (L "总负债", "totalLiabilities");
    (L "所有者权益合计", "ownerEquity");
    (L "所有者权益", "ownerEquity");
    (L "股东权益合计", "ownerEquity");
    (L "股东权益", "ownerEquity");
    (L "净资产", "ownerEquity");
    (L "实收资本", "paidInCapital");
    (L "流动资产合计", "currentAssets");
    (L "流动资产", "currentAssets");
    (L "流动负债合计", "currentLiabilities");
    (L "流动负债", "currentLiabilities");
    (L "存货", "inventory");
    (L "应收账款", "accountsReceivable");
    (L "货币资金", "cashAndEquivalents") ].

Definition incomeTerms : list (list N * string) :=
  [ (L "营业收入", "revenue");
    (L "主营业务收入", "revenue");
    (L "营业总收入", "revenue");
    (L "销售收入", "revenue");
    (L "净利润", "netProfit");
    (L "利润总额", "totalProfit");
    (L "营业利润", "operatingProfit");
    (L "营业成本", "operatingCost");
    (L "主营业务成本", "operatingCost");
    (L "销售费用", "sellingExpenses");
    (L "管理费用", "adminExpenses");
    (L "财务费用", "financialExpenses") ].

(** ** [parseNumber] *)

(** The class [[,，\s元万千百]] of the cleaning pattern. *)
Definition isFormatting (c : N) : bool :=
  (c =? ch ",")%N || isWhiteSpace c || existsb (N.eqb c) (L "，元万千百").

(** [value.replace(/[,，\s元万千百]/g, '')]. *)
Definition clean (value : list N) : list N :=
  List.filter (fun c => negb (isFormatting c)) value.

(** [None] is the [null] the function returns. *)
Definition parseNumber (value : jsval) : option spec_float :=
  match value with
  | VNull | VUndefined | VStr [] => None
  | VNum x => if negb (isNaN x) then Some x else None
  | VStr s =>
      let cleaned := clean s in
      let num := parseFloat cleaned in
      if negb (isNaN num) then Some num else None
  | VBool _ => None
  end.

(** ** [extractFinancialData] *)

(** The inner [for (j ...)] loops: the first cell of [cells] for which
    [parseNumber] returns a value that is neither [null] nor [0]. *)
Fixpoint firstNumber (cells : list jsval) : option spec_float :=
  match cells with
  | [] => None
  | c :: cells' =>
      match parseNumber c with
      | Some value =>
          if negb (strictEq value (S754_zero false)) then Some value
          else firstNumber cells'
      | None => firstNumber cells'
      end
  end.

Definition store (key : string) (found : option spec_float)
    (sheet : gmap string jsval) : gmap string jsval :=
  match found with
  | Some value => <[key := VNum value]> sheet
  | None => sheet
  end.

(** The body of [if (cellValue.includes(term) && !sheet[key])]: look to
    the right in the row, then in the row below. *)
Definition lookFor (sheetData : list (list jsval)) (i col : nat)
    (row : list jsval) (key : string) (sheet : gmap string jsval)
    : gmap string jsval :=
  let sheet1 := store key (firstNumber (drop (col + 1) row)) sheet in
  if negb (toBoolean (prop sheet1 key)) && (i + 1 <? length sheetData)%nat then
    match sheetData !! (i + 1)%nat with
    | Some nextRow => store key (firstNumber nextRow) sheet1
    | None => sheet1
    end
  else sheet1.

(** One [for (const [term, key] of Object.entries(terms))] loop. *)
Definition checkTerms (terms : list (list N * string))
    (sheetData : list (list jsval)) (i col : nat) (row : list jsval)
    (cellValue : list N) (sheet : gmap string jsval) : gmap string jsval :=
  fold_left
    (fun sh tk =>
       if includes cellValue (fst tk) && negb (toBoolean (prop sh (snd tk)))
       then lookFor sheetData i col row (snd tk) sh
       else sh)
    terms sheet.

(** [String(row[col] || '').trim()]. *)
Definition cellText (cell : jsval) : list N :=
  trim (toStr (orElse cell (VStr []))).

(** The body of the loop over the columns of a row. *)
Definition scanCell (sheetData : list (list jsval)) (i : nat)
    (row : list jsval) (r : result) (col : nat) : result :=
  let cellValue := cellText (default VUndefined (row !! col)) in
  match cellValue with
  | [] => r
  | _ =>
      {| balanceSheet :=
           checkTerms balanceSheetTerms sheetData i col row cellValue (balanceSheet r);
         incomeStatement :=
           checkTerms incomeTerms sheetData i col row cellValue (incomeStatement r) |}
  end.

(** The body of the loop over the rows. *)
Definition scanRow (sheetData : list (list jsval)) (r : result) (i : nat) : result :=
  match sheetData !! i with
  | Some row => fold_left (scanCell sheetData i row) (seq 0 (length row)) r
  | None => r
  end.

(** Lines 226-291: the search through all cells. *)
Definition scanSheet (sheetData : list (list jsval)) (r : result) : result :=
  fold_left (scanRow sheetData) (seq 0 (length sheetData)) r.

(** [(a / b).toFixed(2)] and the like on metric values. *)
Definition hundred : spec_float := ofZ 100.

(** Lines 296-324: the derived metrics, each under its own guard and in
    the order of the source. *)
Definition debtRatioStep (r : result) : result :=
  let bs := balanceSheet r in
  if toBoolean (prop bs "totalAssets") && toBoolean (prop bs "totalLiabilities") then
    {| balanceSheet :=
         <["debtRatio" :=
             VStr (toFixed 2 (mul (div (toNumber (prop bs "totalLiabilities"))
                                       (toNumber (prop bs "totalAssets"))) hundred))]> bs;
       incomeStatement := incomeStatement r |}
  else r.

Definition liquidityStep (r : result) : result :=
  let bs := balanceSheet r in
  if toBoolean (prop bs "currentAssets") && toBoolean (prop bs "currentLiabilities") then
    let bs1 :=
      <["currentRatio" :=
          VStr (toFixed 2 (div (toNumber (prop bs "currentAssets"))
                               (toNumber (prop bs "currentLiabilities"))))]> bs in
    let quickAssets :=
      sub (toNumber (prop bs1 "currentAssets"))
          (toNumber (orElse (prop bs1 "inventory") (VNum (S754_zero false)))) in
    {| balanceSheet :=
         <["quickRatio" :=
             VStr (toFixed 2 (div quickAssets (toNumber (prop bs1 "currentLiabilities"))))]> bs1;
       incomeStatement := incomeStatement r |}
  else r.

Definition roeStep (r : result) : result :=
  let bs := balanceSheet r in
  if toBoolean (prop (incomeStatement r) "netProfit") && toBoolean (prop bs "ownerEquity") then
    {| balanceSheet :=
         <["roe" :=
             VStr (toFixed 2 (mul (div (toNumber (prop (incomeStatement r) "netProfit"))
                                       (toNumber (prop bs "ownerEquity"))) hundred))]> bs;
       incomeStatement := incomeStatement r |}
  else r.

Definition equityStep (r : result) : result :=
  let bs := balanceSheet r in
  if toBoolean (prop bs "totalAssets") && toBoolean (prop bs "totalLiabilities")
     && negb (toBoolean (prop bs "ownerEquity")) then
    {| balanceSheet :=
         <["ownerEquity" :=
             VNum (sub (toNumber (prop bs "totalAssets"))
                       (toNumber (prop bs "totalLiabilities")))]> bs;
       incomeStatement := incomeStatement r |}
  else r.

Definition deriveMetrics (r : result) : result :=
  equityStep (roeStep (liquidityStep (debtRatioStep r))).

(** [extractFinancialData(sheetData, result)]: the object [result] is
    updated in place; the function returns its final state. *)
Definition extractFinancialData (sheetData : list (list jsval)) (r : result) : result :=
  deriveMetrics (scanSheet sheetData r).

(** ** [parseBusinessInfo] *)

Definition noFlags : flags := {| ignoreCase := false; dotAll := false |}.
Definition iFlag : flags := {| ignoreCase := true; dotAll := false |}.

Definition anyChar : regex := Class false (fun _ => true).
Definition space : regex := Class false isWhiteSpace.
Definition digit : regex := Class false isDigit.
Definition notNewline : regex := Class true (fun c => (c =? 0x0A)%N).
Definition oneOf (s : list N) : regex := Class false (fun c => existsb (N.eqb c) s).
Definition colon : regex := oneOf (L "：:").

(** [/\{[\s\S]*\}/]. *)
Definition jsonPattern : regex :=
  seqs [Char (ch "{"); Star true anyChar; Char (ch "}")].

(** [(?:a|b|c)[：:]\s*(capture)]. *)
Definition labelled (labels : list (list N)) (value : regex) : regex :=
  seqs [alts (map lit labels); colon; Star true space; Group 1 value].

Definition restOfLine : regex := oneOrMore notNewline.

(** [[A-Z0-9]+]. *)
Definition codeChars : regex :=
  oneOrMore (Class false (fun c => ((0x41 <=? c) && (c <=? 0x5A))%N || isDigit c)).

(** [\d{4}[-\/年]\d{1,2}[-\/月]\d{1,2}]. *)
Definition datePattern : regex :=
  seqs [digit; digit; digit; digit; oneOf (L "-/年");
        digit; optional digit; oneOf (L "-/月"); digit; optional digit].

(** The [patterns] object of [parseBusinessInfoFromText]. *)
Definition patterns : list (string * (flags * regex)) :=
  [ ("companyName",
      (noFlags, labelled [L "企业名称"; L "公司名称"; L "名称"] restOfLine));
    ("creditCode",
      (iFlag, labelled [L "统一社会信用代码"; L "信用代码"] codeChars));
    ("legalRep",
      (noFlags, labelled [L "法定代表人"; L "法人代表"; L "负责人"] restOfLine));
    ("registeredCapital",
      (noFlags, labelled [L "注册资本"; L "注册资金"] restOfLine));
    ("establishDate",
      (noFlags, labelled [L "成立日期"; L "注册日期"; L "成立时间"] datePattern));
    ("registeredAddress",
      (noFlags, labelled [L "注册地址"; L "住所"; L "经营场所"] restOfLine));
    ("businessScope", (noFlags, labelled [L "经营范围"] restOfLine));
    ("industry", (noFlags, labelled [L "行业"; L "所属行业"] restOfLine));
    ("companyType", (noFlags, labelled [L "企业类型"; L "公司类型"] restOfLine)) ].

(** [parseBusinessInfoFromText]: a field is stored only when its pattern
    matches. *)
Definition parseBusinessInfoFromText (text : list N) : gmap string (list N) :=
  fold_left
    (fun info kp =>
       match exec (fst (snd kp)) (snd (snd kp)) text with
       | Some mi => <[fst kp := trim (capture mi 1)]> info
       | None => info
       end)
    patterns ∅.

(** What [parseBusinessInfo] returns: the object [JSON.parse] built, or
    the object of the text fallback. *)
Inductive businessInfo (J : Type) :=
| Parsed (info : J)
| FromText (info : gmap string (list N)).
Arguments Parsed {J} info.
Arguments FromText {J} info.

(** [JSON.parse] belongs to the runtime; it is a parameter, [None]
    standing for the SyntaxError it throws, which the [catch] block
    turns into the text fallback. *)
Definition parseBusinessInfo {J : Type} (JSON_parse : list N -> option J)
    (ocrResult : list N) : businessInfo J :=
  match exec noFlags jsonPattern ocrResult with
  | Some jsonMatch =>
      match JSON_parse (matched jsonMatch) with
      | Some info => Parsed info
      | None => FromText (parseBusinessInfoFromText ocrResult)
      end
  | None => FromText (parseBusinessInfoFromText ocrResult)
  end.

(** ** [extractYearFromFileName] *)

(** [/(\d{4})/]. *)
Definition yearPattern : regex := Group 1 (seqs [digit; digit; digit; digit]).

(** The year is a number, or [null] when the name holds no four digits
    in a row. *)
Definition extractYearFromFileName (fileName : list N) : jsval :=
  match exec noFlags yearPattern fileName with
  | Some mi => VNum (parseInt (capture mi 1))
  | None => VNull
  end.

(** ** [parseExcelFile] *)

(** The object a workbook is parsed into: the year of the file name, the
    two dictionaries of metrics and the rows of every sheet under the
    name of the sheet. *)
Record fileData := {
  year : jsval;
  metrics : result;
  sheets : JsObj.object (list (list jsval))
}.

(** A workbook as the spreadsheet library hands it over: the sheets in
    the order of [SheetNames], each with the rows [sheet_to_json] gives
    for it.  The callback of [forEach] records the rows and searches
    them, every sheet on the same result object. *)
Definition processSheet (res : fileData) (sheet : list N * list (list jsval))
    : fileData :=
  {| year := year res;
     metrics := extractFinancialData (snd sheet) (metrics res);
     sheets := JsObj.set (sheets res) (fst sheet) (snd sheet) |}.

Definition parseExcelFile (fileName : list N)
    (workbook : list (list N * list (list jsval))) : fileData :=
  fold_left processSheet workbook
    {| year := extractYearFromFileName fileName;
       metrics := emptyResult;
       sheets := [] |}.

(** ** [parseExcelFiles] *)

Module Financial.

(** The object [allData]: the statements of all files, one entry per
    file, and the parsed files under their years. *)
Record allData := {
  balanceSheet : list (gmap string jsval);
  incomeStatement : list (gmap string jsval);
  cashFlow : list (gmap string jsval);
  rawData : JsObj.object fileData
}.

End Financial.

(** [{ year: data.year, ...sheet }]: the properties of [sheet] are
    written after [year]. *)
Definition withYear (y : jsval) (sheet : gmap string jsval) : gmap string jsval :=
  sheet ∪ {[ "year" := y ]}.

(** The body of the loop over the files; [None] is a file whose parsing
    is rejected: the error is logged and the file is left out. *)
Definition addFile (allData : Financial.allData)
    (file : list N * option (list (list N * list (list jsval)))) : Financial.allData :=
  match snd file with
  | None => allData
  | Some workbook =>
      let data := parseExcelFile (fst file) workbook in
      {| Financial.balanceSheet :=
           Financial.balanceSheet allData
             ++ [withYear (year data) (balanceSheet (metrics data))];
         Financial.incomeStatement :=
           Financial.incomeStatement allData
             ++ [withYear (year data) (incomeStatement (metrics data))];
         Financial.cashFlow := Financial.cashFlow allData;
         Financial.rawData :=
           if toBoolean (year data)
           then JsObj.set (Financial.rawData allData) (toStr (year data)) data
           else Financial.rawData allData |}
  end.

(** [(a, b) => (a.year || 0) - (b.year || 0)]. *)
Definition byYear (a b : gmap string jsval) : spec_float :=
  sub (toNumber (orElse (prop a "year") (VNum (S754_zero false))))
      (toNumber (orElse (prop b "year") (VNum (S754_zero false)))).

(** [parseExcelFiles]: the files are the names with what the reading of
    each gave. *)
Definition parseExcelFiles
    (files : list (list N * option (list (list N * list (list jsval)))))
    : Financial.allData :=
  let allData :=
    fold_left addFile files
      {| Financial.balanceSheet := []; Financial.incomeStatement := [];
         Financial.cashFlow := []; Financial.rawData := [] |} in
  {| Financial.balanceSheet := JsObj.sort byYear (Financial.balanceSheet allData);
     Financial.incomeStatement := JsObj.sort byYear (Financial.incomeStatement allData);
     Financial.cashFlow := Financial.cashFlow allData;
     Financial.rawData := Financial.rawData allData |}.

(** ** [getFinancialSummary] *)

(** A run of assignments [summary.to = from.key]. *)
Definition assign (fields : list (string * string)) (from : gmap string jsval)
    (summary : gmap string jsval) : gmap string jsval :=
  fold_left (fun s tk => <[fst tk := prop from (snd tk)]> s) fields summary.

Definition balanceFields (suffix : string) : list (string * string) :=
  [ ("totalAssets" +:+ suffix, "totalAssets");
    ("totalLiabilities" +:+ suffix, "totalLiabilities");
    ("ownerEquity" +:+ suffix, "ownerEquity");
    ("debtRatio" +:+ suffix, "debtRatio");
    ("currentRatio" +:+ suffix, "currentRatio");
    ("quickRatio" +:+ suffix, "quickRatio") ].

Definition incomeFields (suffix : string) : list (string * string) :=
  [ ("revenue" +:+ suffix, "revenue"); ("netProfit" +:+ suffix, "netProfit") ].

(** [(a, b) => b - a] on the keys of [rawData]. *)
Definition descending (a b : list N) : spec_float :=
  sub (stringToNumber b) (stringToNumber a).

(** The branch that reads [rawData]. *)
Definition summaryFromRawData (rawData : JsObj.object fileData) : gmap string jsval :=
  let years := JsObj.sort descending (JsObj.keys rawData) in
  let summary := ∅ in
  match years with
  | [] => summary
  | latestYear :: more =>
      let summary :=
        match JsObj.get rawData latestYear with
        | Some latestData =>
            assign (incomeFields "Current") (incomeStatement (metrics latestData))
              (assign (balanceFields "End") (balanceSheet (metrics latestData)) summary)
        | None => summary
        end in
      match more with
      | [] => summary
      | prevYear :: _ =>
          match JsObj.get rawData prevYear with
          | Some prevData =>
              assign (incomeFields "LastYear") (incomeStatement (metrics prevData))
                (assign (take 4 (balanceFields "Beginning"))
                   (balanceSheet (metrics prevData)) summary)
          | None => summary
          end
      end
  end.

(** The part that reads the statements sorted by year. *)
Definition summaryFromStatements (balanceSheet incomeStatement : list (gmap string jsval))
    : gmap string jsval :=
  let summary := ∅ in
  let summary :=
    match last balanceSheet with
    | Some latest =>
        let previous :=
          if (1 <? length balanceSheet)%nat
          then balanceSheet !! (length balanceSheet - 2)%nat else None in
        let lastYear :=
          if (2 <? length balanceSheet)%nat
          then balanceSheet !! (length balanceSheet - 3)%nat else previous in
        let summary := assign (balanceFields "End") latest summary in
        let summary :=
          match previous with
          | Some previous => assign (balanceFields "Beginning") previous summary
          | None => summary
          end in
        match lastYear with
        | Some lastYear => assign (balanceFields "LastYear") lastYear summary
        | None => summary
        end
    | None => summary
    end in
  match last incomeStatement with
  | Some latest =>
      let previous :=
        if (1 <? length incomeStatement)%nat
        then incomeStatement !! (length incomeStatement - 2)%nat else None in
      let summary := assign (incomeFields "Current") latest summary in
      match previous with
      | Some previous => assign (incomeFields "LastYear") previous summary
      | None => summary
      end
  | None => summary
  end.

(** [getFinancialSummary]; [financialData] is the field of the parser,
    [None] while it is [null]. *)
Definition getFinancialSummary (financialData : option Financial.allData)
    : gmap string jsval :=
  match financialData with
  | None => ∅
  | Some data =>
      let balanceSheet := Financial.balanceSheet data in
      let incomeStatement := Financial.incomeStatement data in
      let rawData := Financial.rawData data in
      if (length balanceSheet =? 0)%nat && (0 <? length (JsObj.keys rawData))%nat
      then summaryFromRawData rawData
      else summaryFromStatements balanceSheet incomeStatement
  end.

(** ** [parseWordTemplate] *)

(** [/\{([^}]+)\}/g]. *)
Definition placeholderRegex : regex :=
  seqs [Char (ch "{");
        Group 1 (oneOrMore (Class true (fun x => (x =? ch "}")%N)));
        Char (ch "}")].

Record templateData := {
  content : list N;
  placeholders : list (list N);
  hasPlaceholders : bool
}.

(** What [parseWordTemplate] resolves to, [text] being the full text
    the template library reads from the document: every match of the
    pattern gives a placeholder, as it is written and as often as it
    occurs. *)
Definition parseWordTemplate (text : list N) : templateData :=
  let existingPlaceholders :=
    map (fun mi => capture mi 1) (matchAll noFlags placeholderRegex text) in
  {| content := text;
     placeholders := existingPlaceholders;
     hasPlaceholders := (0 <? length existingPlaceholders)%nat |}.

End FileParser.

(* ===================================================================== *)
(** * The template engine *)
(* ===================================================================== *)

Module TemplateEngine.
Import JsStr JsNum JsVal Regex.

Open Scope string_scope.
Open Scope list_scope.

(** The double quote, which a literal of this file cannot contain. *)
Definition dq : list N := [0x22%N].

Definition noFlags : flags := {| ignoreCase := false; dotAll := false |}.

(** ** The template analyzer *)

Definition notChar (c : N) : regex := Class true (fun x => (x =? c)%N).

(** [/\{([^}]+)\}/g]. *)
Definition placeholderPattern : regex :=
  seqs [Char (ch "{"); Group 1 (oneOrMore (notChar (ch "}"))); Char (ch "}")].

(** The body of the [while] loop: push a name not yet in the array. *)
Definition pushNew (placeholders : list (list N)) (mi : matchInfo) : list (list N) :=
  let placeholder := trim (capture mi 1) in
  if bool_decide (placeholder ∈ placeholders) then placeholders
  else placeholders ++ [placeholder].

(** [findExistingPlaceholders]: the loop [while ((match = regex.exec(content)) !== null)]
    visits the successive matches; none of them is empty, each having
    its two braces. *)
Definition findExistingPlaceholders (content : list N) : list (list N) :=
  fold_left pushNew (matchAll noFlags placeholderPattern content) [].

Record templateAnalysis := {
  hasExistingPlaceholders : bool;
  placeholders : list (list N);
  content : list N
}.

(** [analyzeTemplate]. *)
Definition analyzeTemplate (templateContent : list N) : templateAnalysis :=
  let existingPlaceholders := findExistingPlaceholders templateContent in
  {| hasExistingPlaceholders := (0 <? length existingPlaceholders)%nat;
     placeholders := existingPlaceholders;
     content := templateContent |}.

(** ** Escaping *)

(** [str.replace(/c/g, by)] for a single character [c]. *)
Definition replaceChar (c : N) (by_ : list N) (str : list N) : list N :=
  flat_map (fun x => if (x =? c)%N then by_ else [x]) str.

(** [escapeXml]; the empty string is the only falsy string. *)
Definition escapeXml (str : list N) : list N :=
  match str with
  | [] => []
  | _ =>
      replaceChar 0x27 (L "&apos;")
        (replaceChar 0x22 (L "&quot;")
          (replaceChar (ch ">") (L "&gt;")
            (replaceChar (ch "<") (L "&lt;")
              (replaceChar (ch "&") (L "&amp;") str))))
  end.

(** The class [[.*+?^${}()|[\]\\]]. *)
Definition isRegexSyntax (c : N) : bool :=
  existsb (N.eqb c) (L ".*+?^${}()|[]\").

(** [escapeRegex]: a backslash before every pattern syntax character. *)
Definition escapeRegex (str : list N) : list N :=
  flat_map (fun c => if isRegexSyntax c then [ch "\"; c] else [c]) str.

(** ** The three inline passes *)

Definition gis : flags := {| ignoreCase := true; dotAll := true |}.
Definition gi : flags := {| ignoreCase := true; dotAll := false |}.

Definition notLt : regex := notChar (ch "<").
Definition notGt : regex := notChar (ch ">").
Definition space : regex := Class false isWhiteSpace.
Definition blank : regex := Class false (fun c => (c =? ch "_")%N || isWhiteSpace c).
Definition colon : regex := Class false (fun c => existsb (N.eqb c) (L "：:")).

(** The label table of [replaceTableCells]: label and context field. *)
Definition tableLabels : list (list N * string) :=
  [ (L "企业名称", "companyName");
    (L "客户名称", "companyName");
    (L "借款人名称", "companyName");
    (L "借款人", "companyName");
    (L "统一社会信用代码", "creditCode");
    (L "社会信用代码", "creditCode");
    (L "组织机构代码", "creditCode");
    (L "法定代表人", "legalRep");
    (L "法人代表", "legalRep");
    (L "负责人", "legalRep");
    (L "注册资本", "registeredCapital");
    (L "注册资金", "registeredCapital");
    (L "成立日期", "establishDate");
    (L "成立时间", "establishDate");
    (L "注册日期", "establishDate");
    (L "所属行业", "industry");
    (L "行业分类", "industry");
    (L "主营行业", "industry");
    (L "注册地址", "registeredAddress");
    (L "住所", "registeredAddress");
    (L "公司地址", "registeredAddress");
    (L "经营范围", "businessScope");
    (L "员工人数", "employeeCount");
    (L "职工人数", "employeeCount");
    (L "企业规模", "companySize");
    (L "资产总额", "totalAssetsEnd");
    (L "资产总计", "totalAssetsEnd");
    (L "负债总额", "totalLiabilitiesEnd");
    (L "负债总计", "totalLiabilitiesEnd");
    (L "所有者权益", "ownerEquityEnd");
    (L "净资产", "ownerEquityEnd");
    (L "营业收入", "revenueCurrent");
    (L "净利润", "netProfitCurrent");
    (L "利润总额", "netProfitCurrent");
    (L "资产负债率", "debtRatioEnd");
    (L "授信金额", "creditAmount");
    (L "贷款金额", "creditAmount");
    (L "申请金额", "creditAmount");
    (L "授信期限", "creditPeriod");
    (L "贷款期限", "creditPeriod");
    (L "授信类型", "creditType");
    (L "贷款类型", "creditType");
    (L "贷款品种", "creditType");
    (L "授信用途", "creditPurpose");
    (L "贷款用途", "creditPurpose");
    (L "资金用途", "creditPurpose") ].

(** The pattern built for one label, with the flags [gis], has five
    groups in a row:
      1.  <w:tc[^>]*>.*?<w:t[^>]*>
      2.  [^<]*LABEL[^<]*
      3.  <\/w:t>.*?<\/w:tc>\s*<w:tc[^>]*>.*?<w:t[^>]*>
      4.  [_\s]*
      5.  <\/w:t>
    The labels of the tables hold no pattern syntax character,
    [escapeRegex] leaves them as they are, and each enters its pattern
    as a literal. *)
Definition openTag (name : list N) : regex :=
  seqs [lit name; Star true notGt; Char (ch ">")].

Definition tablePattern (label : list N) : regex :=
  seqs [ Group 1 (seqs [openTag (L "<w:tc"); Star false Dot; openTag (L "<w:t")]);
         Group 2 (seqs [Star true notLt; lit label; Star true notLt]);
         Group 3 (seqs [lit (L "</w:t>"); Star false Dot; lit (L "</w:tc>");
                        Star true space; openTag (L "<w:tc"); Star false Dot;
                        openTag (L "<w:t")]);
         Group 4 (Star true blank);
         Group 5 (lit (L "</w:t>")) ].

(** [/^[_\s]+$/]. *)
Definition blankOnly : regex := seqs [Bol; oneOrMore blank; Eol].

(** The replacement function of [replaceTableCells]. *)
Definition fillCell (value : jsval) (mi : matchInfo) : list N :=
  let p4 := capture mi 4 in
  if bool_decide (trim p4 = []) || test noFlags blankOnly p4 then
    capture mi 1 ++ capture mi 2 ++ capture mi 3 ++ escapeXml (toStr value) ++ capture mi 5
  else matched mi.

(** One turn of the loop of a pass: nothing happens for a falsy value. *)
Definition forLabel (step : list N -> jsval -> list N -> list N)
    (data : gmap string jsval) (xml : list N) (lf : list N * string) : list N :=
  let value := prop data (snd lf) in
  if toBoolean value then step (fst lf) value xml else xml.

(** [replaceTableCells]. *)
Definition replaceTableCells (xml : list N) (data : gmap string jsval) : list N :=
  fold_left
    (forLabel (fun label value xml =>
                 replaceAll gis (tablePattern label) (fillCell value) xml) data)
    tableLabels xml.

(** The label table of [replaceLabeledContent]. *)
Definition colonLabels : list (list N * string) :=
  [ (L "企业名称", "companyName");
    (L "客户名称", "companyName");
    (L "统一社会信用代码", "creditCode");
    (L "法定代表人", "legalRep");
    (L "注册资本", "registeredCapital");
    (L "成立日期", "establishDate");
    (L "所属行业", "industry");
    (L "注册地址", "registeredAddress");
    (L "授信金额", "creditAmount");
    (L "授信期限", "creditPeriod") ].

(** The pattern of one label, with the flags [gi], has four groups in a
    row:
      1.  <w:t[^>]*>
      2.  LABEL[：:][\s]*
      3.  _+|[\s]{2,}|　+
      4.  <\/w:t>                                                        *)
Definition colonPattern (label : list N) : regex :=
  seqs [ Group 1 (openTag (L "<w:t"));
         Group 2 (seqs [lit label; colon; Star true space]);
         Group 3 (alts [oneOrMore (Char (ch "_"));
                        seqs [space; space; Star true space];
                        oneOrMore (Char 0x3000%N)]);
         Group 4 (lit (L "</w:t>")) ].

(** [replaceLabeledContent]: the replacement is the string
    [`$1$2${this.escapeXml(String(value))}$4`]. *)
Definition replaceLabeledContent (xml : list N) (data : gmap string jsval) : list N :=
  fold_left
    (forLabel (fun label value xml =>
                 replaceTemplate gi (colonPattern label)
                   (L "$1$2" ++ escapeXml (toStr value) ++ L "$4") xml) data)
    colonLabels xml.

(** The [patterns] array of [replaceBlankFields]. *)
Definition blankLabels : list (list N * string) :=
  [ (L "企业名称", "companyName");
    (L "客户名称", "companyName");
    (L "法定代表人", "legalRep");
    (L "注册资本", "registeredCapital");
    (L "成立日期", "establishDate");
    (L "授信金额", "creditAmount");
    (L "授信期限", "creditPeriod") ].

(** The pattern of one label, with the flag [g], has two groups in a
    row:
      1.  LABEL[：:]\s*
      2.  _+                                                             *)
Definition blankPattern (label : list N) : regex :=
  seqs [ Group 1 (seqs [lit label; colon; Star true space]);
         Group 2 (oneOrMore (Char (ch "_"))) ].

(** [replaceBlankFields]: the replacement is
    [`$1${this.escapeXml(String(value))}`]. *)
Definition replaceBlankFields (xml : list N) (data : gmap string jsval) : list N :=
  fold_left
    (forLabel (fun label value xml =>
                 replaceTemplate noFlags (blankPattern label)
                   (L "$1" ++ escapeXml (toStr value)) xml) data)
    blankLabels xml.

(** ** The structured appendix *)

(** The fields of a valid [Date] that [formatDate] reads. *)
Record date := { getFullYear : N; getMonth : N; getDate : N }.

(** [formatDate] on a [Date] object. *)
Definition formatDate (d : date) : list N :=
  let year := digitsOfN (getFullYear d) in
  let month := padStart0 2 (digitsOfN (getMonth d + 1)) in
  let day := padStart0 2 (digitsOfN (getDate d)) in
  year ++ L "年" ++ month ++ L "月" ++ day ++ L "日".

Inductive alignment := AlignLeft | AlignCenter | AlignRight.

Definition alignName (a : alignment) : list N :=
  match a with
  | AlignLeft => L "left"
  | AlignCenter => L "center"
  | AlignRight => L "right"
  end.

(** [createParagraph(text, bold, align)]. *)
Definition createParagraph (text : list N) (bold : bool) (align : alignment) : list N :=
  let alignment := alignName align in
  let boldXml := if bold then L "<w:b/><w:bCs/>" else [] in
  let sizeXml :=
    if bold then L "<w:sz w:val=" ++ dq ++ L "28" ++ dq ++ L "/><w:szCs w:val=" ++ dq ++ L "28" ++ dq ++ L "/>"
    else L "<w:sz w:val=" ++ dq ++ L "24" ++ dq ++ L "/><w:szCs w:val=" ++ dq ++ L "24" ++ dq ++ L "/>" in
  L "
            <w:p>
                <w:pPr>
                    <w:jc w:val=" ++
    dq ++
    alignment ++
    dq ++
    L "/>
                </w:pPr>
                <w:r>
                    <w:rPr>
                        <w:rFonts w:ascii=" ++
    dq ++
    L "宋体" ++
    dq ++
    L " w:hAnsi=" ++
    dq ++
    L "宋体" ++
    dq ++
    L " w:eastAsia=" ++
    dq ++
    L "宋体" ++
    dq ++
    L "/>
                        " ++
    boldXml ++
    L "
                        " ++
    sizeXml ++
    L "
                    </w:rPr>
                    <w:t>" ++
    escapeXml text ++
    L "</w:t>
                </w:r>
            </w:p>
        ".

Definition pageBreak : list N :=
  L "
            <w:p>
                <w:r>
                    <w:br w:type=" ++
    dq ++
    L "page" ++
    dq ++
    L "/>
                </w:r>
            </w:p>
        ".

Definition para (text : list N) : list N := createParagraph text false AlignLeft.
Definition heading (text : list N) : list N := createParagraph text true AlignLeft.

(** The paragraphs of the items of one block: [label：value unit] for
    every item whose value is truthy. *)
Definition itemParagraphs (data : gmap string jsval)
    (items : list (list N * string * list N)) : list (list N) :=
  flat_map
    (fun item =>
       let '(label, field, unit) := item in
       let value := prop data field in
       if toBoolean value then [para (label ++ L "：" ++ toStr value ++ unit)] else [])
    items.

Definition companyInfo : list (list N * string * list N) :=
  [ (L "企业名称", "companyName", []);
    (L "统一社会信用代码", "creditCode", []);
    (L "法定代表人", "legalRep", []);
    (L "注册资本", "registeredCapital", []);
    (L "成立日期", "establishDate", []);
    (L "所属行业", "industry", []);
    (L "企业规模", "companySize", []);
    (L "员工人数", "employeeCount", []);
    (L "注册地址", "registeredAddress", []) ].

Definition financialInfo : list (list N * string * list N) :=
  [ (L "资产总额", "totalAssetsEnd", L "万元");
    (L "负债总额", "totalLiabilitiesEnd", L "万元");
    (L "所有者权益", "ownerEquityEnd", L "万元");
    (L "营业收入", "revenueCurrent", L "万元");
    (L "净利润", "netProfitCurrent", L "万元");
    (L "资产负债率", "debtRatioEnd", L "%") ].

Definition creditInfo : list (list N * string * list N) :=
  [ (L "授信类型", "creditType", []);
    (L "授信金额", "creditAmount", L "万元");
    (L "授信期限", "creditPeriod", L "个月");
    (L "授信用途", "creditPurpose", []) ].

Definition textSections : list (list N * string) :=
  [ (L "四、企业基本情况", "basicSituation");
    (L "五、实际控制人情况", "controllerSituation");
    (L "六、经营状况分析", "businessStatus");
    (L "七、市场分析", "marketAnalysis");
    (L "八、财务状况概述", "financialOverview");
    (L "九、财务指标分析", "financialIndicators");
    (L "十、信用风险分析", "creditRisk");
    (L "十一、市场风险分析", "marketRisk");
    (L "十二、总体评价", "overallEvaluation");
    (L "十三、授信建议", "creditSuggestion") ].

Definition truthy (data : gmap string jsval) (field : string) : bool :=
  toBoolean (prop data field).

Definition companySection (data : gmap string jsval) : list (list N) :=
  if truthy data "companyName" || truthy data "creditCode" || truthy data "legalRep" then
    [heading (L "一、企业基本信息"); para []]
    ++ itemParagraphs data companyInfo
    ++ (if truthy data "businessScope"
        then [para (L "经营范围：" ++ toStr (prop data "businessScope"))] else [])
    ++ [para []]
  else [].

Definition financialSection (data : gmap string jsval) : list (list N) :=
  if truthy data "totalAssetsEnd" || truthy data "revenueCurrent" then
    [heading (L "二、财务信息"); para []] ++ itemParagraphs data financialInfo ++ [para []]
  else [].

Definition creditSection (data : gmap string jsval) : list (list N) :=
  if truthy data "creditType" || truthy data "creditAmount" then
    [heading (L "三、授信信息"); para []] ++ itemParagraphs data creditInfo ++ [para []]
  else [].

(** The lines of a narrative: [split('\n').filter(l => l.trim())]. *)
Definition narrativeLines (text : list N) : list (list N) :=
  List.filter (fun l => match trim l with [] => false | _ => true end) (splitOn 0x0A text).

(** One narrative section.  [split] exists on strings only: a truthy
    value of another type raises a TypeError, here [None]. *)
Definition textSection (data : gmap string jsval) (section : list N * string)
    : option (list (list N)) :=
  let value := prop data (snd section) in
  if toBoolean value then
    match value with
    | VStr text =>
        Some ([heading (fst section); para []]
              ++ map (fun line => para (L "    " ++ line)) (narrativeLines text)
              ++ [para []])
    | _ => None
    end
  else Some [].

Fixpoint textSectionsFrom (data : gmap string jsval) (sections : list (list N * string))
    : option (list (list N)) :=
  match sections with
  | [] => Some []
  | section :: more =>
      match textSection data section with
      | Some ps =>
          match textSectionsFrom data more with
          | Some qs => Some (ps ++ qs)
          | None => None
          end
      | None => None
      end
  end.

(** The array [sections] of [createFilledContentSection]; [now] is the
    value of [new Date()]. *)
Definition filledSections (now : date) (data : gmap string jsval)
    : option (list (list N)) :=
  match textSectionsFrom data textSections with
  | Some narratives =>
      Some ([pageBreak;
             createParagraph (L "授信报告填写数据汇总") true AlignCenter;
             para []]
            ++ companySection data
            ++ financialSection data
            ++ creditSection data
            ++ narratives
            ++ [para [];
                createParagraph (L "报告日期：" ++ formatDate now) false AlignRight])
  | None => None
  end.

(** [createFilledContentSection]: [sections.join('\n')]. *)
Definition createFilledContentSection (now : date) (data : gmap string jsval)
    : option (list N) :=
  option_map (join [0x0A%N]) (filledSections now data).

Definition bodyEnd : list N := L "</w:body>".

(** [appendFilledContent]. *)
Definition appendFilledContent (now : date) (xml : list N) (data : gmap string jsval)
    : option (list N) :=
  match lastIndexOf xml bodyEnd with
  | None => Some xml
  | Some bodyEndPos =>
      match createFilledContentSection now data with
      | Some filledContent => Some (take bodyEndPos xml ++ filledContent ++ drop bodyEndPos xml)
      | None => None
      end
  end.

(** The three inline passes of [generateWithSmartReplacement]. *)
Definition inlinePasses (documentXml : list N) (data : gmap string jsval) : list N :=
  replaceBlankFields
    (replaceLabeledContent (replaceTableCells documentXml data) data) data.

(** [generateWithSmartReplacement], up to the packaging of the archive:
    the document body written back into it, [None] when a step throws. *)
Definition generateWithSmartReplacement (now : date) (data : gmap string jsval)
    (documentXml : list N) : option (list N) :=
  appendFilledContent now (inlinePasses documentXml data) data.

(** ** [generateDocument] *)

Definition isLetter (c : N) : bool :=
  ((0x61 <=? c) && (c <=? 0x7A))%N || ((0x41 <=? c) && (c <=? 0x5A))%N.

(** [[a-zA-Z_]] and [[a-zA-Z0-9_]]. *)
Definition identStart : regex :=
  Class false (fun c => isLetter c || (c =? ch "_")%N).
Definition identChar : regex :=
  Class false (fun c => isLetter c || isDigit c || (c =? ch "_")%N).

(** [/\{[a-zA-Z_][a-zA-Z0-9_]*\}/]. *)
Definition identifierPattern : regex :=
  seqs [Char (ch "{"); identStart; Star true identChar; Char (ch "}")].

(** What a generation returns: the archive the template library
    rendered, or the archive with the rewritten document body. *)
Inductive generated (B : Type) :=
| Rendered (blob : B)
| Replaced (documentXml : list N).
Arguments Rendered {B} blob.
Arguments Replaced {B} documentXml.

(** [generateDocument]: [documentXml] is the text of [word/document.xml]
    in the archive.  The path through the template library is a
    parameter; [None] stands for the error the function throws when a
    step fails. *)
Definition generateDocument {B : Type}
    (generateWithDocxtemplater : list N -> gmap string jsval -> option B)
    (now : date) (documentXml : list N) (data : gmap string jsval)
    : option (generated B) :=
  let hasPlaceholders := test noFlags identifierPattern documentXml in
  if hasPlaceholders then Rendered <$> generateWithDocxtemplater documentXml data
  else Replaced <$> generateWithSmartReplacement now data documentXml.

(** ** The document data of the engine *)

(** [setDocumentData]: [{ ...this.documentData, ...data }], the fields
    of [data] written over those kept so far. *)
Definition setDocumentData (documentData data : gmap string jsval) : gmap string jsval :=
  data ∪ documentData.

(** ** [generatePreviewHTML] *)

(** The literals of the page hold double quotes, written here as
    apostrophes; none of them holds an apostrophe of its own. *)
Definition Q (s : string) : list N :=
  map (fun c => if (c =? 0x27)%N then 0x22%N else c) (L s).

(** [data.field ? `${data.field}unit` : '']. *)
Definition withUnit (data : gmap string jsval) (field : string) (unit : list N) : jsval :=
  if toBoolean (prop data field) then VStr (toStr (prop data field) ++ unit) else VStr [].

(** The array [sections]: the titles and the items with their values. *)
Definition previewSections (data : gmap string jsval)
    : list (list N * list (list N * jsval)) :=
  [ (L "企业基本信息",
      [ (L "企业名称", prop data "companyName");
        (L "统一社会信用代码", prop data "creditCode");
        (L "法定代表人", prop data "legalRep");
        (L "注册资本", prop data "registeredCapital");
        (L "成立日期", prop data "establishDate");
        (L "所属行业", prop data "industry");
        (L "注册地址", prop data "registeredAddress") ]);
    (L "财务数据",
      [ (L "资产总额", withUnit data "totalAssetsEnd" (L " 万元"));
        (L "负债总额", withUnit data "totalLiabilitiesEnd" (L " 万元"));
        (L "所有者权益", withUnit data "ownerEquityEnd" (L " 万元"));
        (L "营业收入", withUnit data "revenueCurrent" (L " 万元"));
        (L "净利润", withUnit data "netProfitCurrent" (L " 万元"));
        (L "资产负债率", withUnit data "debtRatioEnd" (L "%")) ]);
    (L "授信信息",
      [ (L "授信类型", prop data "creditType");
        (L "授信金额", withUnit data "creditAmount" (L " 万元"));
        (L "授信期限", withUnit data "creditPeriod" (L " 个月"));
        (L "授信用途", prop data "creditPurpose") ]) ].

(** The array [textSections] of the preview. *)
Definition previewTextSections : list (list N * string) :=
  [ (L "企业基本情况", "basicSituation");
    (L "经营状况", "businessStatus");
    (L "财务状况概述", "financialOverview");
    (L "信用风险分析", "creditRisk");
    (L "总体评价", "overallEvaluation");
    (L "授信建议", "creditSuggestion") ].

(** The markup of one item. *)
Definition previewItem (item : list N * jsval) : list N :=
  Q "
                            <div class='text-gray-500'>" ++ fst item ++ Q "：</div>
                            <div class='text-gray-800'>" ++ toStr (snd item) ++ Q "</div>
                        ".

(** The markup of one section: the items with a truthy value. *)
Definition previewSection (section : list N * list (list N * jsval)) : list N :=
  Q "
                <div class='border-b border-gray-200 pb-4'>
                    <h4 class='font-semibold text-gray-800 mb-3'>" ++ fst section ++ Q "</h4>
                    <div class='grid grid-cols-2 gap-2 text-sm'>
                        "
  ++ join [] (map previewItem (List.filter (fun i => toBoolean (snd i)) (snd section)))
  ++ Q "
                    </div>
                </div>
            ".

(** The markup of one narrative, left out when the field is falsy. *)
Definition previewText (data : gmap string jsval) (section : list N * string) : list N :=
  let content := prop data (snd section) in
  if toBoolean content then
    Q "
                    <div class='border-b border-gray-200 pb-4'>
                        <h4 class='font-semibold text-gray-800 mb-2'>" ++ fst section ++ Q "</h4>
                        <p class='text-sm text-gray-700 whitespace-pre-wrap'>" ++ toStr content ++ Q "</p>
                    </div>
                "
  else [].

(** [generatePreviewHTML]. *)
Definition generatePreviewHTML (data : gmap string jsval) : list N :=
  Q "<div class='space-y-6'>"
  ++ flat_map previewSection (previewSections data)
  ++ flat_map (previewText data) previewTextSections
  ++ Q "</div>".

End TemplateEngine.

(* ===================================================================== *)
(** * Requests over the network *)
(* ===================================================================== *)

Module Net.
Import JsStr JsNum JsVal.

Open Scope list_scope.

(** ** JSON values

    What [response.json()] and [JSON.parse] return, and what is handed
    to [JSON.stringify]: [JUndefined] is the value of a missing
    property and never the result of parsing. *)
#[local] Unset Elimination Schemes.
Inductive json :=
| JUndefined
| JNull
| JBool (b : bool)
| JNum (x : spec_float)
| JStr (s : list N)
| JArr (items : list json)
| JObj (props : JsObj.object json).
#[local] Set Elimination Schemes.

(** ToBoolean. *)
Definition truthy (v : json) : bool :=
  match v with
  | JUndefined | JNull => false
  | JBool b => b
  | JNum x => negb (isZero x || isNaN x)
  | JStr s => match s with [] => false | _ => true end
  | JArr _ | JObj _ => true
  end.

(** [a || b] and [a ?? b]. *)
Definition orJ (a b : json) : json := if truthy a then a else b.

Definition nullish (a b : json) : json :=
  match a with
  | JUndefined | JNull => b
  | _ => a
  end.

(** [v.name] for a name that no prototype defines, as are all the names
    the program reads: [None] is the TypeError of reading a property of
    [undefined] or [null]. *)
Definition member (v : json) (name : list N) : option json :=
  match v with
  | JUndefined | JNull => None
  | JObj props => Some (default JUndefined (JsObj.get props name))
  | _ => Some JUndefined
  end.

(** [v[0]]: the first element of an array, the first code unit of a
    string. *)
Definition first (v : json) : option json :=
  match v with
  | JUndefined | JNull => None
  | JArr items => Some (default JUndefined (head items))
  | JStr s => Some (match s with c :: _ => JStr [c] | [] => JUndefined end)
  | JObj props => Some (default JUndefined (JsObj.get props (L "0")))
  | _ => Some JUndefined
  end.

(** [v?.name]. *)
Definition chain (v : json) (name : list N) : json :=
  default JUndefined (member v name).

(** ToString: an array is joined with commas, [null] and [undefined]
    elements giving the empty string; an object is [[object Object]]
    unless it has a property [toString] of its own, which is no
    function and leaves no way to a primitive value: [None] is the
    TypeError of that case. *)
Fixpoint toStringJ (v : json) : option (list N) :=
  match v with
  | JUndefined => Some (L "undefined")
  | JNull => Some (L "null")
  | JBool true => Some (L "true")
  | JBool false => Some (L "false")
  | JNum x => Some (toString x)
  | JStr s => Some s
  | JArr items =>
      match
        (fix elements (l : list json) : option (list (list N)) :=
           match l with
           | [] => Some []
           | x :: l' =>
               match (match x with
                      | JUndefined | JNull => Some []
                      | _ => toStringJ x
                      end), elements l' with
               | Some s, Some ss => Some (s :: ss)
               | _, _ => None
               end
           end) items
      with
      | Some parts => Some (join (L ",") parts)
      | None => None
      end
  | JObj props =>
      match JsObj.get props (L "toString") with
      | Some _ => None
      | None => Some (L "[object Object]")
      end
  end.

(** [JSON.parse(JSON.stringify(v))] for a value that is not
    [undefined]: how the value a handler sends reads on the other side.
    A property that is [undefined] is left out, an [undefined] element
    of an array and a number that is not finite are written [null], and
    the sign of zero is lost. *)
Fixpoint wire (v : json) : json :=
  match v with
  | JNum x =>
      if isFinite x then (if isZero x then JNum (S754_zero false) else JNum x) else JNull
  | JArr items =>
      JArr (map (fun x => match x with JUndefined => JNull | _ => wire x end) items)
  | JObj props =>
      JObj ((fix properties (l : JsObj.object json) : JsObj.object json :=
               match l with
               | [] => []
               | (k, x) :: l' =>
                   match x with
                   | JUndefined => properties l'
                   | _ => (k, wire x) :: properties l'
                   end
               end) props)
  | _ => v
  end.

(** ** What is thrown *)
Inductive thrown :=
| Error (message : list N)   (* [new Error(message)] *)
| TypeError                  (* raised by the engine *)
| FetchFailed                (* the rejection of [fetch] *)
| NotJson.                   (* the rejection of [response.json()] *)

(** [throw new Error(v)]: the message is [ToString(v)]. *)
Definition newError (v : json) : thrown :=
  match toStringJ v with
  | Some message => Error message
  | None => TypeError
  end.

(** ** Requests and responses *)

(** The arguments of [fetch]; [body] is the value that was given to
    [JSON.stringify]. *)
Record request := {
  url : list N;
  method : list N;
  headers : list (list N * list N);
  body : option json
}.

(** A response: its status and the value [response.json()] resolves
    with, [None] when it rejects. *)
Record response := { status : N; parsed : option json }.

(** [response.ok]: a status from 200 to 299. *)
Definition ok (r : response) : bool := ((200 <=? status r) && (status r <=? 299))%N.

(** What awaiting [fetch] gives. *)
Inductive answer :=
| NoAnswer
| Answer (r : response).

(** ** Asynchronous functions

    An [async] function is the tree of what it awaits: a request, whose
    answer the network decides, or a timer. *)
Inductive io (A : Type) : Type :=
| Ret (a : A)
| Throw (e : thrown)
| Fetch (req : request) (k : answer -> io A)
| Sleep (ms : N) (k : io A).
Arguments Ret {A} a.
Arguments Throw {A} e.
Arguments Fetch {A} req k.
Arguments Sleep {A} ms k.

(** [const x = await p; k x]. *)
Fixpoint bind {A B : Type} (p : io A) (k : A -> io B) : io B :=
  match p with
  | Ret a => k a
  | Throw e => Throw e
  | Fetch req k' => Fetch req (fun a => bind (k' a) k)
  | Sleep ms k' => Sleep ms (bind k' k)
  end.

(** [try { p } catch (error) { handler error }]. *)
Fixpoint try_ {A : Type} (p : io A) (handler : thrown -> io A) : io A :=
  match p with
  | Ret a => Ret a
  | Throw e => handler e
  | Fetch req k => Fetch req (fun a => try_ (k a) handler)
  | Sleep ms k => Sleep ms (try_ k handler)
  end.

(** [response.json()]. *)
Definition readJson (r : response) : io json :=
  match parsed r with
  | Some data => Ret data
  | None => Throw NotJson
  end.

(** A property read that throws on [undefined] and [null]. *)
Definition read (v : option json) : io json :=
  match v with
  | Some x => Ret x
  | None => Throw TypeError
  end.

(** ** Running a function against a network

    The network answers the [n]-th call of [fetch] of a run as it
    likes.  The outcome is what the function returned or threw, with
    the arguments of its calls of [fetch], in their order, and the time
    it spent in timers. *)
Record outcome (A : Type) := {
  returned : thrown + A;
  requests : list request;
  slept : N
}.
Arguments returned {A} o.
Arguments requests {A} o.
Arguments slept {A} o.

Fixpoint runFrom {A : Type} (net : nat -> request -> answer) (p : io A)
    (sent : list request) (waited : N) : outcome A :=
  match p with
  | Ret a => {| returned := inr a; requests := sent; slept := waited |}
  | Throw e => {| returned := inl e; requests := sent; slept := waited |}
  | Fetch req k => runFrom net (k (net (length sent) req)) (sent ++ [req]) waited
  | Sleep ms k => runFrom net k sent (waited + ms)%N
  end.

Definition run {A : Type} (net : nat -> request -> answer) (p : io A) : outcome A :=
  runFrom net p [] 0%N.

End Net.

(* ===================================================================== *)
(** * The API service *)
(* ===================================================================== *)

Module ApiService.
Import JsStr JsNum JsVal Net.

Open Scope string_scope.
Open Scope list_scope.

(** ** Configuration *)

(** [localStorage]: strings under string keys. *)
Definition storage : Type := gmap string (list N).

(** [localStorage.getItem(key)]: the string, or [null]. *)
Definition getItem (store : storage) (key : string) : jsval :=
  match store !! key with
  | Some value => VStr value
  | None => VNull
  end.

(** [localStorage.setItem(key, value)] stores [String(value)]. *)
Definition setItem (store : storage) (key : string) (value : jsval) : storage :=
  <[key := toStr value]> store.

(** The fields of the service. *)
Record service := {
  proxyServer : jsval;
  deepseekApiKey : jsval;
  siliconflowApiKey : jsval
}.

Definition constructor (store : storage) : service :=
  {| proxyServer := orElse (getItem store "proxyServer") (VStr (L "http://localhost:3000"));
     deepseekApiKey := orElse (getItem store "deepseekApiKey") (VStr []);
     siliconflowApiKey := orElse (getItem store "siliconflowApiKey") (VStr []) |}.

(** The argument of [updateConfig]: a property that is missing is
    [undefined]. *)
Record config := {
  newProxyServer : jsval;
  newDeepseekApiKey : jsval;
  newSiliconflowApiKey : jsval
}.

(** [updateConfig]: the service and the storage after the call. *)
Definition updateConfig (c : config) (state : service * storage) : service * storage :=
  let '(this, store) := state in
  let '(this, store) :=
    if toBoolean (newProxyServer c)
    then ({| proxyServer := newProxyServer c;
             deepseekApiKey := deepseekApiKey this;
             siliconflowApiKey := siliconflowApiKey this |},
          setItem store "proxyServer" (newProxyServer c))
    else (this, store) in
  let '(this, store) :=
    if toBoolean (newDeepseekApiKey c)
    then ({| proxyServer := proxyServer this;
             deepseekApiKey := newDeepseekApiKey c;
             siliconflowApiKey := siliconflowApiKey this |},
          setItem store "deepseekApiKey" (newDeepseekApiKey c))
    else (this, store) in
  if toBoolean (newSiliconflowApiKey c)
  then ({| proxyServer := proxyServer this;
           deepseekApiKey := deepseekApiKey this;
           siliconflowApiKey := newSiliconflowApiKey c |},
        setItem store "siliconflowApiKey" (newSiliconflowApiKey c))
  else (this, store).

(** [getConfig]. *)
Definition getConfig (this : service) : config :=
  {| newProxyServer := proxyServer this;
     newDeepseekApiKey := deepseekApiKey this;
     newSiliconflowApiKey := siliconflowApiKey this |}.

(** ** [callDeepSeek] *)

(** [options.name], [undefined] for a missing option. *)
Definition option_ (options : JsObj.object json) (name : list N) : json :=
  default JUndefined (JsObj.get options name).

Definition jsonHeaders (apiKey : jsval) : list (list N * list N) :=
  [ (L "Content-Type", L "application/json"); (L "X-Api-Key", toStr apiKey) ].

(** What both calls do with the response: the message of a failure, the
    content of the first choice. *)
Definition failure (prefix : list N) (response : response) : io json :=
  let errorData := default (JObj []) (parsed response) in
  bind (read (member errorData (L "error"))) (fun error =>
  Throw (newError (orJ (chain error (L "message"))
                       (JStr (prefix ++ digitsOfN (status response)))))).

Definition firstChoice (response : response) : io json :=
  bind (readJson response) (fun data =>
  bind (read (member data (L "choices"))) (fun choices =>
  bind (read (first choices)) (fun choice =>
  Ret (orJ (chain (chain choice (L "message")) (L "content")) (JStr []))))).

Definition callDeepSeek (this : service) (messages : json)
    (options : JsObj.object json) : io json :=
  if negb (toBoolean (deepseekApiKey this))
  then Throw (Error (L "DeepSeek API Key 未配置，请在设置中配置"))
  else
    let requestBody :=
      JObj [ (L "model", orJ (option_ options (L "model")) (JStr (L "deepseek-chat")));
             (L "messages", messages);
             (L "temperature",
               nullish (option_ options (L "temperature")) (JNum (ofDecimal false 7 (-1))));
             (L "max_tokens", orJ (option_ options (L "max_tokens")) (JNum (ofZ 4096)));
             (L "stream", JBool false) ] in
    try_
      (Fetch {| url := toStr (proxyServer this) ++ L "/api/deepseek/chat";
                method := L "POST";
                headers := jsonHeaders (deepseekApiKey this);
                body := Some requestBody |}
         (fun fetched =>
            match fetched with
            | NoAnswer => Throw FetchFailed
            | Answer response =>
                if negb (ok response)
                then failure (L "API请求失败: ") response
                else firstChoice response
            end))
      (fun error => Throw error).

(** ** [callOCR] *)

Definition imageUrl (imageBase64 : list N) : list N :=
  if negb (startsWith imageBase64 (L "data:"))
  then L "data:image/jpeg;base64," ++ imageBase64
  else imageBase64.

Definition ocrInstruction : list N :=
  L "请仔细识别图片中的所有文字内容，提取企业工商信息。请以JSON格式返回以下字段（如有）：companyName(企业名称), creditCode(统一社会信用代码), legalRep(法定代表人), registeredCapital(注册资本), establishDate(成立日期), industry(所属行业), registeredAddress(注册地址), businessScope(经营范围), companyType(企业类型), employeeCount(员工人数), companySize(企业规模)。如果某个字段在图片中找不到，请设为null。".

Definition callOCR (this : service) (imageBase64 : list N) : io json :=
  if negb (toBoolean (siliconflowApiKey this))
  then Throw (Error (L "SiliconFlow API Key 未配置，请在设置中配置"))
  else
    let requestBody :=
      JObj [ (L "messages",
               JArr [ JObj [ (L "role", JStr (L "user"));
                             (L "content",
                               JArr [ JObj [ (L "type", JStr (L "image_url"));
                                             (L "image_url",
                                               JObj [ (L "url", JStr (imageUrl imageBase64)) ]) ];
                                      JObj [ (L "type", JStr (L "text"));
                                             (L "text", JStr ocrInstruction) ] ]) ] ]);
             (L "max_tokens", JNum (ofZ 4096)) ] in
    try_
      (Fetch {| url := toStr (proxyServer this) ++ L "/api/siliconflow/ocr";
                method := L "POST";
                headers := jsonHeaders (siliconflowApiKey this);
                body := Some requestBody |}
         (fun fetched =>
            match fetched with
            | NoAnswer => Throw FetchFailed
            | Answer response =>
                if negb (ok response)
                then failure (L "OCR API请求失败: ") response
                else firstChoice response
            end))
      (fun error => Throw error).

(** ** [generateContent] *)

Definition prompts : JsObj.object (list N) :=
  [ (L "basicSituation",
      L "请根据以下企业信息，撰写一段关于企业基本情况的描述（约300字），包括企业历史沿革、组织架构、股权结构、主营业务等：");
    (L "controllerSituation",
      L "请根据以下信息，撰写一段关于实际控制人情况的描述（约200字）：");
    (L "businessStatus",
      L "请根据以下企业信息和财务数据，撰写一段关于企业经营状况的分析（约300字）：");
    (L "marketAnalysis",
      L "请根据以下企业信息，撰写一段关于行业和市场分析的内容（约250字）：");
    (L "financialOverview",
      L "请根据以下财务数据，撰写一段财务状况概述（约300字），分析资产负债结构、盈利能力、偿债能力等：");
    (L "financialIndicators",
      L "请根据以下财务指标数据，撰写关键财务指标分析（约250字）：");
    (L "creditRisk",
      L "请根据以下企业信息和财务数据，分析信用风险（约200字）：");
    (L "marketRisk",
      L "请根据以下企业和行业信息，分析市场风险（约200字）：");
    (L "overallEvaluation",
      L "请根据以下所有信息，撰写对该企业的总体评价（约300字）：");
    (L "creditSuggestion",
      L "请根据以下信息，提出具体的授信建议（约250字），包括授信额度、期限、利率、担保方式等建议：") ].

Definition defaultPrompt : list N := L "请根据以下信息撰写相关内容：".

Definition systemPrompt : list N :=
  L "你是一个专业的银行授信报告撰写助手。请根据提供的企业信息和财务数据，撰写专业、客观、符合银行授信报告规范的内容。
注意：
1. 使用专业的银行术语
2. 数据引用准确
3. 分析要有逻辑性
4. 结论要客观谨慎
5. 只返回正文内容，不要包含标题".

(** [context.name || '未提供'], as the template literal shows it. *)
Definition shown (context : gmap string jsval) (name : string) : list N :=
  toStr (orElse (prop context name) (VStr (L "未提供"))).

Definition contextText (context : gmap string jsval) : list N :=
  L "
企业信息：
- 企业名称："
  ++ shown context "companyName"
  ++ L "
- 成立日期："
  ++ shown context "establishDate"
  ++ L "
- 注册资本："
  ++ shown context "registeredCapital"
  ++ L "
- 所属行业："
  ++ shown context "industry"
  ++ L "
- 企业规模："
  ++ shown context "companySize"
  ++ L "
- 经营范围："
  ++ shown context "businessScope"
  ++ L "

财务数据：
- 资产总额："
  ++ shown context "totalAssetsEnd"
  ++ L " 万元
- 负债总额："
  ++ shown context "totalLiabilitiesEnd"
  ++ L " 万元
- 所有者权益："
  ++ shown context "ownerEquityEnd"
  ++ L " 万元
- 营业收入："
  ++ shown context "revenueCurrent"
  ++ L " 万元
- 净利润："
  ++ shown context "netProfitCurrent"
  ++ L " 万元
- 资产负债率："
  ++ shown context "debtRatioEnd"
  ++ L "%

授信信息：
- 授信类型："
  ++ shown context "creditType"
  ++ L "
- 授信金额："
  ++ shown context "creditAmount"
  ++ L " 万元
- 授信期限："
  ++ shown context "creditPeriod"
  ++ L " 个月
- 授信用途："
  ++ shown context "creditPurpose"
  ++ L "
".

Section Prompts.

(** [prompts[fieldName]] also finds the names every object inherits
    ([constructor], [toString], ...): [inherited name] is how the engine
    shows the value of such a name in a template literal, and [None]
    for every other name. *)
Context (inherited : list N -> option (list N)).

Definition basePrompt (fieldName : list N) : list N :=
  match JsObj.get prompts fieldName with
  | Some prompt => match prompt with [] => defaultPrompt | _ => prompt end
  | None => default defaultPrompt (inherited fieldName)
  end.

Definition message (role content : list N) : json :=
  JObj [ (L "role", JStr role); (L "content", JStr content) ].

Definition generateContent (this : service) (fieldName : list N)
    (context : gmap string jsval) : io (list N) :=
  let messages :=
    JArr [ message (L "system") systemPrompt;
           message (L "user") (basePrompt fieldName ++ [0x0A%N] ++ contextText context) ] in
  try_
    (bind (callDeepSeek this messages [ (L "temperature", JNum (ofDecimal false 7 (-1))) ])
       (fun response =>
          match response with
          | JStr s => Ret (trim s)
          | _ => Throw TypeError
          end))
    (fun error => Throw error).

(** ** [generateAllContent] *)

Definition fields : list (list N) :=
  [ L "basicSituation";
    L "controllerSituation";
    L "businessStatus";
    L "marketAnalysis";
    L "financialOverview";
    L "financialIndicators";
    L "creditRisk";
    L "marketRisk";
    L "overallEvaluation";
    L "creditSuggestion" ].

(** The loop over the fields that are left, [results] holding those
    done. *)
Fixpoint generateFields (this : service) (context : gmap string jsval)
    (todo : list (list N)) (results : JsObj.object (list N))
    : io (JsObj.object (list N)) :=
  match todo with
  | [] => Ret results
  | field :: todo' =>
      bind
        (try_
           (bind (generateContent this field context) (fun text =>
            let results := JsObj.set results field text in
            Sleep 500 (Ret results)))
           (fun error => Ret (JsObj.set results field [])))
        (generateFields this context todo')
  end.

Definition generateAllContent (this : service) (context : gmap string jsval)
    : io (JsObj.object (list N)) :=
  generateFields this context fields [].

End Prompts.

End ApiService.

(* ===================================================================== *)
(** * The proxy server *)
(* ===================================================================== *)

Module Proxy.
Import JsStr JsNum JsVal Net.

Open Scope list_scope.

(** A request as the handlers read it: [req.headers['x-api-key']], a
    string when the header was sent, and [req.body]. *)
Record incoming := { apiKeyHeader : option (list N); requestBody : json }.

(** [res.status(code).json(sent)]; [res.json(sent)] answers with the
    status 200. *)
Record reply := { code : N; sent : json }.

(** What [fetch] gives the page for a reply of the proxy: the body
    [res.json] wrote, read back; with the statuses 204 and 304 the
    server sends no body. *)
Definition delivered (r : reply) : answer :=
  Answer {| status := code r;
            parsed := if ((code r =? 204) || (code r =? 304))%N then None
                      else Some (wire (sent r)) |}.

Section Handlers.

(** [error.message] of what a handler caught: the text belongs to the
    runtime. *)
Context (messageOf : thrown -> json).

Definition bearer (apiKey : jsval) : list (list N * list N) :=
  [ (L "Content-Type", L "application/json");
    (L "Authorization", L "Bearer " ++ toStr apiKey) ].

(** [req.headers['x-api-key'] || process.env.NAME]. *)
Definition apiKeyOf (req : incoming) (env : option (list N)) : jsval :=
  orElse (from_option VStr VUndefined (apiKeyHeader req))
         (from_option VStr VUndefined env).

(** The part the two handlers share: the upstream request, and the
    answer passed on. *)
Definition forward (target : list N) (apiKey : jsval) (payload : json) : io reply :=
  Fetch {| url := target; method := L "POST"; headers := bearer apiKey;
           body := Some payload |}
    (fun fetched =>
       match fetched with
       | NoAnswer => Throw FetchFailed
       | Answer response =>
           bind (readJson response) (fun data =>
           if negb (ok response)
           then Ret {| code := status response; sent := data |}
           else Ret {| code := 200; sent := data |})
       end).

Definition keyRequired : reply :=
  {| code := 401; sent := JObj [ (L "error", JStr (L "API key is required")) ] |}.

Definition failed (what : list N) (error : thrown) : reply :=
  {| code := 500; sent := JObj [ (L "error", JStr what); (L "details", messageOf error) ] |}.

(** [app.post('/api/deepseek/chat', ...)], with the value of
    [process.env.DEEPSEEK_API_KEY]. *)
Definition deepseekChat (env : option (list N)) (req : incoming) : io reply :=
  try_
    (let apiKey := apiKeyOf req env in
     if negb (toBoolean apiKey) then Ret keyRequired
     else forward (L "https://api.deepseek.com/chat/completions") apiKey (requestBody req))
    (fun error => Ret (failed (L "Failed to call DeepSeek API") error)).

(** [app.post('/api/siliconflow/ocr', ...)], with the value of
    [process.env.SILICONFLOW_API_KEY]. *)
Definition siliconflowOcr (env : option (list N)) (req : incoming) : io reply :=
  try_
    (let apiKey := apiKeyOf req env in
     if negb (toBoolean apiKey) then Ret keyRequired
     else
       bind (read (member (requestBody req) (L "messages"))) (fun messages =>
       bind (read (member (requestBody req) (L "max_tokens"))) (fun max_tokens =>
       forward (L "https://api.siliconflow.cn/v1/chat/completions") apiKey
         (JObj [ (L "model", JStr (L "Qwen/Qwen3-VL-8B-Instruct"));
                 (L "messages", messages);
                 (L "max_tokens", orJ max_tokens (JNum (ofZ 4096))) ]))))
    (fun error => Ret (failed (L "Failed to call SiliconFlow OCR API") error)).

End Handlers.

End Proxy.

(* ===================================================================== *)
(** * The controller of the page *)
(* ===================================================================== *)

Module UIController.
Import JsStr JsNum JsVal.

Open Scope string_scope.
Open Scope list_scope.

(** The page, as far as the functions below read it: the value of the
    form element of each id.  An id without an element is absent; the
    value of an element is a string. *)
Definition page : Type := gmap string (list N).

Definition companyFields : list string :=
  [ "companyName"; "creditCode"; "legalRep"; "registeredCapital";
    "establishDate"; "industry"; "registeredAddress"; "businessScope";
    "companySize"; "employeeCount" ].

Definition financialFields : list string :=
  [ "totalAssetsLastYear"; "totalAssetsBeginning"; "totalAssetsEnd";
    "totalLiabilitiesLastYear"; "totalLiabilitiesBeginning"; "totalLiabilitiesEnd";
    "ownerEquityLastYear"; "ownerEquityBeginning"; "ownerEquityEnd";
    "revenueLastYear"; "revenueCurrent";
    "netProfitLastYear"; "netProfitCurrent";
    "debtRatioLastYear"; "debtRatioBeginning"; "debtRatioEnd" ].

Definition creditFields : list string :=
  [ "creditType"; "creditAmount"; "creditPeriod"; "creditPurpose" ].

Definition textFields : list string :=
  [ "basicSituation"; "controllerSituation"; "businessStatus"; "marketAnalysis";
    "financialOverview"; "financialIndicators"; "creditRisk"; "marketRisk";
    "overallEvaluation"; "creditSuggestion" ].

(** One [fields.forEach]: [if (element) data[field] = element.value]. *)
Definition collectFields (document : page) (fields : list string)
    (data : gmap string jsval) : gmap string jsval :=
  fold_left
    (fun data field =>
       match document !! field with
       | Some value => <[field := VStr value]> data
       | None => data
       end)
    fields data.

(** [document.getElementById(id)?.value || fallback]. *)
Definition valueOr (document : page) (id : string) (fallback : list N) : jsval :=
  orElse (from_option VStr VUndefined (document !! id)) (VStr fallback).

(** [collectAllData]. *)
Definition collectAllData (document : page) : gmap string jsval :=
  let data := collectFields document companyFields ∅ in
  let data := collectFields document financialFields data in
  let data := collectFields document creditFields data in
  let data := collectFields document textFields data in
  let data := <["reportTitle" := valueOr document "reportTitle" (L "企业授信调查报告")]> data in
  <["reportFormat" := valueOr document "reportFormat" (L "docx")]> data.

(** [formatDate] of the controller, for the name of the download. *)
Definition formatDate (d : TemplateEngine.date) : list N :=
  let year := digitsOfN (TemplateEngine.getFullYear d) in
  let month := padStart0 2 (digitsOfN (TemplateEngine.getMonth d + 1)) in
  let day := padStart0 2 (digitsOfN (TemplateEngine.getDate d)) in
  year ++ month ++ day.

(** The file name [downloadReport] saves the document under. *)
Definition fileName (document : page) (now : TemplateEngine.date) : list N :=
  let data := collectAllData document in
  toStr (orElse (prop data "companyName") (VStr (L "企业")))
  ++ L "_授信调查报告_" ++ formatDate now ++ L ".docx".

(** [saveSettings]: what the three inputs of the dialog hold is handed
    to [updateConfig]. *)
Definition saveSettings (document : page)
    (state : ApiService.service * ApiService.storage)
    : ApiService.service * ApiService.storage :=
  let deepseekKey := valueOr document "deepseekApiKey" [] in
  let siliconflowKey := valueOr document "siliconflowApiKey" [] in
  let proxyServer := valueOr document "proxyServer" (L "http://localhost:3000") in
  ApiService.updateConfig
    {| ApiService.newDeepseekApiKey := deepseekKey;
       ApiService.newSiliconflowApiKey := siliconflowKey;
       ApiService.newProxyServer := proxyServer |}
    state.

End UIController.

(* ===================================================================== *)
(** * Vocabulary of the statements *)
(* ===================================================================== *)

Module Spec.
Import JsStr JsNum JsVal Regex.

(** White space, by code point: the tab, the line feed, the vertical
    tab, the form feed, the carriage return, the space, the no-break
    space and the other spaces and line separators of Unicode. *)
Definition whiteSpaceChar (c : N) : Prop :=
  (0x09 <= c <= 0x0D)%N \/ c = 0x20%N \/ c = 0xA0%N \/ c = 0x1680%N
  \/ (0x2000 <= c <= 0x200A)%N \/ c = 0x2028%N \/ c = 0x2029%N
  \/ c = 0x202F%N \/ c = 0x205F%N \/ c = 0x3000%N \/ c = 0xFEFF%N.

(** The characters the normalizer is to strip, as the specification
    lists them: the thousands separators (the comma, U+002C, and the
    full-width comma, U+FF0C), white space, and the unit glyphs 万
    (U+4E07), 元 (U+5143), 千 (U+5343) and 百 (U+767E). *)
Definition stripped (c : N) : Prop :=
  c = 0x2C%N \/ c = 0xFF0C%N \/ whiteSpaceChar c
  \/ c = 0x4E07%N \/ c = 0x5143%N \/ c = 0x5343%N \/ c = 0x767E%N.

(** [Formatted s s']: [s'] is [s] with thousands separators, white space
    and unit glyphs written into it. *)
Inductive Formatted : list N -> list N -> Prop :=
| Formatted_nil : Formatted [] []
| Formatted_keep c s s' : Formatted s s' -> Formatted (c :: s) (c :: s')
| Formatted_insert c s s' :
    stripped c -> Formatted s s' -> Formatted s (c :: s').

(** A cell the value search passes over: it does not parse, or parses
    to zero. *)
Definition skipped (c : jsval) : Prop :=
  FileParser.parseNumber c = None
  \/ exists z, FileParser.parseNumber c = Some z /\ isZero z = true.

(** [text] contains a label of [terms] whose canonical key is [key]. *)
Definition hasLabel (terms : list (list N * string)) (key : string)
    (text : list N) : bool :=
  existsb (fun tk => bool_decide (snd tk = key) && includes text (fst tk)) terms.

(** The value found from the cell [(i, col)]: the first number to its
    right, else the first number of the next row. *)
Definition searchAt (sheetData : list (list jsval)) (i col : nat)
    (row : list jsval) : option spec_float :=
  match FileParser.firstNumber (drop (col + 1) row) with
  | Some v => Some v
  | None =>
      match sheetData !! (i + 1)%nat with
      | Some nextRow => FileParser.firstNumber nextRow
      | None => None
      end
  end.

(** The first index of [l] at which [f] returns a value. *)
Fixpoint firstSome {A : Type} (f : nat -> option A) (l : list nat) : option A :=
  match l with
  | [] => None
  | j :: l' =>
      match f j with
      | Some v => Some v
      | None => firstSome f l'
      end
  end.

(** What the cell [(i, col)] yields for [key]: the value found from it
    when its text carries a label of [key]. *)
Definition attempt (terms : list (list N * string)) (sheetData : list (list jsval))
    (key : string) (i : nat) (row : list jsval) (col : nat) : option spec_float :=
  if hasLabel terms key (FileParser.cellText (default VUndefined (row !! col)))
  then searchAt sheetData i col row
  else None.

Definition rowHit (terms : list (list N * string)) (sheetData : list (list jsval))
    (key : string) (i : nat) : option spec_float :=
  match sheetData !! i with
  | Some row => firstSome (attempt terms sheetData key i row) (seq 0 (length row))
  | None => None
  end.

(** The first cell of the grid, rows from the top and cells from the
    left, that carries a label of [key] and from which a value is found. *)
Definition firstHit (terms : list (list N * string)) (sheetData : list (list jsval))
    (key : string) : option spec_float :=
  firstSome (rowHit terms sheetData key) (seq 0 (length sheetData)).

(** A key holds a value that the guard [!sheet[key]] takes for set. *)
Definition isSet (sheet : gmap string jsval) (key : string) : bool :=
  toBoolean (prop sheet key).

(** The law every level of the loops obeys for a key: a set key is
    kept; an unset one receives the value [found], if there is one. *)
Definition law (before after : option jsval) (found : option spec_float) : Prop :=
  after =
  if toBoolean (default VUndefined before) then before
  else match found with
       | Some v => Some (VNum v)
       | None => before
       end.

(** The keys [deriveMetrics] writes. *)
Definition derivedKeys : list string :=
  ["debtRatio"; "currentRatio"; "quickRatio"; "roe"; "ownerEquity"]%string.

(** The grids of the two examples of the specification: the value to
    the right of the label, and the value in the row below. *)
Definition gridRight : list (list jsval) :=
  [ [VStr (L "项目"); VStr (L "年初数"); VStr (L "期末数")];
    [VStr (L "资产总计"); VUndefined; VNum (ofZ 1500)] ].

Definition gridBelow : list (list jsval) :=
  [ [VStr (L "项目"); VStr (L "年初数"); VStr (L "期末数")];
    [VStr (L "资产总计"); VUndefined; VUndefined];
    [VNum (ofZ 1500)] ].

(** Assets 1000 and liabilities 600; the same with a net profit of 100. *)
Definition gridDebt : list (list jsval) :=
  [ [VStr (L "资产总计"); VNum (ofZ 1000)];
    [VStr (L "负债合计"); VNum (ofZ 600)] ].

Definition gridProfit : list (list jsval) :=
  [ [VStr (L "资产总计"); VNum (ofZ 1000)];
    [VStr (L "负债合计"); VNum (ofZ 600)];
    [VStr (L "净利润"); VNum (ofZ 100)] ].

(** ** What a pattern matches

    [Matches fl r w c c']: the pattern [r] can match the word [w],
    taking the captures from [c] to [c'].  The anchors match the empty
    word (where they stand is not recorded). *)
Inductive Matches (fl : flags) :
    regex -> list N -> gmap nat (list N) -> gmap nat (list N) -> Prop :=
| Matches_Empty c : Matches fl Empty [] c c
| Matches_Char a x c : charMatches fl a x = true -> Matches fl (Char a) [x] c c
| Matches_Class neg p x c :
    classMatches fl neg p x = true -> Matches fl (Class neg p) [x] c c
| Matches_Dot x c : dotMatches fl x = true -> Matches fl Dot [x] c c
| Matches_Seq r1 r2 w1 w2 c c1 c2 :
    Matches fl r1 w1 c c1 -> Matches fl r2 w2 c1 c2 ->
    Matches fl (Seq r1 r2) (w1 ++ w2) c c2
| Matches_AltL r1 r2 w c c' : Matches fl r1 w c c' -> Matches fl (Alt r1 r2) w c c'
| Matches_AltR r1 r2 w c c' : Matches fl r2 w c c' -> Matches fl (Alt r1 r2) w c c'
| Matches_StarNil g r c : Matches fl (Star g r) [] c c
| Matches_StarCons g r w1 w2 c c1 c2 :
    Matches fl r w1 c c1 -> Matches fl (Star g r) w2 c1 c2 ->
    Matches fl (Star g r) (w1 ++ w2) c c2
| Matches_Group n r w c c' :
    Matches fl r w c c' -> Matches fl (Group n r) w c (<[n := w]> c')
| Matches_Bol c : Matches fl Bol [] c c
| Matches_Eol c : Matches fl Eol [] c c.

(** What a successful run of a matcher gives: a word [w] taken from the
    input, matched by the pattern, and the success of the continuation
    on what follows. *)
Definition Sound (fl : flags) (r : regex)
    (body : mstate -> (mstate -> option mstate) -> option mstate) : Prop :=
  forall x k z,
    body x k = Some z ->
    exists w y,
      rest x = w ++ rest y /\ pos y = (pos x + length w)%nat
      /\ Matches fl r w (caps x) (caps y) /\ k y = Some z.

(** ** The table-cell pass *)

Definition isBlankChar (c : N) : bool := (c =? ch "_")%N || isWhiteSpace c.

(** Two strings equal up to the case of ASCII letters. *)
Definition sameUpToCase (s t : list N) : Prop :=
  Forall2 (fun a u => charMatches TemplateEngine.gis a u = true) s t.

(** The opening tag of a text run as the pattern reads it: the
    characters of [<w:t], anything but [>], then [>]. *)
Definition isOpenTag (tag : list N) : Prop :=
  exists name attrs,
    tag = name ++ attrs ++ [ch ">"]
    /\ sameUpToCase (L "<w:t") name
    /\ Forall (fun u => u <> ch ">") attrs.

Definition isCloseTag (tag : list N) : Prop := sameUpToCase (L "</w:t>") tag.

(** The tags of a table cell as the pattern reads them: the characters
    of [<w:tc], anything but [>], then [>]; and [</w:tc>]. *)
Definition isCellOpen (tag : list N) : Prop :=
  exists name attrs,
    tag = name ++ attrs ++ [ch ">"]
    /\ sameUpToCase (L "<w:tc") name
    /\ Forall (fun u => u <> ch ">") attrs.

Definition isCellClose (tag : list N) : Prop := sameUpToCase (L "</w:tc>") tag.

(** The way from a label to the text run that is rewritten, as the
    pattern reads the markup.  After the opening tag of a table cell
    and, further on, the opening tag of a text run, the label stands in
    a text without [<], and the text run is closed; further on a table
    cell is closed and, white space apart, the next table cell is
    opened at once; and further on stands the opening tag of a text
    run.  "Further on" passes over any markup, other runs and other
    cells included. *)
Definition leadsFromLabel (label way : list N) : Prop :=
  exists cell1 x1 run1 u lab v close1 x2 cellEnd ws cell2 x3 tag,
    way = cell1 ++ x1 ++ run1 ++ (u ++ lab ++ v) ++ close1 ++ x2 ++ cellEnd
          ++ ws ++ cell2 ++ x3 ++ tag
    /\ isCellOpen cell1 /\ isOpenTag run1
    /\ Forall (fun c => c <> ch "<") u
    /\ sameUpToCase label lab
    /\ Forall (fun c => c <> ch "<") v
    /\ isCloseTag close1
    /\ isCellClose cellEnd
    /\ Forall (fun c => isWhiteSpace c = true) ws
    /\ isCellOpen cell2 /\ isOpenTag tag.

(** One rewrite of the pass: at the end of such a way from a label
    whose context field is truthy, the whole content of the text run,
    made of underscores and white space only, becomes the escaped
    value; all that surrounds the content stays. *)
Inductive FillStep (data : gmap string jsval) : list N -> list N -> Prop :=
| FillStep_run label field a way blank close b :
    In (label, field) TemplateEngine.tableLabels ->
    toBoolean (prop data field) = true ->
    leadsFromLabel label way ->
    Forall (fun u => isBlankChar u = true) blank ->
    isCloseTag close ->
    FillStep data
      (a ++ way ++ blank ++ close ++ b)
      (a ++ way ++ TemplateEngine.escapeXml (toStr (prop data field)) ++ close ++ b).

(** A table cell opens somewhere in [s]. *)
Definition hasCell (s : list N) : Prop :=
  exists a tag b, s = a ++ tag ++ b /\ isCellOpen tag.

(** The text of a markup fragment: what stands outside its tags. *)
Fixpoint textOf (inTag : bool) (s : list N) : list N :=
  match s with
  | [] => []
  | c :: s' =>
      if (c =? ch "<")%N then textOf true s'
      else if (c =? ch ">")%N then textOf false s'
      else if inTag then textOf inTag s'
      else c :: textOf inTag s'
  end.

(** A table row whose second cell holds the run "ABC" and the run "___". *)
Definition cellLabel : list N :=
  L "<w:tc><w:p><w:r><w:t>企业名称</w:t></w:r></w:p></w:tc>".
Definition cellTwoRuns : list N :=
  L "<w:tc><w:p><w:r><w:t>ABC</w:t></w:r><w:r><w:t>___</w:t></w:r></w:p></w:tc>".
Definition cellTwoRunsFilled : list N :=
  L "<w:tc><w:p><w:r><w:t>ABC</w:t></w:r><w:r><w:t>X</w:t></w:r></w:p></w:tc>".
Definition rowTwoRuns : list N :=
  L "<w:tbl><w:tr>" ++ cellLabel ++ cellTwoRuns ++ L "</w:tr></w:tbl>".
Definition dataCompanyX : gmap string jsval :=
  {[ "companyName"%string := VStr (L "X") ]}.

(** Two rows: the cell beside the label holds "ABC", and the second
    cell of the next row holds "___". *)
Definition cellABC : list N :=
  L "<w:tc><w:p><w:r><w:t>ABC</w:t></w:r></w:p></w:tc>".
Definition cellOther : list N :=
  L "<w:tc><w:p><w:r><w:t>other</w:t></w:r></w:p></w:tc>".
Definition cellBlank : list N :=
  L "<w:tc><w:p><w:r><w:t>___</w:t></w:r></w:p></w:tc>".
Definition cellFilled : list N :=
  L "<w:tc><w:p><w:r><w:t>X</w:t></w:r></w:p></w:tc>".
Definition twoRows (last : list N) : list N :=
  L "<w:tbl><w:tr>" ++ cellLabel ++ cellABC ++ L "</w:tr><w:tr>" ++ cellOther ++ last
  ++ L "</w:tr></w:tbl>".

(** ** The template analyzer *)

(** The elements of a list in the order of their first occurrence. *)
Fixpoint distinct (l : list (list N)) : list (list N) :=
  match l with
  | [] => []
  | x :: l' => x :: List.filter (fun y => negb (bool_decide (y = x))) (distinct l')
  end.



(** ** The business-record parser *)

(** The pattern of a field of the text fallback. *)
Definition fieldPattern (key : string) : option (flags * regex) :=
  snd <$> List.find (fun kp => bool_decide (fst kp = key)) FileParser.patterns.

(** The continuation that reads a closing brace and succeeds. *)
Definition closing : mstate -> option mstate :=
  fun y => m FileParser.noFlags (Char (ch "}")) y Some.

(** The text up to the next closing brace, and the text after it. *)
Fixpoint upToClose (s : list N) : option (list N * list N) :=
  match s with
  | [] => None
  | c :: s' =>
      if (c =? ch "}")%N then Some ([], s')
      else (fun p => (c :: fst p, snd p)) <$> upToClose s'
  end.

(** The first brace-delimited span of a transcript, read as the span
    from the first opening brace to the first closing brace after it,
    with what stands before it and what stands after it. *)
Fixpoint firstSpan (s : list N) : option (list N * list N * list N) :=
  match s with
  | [] => None
  | c :: s' =>
      if (c =? ch "{")%N
      then (fun p => ([], ch "{" :: fst p ++ [ch "}"], snd p)) <$> upToClose s'
      else (fun t => (c :: fst (fst t), snd (fst t), snd t)) <$> firstSpan s'
  end.

(** The object [{"companyName":"A"}], and a transcript in which a remark
    with braces of its own follows it. *)
Definition objectSpan : list N :=
  L "{" ++ [0x22%N] ++ L "companyName" ++ [0x22%N] ++ L ":" ++ [0x22%N] ++ L "A"
    ++ [0x22%N] ++ L "}".
Definition remark : list N := L " 备注：{无}".
Definition transcriptTwoSpans : list N := objectSpan ++ remark.

(** [JSON.parse] on the texts of the example: the object is read; any
    other text of the example, the whole transcript among them, is a
    syntax error. *)
Definition jsonParseExample (s : list N) : option (list (string * list N)) :=
  if bool_decide (s = objectSpan) then Some [("companyName"%string, L "A")] else None.

(** ** The structured appendix *)

(** No character of [s] is [c]. *)
Definition absent (c : N) (s : list N) : Prop := Forall (fun u => u <> c) s.

(** A body whose closing tag carries another namespace prefix, a date
    and a context with a credit amount written with a dollar sign. *)
Definition xmlOtherPrefix : list N :=
  L "<x:document><x:body><x:p/></x:body></x:document>".
Definition someDay : TemplateEngine.date :=
  {| TemplateEngine.getFullYear := 2026; TemplateEngine.getMonth := 10;
     TemplateEngine.getDate := 2 |}.
Definition xmlAmountLine : list N :=
  L "<w:body><w:p><w:r><w:t>授信金额：____</w:t></w:r></w:p></w:body>".
Definition dataDollar : gmap string jsval :=
  {[ "creditAmount"%string := VStr (L "$100") ]}.

(** ** The appendix, as it is described *)

(** A paragraph of the appendix: its text, whether it is a heading, and
    its alignment. *)
Record entry := {
  entryText : list N;
  entryBold : bool;
  entryAlign : TemplateEngine.alignment
}.

Definition textLine (text : list N) : entry :=
  {| entryText := text; entryBold := false; entryAlign := TemplateEngine.AlignLeft |}.
Definition headLine (text : list N) : entry :=
  {| entryText := text; entryBold := true; entryAlign := TemplateEngine.AlignLeft |}.
Definition emptyLine : entry := textLine [].

(** A field of the context has a value. *)
Definition given (data : gmap string jsval) (field : string) : bool :=
  toBoolean (prop data field).

(** The rows of the three subsections: label, field and unit. *)
Definition companyRows : list (list N * string * list N) :=
  [ (L "企业名称", "companyName"%string, []);
    (L "统一社会信用代码", "creditCode"%string, []);
    (L "法定代表人", "legalRep"%string, []);
    (L "注册资本", "registeredCapital"%string, []);
    (L "成立日期", "establishDate"%string, []);
    (L "所属行业", "industry"%string, []);
    (L "企业规模", "companySize"%string, []);
    (L "员工人数", "employeeCount"%string, []);
    (L "注册地址", "registeredAddress"%string, []);
    (L "经营范围", "businessScope"%string, []) ].

Definition financialRows : list (list N * string * list N) :=
  [ (L "资产总额", "totalAssetsEnd"%string, L "万元");
    (L "负债总额", "totalLiabilitiesEnd"%string, L "万元");
    (L "所有者权益", "ownerEquityEnd"%string, L "万元");
    (L "营业收入", "revenueCurrent"%string, L "万元");
    (L "净利润", "netProfitCurrent"%string, L "万元");
    (L "资产负债率", "debtRatioEnd"%string, L "%") ].

Definition creditRows : list (list N * string * list N) :=
  [ (L "授信类型", "creditType"%string, []);
    (L "授信金额", "creditAmount"%string, L "万元");
    (L "授信期限", "creditPeriod"%string, L "个月");
    (L "授信用途", "creditPurpose"%string, []) ].

(** One line [label：value unit] for every row whose field has a value. *)
Definition valueLines (data : gmap string jsval)
    (rows : list (list N * string * list N)) : list entry :=
  map (fun row =>
         textLine (fst (fst row) ++ L "：" ++ toStr (prop data (snd (fst row))) ++ snd row))
      (List.filter (fun row => given data (snd (fst row))) rows).

(** A subsection is written when one of its leading fields has a value:
    its heading, an empty line, its value lines, an empty line. *)
Definition subsection (data : gmap string jsval) (leading : list string)
    (title : list N) (rows : list (list N * string * list N)) : list entry :=
  if existsb (given data) leading
  then [headLine title; emptyLine] ++ valueLines data rows ++ [emptyLine]
  else [].

(** The narrative fields under their headings, in the order of the
    appendix. *)
Definition narratives : list (list N * string) :=
  [ (L "四、企业基本情况", "basicSituation"%string);
    (L "五、实际控制人情况", "controllerSituation"%string);
    (L "六、经营状况分析", "businessStatus"%string);
    (L "七、市场分析", "marketAnalysis"%string);
    (L "八、财务状况概述", "financialOverview"%string);
    (L "九、财务指标分析", "financialIndicators"%string);
    (L "十、信用风险分析", "creditRisk"%string);
    (L "十一、市场风险分析", "marketRisk"%string);
    (L "十二、总体评价", "overallEvaluation"%string);
    (L "十三、授信建议", "creditSuggestion"%string) ].

(** The lines of a text that hold more than white space. *)
Definition writtenLines (text : list N) : list (list N) :=
  List.filter (fun l => negb (forallb isWhiteSpace l)) (splitOn 0x0A text).

(** A narrative field with content: its heading, an empty line, one
    indented line per written line of the content, an empty line. *)
Definition narrative (data : gmap string jsval) (section : list N * string)
    : list entry :=
  if given data (snd section)
  then [headLine (fst section); emptyLine]
       ++ map (fun l => textLine (L "    " ++ l))
            (writtenLines (toStr (prop data (snd section))))
       ++ [emptyLine]
  else [].

Definition isText (v : jsval) : bool :=
  match v with VStr _ => true | _ => false end.

(** Every narrative field is a string or has no value. *)
Definition narrativesWritten (data : gmap string jsval) : bool :=
  forallb (fun section => negb (given data (snd section))
                          || isText (prop data (snd section)))
    narratives.

(** The date as the appendix writes it: the year, then month and day
    with two digits each. *)
Definition dateText (now : TemplateEngine.date) : list N :=
  digitsOfN (TemplateEngine.getFullYear now) ++ L "年"
  ++ padStart0 2 (digitsOfN (TemplateEngine.getMonth now + 1)) ++ L "月"
  ++ padStart0 2 (digitsOfN (TemplateEngine.getDate now)) ++ L "日".

(** The paragraphs of the appendix after the page break. *)
Definition outline (now : TemplateEngine.date) (data : gmap string jsval) : list entry :=
  [ {| entryText := L "授信报告填写数据汇总"; entryBold := true;
       entryAlign := TemplateEngine.AlignCenter |};
    emptyLine ]
  ++ subsection data ["companyName"; "creditCode"; "legalRep"]%string
       (L "一、企业基本信息") companyRows
  ++ subsection data ["totalAssetsEnd"; "revenueCurrent"]%string
       (L "二、财务信息") financialRows
  ++ subsection data ["creditType"; "creditAmount"]%string
       (L "三、授信信息") creditRows
  ++ flat_map (narrative data) narratives
  ++ [ emptyLine;
       {| entryText := L "报告日期：" ++ dateText now; entryBold := false;
          entryAlign := TemplateEngine.AlignRight |} ].

(** A paragraph as markup, and the appendix: the page break and the
    paragraphs, one after the other, a line feed between them. *)
Definition rendered (e : entry) : list N :=
  TemplateEngine.createParagraph (entryText e) (entryBold e) (entryAlign e).

Definition appendixOf (now : TemplateEngine.date) (data : gmap string jsval) : list N :=
  join [0x0A%N] (TemplateEngine.pageBreak :: map rendered (outline now data)).

(** [body] is [a], the tag and [b], and the tag stands nowhere later. *)
Definition lastTagAt (tag body a b : list N) : Prop :=
  body = a ++ tag ++ b
  /\ forall a' b', body = a' ++ tag ++ b' -> (length a' <= length a)%nat.

(** The closing tag of the body, and the marks of a paragraph: its
    alignment, bold type, and the page break. *)
Definition bodyTag : list N := L "</w:body>".
Definition alignMark (word : list N) : list N :=
  L "<w:jc w:val=" ++ [0x22%N] ++ word ++ [0x22%N] ++ L "/>".
Definition boldMark : list N := L "<w:b/>".
Definition pageMark : list N :=
  L "<w:br w:type=" ++ [0x22%N] ++ L "page" ++ [0x22%N] ++ L "/>".

(** A context with a company name, a credit amount and a narrative of
    two lines with an empty line between them; one whose narrative is a
    number; a body with the closing tag. *)
Definition dataReport : gmap string jsval :=
  {[ "companyName"%string := VStr (L "X");
     "creditAmount"%string := VStr (L "500");
     "basicSituation"%string := VStr (L "first line" ++ [0x0A; 0x20; 0x0A]%N ++ L "second line") ]}.
Definition dataNumber : gmap string jsval :=
  {[ "basicSituation"%string := VNum (JsNum.ofZ 5) ]}.
Definition xmlBody : list N := L "<w:document><w:body><w:p/></w:body></w:document>".

(** ** The year of a file name *)

(** Four decimal digits in a row. *)
Definition fourDigits (d : list N) : Prop :=
  length d = 4%nat /\ Forall (fun c => isDigit c = true) d.

(** The first four digits in a row of a name, read from the left. *)
Fixpoint firstFour (s : list N) : option (list N) :=
  match s with
  | [] => None
  | _ :: s' =>
      if forallb isDigit (take 4 s) && (length (take 4 s) =? 4)%nat
      then Some (take 4 s) else firstFour s'
  end.

(** The year a file counts for when files are ordered: the number its
    name gives, 0 for a name without one. *)
Definition fileYear (fileName : list N) : Z :=
  match firstFour fileName with
  | Some d => digitsValue d
  | None => 0
  end.

(** ** The statements of several files *)

(** The files that could be read, in the order of the upload. *)
Definition readable
    (files : list (list N * option (list (list N * list (list jsval)))))
    : list (list N * list (list N * list (list jsval))) :=
  omap (fun file => pair (fst file) <$> snd file) files.

(** The entries a file contributes to the two statement arrays. *)
Definition balanceEntry (file : list N * list (list N * list (list jsval)))
    : gmap string jsval :=
  let data := FileParser.parseExcelFile (fst file) (snd file) in
  FileParser.withYear (FileParser.year data)
    (FileParser.balanceSheet (FileParser.metrics data)).

Definition incomeEntry (file : list N * list (list N * list (list jsval)))
    : gmap string jsval :=
  let data := FileParser.parseExcelFile (fst file) (snd file) in
  FileParser.withYear (FileParser.year data)
    (FileParser.incomeStatement (FileParser.metrics data)).

(** Two floats written alike. *)
Definition sameFloat (x y : spec_float) : bool :=
  match x, y with
  | S754_zero a, S754_zero b => Bool.eqb a b
  | S754_infinity a, S754_infinity b => Bool.eqb a b
  | S754_nan, S754_nan => true
  | S754_finite a m e, S754_finite b n f => Bool.eqb a b && Pos.eqb m n && Z.eqb e f
  | _, _ => false
  end.

(** The integers from [lo], [n] of them. *)
Fixpoint zrange (lo : Z) (n : nat) : list Z :=
  match n with
  | O => []
  | S k => lo :: zrange (lo + 1) k
  end.

(** The comparator on files that the comparator on entries amounts to. *)
Definition fileOrder (file1 file2 : list N * list (list N * list (list jsval)))
    : spec_float :=
  sub (ofZ (fileYear (fst file1))) (ofZ (fileYear (fst file2))).

(** The statement [i] places before the last of an array. *)
Definition fromEnd (statements : list (gmap string jsval)) (i : nat)
    : option (gmap string jsval) :=
  reverse statements !! i.

(** The summary holds, under every name of [fields], the value the
    statement has for the metric. *)
Definition filledFrom (summary : gmap string jsval) (fields : list (string * string))
    (statement : gmap string jsval) : Prop :=
  forall to from, In (to, from) fields -> summary !! to = Some (prop statement from).

(** The summary holds no name of [fields]. *)
Definition withoutFields (summary : gmap string jsval) (fields : list (string * string))
    : Prop :=
  forall to from, In (to, from) fields -> summary !! to = None.

(** Two workbooks of one sheet and three uploads, one of them a file
    that cannot be read. *)
Definition bookDebt : list (list N * list (list jsval)) := [(L "Sheet1", gridDebt)].
Definition bookProfit : list (list N * list (list jsval)) := [(L "Sheet1", gridProfit)].
Definition filesTwoYears
    : list (list N * option (list (list N * list (list jsval)))) :=
  [ (L "2024年报表.xls", Some bookProfit);
    (L "损坏.xls", None);
    (L "2023年报表.xls", Some bookDebt) ].

(** ** The sheets of a workbook *)

(** The first element of [l] for which [f] returns a value. *)
Fixpoint firstFound {X Y : Type} (f : X -> option Y) (l : list X) : option Y :=
  match l with
  | [] => None
  | x :: l' =>
      match f x with
      | Some v => Some v
      | None => firstFound f l'
      end
  end.

(** A sheet that reports an owner equity of 500. *)
Definition gridEquity : list (list jsval) :=
  [ [VStr (L "所有者权益合计"); VNum (ofZ 500)] ].

(** The statements of two years, as [parseExcelFiles] leaves them. *)
Definition twoStatements : FileParser.Financial.allData :=
  {| FileParser.Financial.balanceSheet :=
       [ {[ "year"%string := VNum (ofZ 2023); "totalAssets"%string := VNum (ofZ 1000) ]};
         {[ "year"%string := VNum (ofZ 2024); "totalAssets"%string := VNum (ofZ 1500) ]} ];
     FileParser.Financial.incomeStatement :=
       [ {[ "year"%string := VNum (ofZ 2023) ]}; {[ "year"%string := VNum (ofZ 2024) ]} ];
     FileParser.Financial.cashFlow := [];
     FileParser.Financial.rawData := [] |}.

(** ** The two ways to fill a template *)

(** An identifier of the template library: a letter or an underscore,
    then letters, digits and underscores. *)
Definition isIdentifier (name : list N) : Prop :=
  match name with
  | [] => False
  | c :: rest =>
      (TemplateEngine.isLetter c || (c =? ch "_")%N) = true
      /\ Forall (fun u => (TemplateEngine.isLetter u || isDigit u || (u =? ch "_")%N) = true) rest
  end.

(** The text holds an identifier between braces. *)
Definition hasIdentifier (content : list N) : Prop :=
  exists a name b, content = a ++ ch "{" :: name ++ ch "}" :: b /\ isIdentifier name.

(** ** Escaping, read back *)

(** What [escapeXml] writes for one character. *)
Definition escapeChar (c : N) : list N :=
  if (c =? ch "&")%N then L "&amp;"
  else if (c =? ch "<")%N then L "&lt;"
  else if (c =? ch ">")%N then L "&gt;"
  else if (c =? 0x22)%N then L "&quot;"
  else if (c =? 0x27)%N then L "&apos;"
  else [c].

(** The five entities read back, as a reader of the document does;
    [skip] counts the characters of an entity still to pass. *)
Fixpoint unescapeFrom (skip : nat) (s : list N) : list N :=
  match s with
  | [] => []
  | c :: s' =>
      match skip with
      | S k => unescapeFrom k s'
      | O =>
          if (c =? ch "&")%N then
            if startsWith s' (L "amp;") then ch "&" :: unescapeFrom 4 s'
            else if startsWith s' (L "lt;") then ch "<" :: unescapeFrom 3 s'
            else if startsWith s' (L "gt;") then ch ">" :: unescapeFrom 3 s'
            else if startsWith s' (L "quot;") then 0x22%N :: unescapeFrom 5 s'
            else if startsWith s' (L "apos;") then 0x27%N :: unescapeFrom 5 s'
            else c :: unescapeFrom 0 s'
          else c :: unescapeFrom 0 s'
      end
  end.

Definition unescapeXml (s : list N) : list N := unescapeFrom 0 s.

(** The tags of a markup fragment: what [textOf] leaves out. *)
Fixpoint tagsOf (inTag : bool) (s : list N) : list N :=
  match s with
  | [] => []
  | c :: s' =>
      if (c =? ch "<")%N then c :: tagsOf true s'
      else if (c =? ch ">")%N then c :: tagsOf false s'
      else if inTag then c :: tagsOf inTag s'
      else tagsOf inTag s'
  end.

(** The float of a year from 1 to 9999: a positive mantissa [a * 2^-e]
    at an exponent [e] from -52 to -39. *)
Definition shapeOk (a : Z) : bool :=
  match JsNum.ofZ a with
  | S754_finite false p e => ((-52 <=? e) && (e <=? -39) && (Zpos p =? a * 2 ^ (- e)))%Z
  | _ => false
  end.

(** Whether a fragment read from outside ([false]) or inside ([true]) a
    tag ends inside a tag. *)
Definition tagState (inTag : bool) (s : list N) : bool :=
  fold_left
    (fun st c => if (c =? ch "<")%N then true else if (c =? ch ">")%N then false else st)
    s inTag.

(** The end of every paragraph, and what stands before its text. *)
Definition paragraphTail : list N :=
  L "</w:t>
                </w:r>
            </w:p>
        ".

Definition paragraphHead (bold : bool) (align : TemplateEngine.alignment) : list N :=
  let empty := TemplateEngine.createParagraph [] bold align in
  take (length empty - length paragraphTail) empty.

(** A string made by [createParagraph]. *)
Definition isParagraph (p : list N) : Prop :=
  exists text bold align, p = TemplateEngine.createParagraph text bold align.

(** ** The API service *)

(** What a field of the page gets from a call of [generateContent]:
    the text it returned, and the empty string when it threw. *)
Definition textOr (o : Net.thrown + list N) : list N :=
  match o with
  | inr text => text
  | inl _ => []
  end.

(** The timer that follows the call: 500 ms when it returned. *)
Definition pause (o : Net.thrown + list N) : N :=
  match o with
  | inr _ => 500%N
  | inl _ => 0%N
  end.

(** A function that awaits nothing: whatever the network, it makes no
    request and sets no timer. *)
Definition immediate {A : Type} (p : Net.io A) : Prop :=
  forall net sent waited,
    Net.runFrom net p sent waited
    = {| Net.returned := Net.returned (Net.run (fun _ _ => Net.NoAnswer) p);
         Net.requests := sent;
         Net.slept := waited |}.

(** ** The proxy server *)

(** An upstream that gives a handler nothing to read: no answer, or an
    answer whose body is no JSON. *)
Definition unreadable (a : Net.answer) : Prop :=
  match a with
  | Net.NoAnswer => True
  | Net.Answer r => Net.parsed r = None
  end.

(** The replies a handler makes up itself. *)
Definition ownReply (messageOf : Net.thrown -> Net.json) (what : list N)
    (r : Proxy.reply) : Prop :=
  r = Proxy.keyRequired \/ exists e, r = Proxy.failed messageOf what e.

(** The reply for an upstream answer that could be read. *)
Definition passedOn (u : Net.response) (data : Net.json) : Proxy.reply :=
  {| Proxy.code := if Net.ok u then 200%N else Net.status u; Proxy.sent := data |}.

(** A service with both keys, and a page request as a handler may
    receive it. *)
Definition serviceWithKeys : ApiService.service :=
  {| ApiService.proxyServer := VStr (L "http://localhost:3000");
     ApiService.deepseekApiKey := VStr (L "sk-1");
     ApiService.siliconflowApiKey := VStr (L "sk-2") |}.

Definition chatRequest : Proxy.incoming :=
  {| Proxy.apiKeyHeader := Some (L "sk-1");
     Proxy.requestBody := Net.JObj [ (L "messages", Net.JArr []) ] |}.

(** An upstream that refuses the request, the way the API words it. *)
Definition refusal : Net.json :=
  Net.JObj [ (L "error",
               Net.JObj [ (L "message", Net.JStr (L "Insufficient Balance")) ]) ].

Definition refused : Net.response :=
  {| Net.status := 402; Net.parsed := Some refusal |}.

(** ** The settings *)

(** An input of the settings dialog that is missing or left empty. *)
Definition leftEmpty (document : UIController.page) (id : string) : Prop :=
  document !! id = None \/ document !! id = Some [].

(** The service and the storage after the settings were saved from
    each page in turn, the service having been constructed from the
    storage. *)
Definition afterSaves (store : ApiService.storage) (pages : list UIController.page)
    : ApiService.service * ApiService.storage :=
  fold_left (fun state document => UIController.saveSettings document state) pages
    (ApiService.constructor store, store).

(** A storage with a key, and a dialog in which the key was cleared. *)
Definition storeWithKey : ApiService.storage :=
  {[ "deepseekApiKey"%string := L "sk-1" ]}.

Definition clearedDialog : UIController.page :=
  {[ "deepseekApiKey"%string := []; "proxyServer"%string := L "http://10.0.0.1:3000" ]}.

(** ** The labels of the replacement passes *)

(** [label] stands somewhere in [s]. *)
Definition occurs (label s : list N) : Prop := exists a b, s = a ++ label ++ b.

(** A body that names no label of any pass. *)
Definition plainBody : list N :=
  L "<w:body><w:p><w:r><w:t>Annual report: ____</w:t></w:r></w:p></w:body>".

(** A reply with the status 200 and the body [data]. *)
Definition replied (data : Net.json) : Net.answer :=
  Net.Answer {| Net.status := 200; Net.parsed := Some data |}.

(** ** The prompts *)

(** The fields of the form that the context block of a prompt shows. *)
Definition contextFields : list string :=
  [ "companyName"; "establishDate"; "registeredCapital"; "industry"; "companySize";
    "businessScope"; "totalAssetsEnd"; "totalLiabilitiesEnd"; "ownerEquityEnd";
    "revenueCurrent"; "netProfitCurrent"; "debtRatioEnd"; "creditType"; "creditAmount";
    "creditPeriod"; "creditPurpose" ]%string.

(** What the form holds under an id, or 未提供. *)
Definition typedOrMissing (document : UIController.page) (id : string) : list N :=
  match document !! id with
  | Some (c :: s) => c :: s
  | _ => L "未提供"
  end.

(** The request for a field with the prompt [prompt], the context
    being the data of the form. *)
Definition promptRequest (this : ApiService.service) (prompt : list N)
    (context : gmap string jsval) : Net.request :=
  {| Net.url := toStr (ApiService.proxyServer this) ++ L "/api/deepseek/chat";
     Net.method := L "POST";
     Net.headers :=
       [ (L "Content-Type", L "application/json");
         (L "X-Api-Key", toStr (ApiService.deepseekApiKey this)) ];
     Net.body :=
       Some (Net.JObj
         [ (L "model", Net.JStr (L "deepseek-chat"));
           (L "messages",
             Net.JArr
               [ Net.JObj [ (L "role", Net.JStr (L "system"));
                            (L "content", Net.JStr ApiService.systemPrompt) ];
                 Net.JObj [ (L "role", Net.JStr (L "user"));
                            (L "content",
                              Net.JStr (prompt ++ [0x0A%N]
                                        ++ ApiService.contextText context)) ] ]);
           (L "temperature", Net.JNum (ofDecimal false 7 (-1)));
           (L "max_tokens", Net.JNum (ofZ 4096));
           (L "stream", Net.JBool false) ]) |}.

End Spec.

(* ===================================================================== *)
(** * The numeric normalizer *)
(* ===================================================================== *)

Section ParseNumber.
Import JsStr JsNum JsVal FileParser Spec.

(** The class of the cleaning pattern holds the characters the
    specification lists, and no other. *)
Lemma stripped_isFormatting c : stripped c <-> isFormatting c = true.
Proof.
  unfold isFormatting, isWhiteSpace.
  change (L "，元万千百") with [0xFF0C; 0x5143; 0x4E07; 0x5343; 0x767E]%N.
  change (ch ",") with 0x2C%N.
  cbn [existsb].
  rewrite !orb_true_iff, !andb_true_iff, !N.eqb_eq, !N.leb_le.
  unfold stripped, whiteSpaceChar. intuition discriminate.
Qed.

Lemma clean_Formatted s s' : Formatted s s' -> clean s' = clean s.
Proof.
  induction 1 as [|c s s' _ IH|c s s' Hc _ IH]; simpl.
  - reflexivity.
  - unfold clean in *. simpl. rewrite IH. reflexivity.
  - apply stripped_isFormatting in Hc. unfold clean in *. simpl. rewrite Hc. simpl. exact IH.
Qed.

(** What the cleaning removes are characters of the list. *)
Lemma Formatted_clean s : Formatted (clean s) s.
Proof.
  unfold clean. induction s as [|c s IH]; cbn [List.filter]; [constructor|].
  destruct (isFormatting c) eqn:E; cbn [negb].
  - apply Formatted_insert; [apply stripped_isFormatting; exact E|exact IH].
  - apply Formatted_keep. exact IH.
Qed.

Lemma clean_not_stripped s : Forall (fun c => ~ stripped c) (clean s).
Proof.
  unfold clean. induction s as [|c s IH]; cbn [List.filter]; [constructor|].
  destruct (isFormatting c) eqn:E; cbn [negb]; [exact IH|].
  constructor; [|exact IH]. intros H. apply stripped_isFormatting in H. congruence.
Qed.

Lemma clean_no_formatting s : Forall (fun c => isFormatting c = false) (clean s).
Proof.
  unfold clean. induction s as [|c s IH]; simpl.
  - constructor.
  - destruct (isFormatting c) eqn:E; simpl; [exact IH|].
    constructor; [exact E|exact IH].
Qed.

Lemma parseNumber_string s :
  parseNumber (VStr s) =
  match s with
  | [] => None
  | _ => let num := parseFloat (clean s) in if isNaN num then None else Some num
  end.
Proof.
  destruct s as [|c s]; [reflexivity|]. simpl.
  destruct (isNaN _); reflexivity.
Qed.

Lemma Formatted_from_nil s' : Formatted [] s' -> clean s' = [].
Proof. intros H. apply clean_Formatted in H. exact H. Qed.

Lemma parseNumber_Formatted s s' :
  Formatted s s' -> parseNumber (VStr s') = parseNumber (VStr s).
Proof.
  intros H. rewrite !parseNumber_string.
  pose proof (clean_Formatted _ _ H) as Hc.
  destruct s as [|a s], s' as [|a' s'].
  - reflexivity.
  - rewrite Hc. reflexivity.
  - inversion H.
  - rewrite Hc. reflexivity.
Qed.

(** C5.  The numeric normalizer returns a finite number unchanged; on a
    string it removes the characters the specification lists, ASCII and
    full-width commas, white space and the glyphs 万 元 千 百, all of
    them and nothing else, and parses what is left, so that a formatted
    string and its unformatted literal give the same value,
    "1,234,567元" giving 1234567; the empty string, null and undefined
    give null, not zero. *)
Theorem parseNumber_normalizes (x : spec_float) (s s' : list N) :
  isFinite x = true ->
  Formatted s s' ->
  parseNumber (VNum x) = Some x
  /\ clean s' = clean s
  /\ Formatted (clean s') s'
  /\ Forall (fun c => ~ stripped c) (clean s')
  /\ Forall (fun c => isFormatting c = false) (clean s')
  /\ parseNumber (VStr s') =
       match s' with
       | [] => None
       | _ => let num := parseFloat (clean s') in if isNaN num then None else Some num
       end
  /\ parseNumber (VStr s') = parseNumber (VStr s)
  /\ parseNumber (VStr (L "1,234,567元")) = Some (ofZ 1234567)
  /\ parseNumber (VStr (L "1234567")) = Some (ofZ 1234567)
  /\ parseNumber (VStr (L " 1，234 567万千百")) = Some (ofZ 1234567)
  /\ parseNumber (VStr []) = None
  /\ parseNumber VNull = None
  /\ parseNumber VUndefined = None.
Proof.
  intros Hx HF.
  split; [destruct x; try discriminate; reflexivity|].
  split; [exact (clean_Formatted _ _ HF)|].
  split; [apply Formatted_clean|].
  split; [apply clean_not_stripped|].
  split; [apply clean_no_formatting|].
  split; [apply parseNumber_string|].
  split; [exact (parseNumber_Formatted _ _ HF)|].
  repeat split; vm_compute; reflexivity.
Qed.

(** A string in which every character of the list occurs. *)
Lemma Formatted_example : Formatted (L "1234567") (L " 1，234,567万元千百").
Proof.
  vm_compute.
  repeat first
    [ apply Formatted_nil
    | apply Formatted_keep
    | apply Formatted_insert; [apply stripped_isFormatting; vm_compute; reflexivity|] ].
Qed.

Lemma parseNumber_normalizes_witness :
  parseNumber (VNum (ofZ 1500)) = Some (ofZ 1500)
  /\ parseNumber (VStr (L " 1，234,567万元千百")) = parseNumber (VStr (L "1234567")).
Proof.
  pose proof (parseNumber_normalizes (ofZ 1500) (L "1234567") (L " 1，234,567万元千百")
                eq_refl Formatted_example) as H.
  split; [exact (proj1 H)|].
  exact (proj1 (proj2 (proj2 (proj2 (proj2 (proj2 (proj2 H))))))).
Defined.

(** C10.  A number input is rejected only when it is NaN: both infinities
    are returned as they are. *)
Theorem parseNumber_nonfinite :
  parseNumber (VNum S754_nan) = None
  /\ parseNumber (VNum (S754_infinity false)) = Some (S754_infinity false)
  /\ parseNumber (VNum (S754_infinity true)) = Some (S754_infinity true)
  /\ (forall x, parseNumber (VNum x) = if isNaN x then None else Some x)
  /\ (forall x, parseNumber (VNum x) = None <-> x = S754_nan).
Proof.
  repeat split; try reflexivity.
  - destruct x; reflexivity.
  - destruct x; simpl; intros; congruence.
  - intros ->. reflexivity.
Qed.

End ParseNumber.

(* ===================================================================== *)
(** * The spreadsheet fact extractor *)
(* ===================================================================== *)

Section Extractor.
Import JsStr JsNum JsVal FileParser Spec.

Implicit Types (sheet sh : gmap string jsval) (key k : string)
  (sheetData sd : list (list jsval)) (row : list jsval) (r : result).

(** ** The value search *)

Lemma parseNumber_not_nan c v : parseNumber c = Some v -> isNaN v = false.
Proof.
  destruct c as [| |b|x|s]; simpl; try discriminate.
  - destruct (isNaN x) eqn:E; simpl; [discriminate|]. intros [= <-]. exact E.
  - destruct s as [|a s]; [discriminate|].
    destruct (isNaN (parseFloat _)) eqn:E; simpl; [discriminate|].
    intros [= <-]. exact E.
Qed.

Lemma strictEq_zero v : strictEq v (S754_zero false) = isZero v.
Proof. destruct v as [s|s| |s m e]; try destruct s; reflexivity. Qed.

Lemma firstNumber_Some cells v :
  firstNumber cells = Some v <->
  exists pre c post,
    cells = pre ++ c :: post /\ Forall skipped pre
    /\ parseNumber c = Some v /\ isZero v = false.
Proof.
  split.
  - induction cells as [|c cells IH]; simpl; [discriminate|].
    destruct (parseNumber c) as [z|] eqn:Ec.
    + rewrite strictEq_zero. destruct (isZero z) eqn:Ez; simpl.
      * intros H. destruct (IH H) as (pre & c' & post & -> & Hp & Hc & Hv).
        exists (c :: pre), c', post. repeat split; try assumption.
        constructor; [right; eauto|assumption].
      * intros [= <-]. exists [], c, cells. repeat split; auto.
    + intros H. destruct (IH H) as (pre & c' & post & -> & Hp & Hc & Hv).
      exists (c :: pre), c', post. repeat split; try assumption.
      constructor; [left; assumption|assumption].
  - intros (pre & c & post & -> & Hp & Hc & Hv).
    induction Hp as [|a pre Ha _ IH]; simpl.
    + rewrite Hc, strictEq_zero, Hv. reflexivity.
    + destruct Ha as [Ha|(z & Ha & Hz)]; rewrite Ha; [exact IH|].
      rewrite strictEq_zero, Hz. exact IH.
Qed.

Lemma firstNumber_None cells :
  firstNumber cells = None <-> Forall skipped cells.
Proof.
  split.
  - induction cells as [|c cells IH]; simpl; [constructor|].
    destruct (parseNumber c) as [z|] eqn:Ec.
    + rewrite strictEq_zero. destruct (isZero z) eqn:Ez; simpl; [|discriminate].
      intros H. constructor; [right; eauto|auto].
    + intros H. constructor; [left; assumption|auto].
  - induction 1 as [|c cells Hc _ IH]; simpl; [reflexivity|].
    destruct Hc as [Hc|(z & Hc & Hz)]; rewrite Hc; [exact IH|].
    rewrite strictEq_zero, Hz. exact IH.
Qed.

Lemma firstNumber_truthy cells v :
  firstNumber cells = Some v -> isZero v = false /\ isNaN v = false.
Proof.
  intros H. apply firstNumber_Some in H.
  destruct H as (pre & c & post & _ & _ & Hc & Hv).
  split; [exact Hv|exact (parseNumber_not_nan _ _ Hc)].
Qed.

Lemma truthy_number v : isZero v = false -> isNaN v = false -> toBoolean (VNum v) = true.
Proof. intros H1 H2. simpl. rewrite H1, H2. reflexivity. Qed.

Lemma searchAt_truthy sd i col row v :
  searchAt sd i col row = Some v -> toBoolean (VNum v) = true.
Proof.
  unfold searchAt. intros H.
  destruct (firstNumber (drop (col + 1) row)) as [w|] eqn:E1.
  - injection H as <-. destruct (firstNumber_truthy _ _ E1). now apply truthy_number.
  - destruct (sd !! (i + 1)%nat) as [next|]; [|discriminate].
    destruct (firstNumber_truthy _ _ H). now apply truthy_number.
Qed.

Lemma isSet_store_eq key found sheet :
  isSet (store key found sheet) key =
  match found with Some v => toBoolean (VNum v) | None => isSet sheet key end.
Proof.
  unfold isSet, prop, store. destruct found; [|reflexivity].
  rewrite lookup_insert_eq. reflexivity.
Qed.

(** On a key that is not set, the search is the right-then-below search. *)
Lemma lookFor_unset sd i col row key sheet :
  isSet sheet key = false ->
  lookFor sd i col row key sheet = store key (searchAt sd i col row) sheet.
Proof.
  intros Hk. unfold lookFor, searchAt.
  fold (isSet (store key (firstNumber (drop (col + 1) row)) sheet) key).
  rewrite isSet_store_eq.
  destruct (firstNumber (drop (col + 1) row)) as [v|] eqn:E1.
  - destruct (firstNumber_truthy _ _ E1) as [H1 H2].
    rewrite (truthy_number _ H1 H2). reflexivity.
  - rewrite Hk. simpl.
    destruct (sd !! (i + 1)%nat) as [next|] eqn:En.
    + apply lookup_lt_Some in En.
      destruct (Nat.ltb_spec (i + 1) (length sd)); [reflexivity|lia].
    + destruct (i + 1 <? length sd)%nat; reflexivity.
Qed.

(** ** One key through the loops *)

(** Nothing was found and nothing changed: the law holds whichever way
    the key stands. *)
Ltac law_kept := unfold law; destruct (toBoolean _); reflexivity.

Lemma law_fold {X : Type} (get : X -> option jsval) (F : X -> nat -> X)
    (a : nat -> option spec_float) :
  (forall j v, a j = Some v -> toBoolean (VNum v) = true) ->
  (forall x j, law (get x) (get (F x j)) (a j)) ->
  forall l x, law (get x) (get (fold_left F l x)) (firstSome a l).
Proof.
  intros Ha HF l. induction l as [|j l IH]; intros x; simpl.
  - law_kept.
  - specialize (IH (F x j)). specialize (HF x j). unfold law in *.
    rewrite IH, HF. clear IH HF.
    destruct (toBoolean (default VUndefined (get x))) eqn:Ex.
    + rewrite Ex. reflexivity.
    + destruct (a j) as [v|] eqn:Ej.
      * cbn [from_option id]. rewrite (Ha _ _ Ej). reflexivity.
      * rewrite Ex. reflexivity.
Qed.

Lemma firstSome_truthy (a : nat -> option spec_float) l v :
  (forall j v, a j = Some v -> toBoolean (VNum v) = true) ->
  firstSome a l = Some v -> toBoolean (VNum v) = true.
Proof.
  intros Ha. induction l as [|j l IH]; simpl; [discriminate|].
  destruct (a j) as [w|] eqn:Ej; [|exact IH].
  intros [= <-]. eauto.
Qed.

Lemma checkTerms_lookup terms sd i col row text sheet k :
  law (sheet !! k) (checkTerms terms sd i col row text sheet !! k)
      (if hasLabel terms k text then searchAt sd i col row else None).
Proof.
  unfold checkTerms. revert sheet.
  induction terms as [|[t key'] terms IH]; intros sheet; simpl.
  - law_kept.
  - match goal with |- law _ (fold_left _ _ ?s1 !! _) _ => set (sheet1 := s1) end.
    specialize (IH sheet1). unfold law in *. rewrite IH. clear IH.
    fold (prop sheet1 k) (prop sheet k). fold (isSet sheet1 k) (isSet sheet k).
    destruct (decide (key' = k)) as [->|Hne].
    + rewrite bool_decide_eq_true_2 by reflexivity. simpl.
      subst sheet1. fold (isSet sheet k).
      destruct (isSet sheet k) eqn:Ek.
      * rewrite andb_false_r. rewrite Ek. reflexivity.
      * rewrite andb_true_r.
        destruct (includes text t) eqn:Ei; simpl.
        -- rewrite (lookFor_unset _ _ _ _ _ _ Ek), isSet_store_eq.
           destruct (searchAt sd i col row) as [v|] eqn:Es.
           ++ rewrite (searchAt_truthy _ _ _ _ _ Es). unfold store.
              rewrite lookup_insert_eq. reflexivity.
           ++ rewrite Ek. destruct (hasLabel terms k text); reflexivity.
        -- rewrite Ek. reflexivity.
    + rewrite bool_decide_eq_false_2 by exact Hne. simpl.
      assert (Hsame : sheet1 !! k = sheet !! k).
      { subst sheet1. fold (isSet sheet key').
        destruct (includes text t && negb (isSet sheet key')) eqn:E; [|reflexivity].
        apply andb_prop in E. destruct E as [_ E].
        apply negb_true_iff in E.
        rewrite (lookFor_unset _ _ _ _ _ _ E). unfold store.
        destruct (searchAt sd i col row); [|reflexivity].
        apply lookup_insert_ne. exact Hne. }
      unfold isSet, prop. rewrite Hsame. reflexivity.
Qed.

Lemma hasLabel_nil terms k :
  forallb (fun tk => match fst tk with [] => false | _ => true end) terms = true ->
  hasLabel terms k [] = false.
Proof.
  unfold hasLabel. induction terms as [|[t key'] terms IH]; simpl; [reflexivity|].
  intros H. apply andb_prop in H. destruct H as [Ht H].
  destruct t; [discriminate|].
  simpl. rewrite andb_false_r. simpl. exact (IH H).
Qed.

Lemma attempt_truthy terms sd k i row j v :
  attempt terms sd k i row j = Some v -> toBoolean (VNum v) = true.
Proof.
  unfold attempt. destruct (hasLabel _ _ _); [|discriminate].
  apply searchAt_truthy.
Qed.

Lemma rowHit_truthy terms sd k i v :
  rowHit terms sd k i = Some v -> toBoolean (VNum v) = true.
Proof.
  unfold rowHit. destruct (sd !! i) as [row|]; [|discriminate].
  apply firstSome_truthy. intros j w. apply attempt_truthy.
Qed.

Lemma firstHit_truthy terms sd k v :
  firstHit terms sd k = Some v -> toBoolean (VNum v) = true.
Proof. apply firstSome_truthy. intros j w. apply rowHit_truthy. Qed.

Lemma scanCell_balance sd i row r col k :
  law (balanceSheet r !! k) (balanceSheet (scanCell sd i row r col) !! k)
      (attempt balanceSheetTerms sd k i row col).
Proof.
  unfold scanCell, attempt.
  destruct (cellText (default VUndefined (row !! col))) as [|c text] eqn:Et.
  - rewrite hasLabel_nil by (vm_compute; reflexivity).
    law_kept.
  - cbn [balanceSheet incomeStatement]. apply checkTerms_lookup.
Qed.

Lemma scanCell_income sd i row r col k :
  law (incomeStatement r !! k) (incomeStatement (scanCell sd i row r col) !! k)
      (attempt incomeTerms sd k i row col).
Proof.
  unfold scanCell, attempt.
  destruct (cellText (default VUndefined (row !! col))) as [|c text] eqn:Et.
  - rewrite hasLabel_nil by (vm_compute; reflexivity).
    law_kept.
  - cbn [balanceSheet incomeStatement]. apply checkTerms_lookup.
Qed.

Lemma scanRow_balance sd r i k :
  law (balanceSheet r !! k) (balanceSheet (scanRow sd r i) !! k)
      (rowHit balanceSheetTerms sd k i).
Proof.
  unfold scanRow, rowHit. destruct (sd !! i) as [row|].
  - apply (law_fold (fun x => balanceSheet x !! k)).
    + intros j v. apply attempt_truthy.
    + intros x j. apply scanCell_balance.
  - law_kept.
Qed.

Lemma scanRow_income sd r i k :
  law (incomeStatement r !! k) (incomeStatement (scanRow sd r i) !! k)
      (rowHit incomeTerms sd k i).
Proof.
  unfold scanRow, rowHit. destruct (sd !! i) as [row|].
  - apply (law_fold (fun x => incomeStatement x !! k)).
    + intros j v. apply attempt_truthy.
    + intros x j. apply scanCell_income.
  - law_kept.
Qed.

(** The whole search, key by key. *)
Lemma scanSheet_balance sd r k :
  law (balanceSheet r !! k) (balanceSheet (scanSheet sd r) !! k)
      (firstHit balanceSheetTerms sd k).
Proof.
  unfold scanSheet, firstHit.
  apply (law_fold (fun x => balanceSheet x !! k)).
  - intros j v. apply rowHit_truthy.
  - intros x j. apply scanRow_balance.
Qed.

Lemma scanSheet_income sd r k :
  law (incomeStatement r !! k) (incomeStatement (scanSheet sd r) !! k)
      (firstHit incomeTerms sd k).
Proof.
  unfold scanSheet, firstHit.
  apply (law_fold (fun x => incomeStatement x !! k)).
  - intros j v. apply rowHit_truthy.
  - intros x j. apply scanRow_income.
Qed.

End Extractor.

Section ExtractorClaims.
Import JsStr JsNum JsVal FileParser Spec.

Implicit Types (sheet sh : gmap string jsval) (key k : string)
  (sheetData sd : list (list jsval)) (row : list jsval) (r : result).

Lemma law_unset before after found :
  law before after found -> toBoolean (default VUndefined before) = false ->
  after = match found with Some v => Some (VNum v) | None => before end.
Proof. unfold law. intros -> ->. reflexivity. Qed.

Lemma law_set before after found :
  law before after found -> toBoolean (default VUndefined before) = true ->
  after = before.
Proof. unfold law. intros -> ->. reflexivity. Qed.

(** C1.  When the text of a cell carries a label whose key is not yet
    set, the key receives the first cell to the right in the row that
    parses to a non-zero number, else the first such cell of the next
    row read from the left; cells that do not parse or parse to zero are
    passed over, and without a value the key is left as it was.  Over a
    whole grid the key ends with the value found from the first label
    cell from which a value is found. *)
Theorem label_value_search sd r key :
  (forall i col row sheet,
      isSet sheet key = false ->
      lookFor sd i col row key sheet = store key (searchAt sd i col row) sheet)
  /\ (forall i col row,
      searchAt sd i col row =
      match firstNumber (drop (col + 1) row) with
      | Some v => Some v
      | None => match sd !! (i + 1)%nat with
                | Some nextRow => firstNumber nextRow
                | None => None
                end
      end)
  /\ (forall cells v,
      firstNumber cells = Some v <->
      exists pre c post,
        cells = pre ++ c :: post /\ Forall skipped pre
        /\ parseNumber c = Some v /\ isZero v = false)
  /\ (forall cells, firstNumber cells = None <-> Forall skipped cells)
  /\ (isSet (balanceSheet r) key = false ->
      balanceSheet (scanSheet sd r) !! key =
      match firstHit balanceSheetTerms sd key with
      | Some v => Some (VNum v)
      | None => balanceSheet r !! key
      end)
  /\ (isSet (incomeStatement r) key = false ->
      incomeStatement (scanSheet sd r) !! key =
      match firstHit incomeTerms sd key with
      | Some v => Some (VNum v)
      | None => incomeStatement r !! key
      end)
  /\ balanceSheet (scanSheet gridRight emptyResult) !! "totalAssets"%string
     = Some (VNum (ofZ 1500))
  /\ balanceSheet (scanSheet gridBelow emptyResult) !! "totalAssets"%string
     = Some (VNum (ofZ 1500)).
Proof.
  split; [intros; now apply lookFor_unset|].
  split; [reflexivity|].
  split; [apply firstNumber_Some|].
  split; [apply firstNumber_None|].
  split; [intros H; exact (law_unset _ _ _ (scanSheet_balance sd r key) H)|].
  split; [intros H; exact (law_unset _ _ _ (scanSheet_income sd r key) H)|].
  split; vm_compute; reflexivity.
Qed.

Lemma label_value_search_witness :
  lookFor gridRight 1 0 [VStr (L "资产总计"); VUndefined; VNum (ofZ 1500)]
    "totalAssets" ∅
  = <["totalAssets"%string := VNum (ofZ 1500)]> ∅.
Proof.
  destruct (label_value_search gridRight emptyResult "totalAssets") as [H _].
  rewrite H; [|reflexivity]. vm_compute. reflexivity.
Defined.

(** ** Idempotence *)

Lemma result_eq r1 r2 :
  balanceSheet r1 = balanceSheet r2 -> incomeStatement r1 = incomeStatement r2 ->
  r1 = r2.
Proof. destruct r1, r2. simpl. intros -> ->. reflexivity. Qed.

(** A level of the loops applied twice gives for every key what it gives
    applied once. *)
Lemma law_twice before mid after found :
  (forall v, found = Some v -> toBoolean (VNum v) = true) ->
  law before mid found -> law mid after found -> after = mid.
Proof.
  unfold law. intros Hf -> ->.
  destruct (toBoolean (default VUndefined before)) eqn:E.
  - rewrite E. reflexivity.
  - destruct found as [v|].
    + cbn [from_option id]. rewrite (Hf v eq_refl). reflexivity.
    + rewrite E. reflexivity.
Qed.

Lemma scanSheet_idempotent sd r : scanSheet sd (scanSheet sd r) = scanSheet sd r.
Proof.
  apply result_eq; apply map_eq; intros k.
  - eapply law_twice; [|apply scanSheet_balance|apply scanSheet_balance].
    intros v. apply firstHit_truthy.
  - eapply law_twice; [|apply scanSheet_income|apply scanSheet_income].
    intros v. apply firstHit_truthy.
Qed.

(** The search at a key reads the record at that key only. *)
Lemma scanSheet_balance_local sd r r' k :
  balanceSheet r !! k = balanceSheet r' !! k ->
  balanceSheet (scanSheet sd r) !! k = balanceSheet (scanSheet sd r') !! k.
Proof.
  intros H. pose proof (scanSheet_balance sd r k) as H1.
  pose proof (scanSheet_balance sd r' k) as H2.
  unfold law in *. rewrite H1, H2, H. reflexivity.
Qed.

(** ** The derived metrics *)

Lemma debtRatioStep_income r : incomeStatement (debtRatioStep r) = incomeStatement r.
Proof. unfold debtRatioStep. destruct (_ && _); reflexivity. Qed.
Lemma liquidityStep_income r : incomeStatement (liquidityStep r) = incomeStatement r.
Proof. unfold liquidityStep. destruct (_ && _); reflexivity. Qed.
Lemma roeStep_income r : incomeStatement (roeStep r) = incomeStatement r.
Proof. unfold roeStep. destruct (_ && _); reflexivity. Qed.
Lemma equityStep_income r : incomeStatement (equityStep r) = incomeStatement r.
Proof. unfold equityStep. destruct (_ && _); reflexivity. Qed.

Lemma deriveMetrics_income r : incomeStatement (deriveMetrics r) = incomeStatement r.
Proof.
  unfold deriveMetrics.
  rewrite equityStep_income, roeStep_income, liquidityStep_income, debtRatioStep_income.
  reflexivity.
Qed.

Lemma debtRatioStep_other r k :
  k <> "debtRatio"%string -> balanceSheet (debtRatioStep r) !! k = balanceSheet r !! k.
Proof.
  intros Hk. unfold debtRatioStep. destruct (_ && _); [|reflexivity].
  cbn [balanceSheet]. apply lookup_insert_ne. congruence.
Qed.

Lemma liquidityStep_other r k :
  k <> "currentRatio"%string -> k <> "quickRatio"%string ->
  balanceSheet (liquidityStep r) !! k = balanceSheet r !! k.
Proof.
  intros H1 H2. unfold liquidityStep. destruct (_ && _); [|reflexivity].
  cbn [balanceSheet]. rewrite !lookup_insert_ne by congruence. reflexivity.
Qed.

Lemma roeStep_other r k :
  k <> "roe"%string -> balanceSheet (roeStep r) !! k = balanceSheet r !! k.
Proof.
  intros Hk. unfold roeStep. destruct (_ && _); [|reflexivity].
  cbn [balanceSheet]. apply lookup_insert_ne. congruence.
Qed.

Lemma equityStep_other r k :
  k <> "ownerEquity"%string -> balanceSheet (equityStep r) !! k = balanceSheet r !! k.
Proof.
  intros Hk. unfold equityStep. destruct (_ && _ && _); [|reflexivity].
  cbn [balanceSheet]. apply lookup_insert_ne. congruence.
Qed.

Lemma deriveMetrics_other r k :
  ~ In k derivedKeys -> balanceSheet (deriveMetrics r) !! k = balanceSheet r !! k.
Proof.
  intros Hk. unfold deriveMetrics.
  rewrite equityStep_other, roeStep_other, liquidityStep_other, debtRatioStep_other;
    [reflexivity|..]; intros ->; apply Hk; unfold derivedKeys; simpl; tauto.
Qed.

Lemma before_equity r k :
  k <> "debtRatio"%string -> k <> "currentRatio"%string ->
  k <> "quickRatio"%string -> k <> "roe"%string ->
  balanceSheet (roeStep (liquidityStep (debtRatioStep r))) !! k = balanceSheet r !! k.
Proof.
  intros. rewrite roeStep_other, liquidityStep_other, debtRatioStep_other by assumption.
  reflexivity.
Qed.

Lemma prop_eq (m1 m2 : gmap string jsval) k : m1 !! k = m2 !! k -> prop m1 k = prop m2 k.
Proof. unfold prop. intros ->. reflexivity. Qed.

Lemma deriveMetrics_equity r :
  let bs := balanceSheet r in
  balanceSheet (deriveMetrics r) !! "ownerEquity"%string =
  if isSet bs "totalAssets" && isSet bs "totalLiabilities" && negb (isSet bs "ownerEquity")
  then Some (VNum (sub (toNumber (prop bs "totalAssets"))
                       (toNumber (prop bs "totalLiabilities"))))
  else bs !! "ownerEquity"%string.
Proof.
  intros bs. unfold deriveMetrics, equityStep.
  set (r3 := roeStep (liquidityStep (debtRatioStep r))).
  assert (HA : prop (balanceSheet r3) "totalAssets" = prop bs "totalAssets")
    by (apply prop_eq, before_equity; discriminate).
  assert (HL : prop (balanceSheet r3) "totalLiabilities" = prop bs "totalLiabilities")
    by (apply prop_eq, before_equity; discriminate).
  assert (HE : balanceSheet r3 !! "ownerEquity"%string = bs !! "ownerEquity"%string)
    by (apply before_equity; discriminate).
  rewrite HA, HL, (prop_eq _ _ _ HE). unfold isSet.
  destruct (_ && _ && _).
  - cbn [balanceSheet]. apply lookup_insert_eq.
  - exact HE.
Qed.

(** Re-running the extraction leaves every label key as the first run
    left it. *)
Lemma rerun_income sd r k :
  incomeStatement (extractFinancialData sd (extractFinancialData sd r)) !! k
  = incomeStatement (extractFinancialData sd r) !! k.
Proof.
  unfold extractFinancialData. rewrite !deriveMetrics_income.
  pose proof (scanSheet_income sd (deriveMetrics (scanSheet sd r)) k) as H2.
  rewrite deriveMetrics_income in H2.
  pose proof (scanSheet_income sd (scanSheet sd r) k) as H1.
  rewrite scanSheet_idempotent in H1.
  unfold law in *. rewrite H2. symmetry. exact H1.
Qed.

Lemma rerun_scan_other sd r k :
  ~ In k derivedKeys ->
  balanceSheet (scanSheet sd (deriveMetrics (scanSheet sd r))) !! k
  = balanceSheet (scanSheet sd r) !! k.
Proof.
  intros Hk.
  rewrite (scanSheet_balance_local sd _ (scanSheet sd r) k)
    by (apply deriveMetrics_other; exact Hk).
  rewrite scanSheet_idempotent. reflexivity.
Qed.

Lemma rerun_balance_other sd r k :
  ~ In k derivedKeys ->
  balanceSheet (extractFinancialData sd (extractFinancialData sd r)) !! k
  = balanceSheet (extractFinancialData sd r) !! k.
Proof.
  intros Hk. unfold extractFinancialData.
  rewrite !(deriveMetrics_other _ k Hk). apply rerun_scan_other, Hk.
Qed.

Lemma not_derived k :
  k = "totalAssets"%string \/ k = "totalLiabilities"%string -> ~ In k derivedKeys.
Proof. intros [->| ->]; unfold derivedKeys; simpl; intuition discriminate. Qed.

Lemma rerun_equity sd r :
  balanceSheet (extractFinancialData sd (extractFinancialData sd r)) !! "ownerEquity"%string
  = balanceSheet (extractFinancialData sd r) !! "ownerEquity"%string.
Proof.
  unfold extractFinancialData.
  set (s1 := scanSheet sd r). set (e1 := deriveMetrics s1).
  set (s2 := scanSheet sd e1).
  assert (HA : prop (balanceSheet s2) "totalAssets" = prop (balanceSheet s1) "totalAssets")
    by (apply prop_eq, rerun_scan_other, not_derived; auto).
  assert (HL : prop (balanceSheet s2) "totalLiabilities"
               = prop (balanceSheet s1) "totalLiabilities")
    by (apply prop_eq, rerun_scan_other, not_derived; auto).
  pose proof (scanSheet_balance sd e1 "ownerEquity") as H2. fold s2 in H2.
  pose proof (scanSheet_balance sd r "ownerEquity") as H1. fold s1 in H1.
  pose proof (deriveMetrics_equity s1) as HE1. fold e1 in HE1. cbv zeta in HE1.
  rewrite (deriveMetrics_equity s2). cbv zeta.
  unfold isSet in *. rewrite HA, HL.
  assert (Hhit : forall v, firstHit balanceSheetTerms sd "ownerEquity" = Some v ->
                           toBoolean (VNum v) = true) by (intros v; apply firstHit_truthy).
  unfold law in *. unfold prop in *.
  destruct (toBoolean (default VUndefined (balanceSheet s1 !! "totalAssets"%string))
            && toBoolean (default VUndefined (balanceSheet s1 !! "totalLiabilities"%string)))
    eqn:EAL; cbn [andb] in *.
  - destruct (toBoolean (default VUndefined (balanceSheet s1 !! "ownerEquity"%string))) eqn:E1;
      cbn [negb] in *.
    + rewrite HE1 in H2. rewrite E1 in H2. rewrite H2, E1. cbn [negb].
      rewrite HE1. reflexivity.
    + rewrite HE1 in *.
      destruct (toBoolean (default VUndefined (balanceSheet r !! "ownerEquity"%string))) eqn:E0.
      { rewrite H1 in E1. congruence. }
      destruct (firstHit balanceSheetTerms sd "ownerEquity") as [v|] eqn:Eh.
      { rewrite H1 in E1. cbn [from_option id] in E1. rewrite (Hhit v eq_refl) in E1.
        discriminate. }
      rewrite H2.
      match goal with |- context [toBoolean (default VUndefined (Some ?d))] =>
        destruct (toBoolean (default VUndefined (Some d))) eqn:Ed end.
      * rewrite Ed. reflexivity.
      * rewrite Ed. reflexivity.
  - rewrite HE1 in *.
    rewrite H2.
    destruct (toBoolean (default VUndefined (balanceSheet s1 !! "ownerEquity"%string))) eqn:E1.
    + reflexivity.
    + destruct (toBoolean (default VUndefined (balanceSheet r !! "ownerEquity"%string))) eqn:E0.
      { rewrite H1 in E1. congruence. }
      destruct (firstHit balanceSheetTerms sd "ownerEquity") as [v|] eqn:Eh.
      { rewrite H1 in E1. cbn [from_option id] in E1. rewrite (Hhit v eq_refl) in E1.
        discriminate. }
      reflexivity.
Qed.

Lemma rerun_balance sd r k :
  In k (map snd balanceSheetTerms) ->
  balanceSheet (extractFinancialData sd (extractFinancialData sd r)) !! k
  = balanceSheet (extractFinancialData sd r) !! k.
Proof.
  intros Hk. destruct (decide (k = "ownerEquity"%string)) as [->|Hne].
  - apply rerun_equity.
  - apply rerun_balance_other. intros Hd.
    assert (Hdec : forallb (fun x => negb (bool_decide (In x derivedKeys))
                                     || bool_decide (x = "ownerEquity"%string))
                     (map snd balanceSheetTerms) = true) by (vm_compute; reflexivity).
    rewrite forallb_forall in Hdec. specialize (Hdec k Hk).
    apply orb_prop in Hdec. destruct Hdec as [H|H].
    + apply negb_true_iff, bool_decide_eq_false in H. contradiction.
    + apply bool_decide_eq_true in H. contradiction.
Qed.

(** C7.  Label matching keeps the first match: a key that holds a set
    value is never written again, every value the search writes is such
    a value, searching the same grid a second time changes nothing, and
    a second extraction over the same grid leaves every label key with
    the value of the first. *)
Theorem label_matching_idempotent sd r :
  (forall key v,
      balanceSheet r !! key = Some v -> toBoolean v = true ->
      balanceSheet (scanSheet sd r) !! key = Some v)
  /\ (forall key v,
      incomeStatement r !! key = Some v -> toBoolean v = true ->
      incomeStatement (scanSheet sd r) !! key = Some v)
  /\ (forall key,
      balanceSheet (scanSheet sd r) !! key <> balanceSheet r !! key ->
      isSet (balanceSheet r) key = false
      /\ exists x, balanceSheet (scanSheet sd r) !! key = Some (VNum x)
                   /\ toBoolean (VNum x) = true)
  /\ (forall key,
      incomeStatement (scanSheet sd r) !! key <> incomeStatement r !! key ->
      isSet (incomeStatement r) key = false
      /\ exists x, incomeStatement (scanSheet sd r) !! key = Some (VNum x)
                   /\ toBoolean (VNum x) = true)
  /\ scanSheet sd (scanSheet sd r) = scanSheet sd r
  /\ (forall key,
      In key (map snd balanceSheetTerms) ->
      balanceSheet (extractFinancialData sd (extractFinancialData sd r)) !! key
      = balanceSheet (extractFinancialData sd r) !! key)
  /\ (forall key,
      incomeStatement (extractFinancialData sd (extractFinancialData sd r)) !! key
      = incomeStatement (extractFinancialData sd r) !! key).
Proof.
  assert (Hchg : forall before after found,
             (forall v, found = Some v -> toBoolean (VNum v) = true) ->
             law before after found -> after <> before ->
             toBoolean (default VUndefined before) = false
             /\ exists x, after = Some (VNum x) /\ toBoolean (VNum x) = true).
  { unfold law. intros before after found Hf -> Hne.
    destruct (toBoolean (default VUndefined before)); [congruence|].
    split; [reflexivity|]. destruct found as [v|]; [|congruence].
    exists v. split; [reflexivity|]. apply Hf. reflexivity. }
  split.
  { intros key v Hv Ht. rewrite <- Hv.
    apply (law_set _ _ _ (scanSheet_balance sd r key)). rewrite Hv. exact Ht. }
  split.
  { intros key v Hv Ht. rewrite <- Hv.
    apply (law_set _ _ _ (scanSheet_income sd r key)). rewrite Hv. exact Ht. }
  split.
  { intros key. apply (Hchg _ _ _ (fun v => firstHit_truthy balanceSheetTerms sd key v)).
    apply scanSheet_balance. }
  split.
  { intros key. apply (Hchg _ _ _ (fun v => firstHit_truthy incomeTerms sd key v)).
    apply scanSheet_income. }
  split; [apply scanSheet_idempotent|].
  split; [intros key; apply rerun_balance|intros key; apply rerun_income].
Qed.

Lemma label_matching_idempotent_witness :
  balanceSheet (scanSheet gridBelow
                  {| balanceSheet := <["totalAssets"%string := VNum (ofZ 7)]> ∅;
                     incomeStatement := ∅ |}) !! "totalAssets"%string
  = Some (VNum (ofZ 7)).
Proof.
  eapply (proj1 (label_matching_idempotent gridBelow _)).
  - vm_compute. reflexivity.
  - vm_compute. reflexivity.
Defined.

End ExtractorClaims.

Section DerivedMetrics.
Import JsStr JsNum JsVal FileParser Spec.

Implicit Types (sd : list (list jsval)) (r : result) (k : string).

Lemma deriveMetrics_debtRatio r :
  let bs := balanceSheet r in
  balanceSheet (deriveMetrics r) !! "debtRatio"%string =
  if isSet bs "totalAssets" && isSet bs "totalLiabilities"
  then Some (VStr (toFixed 2 (mul (div (toNumber (prop bs "totalLiabilities"))
                                       (toNumber (prop bs "totalAssets"))) hundred)))
  else bs !! "debtRatio"%string.
Proof.
  intros bs. unfold deriveMetrics.
  rewrite equityStep_other, roeStep_other, liquidityStep_other by discriminate.
  unfold debtRatioStep, isSet. fold bs. destruct (_ && _); [|reflexivity].
  cbn [balanceSheet]. apply lookup_insert_eq.
Qed.

Lemma deriveMetrics_currentRatio r :
  let bs := balanceSheet r in
  balanceSheet (deriveMetrics r) !! "currentRatio"%string =
  if isSet bs "currentAssets" && isSet bs "currentLiabilities"
  then Some (VStr (toFixed 2 (div (toNumber (prop bs "currentAssets"))
                                  (toNumber (prop bs "currentLiabilities")))))
  else bs !! "currentRatio"%string.
Proof.
  intros bs. unfold deriveMetrics.
  rewrite equityStep_other, roeStep_other by discriminate.
  unfold liquidityStep.
  rewrite !(prop_eq (balanceSheet (debtRatioStep r)) bs)
    by (apply debtRatioStep_other; discriminate).
  unfold isSet. destruct (_ && _).
  - cbn [balanceSheet]. rewrite lookup_insert_ne by discriminate. apply lookup_insert_eq.
  - apply debtRatioStep_other. discriminate.
Qed.

Lemma deriveMetrics_quickRatio r :
  let bs := balanceSheet r in
  balanceSheet (deriveMetrics r) !! "quickRatio"%string =
  if isSet bs "currentAssets" && isSet bs "currentLiabilities"
  then Some (VStr (toFixed 2
         (div (sub (toNumber (prop bs "currentAssets"))
                   (toNumber (orElse (prop bs "inventory") (VNum (S754_zero false)))))
              (toNumber (prop bs "currentLiabilities")))))
  else bs !! "quickRatio"%string.
Proof.
  intros bs. unfold deriveMetrics.
  rewrite equityStep_other, roeStep_other by discriminate.
  unfold liquidityStep.
  rewrite !(prop_eq (balanceSheet (debtRatioStep r)) bs)
    by (apply debtRatioStep_other; discriminate).
  unfold isSet. destruct (_ && _).
  - cbn [balanceSheet]. rewrite lookup_insert_eq.
    rewrite !(prop_eq (<["currentRatio"%string:=_]> (balanceSheet (debtRatioStep r))) bs)
      by (rewrite lookup_insert_ne by discriminate;
          apply debtRatioStep_other; discriminate).
    reflexivity.
  - apply debtRatioStep_other. discriminate.
Qed.

Lemma deriveMetrics_roe r :
  let bs := balanceSheet r in
  balanceSheet (deriveMetrics r) !! "roe"%string =
  if isSet (incomeStatement r) "netProfit" && isSet bs "ownerEquity"
  then Some (VStr (toFixed 2 (mul (div (toNumber (prop (incomeStatement r) "netProfit"))
                                       (toNumber (prop bs "ownerEquity"))) hundred)))
  else bs !! "roe"%string.
Proof.
  intros bs. unfold deriveMetrics.
  rewrite equityStep_other by discriminate.
  unfold roeStep. rewrite liquidityStep_income, debtRatioStep_income.
  rewrite !(prop_eq (balanceSheet (liquidityStep (debtRatioStep r))) bs)
    by (rewrite liquidityStep_other, debtRatioStep_other by discriminate; reflexivity).
  unfold isSet. destruct (_ && _).
  - cbn [balanceSheet]. apply lookup_insert_eq.
  - rewrite liquidityStep_other, debtRatioStep_other by discriminate. reflexivity.
Qed.

(** ** A search that starts from the empty record *)

Lemma firstHit_no_label terms sd k :
  (forall text, hasLabel terms k text = false) -> firstHit terms sd k = None.
Proof.
  intros Hno. unfold firstHit.
  assert (Hrow : forall i, rowHit terms sd k i = None).
  { intros i. unfold rowHit. destruct (sd !! i) as [row|]; [|reflexivity].
    induction (seq 0 (length row)) as [|j l IH]; simpl; [reflexivity|].
    unfold attempt at 1. rewrite Hno. exact IH. }
  induction (seq 0 (length sd)) as [|i l IH]; simpl; [reflexivity|].
  rewrite Hrow. exact IH.
Qed.

Lemma from_empty_balance sd k :
  balanceSheet (scanSheet sd emptyResult) !! k
  = VNum <$> firstHit balanceSheetTerms sd k.
Proof.
  rewrite (law_unset _ _ _ (scanSheet_balance sd emptyResult k)) by reflexivity.
  destruct (firstHit _ _ _); reflexivity.
Qed.

Lemma from_empty_income sd k :
  incomeStatement (scanSheet sd emptyResult) !! k
  = VNum <$> firstHit incomeTerms sd k.
Proof.
  rewrite (law_unset _ _ _ (scanSheet_income sd emptyResult k)) by reflexivity.
  destruct (firstHit _ _ _); reflexivity.
Qed.

Lemma truthy_parts x : toBoolean (VNum x) = true -> isZero x = false /\ isNaN x = false.
Proof.
  simpl. intros H. apply negb_true_iff, orb_false_elim in H. exact H.
Qed.

Lemma no_label_debtRatio text : hasLabel balanceSheetTerms "debtRatio" text = false.
Proof. reflexivity. Qed.
Lemma no_label_currentRatio text : hasLabel balanceSheetTerms "currentRatio" text = false.
Proof. reflexivity. Qed.
Lemma no_label_quickRatio text : hasLabel balanceSheetTerms "quickRatio" text = false.
Proof. reflexivity. Qed.
Lemma no_label_roe text : hasLabel balanceSheetTerms "roe" text = false.
Proof. reflexivity. Qed.

(** The state of a key after a search from the empty record. *)
Lemma from_empty_isSet sd k :
  isSet (balanceSheet (scanSheet sd emptyResult)) k
  = match firstHit balanceSheetTerms sd k with Some _ => true | None => false end.
Proof.
  unfold isSet, prop. rewrite from_empty_balance.
  destruct (firstHit _ _ _) as [v|] eqn:E; [|reflexivity].
  exact (firstHit_truthy _ _ _ _ E).
Qed.

Lemma from_empty_isSet_income sd k :
  isSet (incomeStatement (scanSheet sd emptyResult)) k
  = match firstHit incomeTerms sd k with Some _ => true | None => false end.
Proof.
  unfold isSet, prop. rewrite from_empty_income.
  destruct (firstHit _ _ _) as [v|] eqn:E; [|reflexivity].
  exact (firstHit_truthy _ _ _ _ E).
Qed.

(** C2, as the code has it.  After a search from the empty record every
    stored base metric is a non-zero number, and: the debt ratio is
    present exactly when total assets and total liabilities are, the
    current and the quick ratio exactly when current assets and current
    liabilities are (inventory counting as 0 when absent), the return on
    equity exactly when net profit and an owner equity found by the
    label search are, and owner equity is inferred as assets minus
    liabilities exactly when both are present and the search found no
    equity.  The inferred equity comes after the return on equity and
    does not produce one.  Assets 1000 and liabilities 600 give the debt
    ratio "60.00" and the equity 400. *)
Theorem derived_metrics sd :
  let s := scanSheet sd emptyResult in
  let e := extractFinancialData sd emptyResult in
  let S := balanceSheet s in
  let I := incomeStatement s in
  let B := balanceSheet e in
  (forall k v, S !! k = Some v \/ I !! k = Some v ->
               exists x, v = VNum x /\ isZero x = false /\ isNaN x = false)
  /\ incomeStatement e = I
  /\ (forall k, ~ In k derivedKeys -> B !! k = S !! k)
  /\ B !! "debtRatio"%string =
       match S !! "totalAssets"%string, S !! "totalLiabilities"%string with
       | Some a, Some l =>
           Some (VStr (toFixed 2 (mul (div (toNumber l) (toNumber a)) hundred)))
       | _, _ => None
       end
  /\ B !! "currentRatio"%string =
       match S !! "currentAssets"%string, S !! "currentLiabilities"%string with
       | Some ca, Some cl => Some (VStr (toFixed 2 (div (toNumber ca) (toNumber cl))))
       | _, _ => None
       end
  /\ B !! "quickRatio"%string =
       match S !! "currentAssets"%string, S !! "currentLiabilities"%string with
       | Some ca, Some cl =>
           let inventory :=
             match S !! "inventory"%string with
             | Some inv => toNumber inv
             | None => S754_zero false
             end in
           Some (VStr (toFixed 2 (div (sub (toNumber ca) inventory) (toNumber cl))))
       | _, _ => None
       end
  /\ B !! "roe"%string =
       match I !! "netProfit"%string, S !! "ownerEquity"%string with
       | Some p, Some q =>
           Some (VStr (toFixed 2 (mul (div (toNumber p) (toNumber q)) hundred)))
       | _, _ => None
       end
  /\ B !! "ownerEquity"%string =
       match S !! "ownerEquity"%string with
       | Some q => Some q
       | None =>
           match S !! "totalAssets"%string, S !! "totalLiabilities"%string with
           | Some a, Some l => Some (VNum (sub (toNumber a) (toNumber l)))
           | _, _ => None
           end
       end
  /\ balanceSheet (extractFinancialData gridDebt emptyResult) !! "debtRatio"%string
     = Some (VStr (L "60.00"))
  /\ balanceSheet (extractFinancialData gridDebt emptyResult) !! "ownerEquity"%string
     = Some (VNum (ofZ 400)).
Proof.
  intros s e S I B.
  split.
  { intros k v [H|H].
    - unfold S, s in H. rewrite from_empty_balance in H.
      destruct (firstHit _ _ _) as [x|] eqn:E; [|discriminate].
      injection H as <-. exists x. split; [reflexivity|].
      apply truthy_parts. exact (firstHit_truthy _ _ _ _ E).
    - unfold I, s in H. rewrite from_empty_income in H.
      destruct (firstHit _ _ _) as [x|] eqn:E; [|discriminate].
      injection H as <-. exists x. split; [reflexivity|].
      apply truthy_parts. exact (firstHit_truthy _ _ _ _ E). }
  split; [apply deriveMetrics_income|].
  split; [intros k Hk; apply deriveMetrics_other, Hk|].
  split.
  { unfold B, e, extractFinancialData. rewrite deriveMetrics_debtRatio. cbv zeta.
    fold s. fold S. unfold S at 1 2 3 4 5. unfold s.
    rewrite !from_empty_isSet. unfold prop. subst S s.
    rewrite !from_empty_balance.
    rewrite (firstHit_no_label _ sd "debtRatio" no_label_debtRatio).
    destruct (firstHit balanceSheetTerms sd "totalAssets"),
             (firstHit balanceSheetTerms sd "totalLiabilities"); reflexivity. }
  split.
  { unfold B, e, extractFinancialData. rewrite deriveMetrics_currentRatio. cbv zeta.
    rewrite !from_empty_isSet. unfold prop. subst S s.
    rewrite !from_empty_balance.
    rewrite (firstHit_no_label _ sd "currentRatio" no_label_currentRatio).
    destruct (firstHit balanceSheetTerms sd "currentAssets"),
             (firstHit balanceSheetTerms sd "currentLiabilities"); reflexivity. }
  split.
  { unfold B, e, extractFinancialData. rewrite deriveMetrics_quickRatio. cbv zeta.
    rewrite !from_empty_isSet. unfold orElse, prop. subst S s.
    rewrite !from_empty_balance.
    rewrite (firstHit_no_label _ sd "quickRatio" no_label_quickRatio).
    destruct (firstHit balanceSheetTerms sd "currentAssets"),
             (firstHit balanceSheetTerms sd "currentLiabilities"); try reflexivity.
    destruct (firstHit balanceSheetTerms sd "inventory") as [v|] eqn:E; [|reflexivity].
    cbn [fmap option_fmap option_map from_option id].
    rewrite (firstHit_truthy _ _ _ _ E). reflexivity. }
  split.
  { unfold B, e, extractFinancialData. rewrite deriveMetrics_roe. cbv zeta.
    rewrite from_empty_isSet, from_empty_isSet_income. unfold prop. subst S I s.
    rewrite !from_empty_balance, !from_empty_income.
    rewrite (firstHit_no_label _ sd "roe" no_label_roe).
    destruct (firstHit incomeTerms sd "netProfit"),
             (firstHit balanceSheetTerms sd "ownerEquity"); reflexivity. }
  split.
  { unfold B, e, extractFinancialData. rewrite deriveMetrics_equity. cbv zeta.
    rewrite !from_empty_isSet. unfold prop. subst S s.
    rewrite !from_empty_balance.
    destruct (firstHit balanceSheetTerms sd "totalAssets"),
             (firstHit balanceSheetTerms sd "totalLiabilities"),
             (firstHit balanceSheetTerms sd "ownerEquity"); reflexivity. }
  split; vm_compute; reflexivity.
Qed.

Lemma derived_metrics_witness :
  exists x, VNum (ofZ 1000) = VNum x /\ isZero x = false /\ isNaN x = false.
Proof.
  destruct (derived_metrics gridDebt) as [H _].
  apply (H "totalAssets"%string). left. vm_compute. reflexivity.
Defined.

(** C2 as it is stated fails on the return on equity: with total assets
    1000, total liabilities 600 and net profit 100 and no equity label,
    the result holds net profit and a non-zero owner equity, and no
    return on equity. *)
Lemma roe_absent_with_inferred_equity :
  let e := extractFinancialData gridProfit emptyResult in
  incomeStatement e !! "netProfit"%string = Some (VNum (ofZ 100))
  /\ balanceSheet e !! "ownerEquity"%string = Some (VNum (ofZ 400))
  /\ isZero (ofZ 400) = false
  /\ balanceSheet e !! "roe"%string = None.
Proof. vm_compute. repeat split; reflexivity. Qed.

End DerivedMetrics.

(* ===================================================================== *)
(** * The matcher *)
(* ===================================================================== *)

Section Matcher.
Import JsStr Regex Spec.

Implicit Types (fl : flags) (r : regex) (x y z : mstate)
  (k : mstate -> option mstate) (w s : list N).

Lemma oneChar_sound ok x k z :
  oneChar ok x k = Some z ->
  exists c s', rest x = c :: s' /\ ok c = true /\ k (advance x s') = Some z.
Proof.
  unfold oneChar. destruct (rest x) as [|c s']; [discriminate|].
  destruct (ok c) eqn:E; [|discriminate]. eauto.
Qed.

Lemma starLoop_sound fl r body g :
  Sound fl r body ->
  forall fuel x k z,
    starLoop body g k fuel x = Some z ->
    exists w y,
      rest x = w ++ rest y /\ pos y = (pos x + length w)%nat
      /\ Matches fl (Star g r) w (caps x) (caps y) /\ k y = Some z.
Proof.
  intros Hb fuel. induction fuel as [|f IH]; intros x k z; simpl; [discriminate|].
  assert (Hagain :
    body x (fun y => if (length (rest y) <? length (rest x))%nat
                     then starLoop body g k f y else None) = Some z ->
    exists w y,
      rest x = w ++ rest y /\ pos y = (pos x + length w)%nat
      /\ Matches fl (Star g r) w (caps x) (caps y) /\ k y = Some z).
  { intros H. apply Hb in H. destruct H as (w1 & y1 & Hr1 & Hp1 & Hm1 & Hk1).
    destruct (length (rest y1) <? length (rest x))%nat; [|discriminate].
    apply IH in Hk1. destruct Hk1 as (w2 & y2 & Hr2 & Hp2 & Hm2 & Hk2).
    exists (w1 ++ w2), y2. split; [rewrite Hr1, Hr2, app_assoc; reflexivity|].
    split; [rewrite Hp2, Hp1, length_app; lia|].
    split; [econstructor; eassumption|exact Hk2]. }
  assert (Hleave :
    k x = Some z ->
    exists w y,
      rest x = w ++ rest y /\ pos y = (pos x + length w)%nat
      /\ Matches fl (Star g r) w (caps x) (caps y) /\ k y = Some z).
  { intros H. exists [], x. simpl. split; [reflexivity|].
    split; [lia|]. split; [constructor|exact H]. }
  destruct g.
  - destruct (body x _) as [z'|] eqn:E.
    + intros [= <-]. apply Hagain. reflexivity.
    + exact Hleave.
  - destruct (k x) as [z'|] eqn:E.
    + intros [= <-]. apply Hleave. reflexivity.
    + exact Hagain.
Qed.

(** The matcher is sound for the relation [Matches]. *)
Lemma m_sound fl r : Sound fl r (m fl r).
Proof.
  induction r as [|a|neg p| |r1 IH1 r2 IH2|r1 IH1 r2 IH2|g r1 IH1|n r1 IH1| |];
    intros x k z; cbn [m].
  - intros H. exists [], x. simpl. split; [reflexivity|].
    split; [lia|]. split; [constructor|exact H].
  - intros H. apply oneChar_sound in H. destruct H as (c & s' & Hr & Hok & Hk).
    exists [c], (advance x s'). simpl. repeat split; try assumption; try lia.
    constructor. exact Hok.
  - intros H. apply oneChar_sound in H. destruct H as (c & s' & Hr & Hok & Hk).
    exists [c], (advance x s'). simpl. repeat split; try assumption; try lia.
    constructor. exact Hok.
  - intros H. apply oneChar_sound in H. destruct H as (c & s' & Hr & Hok & Hk).
    exists [c], (advance x s'). simpl. repeat split; try assumption; try lia.
    constructor. exact Hok.
  - intros H. apply IH1 in H. destruct H as (w1 & y1 & Hr1 & Hp1 & Hm1 & Hk1).
    apply IH2 in Hk1. destruct Hk1 as (w2 & y2 & Hr2 & Hp2 & Hm2 & Hk2).
    exists (w1 ++ w2), y2. split; [rewrite Hr1, Hr2, app_assoc; reflexivity|].
    split; [rewrite Hp2, Hp1, length_app; lia|].
    split; [econstructor; eassumption|exact Hk2].
  - destruct (m fl r1 x k) as [z'|] eqn:E.
    + intros [= <-]. apply IH1 in E. destruct E as (w & y & Hr & Hp & Hm & Hk).
      exists w, y. repeat split; try assumption. apply Matches_AltL. exact Hm.
    + intros H. apply IH2 in H. destruct H as (w & y & Hr & Hp & Hm & Hk).
      exists w, y. repeat split; try assumption. apply Matches_AltR. exact Hm.
  - apply (starLoop_sound fl r1 (m fl r1) g IH1).
  - intros H. apply IH1 in H. destruct H as (w & y & Hr & Hp & Hm & Hk).
    eexists w, {| pos := pos y; rest := rest y; caps := _ |}. simpl.
    split; [exact Hr|]. split; [exact Hp|]. split; [|exact Hk].
    replace (take (pos y - pos x) (rest x)) with w.
    + constructor. exact Hm.
    + rewrite Hr, Hp. replace (pos x + length w - pos x)%nat with (length w) by lia.
      rewrite take_app_length. reflexivity.
  - destruct (pos x =? 0)%nat; [|discriminate].
    intros H. exists [], x. simpl. split; [reflexivity|].
    split; [lia|]. split; [constructor|exact H].
  - destruct (rest x) eqn:E; [|discriminate].
    intros H. exists [], x. simpl. split; [symmetry; exact E|].
    split; [lia|]. split; [constructor|exact H].
Qed.

(** A match reported at the head of [s] splits [s] into the matched
    word and what follows, and the word is one the pattern matches. *)
Lemma matchAt_sound fl r pre s mi :
  matchAt fl r pre s = Some mi ->
  before mi = pre /\ s = matched mi ++ after mi
  /\ Matches fl r (matched mi) ∅ (groups mi).
Proof.
  unfold matchAt. destruct (m fl r _ Some) as [y|] eqn:E; [|discriminate].
  intros [= <-]. simpl.
  apply m_sound in E. destruct E as (w & y' & Hr & Hp & Hm & [= ->]).
  simpl in *. rewrite Hp. replace (length pre + length w - length pre)%nat with (length w) by lia.
  rewrite Hr, take_app_length, drop_app_length. auto.
Qed.

(** ** Inversion of [Matches] *)

Lemma Matches_Seq_inv fl r1 r2 w c c2 :
  Matches fl (Seq r1 r2) w c c2 ->
  exists w1 w2 c1, w = w1 ++ w2 /\ Matches fl r1 w1 c c1 /\ Matches fl r2 w2 c1 c2.
Proof. inversion 1; subst. eauto 7. Qed.

Lemma Matches_Group_inv fl n r w c c' :
  Matches fl (Group n r) w c c' ->
  exists c1, Matches fl r w c c1 /\ c' = <[n := w]> c1.
Proof. inversion 1; subst. eauto. Qed.

Lemma Matches_Char_inv fl a w c c' :
  Matches fl (Char a) w c c' ->
  exists u : N, w = [u] /\ charMatches fl a u = true /\ c' = c.
Proof. inversion 1; subst. eauto. Qed.

Lemma Matches_Class_inv fl neg p w c c' :
  Matches fl (Class neg p) w c c' ->
  exists u : N, w = [u] /\ classMatches fl neg p u = true /\ c' = c.
Proof. inversion 1; subst. eauto. Qed.

Lemma Matches_Empty_inv fl w c c' : Matches fl Empty w c c' -> w = [] /\ c' = c.
Proof. inversion 1; subst. auto. Qed.

Lemma Matches_Star_Class fl g neg p w c c' :
  Matches fl (Star g (Class neg p)) w c c' ->
  Forall (fun u : N => classMatches fl neg p u = true) w /\ c' = c.
Proof.
  intros H. remember (Star g (Class neg p)) as r eqn:Er.
  induction H; try discriminate.
  - split; [constructor|reflexivity].
  - injection Er as -> ->.
    apply Matches_Class_inv in H. destruct H as (x & -> & Hx & ->).
    destruct (IHMatches2 eq_refl) as [Hw ->].
    split; [constructor; assumption|reflexivity].
Qed.

(** A pattern without groups leaves the captures as they are. *)
Lemma Matches_nogroups fl r w c c' :
  Matches fl r w c c' -> ngroups r = 0%nat -> c' = c.
Proof.
  induction 1; simpl; intros Hn; try reflexivity; try discriminate.
  - rewrite IHMatches2, IHMatches1 by lia. reflexivity.
  - apply IHMatches. lia.
  - apply IHMatches. lia.
  - rewrite IHMatches2, IHMatches1 by (simpl; lia). reflexivity.
Qed.

Lemma ngroups_lit s : ngroups (lit s) = 0%nat.
Proof.
  induction s as [|c s IH]; [reflexivity|].
  destruct s; [reflexivity|]. simpl in *. exact IH.
Qed.

(** A literal matches, character by character, up to the case folding
    of the flag. *)
Lemma Matches_lit fl s w c c' :
  Matches fl (lit s) w c c' ->
  Forall2 (fun a u : N => charMatches fl a u = true) s w /\ c' = c.
Proof.
  revert w c c'. induction s as [|a s IH]; intros w c c' H.
  - apply Matches_Empty_inv in H. destruct H as [-> ->]. split; [constructor|reflexivity].
  - destruct s as [|b s].
    + apply Matches_Char_inv in H. destruct H as (x & -> & Hx & ->).
      split; [repeat constructor; exact Hx|reflexivity].
    + change (lit (a :: b :: s)) with (Seq (Char a) (lit (b :: s))) in H.
      apply Matches_Seq_inv in H. destruct H as (w1 & w2 & c1 & -> & H1 & H2).
      apply Matches_Char_inv in H1. destruct H1 as (x & -> & Hx & ->).
      apply IH in H2. destruct H2 as [H2 ->].
      split; [constructor; assumption|reflexivity].
Qed.

(** ** Global replacement *)

(** Whatever relation [Q] holds between each matched text and its
    replacement, and is closed under reflexivity, transitivity and
    contexts, holds between a string and its global replacement. *)
Lemma replaceFrom_related fl r f (Q : list N -> list N -> Prop) :
  (forall s, Q s s) ->
  (forall s1 s2 s3, Q s1 s2 -> Q s2 s3 -> Q s1 s3) ->
  (forall a b s1 s2, Q s1 s2 -> Q (a ++ s1 ++ b) (a ++ s2 ++ b)) ->
  (forall pre s mi, matchAt fl r pre s = Some mi -> Q (matched mi) (f mi)) ->
  forall s skip pre, Q (drop skip s) (replaceFrom fl r f pre skip s).
Proof.
  intros Hrefl Htrans Hctx Hm.
  assert (Hcons : forall c s1 s2, Q s1 s2 -> Q (c :: s1) (c :: s2)).
  { intros c s1 s2 H. specialize (Hctx [c] [] _ _ H). rewrite !app_nil_r in Hctx. exact Hctx. }
  assert (Happ : forall a1 a2 s1 s2, Q a1 a2 -> Q s1 s2 -> Q (a1 ++ s1) (a2 ++ s2)).
  { intros a1 a2 s1 s2 Ha Hs. apply Htrans with (a2 ++ s1).
    - specialize (Hctx [] s1 _ _ Ha). exact Hctx.
    - specialize (Hctx a2 [] _ _ Hs). rewrite !app_nil_r in Hctx. exact Hctx. }
  induction s as [|c s IH]; intros skip pre.
  - destruct skip; simpl; [|apply Hrefl].
    destruct (matchAt fl r pre []) as [mi|] eqn:E; [|apply Hrefl].
    pose proof (Hm _ _ _ E) as HQ.
    apply matchAt_sound in E. destruct E as (_ & Hs & _).
    symmetry in Hs. apply app_eq_nil in Hs. destruct Hs as [Hs _].
    rewrite Hs in HQ. rewrite app_nil_r. exact HQ.
  - destruct skip as [|skip]; simpl; [|apply IH].
    destruct (matchAt fl r pre (c :: s)) as [mi|] eqn:E.
    + pose proof (Hm _ _ _ E) as HQ.
      apply matchAt_sound in E. destruct E as (_ & Hs & _).
      destruct (matched mi) as [|c' t] eqn:Et.
      * apply (Happ [] _ _ _ HQ). apply Hcons. apply (IH 0%nat).
      * simpl in Hs. injection Hs as <- Hs.
        specialize (IH (length t) (pre ++ [c])).
        rewrite Hs, drop_app_length in IH.
        rewrite Hs. change (c :: t ++ after mi) with ((c :: t) ++ after mi).
        apply Happ; assumption.
    + apply Hcons. apply (IH 0%nat).
Qed.

Lemma replaceAll_related fl r f (Q : list N -> list N -> Prop) :
  (forall s, Q s s) ->
  (forall s1 s2 s3, Q s1 s2 -> Q s2 s3 -> Q s1 s3) ->
  (forall a b s1 s2, Q s1 s2 -> Q (a ++ s1 ++ b) (a ++ s2 ++ b)) ->
  (forall pre s mi, matchAt fl r pre s = Some mi -> Q (matched mi) (f mi)) ->
  forall s, Q s (replaceAll fl r f s).
Proof.
  intros H1 H2 H3 H4 s. exact (replaceFrom_related fl r f Q H1 H2 H3 H4 s 0%nat []).
Qed.

End Matcher.

(* ===================================================================== *)
(** * The table-cell pass *)
(* ===================================================================== *)

Section TableCells.
Import JsStr JsVal Regex TemplateEngine Spec.

Implicit Types (data : gmap string jsval) (xml s : list N).

Lemma asciiUpper_cases u :
  ((97 <= u <= 122)%N /\ asciiUpper u = (u - 32)%N)
  \/ ((u < 97 \/ 122 < u)%N /\ asciiUpper u = u).
Proof.
  unfold asciiUpper.
  destruct (N.leb_spec 97 u), (N.leb_spec u 122); cbn [andb]; [left|right..]; split; lia.
Qed.

Lemma asciiLower_cases u :
  ((65 <= u <= 90)%N /\ asciiLower u = (u + 32)%N)
  \/ ((u < 65 \/ 90 < u)%N /\ asciiLower u = u).
Proof.
  unfold asciiLower.
  destruct (N.leb_spec 65 u), (N.leb_spec u 90); cbn [andb]; [left|right..]; split; lia.
Qed.

Lemma gt_only u : charMatches gis (ch ">") u = true -> u = ch ">".
Proof.
  unfold charMatches, gis. cbn [ignoreCase].
  change (asciiUpper (ch ">")) with 62%N. change (ch ">") with 62%N.
  intros H. apply N.eqb_eq in H.
  destruct (asciiUpper_cases u) as [[Hu E]|[Hu E]]; rewrite E in H; lia.
Qed.

Lemma notGt_char u : classMatches gis true (fun x => (x =? ch ">")%N) u = true -> u <> ch ">".
Proof.
  unfold classMatches. intros H Hu. subst u. vm_compute in H. discriminate.
Qed.

Lemma isWhiteSpace_not_letter v :
  ((65 <= v <= 90) \/ (97 <= v <= 122))%N -> isWhiteSpace v = false.
Proof.
  intros Hv. unfold isWhiteSpace.
  repeat match goal with
  | |- context [N.eqb ?a ?b] => destruct (N.eqb_spec a b); [lia|]
  | |- context [N.leb ?a ?b] => destruct (N.leb_spec a b); try lia
  end; reflexivity.
Qed.

Lemma isBlankChar_not_letter v :
  ((65 <= v <= 90) \/ (97 <= v <= 122))%N -> isBlankChar v = false.
Proof.
  intros Hv. unfold isBlankChar. rewrite (isWhiteSpace_not_letter v Hv).
  change (ch "_") with 95%N. destruct (N.eqb_spec v 95); [lia|reflexivity].
Qed.

Lemma blank_char u :
  classMatches gis false (fun c => (c =? ch "_")%N || isWhiteSpace c) u = true ->
  isBlankChar u = true.
Proof.
  unfold classMatches, gis. cbn [ignoreCase xorb andb].
  fold (isBlankChar u) (isBlankChar (asciiUpper u)) (isBlankChar (asciiLower u)).
  destruct (isBlankChar u) eqn:E; [reflexivity|]. cbn [orb].
  destruct (asciiUpper_cases u) as [[Hu Eu]|[Hu Eu]],
           (asciiLower_cases u) as [[Hl El]|[Hl El]]; rewrite Eu, El.
  - lia.
  - rewrite E, (isBlankChar_not_letter (u - 32)) by lia. discriminate.
  - rewrite E, (isBlankChar_not_letter (u + 32)) by lia. discriminate.
  - rewrite E. discriminate.
Qed.

Lemma Matches_openTag name w c c' :
  Matches gis (openTag name) w c c' ->
  exists nm attrs,
    w = nm ++ attrs ++ [ch ">"] /\ sameUpToCase name nm
    /\ Forall (fun u => u <> ch ">") attrs /\ c' = c.
Proof.
  unfold openTag. cbn [seqs]. intros H.
  apply Matches_Seq_inv in H. destruct H as (nm & w2 & c1 & -> & H1 & H2).
  apply Matches_lit in H1. destruct H1 as [H1 ->].
  apply Matches_Seq_inv in H2. destruct H2 as (attrs & w3 & c2 & -> & H2 & H3).
  apply Matches_Star_Class in H2. destruct H2 as [H2 ->].
  apply Matches_Char_inv in H3. destruct H3 as (u & -> & Hu & ->).
  apply gt_only in Hu. subst u.
  exists nm, attrs. repeat split; try assumption.
  eapply Forall_impl; [exact H2|]. intros u. apply notGt_char.
Qed.

(** The shape of every match of the table pattern. *)
Lemma tablePattern_match label pre s mi :
  matchAt gis (tablePattern label) pre s = Some mi ->
  exists c1 u lab v c3 tag blank close,
    matched mi = c1 ++ (u ++ lab ++ v) ++ (c3 ++ tag) ++ blank ++ close
    /\ capture mi 1 = c1 /\ capture mi 2 = u ++ lab ++ v
    /\ capture mi 3 = c3 ++ tag /\ capture mi 4 = blank /\ capture mi 5 = close
    /\ sameUpToCase label lab /\ isOpenTag tag
    /\ Forall (fun x => isBlankChar x = true) blank /\ isCloseTag close.
Proof.
  intros H. apply matchAt_sound in H. destruct H as (_ & _ & H).
  unfold tablePattern in H. cbn [seqs] in H. unfold capture.
  apply Matches_Seq_inv in H. destruct H as (w1 & r1 & k1 & -> & G1 & H).
  apply Matches_Seq_inv in H. destruct H as (w2 & r2 & k2 & -> & G2 & H).
  apply Matches_Seq_inv in H. destruct H as (w3 & r3 & k3 & -> & G3 & H).
  apply Matches_Seq_inv in H. destruct H as (w4 & w5 & k4 & -> & G4 & G5).
  (* group 1 *)
  apply Matches_Group_inv in G1. destruct G1 as (j1 & G1 & ->).
  apply Matches_nogroups in G1;
    [|cbn [ngroups openTag seqs]; rewrite !ngroups_lit; reflexivity].
  subst j1.
  (* group 2 *)
  apply Matches_Group_inv in G2. destruct G2 as (j2 & G2 & ->).
  apply Matches_Seq_inv in G2. destruct G2 as (u & t0 & i0 & -> & A & G2).
  apply Matches_Star_Class in A. destruct A as [_ ->].
  apply Matches_Seq_inv in G2. destruct G2 as (lab & v & i' & -> & B & C).
  apply Matches_lit in B. destruct B as [B ->].
  apply Matches_Star_Class in C. destruct C as [_ ->].
  (* group 3 *)
  apply Matches_Group_inv in G3. destruct G3 as (j3 & G3 & ->).
  apply Matches_Seq_inv in G3. destruct G3 as (x1 & t1 & i1 & -> & A1 & G3).
  apply Matches_lit in A1. destruct A1 as [_ ->].
  apply Matches_Seq_inv in G3. destruct G3 as (x2 & t2 & i2 & -> & A2 & G3).
  apply Matches_nogroups in A2; [|reflexivity]. subst i2.
  apply Matches_Seq_inv in G3. destruct G3 as (x3 & t3 & i3 & -> & A3 & G3).
  apply Matches_lit in A3. destruct A3 as [_ ->].
  apply Matches_Seq_inv in G3. destruct G3 as (x4 & t4 & i4 & -> & A4 & G3).
  apply Matches_Star_Class in A4. destruct A4 as [_ ->].
  apply Matches_Seq_inv in G3. destruct G3 as (x5 & t5 & i5 & -> & A5 & G3).
  apply Matches_openTag in A5. destruct A5 as (_ & _ & _ & _ & _ & ->).
  apply Matches_Seq_inv in G3. destruct G3 as (x6 & tag & i6 & -> & A6 & A7).
  apply Matches_nogroups in A6; [|reflexivity]. subst i6.
  apply Matches_openTag in A7. destruct A7 as (nm & attrs & Htag & Hnm & Hattrs & ->).
  (* group 4 *)
  apply Matches_Group_inv in G4. destruct G4 as (j4 & G4 & ->).
  apply Matches_Star_Class in G4. destruct G4 as [G4 ->].
  (* group 5 *)
  apply Matches_Group_inv in G5. destruct G5 as (j5 & G5 & ->).
  apply Matches_lit in G5. destruct G5 as [G5 ->].
  exists w1, u, lab, v, (x1 ++ x2 ++ x3 ++ x4 ++ x5 ++ x6), tag, w4, w5.
  split; [repeat rewrite <- app_assoc; reflexivity|].
  split; [rewrite !lookup_insert_ne by lia; rewrite lookup_insert_eq; reflexivity|].
  split; [rewrite !lookup_insert_ne by lia; rewrite lookup_insert_eq; reflexivity|].
  split; [rewrite !lookup_insert_ne by lia; rewrite lookup_insert_eq; cbn [from_option id];
          repeat rewrite <- app_assoc; reflexivity|].
  split; [rewrite !lookup_insert_ne by lia; rewrite lookup_insert_eq; reflexivity|].
  split; [rewrite lookup_insert_eq; reflexivity|].
  split; [exact B|].
  split; [exists nm, attrs; auto|].
  split; [|exact G5].
  eapply Forall_impl; [exact G4|]. intros x. apply blank_char.
Qed.

Lemma notLt_char u : classMatches gis true (fun x => (x =? ch "<")%N) u = true -> u <> ch "<".
Proof.
  unfold classMatches. intros H Hu. subst u. vm_compute in H. discriminate.
Qed.

Lemma space_char u : classMatches gis false isWhiteSpace u = true -> isWhiteSpace u = true.
Proof.
  unfold classMatches, gis. cbn [ignoreCase xorb andb].
  destruct (isWhiteSpace u) eqn:E; [reflexivity|]. cbn [orb].
  destruct (asciiUpper_cases u) as [[Hu Eu]|[Hu Eu]],
           (asciiLower_cases u) as [[Hl El]|[Hl El]]; rewrite Eu, El.
  - lia.
  - rewrite E, (isWhiteSpace_not_letter (u - 32)) by lia. discriminate.
  - rewrite E, (isWhiteSpace_not_letter (u + 32)) by lia. discriminate.
  - rewrite E. discriminate.
Qed.

Lemma Matches_cellOpen w c c' :
  Matches gis (openTag (L "<w:tc")) w c c' -> isCellOpen w /\ c' = c.
Proof.
  intros H. apply Matches_openTag in H. destruct H as (nm & attrs & -> & Hnm & Hattrs & ->).
  split; [exists nm, attrs; auto|reflexivity].
Qed.

Lemma Matches_runOpen w c c' :
  Matches gis (openTag (L "<w:t")) w c c' -> isOpenTag w /\ c' = c.
Proof.
  intros H. apply Matches_openTag in H. destruct H as (nm & attrs & -> & Hnm & Hattrs & ->).
  split; [exists nm, attrs; auto|reflexivity].
Qed.

(** Every match of the table pattern is a way from the label to a text
    run, the blank content of the run and the closing tag of the run;
    the way is what the first three groups capture. *)
Lemma tablePattern_path label pre s mi :
  matchAt gis (tablePattern label) pre s = Some mi ->
  exists g1 g2 g3 blank close,
    matched mi = (g1 ++ g2 ++ g3) ++ blank ++ close
    /\ capture mi 1 = g1 /\ capture mi 2 = g2 /\ capture mi 3 = g3
    /\ capture mi 4 = blank /\ capture mi 5 = close
    /\ leadsFromLabel label (g1 ++ g2 ++ g3)
    /\ Forall (fun x => isBlankChar x = true) blank /\ isCloseTag close.
Proof.
  intros H. apply matchAt_sound in H. destruct H as (_ & _ & H).
  unfold tablePattern in H. cbn [seqs] in H. unfold capture.
  apply Matches_Seq_inv in H. destruct H as (w1 & r1 & k1 & -> & G1 & H).
  apply Matches_Seq_inv in H. destruct H as (w2 & r2 & k2 & -> & G2 & H).
  apply Matches_Seq_inv in H. destruct H as (w3 & r3 & k3 & -> & G3 & H).
  apply Matches_Seq_inv in H. destruct H as (w4 & w5 & k4 & -> & G4 & G5).
  (* group 1 *)
  apply Matches_Group_inv in G1. destruct G1 as (j1 & G1 & ->).
  pose proof (Matches_nogroups _ _ _ _ _ G1) as E1.
  rewrite E1 in *
    by (cbn [ngroups openTag seqs]; rewrite !ngroups_lit; reflexivity).
  clear E1.
  apply Matches_Seq_inv in G1. destruct G1 as (cell1 & t1 & i1 & -> & C1 & G1).
  apply Matches_cellOpen in C1. destruct C1 as [C1 _].
  apply Matches_Seq_inv in G1. destruct G1 as (x1 & run1 & i2 & -> & _ & R1).
  apply Matches_runOpen in R1. destruct R1 as [R1 _].
  (* group 2 *)
  apply Matches_Group_inv in G2. destruct G2 as (j2 & G2 & ->).
  apply Matches_Seq_inv in G2. destruct G2 as (u & t0 & i0 & -> & A & G2).
  apply Matches_Star_Class in A. destruct A as [Hu ->].
  apply Matches_Seq_inv in G2. destruct G2 as (lab & v & i' & -> & B & C).
  apply Matches_lit in B. destruct B as [B ->].
  apply Matches_Star_Class in C. destruct C as [Hv ->].
  (* group 3 *)
  apply Matches_Group_inv in G3. destruct G3 as (j3 & G3 & ->).
  apply Matches_Seq_inv in G3. destruct G3 as (close1 & t2 & i3 & -> & A1 & G3).
  apply Matches_lit in A1. destruct A1 as [A1 ->].
  apply Matches_Seq_inv in G3. destruct G3 as (x2 & t3 & i4 & -> & A2 & G3).
  apply Matches_nogroups in A2; [|reflexivity]. subst i4.
  apply Matches_Seq_inv in G3. destruct G3 as (cellEnd & t4 & i5 & -> & A3 & G3).
  apply Matches_lit in A3. destruct A3 as [A3 ->].
  apply Matches_Seq_inv in G3. destruct G3 as (ws & t5 & i6 & -> & A4 & G3).
  apply Matches_Star_Class in A4. destruct A4 as [A4 ->].
  apply Matches_Seq_inv in G3. destruct G3 as (cell2 & t6 & i7 & -> & A5 & G3).
  apply Matches_cellOpen in A5. destruct A5 as [A5 ->].
  apply Matches_Seq_inv in G3. destruct G3 as (x3 & tag & i8 & -> & A6 & A7).
  apply Matches_nogroups in A6; [|reflexivity]. subst i8.
  apply Matches_runOpen in A7. destruct A7 as [A7 ->].
  (* group 4 *)
  apply Matches_Group_inv in G4. destruct G4 as (j4 & G4 & ->).
  apply Matches_Star_Class in G4. destruct G4 as [G4 ->].
  (* group 5 *)
  apply Matches_Group_inv in G5. destruct G5 as (j5 & G5 & ->).
  apply Matches_lit in G5. destruct G5 as [G5 ->].
  exists (cell1 ++ x1 ++ run1), (u ++ lab ++ v),
         (close1 ++ x2 ++ cellEnd ++ ws ++ cell2 ++ x3 ++ tag), w4, w5.
  split; [repeat rewrite <- app_assoc; reflexivity|].
  split; [rewrite !lookup_insert_ne by lia; rewrite lookup_insert_eq; reflexivity|].
  split; [rewrite !lookup_insert_ne by lia; rewrite lookup_insert_eq; reflexivity|].
  split; [rewrite !lookup_insert_ne by lia; rewrite lookup_insert_eq; reflexivity|].
  split; [rewrite !lookup_insert_ne by lia; rewrite lookup_insert_eq; reflexivity|].
  split; [rewrite lookup_insert_eq; reflexivity|].
  split.
  { exists cell1, x1, run1, u, lab, v, close1, x2, cellEnd, ws, cell2, x3, tag.
    split; [repeat rewrite <- app_assoc; reflexivity|].
    split; [exact C1|]. split; [exact R1|].
    split; [eapply Forall_impl; [exact Hu|]; intros c; apply notLt_char|].
    split; [exact B|].
    split; [eapply Forall_impl; [exact Hv|]; intros c; apply notLt_char|].
    split; [exact A1|]. split; [exact A3|].
    split; [eapply Forall_impl; [exact A4|]; intros c; apply space_char|].
    split; [exact A5|exact A7]. }
  split; [|exact G5].
  eapply Forall_impl; [exact G4|]. intros x. apply blank_char.
Qed.

Lemma FillStep_context data a b s1 s2 :
  FillStep data s1 s2 -> FillStep data (a ++ s1 ++ b) (a ++ s2 ++ b).
Proof.
  intros H. destruct H as [label field a1 way blank close b0 H1 H2 H3 H4 H5].
  pose proof (FillStep_run data label field (a ++ a1) way blank close (b0 ++ b)
                H1 H2 H3 H4 H5) as H.
  repeat rewrite <- app_assoc in *. exact H.
Qed.

Lemma Filled_context data a b s1 s2 :
  rtc (FillStep data) s1 s2 -> rtc (FillStep data) (a ++ s1 ++ b) (a ++ s2 ++ b).
Proof.
  induction 1 as [|s1 s2 s3 H _ IH]; [constructor|].
  econstructor; [apply FillStep_context; exact H|exact IH].
Qed.

Lemma fillCell_step data label field pre s mi :
  In (label, field) tableLabels ->
  toBoolean (prop data field) = true ->
  matchAt gis (tablePattern label) pre s = Some mi ->
  rtc (FillStep data) (matched mi) (fillCell (prop data field) mi).
Proof.
  intros Hin Ht H. apply tablePattern_path in H.
  destruct H as (g1 & g2 & g3 & blank & close
                 & Hm & E1 & E2 & E3 & E4 & E5 & Hway & Hblank & Hclose).
  unfold fillCell. destruct (_ || _); [|constructor].
  rewrite E1, E2, E3, E5, Hm. apply rtc_once.
  pose proof (FillStep_run data label field [] (g1 ++ g2 ++ g3) blank close []
                Hin Ht Hway Hblank Hclose) as H.
  cbn [app] in H. rewrite !app_nil_r in H.
  repeat rewrite <- app_assoc in *. exact H.
Qed.

Lemma tablePass_related data labels xml :
  (forall lf, In lf labels -> In lf tableLabels) ->
  rtc (FillStep data) xml
    (fold_left
       (forLabel (fun label value xml =>
                    replaceAll gis (tablePattern label) (fillCell value) xml) data)
       labels xml).
Proof.
  revert xml. induction labels as [|[label field] labels IH]; intros xml Hsub; simpl.
  - constructor.
  - eapply rtc_trans; [|apply IH; intros lf Hlf; apply Hsub; right; exact Hlf].
    unfold forLabel. cbn [fst snd].
    destruct (toBoolean (prop data field)) eqn:Et; [|constructor].
    apply (replaceAll_related gis (tablePattern label) (fillCell (prop data field))
             (rtc (FillStep data))).
    + intros s. constructor.
    + intros s1 s2 s3. apply rtc_trans.
    + intros a b s1 s2. apply Filled_context.
    + intros pre s mi. apply fillCell_step; [apply Hsub; left; reflexivity|exact Et].
Qed.

Lemma pass_without_values (step : list N -> jsval -> list N -> list N) data labels xml :
  (forall lf, In lf labels -> toBoolean (prop data (snd lf)) = false) ->
  fold_left (forLabel step data) labels xml = xml.
Proof.
  revert xml. induction labels as [|lf labels IH]; intros xml H; simpl; [reflexivity|].
  replace (forLabel step data xml lf) with xml
    by (unfold forLabel; rewrite (H lf) by (left; reflexivity); reflexivity).
  apply IH. intros lf' Hlf'. apply H. right. exact Hlf'.
Qed.

(** A rewrite needs a table cell. *)
Lemma FillStep_hasCell data s1 s2 : FillStep data s1 s2 -> hasCell s1.
Proof.
  intros H. destruct H as [label field a way blank close b _ _ Hway _ _].
  destruct Hway as (cell1 & x1 & run1 & u & lab & v & close1 & x2 & cellEnd & ws & cell2
                    & x3 & tag & -> & Hc & _).
  exists a, cell1,
    ((x1 ++ run1 ++ (u ++ lab ++ v) ++ close1 ++ x2 ++ cellEnd ++ ws ++ cell2 ++ x3 ++ tag)
     ++ blank ++ close ++ b).
  split; [repeat rewrite <- app_assoc; reflexivity|exact Hc].
Qed.

(** The opening of a table cell holds the letter c, in either case. *)
Lemma hasCell_letter s :
  hasCell s -> existsb (fun u => charMatches gis (ch "c") u) s = true.
Proof.
  intros (a & tag & b & -> & name & attrs & -> & Hn & _).
  unfold sameUpToCase in Hn.
  change (L "<w:tc") with [ch "<"; ch "w"; ch ":"; ch "t"; ch "c"] in Hn.
  do 4 (apply Forall2_cons_inv_l in Hn; destruct Hn as (? & ? & _ & Hn & ->)).
  apply Forall2_cons_inv_l in Hn. destruct Hn as (y & k & Hy & _ & ->).
  rewrite existsb_app. apply orb_true_iff. right.
  cbn [app existsb]. rewrite Hy. rewrite !orb_true_r. reflexivity.
Qed.

(** C4, as the code has it.  The table-cell pass changes the body only
    by rewrites of this kind: a label of the table whose context value
    is truthy stands in the text of a run after the opening of a table
    cell; further on a table cell is closed and the next one opened at
    once; and further on the whole content of one text run, empty or
    made of underscores and white space only, is replaced by the
    escaped value.  Everything outside the rewritten content, and so
    every run whose content is neither blank nor underscores, stays
    byte for byte, and a body without a table cell stays as it is.  A
    label whose context value is absent or empty triggers nothing, and
    with no value at all the body is returned as it is.  In a row made of
    the cell of the label 企业名称 and a cell whose one run holds three
    underscores, the run comes to hold the company name. *)
Theorem table_cell_frame data xml :
  rtc (FillStep data) xml (replaceTableCells xml data)
  /\ (~ hasCell xml -> replaceTableCells xml data = xml)
  /\ (forall step lf xml',
        toBoolean (prop data (snd lf)) = false -> forLabel step data xml' lf = xml')
  /\ ((forall lf, In lf tableLabels -> toBoolean (prop data (snd lf)) = false) ->
      replaceTableCells xml data = xml)
  /\ replaceTableCells (L "<w:tbl><w:tr>" ++ cellLabel ++ cellBlank ++ L "</w:tr></w:tbl>")
       dataCompanyX
     = L "<w:tbl><w:tr>" ++ cellLabel ++ cellFilled ++ L "</w:tr></w:tbl>".
Proof.
  assert (H : rtc (FillStep data) xml (replaceTableCells xml data))
    by (apply tablePass_related; auto).
  split; [exact H|].
  split.
  - intros Hno. destruct H as [|s1 s2 s3 Hstep _]; [reflexivity|].
    exfalso. apply Hno. apply (FillStep_hasCell _ _ _ Hstep).
  - split; [|split].
    + intros step lf xml' Hf. unfold forLabel. rewrite Hf. reflexivity.
    + intros Hf. apply pass_without_values. exact Hf.
    + vm_compute. reflexivity.
Qed.

Lemma table_cell_frame_witness :
  forLabel (fun label value xml =>
              replaceAll gis (tablePattern label) (fillCell value) xml)
    dataCompanyX rowTwoRuns (L "注册资本", "registeredCapital"%string)
  = rowTwoRuns
  /\ replaceTableCells (L "<w:p><w:r><w:t>企业名称：___</w:t></w:r></w:p>") dataCompanyX
     = L "<w:p><w:r><w:t>企业名称：___</w:t></w:r></w:p>".
Proof.
  split.
  - apply (proj1 (proj2 (proj2 (table_cell_frame dataCompanyX rowTwoRuns)))).
    reflexivity.
  - apply (proj1 (proj2 (table_cell_frame dataCompanyX
                           (L "<w:p><w:r><w:t>企业名称：___</w:t></w:r></w:p>")))).
    intros Hcell. apply hasCell_letter in Hcell. vm_compute in Hcell. discriminate.
Defined.

(** C4 as it is stated fails, twice.  The cell next to the label holds
    the text "ABC___", neither blank nor underscores only, and the pass
    rewrites it, putting the value in place of the run of underscores.
    And when the cell next to the label holds "ABC" the pass goes on to
    a cell of the next row, which is no sibling of the label's cell,
    and rewrites the blank run it finds there. *)
Lemma cell_with_text_is_rewritten :
  textOf false cellTwoRuns = L "ABC___"
  /\ trim (textOf false cellTwoRuns) <> []
  /\ forallb isBlankChar (textOf false cellTwoRuns) = false
  /\ replaceTableCells rowTwoRuns dataCompanyX
     = L "<w:tbl><w:tr>" ++ cellLabel ++ cellTwoRunsFilled ++ L "</w:tr></w:tbl>"
  /\ cellTwoRunsFilled <> cellTwoRuns
  /\ replaceTableCells (twoRows cellBlank) dataCompanyX = twoRows cellFilled
  /\ twoRows cellFilled <> twoRows cellBlank.
Proof.
  split; [vm_compute; reflexivity|].
  split; [vm_compute; discriminate|].
  split; [vm_compute; reflexivity|].
  split; [vm_compute; reflexivity|].
  split; [vm_compute; discriminate|].
  split; [vm_compute; reflexivity|].
  vm_compute. discriminate.
Qed.

End TableCells.

(* ===================================================================== *)
(** * The template analyzer *)
(* ===================================================================== *)

Section Analyzer.
Import JsStr JsVal Regex TemplateEngine Spec.

Implicit Types (fl : flags) (r : regex) (s w pre : list N)
  (k : mstate -> option mstate).

(** ** Evaluation of a greedy [*] over a character class *)

Lemma m_star fl g r x k :
  m fl (Star g r) x k = starLoop (m fl r) g k (S (length (rest x))) x.
Proof. reflexivity. Qed.

Lemma starLoop_S body g k f x :
  starLoop body g k (S f) x =
  let again :=
    body x (fun y =>
      if (length (rest y) <? length (rest x))%nat
      then starLoop body g k f y else None) in
  if g then match again with Some z => Some z | None => k x end
  else match k x with Some z => Some z | None => again end.
Proof. reflexivity. Qed.

Lemma m_seq fl r1 r2 x k :
  m fl (Seq r1 r2) x k = m fl r1 x (fun y => m fl r2 y k).
Proof. reflexivity. Qed.

Lemma m_group fl n r x k :
  m fl (Group n r) x k =
  m fl r x (fun y =>
    k {| pos := pos y; rest := rest y;
         caps := <[n := take (pos y - pos x) (rest x)]> (caps y) |}).
Proof. reflexivity. Qed.

Lemma m_class fl neg p x k :
  m fl (Class neg p) x k = oneChar (classMatches fl neg p) x k.
Proof. reflexivity. Qed.

Lemma m_char fl a x k : m fl (Char a) x k = oneChar (charMatches fl a) x k.
Proof. reflexivity. Qed.

Lemma oneChar_cons ok ps c tl cs k :
  oneChar ok {| pos := ps; rest := c :: tl; caps := cs |} k =
  if ok c then k {| pos := S ps; rest := tl; caps := cs |} else None.
Proof. reflexivity. Qed.

Lemma oneChar_nil ok ps cs k :
  oneChar ok {| pos := ps; rest := []; caps := cs |} k = None.
Proof. reflexivity. Qed.

(** One turn of a greedy [*] over a class at a character of the class. *)
Lemma star_class_step fl neg p k ps c tl cs :
  classMatches fl neg p c = true ->
  m fl (Star true (Class neg p)) {| pos := ps; rest := c :: tl; caps := cs |} k =
  match m fl (Star true (Class neg p)) {| pos := S ps; rest := tl; caps := cs |} k with
  | Some z => Some z
  | None => k {| pos := ps; rest := c :: tl; caps := cs |}
  end.
Proof.
  intros Hc. rewrite (m_star fl true (Class neg p) {| pos := ps; rest := c :: tl; caps := cs |}).
  cbn [rest]. rewrite starLoop_S. cbv zeta.
  rewrite m_class, oneChar_cons, Hc. cbn [rest].
  change (length (c :: tl)) with (S (length tl)).
  rewrite (proj2 (Nat.ltb_lt (length tl) (S (length tl)))) by lia.
  reflexivity.
Qed.

(** The end of a greedy [*] over a class: no character, or one outside
    the class. *)
Lemma star_class_stop fl neg p k ps tl cs :
  match tl with [] => True | c :: _ => classMatches fl neg p c = false end ->
  m fl (Star true (Class neg p)) {| pos := ps; rest := tl; caps := cs |} k =
  k {| pos := ps; rest := tl; caps := cs |}.
Proof.
  intros H. rewrite m_star. cbn [rest]. rewrite starLoop_S. cbv zeta.
  rewrite m_class. destruct tl as [|c tl].
  - rewrite oneChar_nil. reflexivity.
  - rewrite oneChar_cons, H. reflexivity.
Qed.

Lemma star_class_greedy fl neg p k w :
  Forall (fun u => classMatches fl neg p u = true) w ->
  forall tl ps cs z,
    match tl with [] => True | c :: _ => classMatches fl neg p c = false end ->
    k {| pos := ps + length w; rest := tl; caps := cs |} = Some z ->
    m fl (Star true (Class neg p)) {| pos := ps; rest := w ++ tl; caps := cs |} k = Some z.
Proof.
  induction 1 as [|c w Hc _ IH]; intros tl ps cs z Hr Hk.
  - rewrite Nat.add_0_r in Hk. cbn [app]. rewrite star_class_stop by exact Hr. exact Hk.
  - cbn [app]. rewrite star_class_step by exact Hc.
    rewrite (IH tl (S ps) cs z Hr); [reflexivity|].
    replace (S ps + length w)%nat with (ps + length (c :: w))%nat by (simpl; lia).
    exact Hk.
Qed.

(** The matcher fails at once on a first character the pattern does
    not start with. *)
Lemma first_char_fail fl a r2 pre s :
  match s with [] => True | c :: _ => charMatches fl a c = false end ->
  matchAt fl (Seq (Char a) r2) pre s = None.
Proof.
  intros H. unfold matchAt. cbn [m]. unfold oneChar. cbn [rest].
  destruct s as [|c s]; [reflexivity|]. rewrite H. reflexivity.
Qed.

(** ** The successive matches *)




(** ** The placeholder pattern *)









(** ** The list of names *)

Lemma filter_comm (P Q : list N -> bool) l :
  List.filter P (List.filter Q l) = List.filter Q (List.filter P l).
Proof.
  induction l as [|y l IH]; [reflexivity|]. simpl.
  destruct (P y) eqn:Ep, (Q y) eqn:Eq; simpl; rewrite ?Ep, ?Eq, ?IH; reflexivity.
Qed.

Lemma filter_drop (P : list N -> bool) x l :
  P x = false ->
  List.filter P (List.filter (fun y => negb (bool_decide (y = x))) l) = List.filter P l.
Proof.
  intros Hx. induction l as [|y l IH]; [reflexivity|]. simpl.
  destruct (bool_decide_reflect (y = x)) as [->|Hne]; simpl.
  - rewrite Hx. exact IH.
  - destruct (P y); rewrite IH; reflexivity.
Qed.

Lemma distinct_filter (P : list N -> bool) l :
  distinct (List.filter P l) = List.filter P (distinct l).
Proof.
  induction l as [|x l IH]; [reflexivity|].
  simpl. destruct (P x) eqn:E; simpl.
  - rewrite IH, filter_comm. reflexivity.
  - rewrite IH, filter_drop by exact E. reflexivity.
Qed.

Lemma filter_filter_app (acc : list (list N)) x l :
  List.filter (fun y => negb (bool_decide (y ∈ acc ++ [x]))) l
  = List.filter (fun y => negb (bool_decide (y = x)))
      (List.filter (fun y => negb (bool_decide (y ∈ acc))) l).
Proof.
  induction l as [|y l IH]; [reflexivity|]. cbn [List.filter].
  destruct (bool_decide_reflect (y ∈ acc)) as [Hin|Hnin]; cbn [negb].
  - rewrite bool_decide_eq_true_2 by (apply elem_of_app; left; exact Hin).
    cbn [negb]. exact IH.
  - cbn [List.filter]. destruct (bool_decide_reflect (y = x)) as [->|Hne]; cbn [negb].
    + rewrite bool_decide_eq_true_2
        by (apply elem_of_app; right; apply list_elem_of_singleton; reflexivity).
      cbn [negb]. exact IH.
    + rewrite bool_decide_eq_false_2.
      * cbn [negb]. rewrite IH. reflexivity.
      * rewrite elem_of_app, list_elem_of_singleton. tauto.
Qed.

Lemma push_distinct (names acc : list (list N)) :
  fold_left (fun ps x => if bool_decide (x ∈ ps) then ps else ps ++ [x]) names acc
  = acc ++ distinct (List.filter (fun y => negb (bool_decide (y ∈ acc))) names).
Proof.
  revert acc. induction names as [|x names IH]; intros acc.
  - simpl. rewrite app_nil_r. reflexivity.
  - cbn [fold_left List.filter].
    destruct (bool_decide_reflect (x ∈ acc)) as [Hin|Hnin]; cbn [negb].
    + apply IH.
    + rewrite IH. cbn [distinct]. rewrite <- app_assoc. cbn [app]. f_equal. f_equal.
      rewrite filter_filter_app. apply distinct_filter.
Qed.

Lemma findExistingPlaceholders_distinct content :
  findExistingPlaceholders content
  = distinct (map (fun mi => trim (capture mi 1))
                  (matchAll noFlags placeholderPattern content)).
Proof.
  unfold findExistingPlaceholders.
  generalize (matchAll noFlags placeholderPattern content). intros l.
  assert (H : forall acc,
             fold_left pushNew l acc
             = fold_left (fun ps x => if bool_decide (x ∈ ps) then ps else ps ++ [x])
                 (map (fun mi => trim (capture mi 1)) l) acc).
  { induction l as [|mi l IH]; intros acc; [reflexivity|]. simpl. rewrite IH. reflexivity. }
  rewrite H, push_distinct. cbn [app]. f_equal. clear H.
  induction (map _ l) as [|y names IHn]; [reflexivity|].
  cbn [List.filter]. rewrite bool_decide_eq_false_2 by apply not_elem_of_nil.
  cbn [negb]. rewrite IHn. reflexivity.
Qed.







End Analyzer.

(* ===================================================================== *)
(** * The business-record parser *)
(* ===================================================================== *)

Section BusinessRecord.
Import JsStr JsVal Regex FileParser Spec.

Implicit Types (fl : flags) (r : regex) (s w pre text : list N)
  (k : mstate -> option mstate).

(** [JSON.parse] is any function from the span to a parsed value or to a
    failure. *)
Variable J : Type.
Variable JSON_parse : list N -> option J.

Lemma any_class u : classMatches noFlags false (fun _ => true) u = true.
Proof. reflexivity. Qed.

Lemma close_fails u : u <> ch "}" -> charMatches noFlags (ch "}") u = false.
Proof.
  intros H. unfold charMatches, noFlags. cbn [ignoreCase].
  destruct (N.eqb_spec (ch "}") u); congruence.
Qed.

(** Without a closing brace ahead the loop over any character fails. *)
Lemma star_any_none s : forall ps cs,
  Forall (fun u => u <> ch "}") s ->
  m noFlags (Star true anyChar) {| pos := ps; rest := s; caps := cs |} closing = None.
Proof.
  unfold anyChar. induction s as [|c s IH]; intros ps cs Hs.
  - rewrite star_class_stop by exact I. reflexivity.
  - inversion Hs as [|? ? Hc Hs']; subst.
    rewrite star_class_step by apply any_class.
    rewrite IH by exact Hs'.
    unfold closing. rewrite m_char, oneChar_cons, close_fails by exact Hc. reflexivity.
Qed.

(** The loop over any character gives way at the last closing brace. *)
Lemma star_any_last mid post : forall ps cs,
  Forall (fun u => u <> ch "}") post ->
  m noFlags (Star true anyChar)
    {| pos := ps; rest := mid ++ ch "}" :: post; caps := cs |} closing
  = Some {| pos := S (ps + length mid); rest := post; caps := cs |}.
Proof.
  induction mid as [|c mid IH]; intros ps cs Hpost; cbn [app].
  - unfold anyChar. rewrite star_class_step by apply any_class.
    fold anyChar. rewrite star_any_none by exact Hpost.
    unfold closing. rewrite m_char, oneChar_cons.
    replace (charMatches noFlags (ch "}") (ch "}")) with true by reflexivity.
    simpl. rewrite Nat.add_0_r. reflexivity.
  - unfold anyChar. rewrite star_class_step by apply any_class.
    fold anyChar. rewrite IH by exact Hpost.
    simpl. rewrite Nat.add_succ_r. reflexivity.
Qed.

Lemma json_at pre mid post :
  Forall (fun u => u <> ch "}") post ->
  matchAt noFlags jsonPattern pre (ch "{" :: mid ++ ch "}" :: post)
  = Some {| before := pre; matched := ch "{" :: mid ++ [ch "}"]; after := post;
            groups := ∅ |}.
Proof.
  intros Hpost. unfold matchAt, jsonPattern. cbn [seqs].
  rewrite m_seq, m_char, oneChar_cons.
  replace (charMatches noFlags (ch "{") (ch "{")) with true by reflexivity.
  rewrite m_seq. fold closing. rewrite star_any_last by exact Hpost. cbn [pos caps].
  replace (S (S (length pre) + length mid) - length pre)%nat
    with (length (ch "{" :: mid ++ [ch "}"]))
    by (simpl; rewrite length_app; simpl; lia).
  replace (ch "{" :: mid ++ ch "}" :: post) with ((ch "{" :: mid ++ [ch "}"]) ++ post)
    by (simpl; rewrite <- app_assoc; reflexivity).
  rewrite take_app_length, drop_app_length. reflexivity.
Qed.

Lemma json_starts pre s :
  match s with [] => True | c :: _ => c <> ch "{" end ->
  matchAt noFlags jsonPattern pre s = None.
Proof.
  intros H. unfold jsonPattern. cbn [seqs]. apply first_char_fail.
  destruct s as [|c s]; [exact I|].
  unfold charMatches, noFlags. cbn [ignoreCase].
  destruct (N.eqb_spec (ch "{") c); congruence.
Qed.

Lemma execFrom_no_open a : forall pre s,
  Forall (fun u => u <> ch "{") a ->
  execFrom noFlags jsonPattern pre (a ++ s) = execFrom noFlags jsonPattern (pre ++ a) s.
Proof.
  induction a as [|c a IH]; intros pre s Ha.
  - cbn [app]. rewrite app_nil_r. reflexivity.
  - inversion Ha as [|? ? Hc Ha']; subst. cbn [app execFrom].
    rewrite json_starts by exact Hc.
    rewrite (IH (pre ++ [c]) s Ha'), <- app_assoc. reflexivity.
Qed.

Lemma execFrom_Some fl r s : forall pre mi,
  execFrom fl r pre s = Some mi ->
  exists a s', s = a ++ s' /\ matchAt fl r (pre ++ a) s' = Some mi.
Proof.
  induction s as [|c s IH]; intros pre mi; cbn [execFrom].
  - destruct (matchAt fl r pre []) as [mi'|] eqn:E; [|discriminate].
    intros [= <-]. exists [], []. split; [reflexivity|]. rewrite app_nil_r. exact E.
  - destruct (matchAt fl r pre (c :: s)) as [mi'|] eqn:E.
    + intros [= <-]. exists [], (c :: s). split; [reflexivity|].
      rewrite app_nil_r. exact E.
    + intros H. destruct (IH _ _ H) as (a & s' & -> & Hm).
      exists (c :: a), s'. rewrite <- app_assoc in Hm. auto.
Qed.

(** The shape of every match of the pattern. *)
Lemma json_match pre s mi :
  matchAt noFlags jsonPattern pre s = Some mi ->
  exists b, matched mi = ch "{" :: b ++ [ch "}"].
Proof.
  intros H. apply matchAt_sound in H. destruct H as (_ & _ & H).
  unfold jsonPattern in H. cbn [seqs] in H.
  apply Matches_Seq_inv in H. destruct H as (w1 & t1 & c1 & -> & A & H).
  apply Matches_Char_inv in A. destruct A as (u & -> & Hu & ->).
  apply Matches_Seq_inv in H. destruct H as (w2 & w3 & c2 & -> & _ & B).
  apply Matches_Char_inv in B. destruct B as (v & -> & Hv & _).
  unfold charMatches, noFlags in Hu, Hv. cbn [ignoreCase] in Hu, Hv.
  apply N.eqb_eq in Hu, Hv. subst u v. exists w2. reflexivity.
Qed.

Lemma exec_json text pre mid post :
  text = pre ++ ch "{" :: mid ++ ch "}" :: post ->
  Forall (fun u => u <> ch "{") pre ->
  Forall (fun u => u <> ch "}") post ->
  exec noFlags jsonPattern text
  = Some {| before := pre; matched := ch "{" :: mid ++ [ch "}"]; after := post;
            groups := ∅ |}.
Proof.
  intros -> Hpre Hpost. unfold exec.
  rewrite (execFrom_no_open pre [] _ Hpre). cbn [app].
  destruct (mid ++ ch "}" :: post) eqn:E; [destruct mid; discriminate|].
  rewrite <- E. cbn [execFrom]. rewrite (json_at pre mid post Hpost). reflexivity.
Qed.

Lemma exec_json_none text :
  (~ exists a b c, text = a ++ ch "{" :: b ++ ch "}" :: c) ->
  exec noFlags jsonPattern text = None.
Proof.
  intros Hno. destruct (exec noFlags jsonPattern text) as [mi|] eqn:E; [|reflexivity].
  exfalso. apply Hno. unfold exec in E.
  apply execFrom_Some in E. destruct E as (a & s' & -> & Hm).
  destruct (json_match _ _ _ Hm) as (b & Hb).
  apply matchAt_sound in Hm. destruct Hm as (_ & -> & _).
  exists a, b, (after mi). rewrite Hb. simpl. rewrite <- app_assoc. reflexivity.
Qed.

(** ** The text fallback *)

Lemma find_absent (l : list (string * (flags * regex))) key :
  ~ In key (map fst l) ->
  List.find (fun kp => bool_decide (fst kp = key)) l = None.
Proof.
  induction l as [|kp l IH]; intros H; [reflexivity|]. cbn [List.find].
  rewrite bool_decide_eq_false_2 by (intros E; apply H; left; exact E).
  apply IH. intros Hin. apply H. right. exact Hin.
Qed.

Lemma fold_patterns text (l : list (string * (flags * regex))) key :
  List.NoDup (map fst l) ->
  forall init : gmap string (list N),
    fold_left
      (fun info kp =>
         match exec (fst (snd kp)) (snd (snd kp)) text with
         | Some mi => <[fst kp := trim (capture mi 1)]> info
         | None => info
         end) l init !! key
    = match List.find (fun kp => bool_decide (fst kp = key)) l with
      | Some kp =>
          match exec (fst (snd kp)) (snd (snd kp)) text with
          | Some mi => Some (trim (capture mi 1))
          | None => init !! key
          end
      | None => init !! key
      end.
Proof.
  induction l as [|kp l IH]; intros Hnd init; [reflexivity|].
  inversion Hnd as [|? ? Hnotin Hnd']; subst. cbn [fold_left List.find].
  rewrite (IH Hnd').
  destruct (bool_decide_reflect (fst kp = key)) as [E|E].
  - rewrite find_absent by (rewrite <- E; exact Hnotin).
    destruct (exec _ _ text); [|reflexivity].
    rewrite E. apply lookup_insert_eq.
  - assert (Hinit :
      (match exec (fst (snd kp)) (snd (snd kp)) text with
       | Some mi => <[fst kp := trim (capture mi 1)]> init
       | None => init
       end) !! key = init !! key).
    { destruct (exec _ _ text); [|reflexivity]. apply lookup_insert_ne. exact E. }
    rewrite Hinit. reflexivity.
Qed.

Lemma patterns_keys : List.NoDup (map fst patterns).
Proof.
  unfold patterns. cbn [map fst].
  repeat (constructor; [cbn [In]; intuition discriminate|]). constructor.
Qed.

Lemma fromText_lookup text key :
  parseBusinessInfoFromText text !! key
  = match fieldPattern key with
    | Some (fl, r) => (fun mi => trim (capture mi 1)) <$> exec fl r text
    | None => None
    end.
Proof.
  unfold parseBusinessInfoFromText, fieldPattern.
  rewrite (fold_patterns text patterns key patterns_keys ∅).
  destruct (List.find _ patterns) as [[key' [fl r]]|]; cbn [fmap option_fmap option_map fst snd].
  - destruct (exec fl r text); reflexivity.
  - reflexivity.
Qed.

Lemma last_close post :
  Forall (fun u => u <> ch "}") post
  \/ exists p1 p2, post = p1 ++ ch "}" :: p2 /\ Forall (fun u => u <> ch "}") p2.
Proof.
  induction post as [|c post IH]; [left; constructor|].
  destruct IH as [H|(p1 & p2 & -> & H)].
  - destruct (N.eq_dec c (ch "}")) as [->|Hc].
    + right. exists [], post. split; [reflexivity|exact H].
    + left. constructor; assumption.
  - right. exists (c :: p1), p2. split; [reflexivity|exact H].
Qed.

(** The span that is parsed ends at the last closing brace. *)
Lemma span_to_last text pre mid post mi :
  text = pre ++ ch "{" :: mid ++ ch "}" :: post ->
  Forall (fun u => u <> ch "{") pre ->
  exec noFlags jsonPattern text = Some mi ->
  matched mi = ch "{" :: mid ++ [ch "}"] ->
  Forall (fun u => u <> ch "}") post.
Proof.
  intros Ht Hpre He Hm.
  destruct (last_close post) as [H|(p1 & p2 & -> & H)]; [exact H|]. exfalso.
  assert (Ht' : text = pre ++ ch "{" :: (mid ++ ch "}" :: p1) ++ ch "}" :: p2)
    by (rewrite Ht, <- app_assoc; reflexivity).
  rewrite (exec_json text pre _ p2 Ht' Hpre H) in He. injection He as <-.
  cbn [matched] in Hm. apply (f_equal (@length N)) in Hm.
  cbn [length] in Hm. rewrite !length_app in Hm. cbn [length] in Hm. lia.
Qed.

Lemma upToClose_shape s : forall mid post,
  upToClose s = Some (mid, post) ->
  s = mid ++ ch "}" :: post /\ Forall (fun u => u <> ch "}") mid.
Proof.
  induction s as [|c s IH]; intros mid post; cbn [upToClose]; [discriminate|].
  destruct (N.eqb_spec c (ch "}")) as [->|Hc].
  - intros [= <- <-]. split; [reflexivity|constructor].
  - destruct (upToClose s) as [[mid' post']|]; [|discriminate].
    cbn [fmap option_fmap option_map fst snd]. intros [= <- <-].
    destruct (IH mid' post' eq_refl) as [-> Hmid].
    split; [reflexivity|constructor; assumption].
Qed.

Lemma firstSpan_shape s : forall pre span post,
  firstSpan s = Some (pre, span, post) ->
  exists mid,
    s = pre ++ ch "{" :: mid ++ ch "}" :: post
    /\ span = ch "{" :: mid ++ [ch "}"]
    /\ Forall (fun u => u <> ch "{") pre
    /\ Forall (fun u => u <> ch "}") mid.
Proof.
  induction s as [|c s IH]; intros pre span post; cbn [firstSpan]; [discriminate|].
  destruct (N.eqb_spec c (ch "{")) as [->|Hc].
  - destruct (upToClose s) as [[mid post']|] eqn:E; [|discriminate].
    cbn [fmap option_fmap option_map fst snd]. intros [= <- <- <-].
    destruct (upToClose_shape _ _ _ E) as [-> Hmid].
    exists mid. split; [reflexivity|]. split; [reflexivity|]. split; [constructor|exact Hmid].
  - destruct (firstSpan s) as [[[pre' span'] post']|]; [|discriminate].
    cbn [fmap option_fmap option_map fst snd]. intros [= <- <- <-].
    destruct (IH pre' span' post' eq_refl) as (mid & -> & -> & Hpre & Hmid).
    exists mid. split; [reflexivity|]. split; [reflexivity|].
    split; [constructor; assumption|exact Hmid].
Qed.

(** C9, as the code has it.  The parser takes the span from the first
    opening brace to the last closing brace of the transcript and
    returns what [JSON.parse] makes of it; when the parse throws, or
    when no brace-delimited span exists, it returns the result of the
    text fallback, in which a field is present only if its pattern
    matched, with the trimmed capture as its value, and a field whose
    pattern did not match is absent.  The span that is parsed is the
    first brace-delimited span, from the first opening brace to the
    first closing brace after it, exactly when no closing brace follows
    that span. *)
Theorem business_record_parser text :
  (forall mi info,
      exec noFlags jsonPattern text = Some mi ->
      JSON_parse (matched mi) = Some info ->
      parseBusinessInfo JSON_parse text = Parsed info)
  /\ (forall mi,
      exec noFlags jsonPattern text = Some mi ->
      JSON_parse (matched mi) = None ->
      parseBusinessInfo JSON_parse text = FromText (parseBusinessInfoFromText text))
  /\ (exec noFlags jsonPattern text = None ->
      parseBusinessInfo JSON_parse text = FromText (parseBusinessInfoFromText text))
  /\ (forall pre mid post,
      text = pre ++ ch "{" :: mid ++ ch "}" :: post ->
      Forall (fun u => u <> ch "{") pre ->
      Forall (fun u => u <> ch "}") post ->
      matched <$> exec noFlags jsonPattern text = Some (ch "{" :: mid ++ [ch "}"]))
  /\ ((~ exists a b c, text = a ++ ch "{" :: b ++ ch "}" :: c) ->
      exec noFlags jsonPattern text = None)
  /\ (forall key,
      parseBusinessInfoFromText text !! key
      = match fieldPattern key with
        | Some (fl, r) => (fun mi => trim (capture mi 1)) <$> exec fl r text
        | None => None
        end)
  /\ (forall key fl r,
      fieldPattern key = Some (fl, r) -> exec fl r text = None ->
      parseBusinessInfoFromText text !! key = None)
  /\ length patterns = 9%nat
  /\ (forall pre span post,
      firstSpan text = Some (pre, span, post) ->
      (Forall (fun u => u <> ch "}") post ->
       matched <$> exec noFlags jsonPattern text = Some span)
      /\ (forall mi, exec noFlags jsonPattern text = Some mi ->
          matched mi = span -> Forall (fun u => u <> ch "}") post)).
Proof.
  split.
  { intros mi info H1 H2. unfold parseBusinessInfo. rewrite H1, H2. reflexivity. }
  split.
  { intros mi H1 H2. unfold parseBusinessInfo. rewrite H1, H2. reflexivity. }
  split.
  { intros H1. unfold parseBusinessInfo. rewrite H1. reflexivity. }
  split.
  { intros pre mid post Ht Hpre Hpost.
    rewrite (exec_json text pre mid post Ht Hpre Hpost). reflexivity. }
  split; [apply exec_json_none|].
  split; [apply fromText_lookup|].
  split.
  { intros key fl r Hp He. rewrite fromText_lookup, Hp, He. reflexivity. }
  split; [reflexivity|].
  intros pre span post Hs.
  destruct (firstSpan_shape _ _ _ _ Hs) as (mid & Ht & -> & Hpre & Hmid).
  split.
  { intros Hpost. rewrite (exec_json text pre mid post Ht Hpre Hpost). reflexivity. }
  intros mi He Hm.
  exact (span_to_last text pre mid post mi Ht Hpre He Hm).
Qed.

End BusinessRecord.

Lemma business_record_parser_witness :
  FileParser.parseBusinessInfo
    (fun s => if bool_decide (s = JsStr.L "{}") then Some tt else None)
    (JsStr.L "识别结果：{} 完")
  = FileParser.Parsed tt.
Proof.
  eapply (proj1 (business_record_parser unit _ _)).
  - vm_compute. reflexivity.
  - vm_compute. reflexivity.
Defined.

(** C9 as it is stated fails.  In the transcript
    [{"companyName":"A"} 备注：{无}] the first brace-delimited span is
    the object, which [JSON.parse] reads; the parser hands [JSON.parse]
    the whole transcript, up to the last closing brace, which is a
    syntax error, and returns the result of the text fallback, an
    object without any field. *)
Lemma first_span_is_not_the_parsed_span :
  Spec.firstSpan Spec.transcriptTwoSpans = Some ([], Spec.objectSpan, Spec.remark)
  /\ Spec.jsonParseExample Spec.objectSpan = Some [("companyName"%string, JsStr.L "A")]
  /\ Regex.matched <$> Regex.exec FileParser.noFlags FileParser.jsonPattern Spec.transcriptTwoSpans
     = Some Spec.transcriptTwoSpans
  /\ Spec.transcriptTwoSpans <> Spec.objectSpan
  /\ Spec.jsonParseExample Spec.transcriptTwoSpans = None
  /\ FileParser.parseBusinessInfoFromText Spec.transcriptTwoSpans = ∅
  /\ FileParser.parseBusinessInfo Spec.jsonParseExample Spec.transcriptTwoSpans
     = FileParser.FromText ∅
  /\ FileParser.parseBusinessInfo Spec.jsonParseExample Spec.transcriptTwoSpans
     <> FileParser.Parsed [("companyName"%string, JsStr.L "A")].
Proof.
  split; [vm_compute; reflexivity|].
  split; [vm_compute; reflexivity|].
  split; [vm_compute; reflexivity|].
  split; [vm_compute; discriminate|].
  split; [vm_compute; reflexivity|].
  split; [vm_compute; reflexivity|].
  split; [vm_compute; reflexivity|].
  vm_compute. discriminate.
Qed.

(* ===================================================================== *)
(** * The structured appendix and the escaping *)
(* ===================================================================== *)

Section Appendix.
Import JsStr JsVal Regex TemplateEngine Spec.

Implicit Types (data : gmap string jsval) (xml s t : list N).

(** ** [lastIndexOf] *)

Lemma lastIndexFrom_spec t s : forall i found,
  (lastIndexFrom i s t found = found
   /\ forall j, (j <= length s)%nat -> startsWith (drop j s) t = false)
  \/ exists j,
       lastIndexFrom i s t found = Some (i + j)%nat /\ (j <= length s)%nat
       /\ startsWith (drop j s) t = true
       /\ forall j', (j < j')%nat -> (j' <= length s)%nat ->
                     startsWith (drop j' s) t = false.
Proof.
  induction s as [|c s IH]; intros i found.
  - cbn [lastIndexFrom]. destruct (startsWith [] t) eqn:E.
    + right. exists 0%nat. rewrite Nat.add_0_r. repeat split; auto.
      intros j' H1 H2. simpl in H2. lia.
    + left. split; [reflexivity|]. intros j Hj. simpl in Hj.
      replace j with 0%nat by lia. exact E.
  - cbn [lastIndexFrom].
    destruct (IH (S i) (if startsWith (c :: s) t then Some i else found))
      as [[Hres Hnone]|(j & Hres & Hj & Hat & Hlast)].
    + destruct (startsWith (c :: s) t) eqn:E.
      * right. exists 0%nat. rewrite Nat.add_0_r. repeat split; auto.
        -- simpl. lia.
        -- intros j' H1 H2. destruct j' as [|j']; [lia|].
           simpl in *. apply Hnone. lia.
      * left. split; [exact Hres|]. intros j Hj. destruct j as [|j]; [exact E|].
        simpl in *. apply Hnone. lia.
    + right. exists (S j). rewrite Nat.add_succ_r. repeat split; auto.
      * simpl. lia.
      * intros j' H1 H2. destruct j' as [|j']; [lia|].
        simpl in *. apply Hlast; lia.
Qed.

Lemma lastIndexOf_Some s t i :
  lastIndexOf s t = Some i ->
  (i <= length s)%nat /\ startsWith (drop i s) t = true
  /\ forall j, (i < j)%nat -> (j <= length s)%nat -> startsWith (drop j s) t = false.
Proof.
  unfold lastIndexOf. intros H.
  destruct (lastIndexFrom_spec t s 0 None) as [[Hres _]|(j & Hres & Hj & Hat & Hlast)].
  - congruence.
  - rewrite H in Hres. injection Hres as ->. auto.
Qed.

Lemma lastIndexOf_None s t :
  lastIndexOf s t = None ->
  forall j, (j <= length s)%nat -> startsWith (drop j s) t = false.
Proof.
  unfold lastIndexOf. intros H.
  destruct (lastIndexFrom_spec t s 0 None) as [[_ Hnone]|(j & Hres & _)].
  - exact Hnone.
  - congruence.
Qed.

Lemma includes_spec s t :
  includes s t = true <-> exists j, (j <= length s)%nat /\ startsWith (drop j s) t = true.
Proof.
  induction s as [|c s IH]; cbn [includes].
  - rewrite orb_false_r. split.
    + intros H. exists 0%nat. auto.
    + intros (j & Hj & H). simpl in Hj. replace j with 0%nat in H by lia. exact H.
  - rewrite orb_true_iff, IH. split.
    + intros [H|(j & Hj & H)].
      * exists 0%nat. split; [lia|exact H].
      * exists (S j). split; [simpl; lia|exact H].
    + intros (j & Hj & H). destruct j as [|j]; [left; exact H|].
      right. exists j. split; [simpl in Hj; lia|exact H].
Qed.

Lemma includes_lastIndexOf s t :
  includes s t = true <-> exists i, lastIndexOf s t = Some i.
Proof.
  split.
  - intros H. apply includes_spec in H. destruct H as (j & Hj & Hat).
    destruct (lastIndexOf s t) as [i|] eqn:E; [eauto|].
    rewrite (lastIndexOf_None _ _ E j Hj) in Hat. discriminate.
  - intros (i & H). apply lastIndexOf_Some in H. destruct H as (Hi & Hat & _).
    apply includes_spec. eauto.
Qed.

(** ** The sections *)

Lemma textSection_total data section :
  (toBoolean (prop data (snd section)) = true ->
   exists text, prop data (snd section) = VStr text) ->
  exists ps, textSection data section = Some ps.
Proof.
  unfold textSection. intros H.
  destruct (toBoolean (prop data (snd section))) eqn:E; [|eauto].
  destruct (H eq_refl) as (text & ->). eauto.
Qed.

Lemma textSectionsFrom_total data sections :
  (forall title field, In (title, field) sections ->
     toBoolean (prop data field) = true -> exists text, prop data field = VStr text) ->
  exists ps, textSectionsFrom data sections = Some ps.
Proof.
  induction sections as [|[title field] more IH]; intros H; cbn [textSectionsFrom].
  - eauto.
  - destruct (textSection_total data (title, field)) as (ps & ->).
    { cbn [snd]. apply (H title field). left. reflexivity. }
    destruct IH as (qs & ->).
    { intros t' f Hin. apply (H t' f). right. exact Hin. }
    eauto.
Qed.

(** ** Escaping *)

Lemma replaceChar_removes c by_ s : absent c by_ -> absent c (replaceChar c by_ s).
Proof.
  intros Hby. unfold absent, replaceChar. induction s as [|x s IH]; cbn [flat_map].
  - constructor.
  - apply Forall_app. split; [|exact IH].
    destruct (N.eqb_spec x c); [exact Hby|]. constructor; [assumption|constructor].
Qed.

Lemma replaceChar_keeps c c' by_ s :
  absent c s -> absent c by_ -> absent c (replaceChar c' by_ s).
Proof.
  intros Hs Hby. unfold absent, replaceChar in *.
  induction Hs as [|x s Hx _ IH]; cbn [flat_map].
  - constructor.
  - apply Forall_app. split; [|exact IH].
    destruct (x =? c')%N; [exact Hby|]. constructor; [assumption|constructor].
Qed.

Lemma absent_literal c s : forallb (fun u => negb (u =? c)%N) s = true -> absent c s.
Proof.
  unfold absent. induction s as [|x s IH]; cbn [forallb]; [constructor|].
  intros H. apply andb_prop in H. destruct H as [Hx Hs].
  constructor; [|apply IH, Hs].
  apply negb_true_iff in Hx. apply N.eqb_neq. exact Hx.
Qed.

(** What [escapeXml] returns holds no angle bracket, no double quote and
    no apostrophe. *)
Lemma escapeXml_no_markup s :
  absent (ch "<") (escapeXml s) /\ absent (ch ">") (escapeXml s)
  /\ absent 0x22%N (escapeXml s) /\ absent 0x27%N (escapeXml s).
Proof.
  unfold escapeXml. destruct s as [|c s]; [repeat split; constructor|].
  set (s0 := c :: s).
  repeat split.
  - apply replaceChar_keeps; [|apply absent_literal; reflexivity].
    apply replaceChar_keeps; [|apply absent_literal; reflexivity].
    apply replaceChar_keeps; [|apply absent_literal; reflexivity].
    apply replaceChar_removes. apply absent_literal. reflexivity.
  - apply replaceChar_keeps; [|apply absent_literal; reflexivity].
    apply replaceChar_keeps; [|apply absent_literal; reflexivity].
    apply replaceChar_removes. apply absent_literal. reflexivity.
  - apply replaceChar_keeps; [|apply absent_literal; reflexivity].
    apply replaceChar_removes. apply absent_literal. reflexivity.
  - apply replaceChar_removes. apply absent_literal. reflexivity.
Qed.

(** The labels of the three passes hold no pattern syntax character. *)
Lemma labels_plain :
  forall lf, In lf (tableLabels ++ colonLabels ++ blankLabels) ->
             escapeRegex (fst lf) = fst lf.
Proof.
  assert (H : forallb (fun lf => bool_decide (escapeRegex (fst lf) = fst lf))
                (tableLabels ++ colonLabels ++ blankLabels) = true)
    by (vm_compute; reflexivity).
  rewrite forallb_forall in H. intros lf Hin.
  apply (proj1 (bool_decide_eq_true _)). apply H. exact Hin.
Qed.

(** C8.  The passes that hand the escaped value to [replace] inside a
    replacement string let a dollar sign of the value act as a
    replacement pattern: the credit amount "$100", which [escapeXml]
    leaves as it is, is written into the body as the text of group 1,
    the tag <w:t>, followed by "00". *)
Theorem dollar_value_inserts_markup :
  escapeXml (L "$100") = L "$100"
  /\ replaceTableCells xmlAmountLine dataDollar = xmlAmountLine
  /\ replaceLabeledContent xmlAmountLine dataDollar
     = L "<w:body><w:p><w:r><w:t>授信金额：<w:t>00</w:t></w:r></w:p></w:body>"
  /\ inlinePasses xmlAmountLine dataDollar
     = L "<w:body><w:p><w:r><w:t>授信金额：<w:t>00</w:t></w:r></w:p></w:body>"
  /\ includes (inlinePasses xmlAmountLine dataDollar) (L "$100") = false
  /\ inlinePasses xmlAmountLine {[ "creditAmount"%string := VStr (L "$1") ]}
     = L "<w:body><w:p><w:r><w:t>授信金额：<w:t></w:t></w:r></w:p></w:body>"
  /\ replaceBlankFields (L "授信金额：____") {[ "creditAmount"%string := VStr (L "$2") ]}
     = L "授信金额：____".
Proof. repeat split; vm_compute; reflexivity. Qed.

End Appendix.

(* ===================================================================== *)
(** * The year of a file name *)
(* ===================================================================== *)

Section YearOfFile.
Import JsStr JsNum JsVal Regex FileParser Spec.

Implicit Types (s pre d : list N).

Lemma digit_class c : classMatches noFlags false isDigit c = isDigit c.
Proof. unfold classMatches. simpl. rewrite orb_false_r. reflexivity. Qed.

(** The pattern at one position: the four characters there, when they
    are digits. *)
Lemma year_matchAt pre s :
  matchAt noFlags yearPattern pre s =
  if forallb isDigit (take 4 s) && (length (take 4 s) =? 4)%nat
  then Some {| before := pre; matched := take 4 s; after := drop 4 s;
               groups := <[1%nat := take 4 s]> ∅ |}
  else None.
Proof.
  unfold matchAt, yearPattern, digit. rewrite m_group. cbn [seqs].
  rewrite !m_seq, m_class. cbn [pos rest caps].
  destruct s as [|c1 s]; [reflexivity|].
  rewrite oneChar_cons, digit_class.
  destruct (isDigit c1) eqn:E1; [|cbn [take forallb]; rewrite E1; reflexivity].
  rewrite ?m_seq, m_class. destruct s as [|c2 s]; [cbn; rewrite andb_false_r; reflexivity|].
  rewrite oneChar_cons, digit_class.
  destruct (isDigit c2) eqn:E2; [|cbn [take forallb]; rewrite E1, E2; reflexivity].
  rewrite ?m_seq, m_class. destruct s as [|c3 s]; [cbn; rewrite andb_false_r; reflexivity|].
  rewrite oneChar_cons, digit_class.
  destruct (isDigit c3) eqn:E3; [|cbn [take forallb]; rewrite E1, E2, E3; reflexivity].
  rewrite ?m_seq, m_class. destruct s as [|c4 s]; [cbn; rewrite andb_false_r; reflexivity|].
  rewrite oneChar_cons, digit_class.
  destruct (isDigit c4) eqn:E4; [|cbn [take forallb]; rewrite E1, E2, E3, E4; reflexivity].
  cbn [pos rest caps].
  replace (S (S (S (S (length pre)))) - length pre)%nat with 4%nat by lia.
  cbn [take forallb length drop]. rewrite E1, E2, E3, E4. reflexivity.
Qed.

Lemma year_execFrom s : forall pre,
  (fun mi => capture mi 1) <$> execFrom noFlags yearPattern pre s = firstFour s.
Proof.
  induction s as [|c s IH]; intros pre.
  - reflexivity.
  - cbn [execFrom firstFour]. rewrite year_matchAt.
    destruct (forallb isDigit (take 4 (c :: s)) && (length (take 4 (c :: s)) =? 4)%nat).
    + cbn [fmap option_fmap option_map]. unfold capture. cbn [groups].
      rewrite lookup_insert_eq. reflexivity.
    + apply IH.
Qed.

(** ** [parseInt] on four digits *)

Lemma digit_range c : isDigit c = true <-> (0x30 <= c <= 0x39)%N.
Proof.
  unfold isDigit. rewrite andb_true_iff, !N.leb_le. reflexivity.
Qed.

Lemma digit_not_space c : isDigit c = true -> isWhiteSpace c = false.
Proof.
  rewrite digit_range. intros H. unfold isWhiteSpace.
  repeat match goal with
  | |- context [(?a =? ?b)%N] => destruct (N.eqb_spec a b); [lia|]
  | |- context [(?a <=? ?b)%N] => destruct (N.leb_spec a b); try lia
  end; reflexivity.
Qed.

Lemma digit_radix c : isDigit c = true -> radixDigit 10 c = Some (c - 0x30)%N.
Proof.
  intros H. unfold radixDigit. rewrite H.
  apply digit_range in H.
  destruct (N.ltb_spec (c - 0x30) 10); [reflexivity|lia].
Qed.

Lemma radixPrefix_digits d :
  Forall (fun c => isDigit c = true) d -> radixPrefix 10 d = d.
Proof.
  induction 1 as [|c d Hc _ IH]; [reflexivity|].
  cbn [radixPrefix]. rewrite (digit_radix c Hc), IH. reflexivity.
Qed.

Lemma radixValue_digits d :
  Forall (fun c => isDigit c = true) d ->
  forall acc, radixValue 10 d acc
              = Some (fold_left (fun a c => a * 10 + Z.of_N (c - 0x30)) d acc)%Z.
Proof.
  induction 1 as [|c d Hc _ IH]; intros acc; [reflexivity|].
  cbn [radixValue fold_left]. rewrite (digit_radix c Hc), IH. reflexivity.
Qed.

Lemma parseInt_digits c d :
  Forall (fun u => isDigit u = true) (c :: d) ->
  parseInt (c :: d) = ofZ (digitsValue (c :: d)).
Proof.
  intros H. pose proof H as H'. inversion H' as [|? ? Hc Hd]; subst.
  unfold parseInt. cbn [trimStart]. rewrite (digit_not_space c Hc).
  pose proof (proj1 (digit_range c) Hc) as Rc.
  destruct (N.eqb_spec c (ch "-")); [vm_compute in e; lia|].
  destruct (N.eqb_spec c (ch "+")); [vm_compute in e; lia|].
  assert (Hr : (let '(radix, s2) :=
                  match c :: d with
                  | z :: x :: r =>
                      if (z =? 0x30)%N && ((x =? ch "x")%N || (x =? ch "X")%N)
                      then (16%N, r) else (10%N, c :: d)
                  | _ => (10%N, c :: d)
                  end in (radix, s2)) = (10%N, c :: d)).
  { destruct d as [|x r]; [reflexivity|].
    inversion Hd as [|? ? Hx _]; subst. apply digit_range in Hx.
    destruct (N.eqb_spec x (ch "x")); [vm_compute in e; lia|].
    destruct (N.eqb_spec x (ch "X")); [vm_compute in e; lia|].
    rewrite andb_false_r. reflexivity. }
  destruct (match c :: d with
            | z :: x :: r =>
                if (z =? 0x30)%N && ((x =? ch "x")%N || (x =? ch "X")%N)
                then (16%N, r) else (10%N, c :: d)
            | _ => (10%N, c :: d)
            end) as [radix s2].
  injection Hr as -> ->.
  rewrite (radixPrefix_digits _ H).
  rewrite (radixValue_digits _ H). fold (digitsValue (c :: d)).
  destruct (digitsValue (c :: d)); reflexivity.
Qed.

Lemma firstFour_digits s d : firstFour s = Some d -> fourDigits d.
Proof.
  induction s as [|c s IH]; [discriminate|].
  cbn [firstFour].
  destruct (forallb isDigit (take 4 (c :: s)) && (length (take 4 (c :: s)) =? 4)%nat) eqn:E.
  - intros [= <-]. apply andb_true_iff in E as [E1 E2].
    split; [apply Nat.eqb_eq, E2|].
    apply Forall_forall. intros x Hx. rewrite forallb_forall in E1. apply E1.
    apply list_elem_of_In. exact Hx.
  - exact IH.
Qed.

(** What the function returns, in terms of the first four digits. *)
Lemma extractYear_firstFour fileName :
  extractYearFromFileName fileName =
  match firstFour fileName with
  | Some d => VNum (ofZ (digitsValue d))
  | None => VNull
  end.
Proof.
  unfold extractYearFromFileName, exec.
  pose proof (year_execFrom fileName []) as H.
  destruct (execFrom noFlags yearPattern [] fileName) as [mi|];
    cbn [fmap option_fmap option_map] in H; rewrite <- H; [|reflexivity].
  symmetry in H. apply firstFour_digits in H. destruct H as [Hl Hd].
  destruct (capture mi 1) as [|c d]; [discriminate|].
  rewrite (parseInt_digits c d Hd). reflexivity.
Qed.

Lemma digitsValue_bound d :
  Forall (fun c => isDigit c = true) d ->
  forall acc, (0 <= acc)%Z ->
  (0 <= fold_left (fun a c => a * 10 + Z.of_N (c - 0x30)) d acc
     < (acc + 1) * 10 ^ Z.of_nat (length d))%Z.
Proof.
  induction 1 as [|c d Hc _ IH]; intros acc Ha.
  - simpl. lia.
  - cbn [fold_left length]. apply digit_range in Hc.
    specialize (IH (acc * 10 + Z.of_N (c - 48))%Z ltac:(lia)).
    rewrite Nat2Z.inj_succ, Z.pow_succ_r by lia.
    split; [lia|]. eapply Z.lt_le_trans; [apply IH|].
    apply Z.le_trans with ((acc * 10 + 9 + 1) * 10 ^ Z.of_nat (length d))%Z.
    + apply Z.mul_le_mono_nonneg_r; [apply Z.pow_nonneg|]; lia.
    + lia.
Qed.

Lemma fourDigits_bound d : fourDigits d -> (0 <= digitsValue d <= 9999)%Z.
Proof.
  intros [Hl Hd]. pose proof (digitsValue_bound d Hd 0%Z ltac:(lia)) as H.
  rewrite Hl in H. unfold digitsValue. change ((0 + 1) * 10 ^ Z.of_nat 4)%Z with 10000%Z in H.
  lia.
Qed.

Lemma fileYear_bound fileName : (0 <= fileYear fileName <= 9999)%Z.
Proof.
  unfold fileYear. destruct (firstFour fileName) as [d|] eqn:E; [|lia].
  apply fourDigits_bound. eapply firstFour_digits, E.
Qed.

Lemma take_four d b : length d = 4%nat -> take 4 (d ++ b) = d.
Proof. intros H. apply take_app_length'. symmetry. exact H. Qed.

(** [firstFour] finds the leftmost four digits in a row. *)
Lemma firstFour_Some s d :
  firstFour s = Some d <->
  exists a b, s = a ++ d ++ b /\ fourDigits d
    /\ forall a' d' b', s = a' ++ d' ++ b' -> fourDigits d' -> (length a <= length a')%nat.
Proof.
  revert d. induction s as [|c s IH]; intros d.
  - split; [discriminate|]. intros (a & b & Hs & [Hl _] & _).
    destruct a, d; simpl in *; discriminate.
  - cbn [firstFour].
    destruct (forallb isDigit (take 4 (c :: s)) && (length (take 4 (c :: s)) =? 4)%nat) eqn:E.
    + apply andb_true_iff in E as [E1 E2]. apply Nat.eqb_eq in E2.
      assert (F4 : fourDigits (take 4 (c :: s))).
      { split; [exact E2|]. apply Forall_forall. intros x Hx.
        rewrite forallb_forall in E1. apply E1, list_elem_of_In, Hx. }
      split.
      * intros [= <-]. exists [], (drop 4 (c :: s)). split; [|split].
        -- exact (eq_sym (take_drop 4 (c :: s))).
        -- exact F4.
        -- intros. simpl. lia.
      * intros (a & b & Hs & [Hl Hd] & Hmin).
        specialize (Hmin [] (take 4 (c :: s)) (drop 4 (c :: s))
                      (eq_sym (take_drop 4 (c :: s))) F4).
        destruct a; [|simpl in Hmin; lia]. simpl in Hs.
        f_equal. rewrite Hs. apply take_four, Hl.
    + assert (Hno : forall d' b', c :: s = d' ++ b' -> ~ fourDigits d').
      { intros d' b' Hs [Hl Hd].
        assert (take 4 (c :: s) = d') by (rewrite Hs; apply take_four, Hl).
        assert (Hf : forallb isDigit d' = true).
        { apply forallb_forall. intros x Hx. rewrite Forall_forall in Hd.
          apply Hd, list_elem_of_In, Hx. }
        rewrite H, Hf, Hl in E. discriminate. }
      rewrite IH. split.
      * intros (a & b & Hs & Hd & Hmin). exists (c :: a), b. split; [|split].
        -- simpl. rewrite Hs. reflexivity.
        -- exact Hd.
        -- intros a' d' b' Hs' Hd'. destruct a' as [|c' a'].
           ++ exfalso. exact (Hno d' b' Hs' Hd').
           ++ simpl in Hs'. injection Hs' as -> Hs'. simpl.
              specialize (Hmin a' d' b' Hs' Hd'). lia.
      * intros (a & b & Hs & Hd & Hmin). destruct a as [|c' a].
        -- exfalso. exact (Hno d b Hs Hd).
        -- simpl in Hs. injection Hs as -> Hs. exists a, b. split; [exact Hs|].
           split; [exact Hd|]. intros a' d' b' Hs' Hd'.
           specialize (Hmin (c' :: a') d' b' ltac:(simpl; rewrite Hs'; reflexivity) Hd').
           simpl in Hmin. lia.
Qed.

Lemma firstFour_None s :
  firstFour s = None <-> forall a d b, s = a ++ d ++ b -> ~ fourDigits d.
Proof.
  split.
  - intros Hn a d b Hs Hd.
    assert (exists d0, firstFour s = Some d0) as [d0 H0]; [|congruence].
    clear Hn. revert s Hs. induction a as [|c a IH]; intros s Hs.
    + destruct s as [|c s]; [destruct d, Hd; simpl in *; discriminate|].
      cbn [firstFour]. destruct Hd as [Hl Hd].
      assert (take 4 (c :: s) = d) by (rewrite Hs; apply (take_four d b), Hl).
      rewrite H, Hl, Nat.eqb_refl, andb_true_r.
      assert (forallb isDigit d = true) as ->.
      { apply forallb_forall. intros x Hx. rewrite Forall_forall in Hd.
        apply Hd, list_elem_of_In, Hx. }
      eexists. reflexivity.
    + subst s. simpl app. cbn [firstFour].
      destruct (_ && _); [eexists; reflexivity|]. apply IH. reflexivity.
  - intros Hno. destruct (firstFour s) as [d|] eqn:E; [|reflexivity].
    apply firstFour_Some in E as (a & b & Hs & Hd & _).
    exfalso. exact (Hno a d b Hs Hd).
Qed.

(** X1.  The year of a file name is the number written by the leftmost
    four digits in a row of the name, and [null] for a name without four
    digits in a row; it is always [null] or an integer from 0 to 9999. *)
Theorem year_from_file_name fileName :
  (forall a d b,
      fileName = a ++ d ++ b -> fourDigits d ->
      (forall a' d' b', fileName = a' ++ d' ++ b' -> fourDigits d' ->
                        (length a <= length a')%nat) ->
      extractYearFromFileName fileName = VNum (ofZ (digitsValue d)))
  /\ ((forall a d b, fileName = a ++ d ++ b -> ~ fourDigits d) ->
      extractYearFromFileName fileName = VNull)
  /\ (extractYearFromFileName fileName = VNull
      \/ exists y, (0 <= y <= 9999)%Z
                   /\ extractYearFromFileName fileName = VNum (ofZ y)).
Proof.
  rewrite extractYear_firstFour. split; [|split].
  - intros a d b Hs Hd Hmin.
    rewrite (proj2 (firstFour_Some fileName d)); [reflexivity|].
    exists a, b. auto.
  - intros Hno. rewrite (proj2 (firstFour_None fileName) Hno). reflexivity.
  - destruct (firstFour fileName) as [d|] eqn:E; [right|left; reflexivity].
    exists (digitsValue d). split; [|reflexivity].
    apply fourDigits_bound. eapply firstFour_digits, E.
Qed.

Lemma year_from_file_name_witness :
  extractYearFromFileName (L "报表20231231.xls") = VNum (ofZ 2023).
Proof.
  apply (proj1 (year_from_file_name (L "报表20231231.xls"))
           (L "报表") (L "2023") (L "1231.xls")).
  - vm_compute. reflexivity.
  - split; [reflexivity|]. repeat constructor.
  - intros a' d' b' Hs [Hl Hd].
    destruct a' as [|x1 [|x2 a']]; [| |simpl; lia]; exfalso.
    + destruct d' as [|y d']; [discriminate|].
      vm_compute in Hs. injection Hs as <- _.
      inversion Hd as [|? ? Hy _]. vm_compute in Hy. discriminate.
    + destruct d' as [|y d']; [discriminate|].
      vm_compute in Hs. injection Hs as _ <- _.
      inversion Hd as [|? ? Hy _]. vm_compute in Hy. discriminate.
Defined.

End YearOfFile.

(* ===================================================================== *)
(** * The statements of several files *)
(* ===================================================================== *)

Section Years.
Import JsStr JsNum JsVal FileParser Spec.

Open Scope Z_scope.

(** ** Arithmetic on years

    Years are integers below 10000; their differences are computed
    exactly.  The two facts used are checked over the whole range. *)

Lemma sameFloat_eq x y : sameFloat x y = true -> x = y.
Proof.
  destruct x as [a|a| |a m e], y as [b|b| |b n f]; simpl; try discriminate.
  - intros H. apply Bool.eqb_prop in H. congruence.
  - intros H. apply Bool.eqb_prop in H. congruence.
  - reflexivity.
  - rewrite !andb_true_iff. intros [[H1 H2] H3].
    apply Bool.eqb_prop in H1. apply Pos.eqb_eq in H2. apply Z.eqb_eq in H3.
    congruence.
Qed.

Lemma zrange_In n : forall lo z, lo <= z < lo + Z.of_nat n -> In z (zrange lo n).
Proof.
  induction n as [|n IH]; intros lo z H; [lia|].
  cbn [zrange]. destruct (Z.eq_dec lo z) as [->|Hne]; [left; reflexivity|].
  right. apply IH. lia.
Qed.

Lemma shape_table : forallb shapeOk (zrange 1 (Z.to_nat 9999)) = true.
Proof. vm_compute. reflexivity. Qed.

Lemma ofZ_shape a :
  1 <= a <= 9999 ->
  exists p e, ofZ a = S754_finite false p e /\ -52 <= e <= -39 /\ Zpos p = a * 2 ^ (- e).
Proof.
  intros Ha. pose proof shape_table as H. rewrite forallb_forall in H.
  specialize (H a (zrange_In (Z.to_nat 9999) 1 a ltac:(lia))). unfold shapeOk in H.
  destruct (ofZ a) as [| | |[] p e]; try discriminate.
  apply andb_true_iff in H as [H H3]. apply andb_true_iff in H as [H1 H2].
  exists p, e. split; [reflexivity|]. lia.
Qed.

(** An integer [d] written as [d * 2^j] at the exponent [-j] rounds to
    the float of [d]. *)
Lemma normalize_table :
  forallb (fun d =>
     forallb (fun j => sameFloat (binary_normalize prec emax (d * 2 ^ j) (- j) false) (ofZ d))
             (zrange 39 14))
    (zrange (-9999) (Z.to_nat 19999)) = true.
Proof. vm_compute. reflexivity. Qed.

Lemma normalize_shifted d j :
  -9999 <= d <= 9999 -> 39 <= j <= 52 ->
  binary_normalize prec emax (d * 2 ^ j) (- j) false = ofZ d.
Proof.
  intros Hd Hj. pose proof normalize_table as H. rewrite forallb_forall in H.
  specialize (H d (zrange_In (Z.to_nat 19999) (-9999) d ltac:(lia))).
  rewrite forallb_forall in H.
  specialize (H j (zrange_In 14 39 j ltac:(lia))). apply sameFloat_eq, H.
Qed.

Lemma negate_table :
  forallb (fun b => sameFloat (sub (S754_zero false) (ofZ b)) (ofZ (- b)))
          (zrange 0 (Z.to_nat 10000)) = true.
Proof. vm_compute. reflexivity. Qed.

Lemma sign_table :
  forallb (fun d => Bool.eqb (gt (ofZ d) (S754_zero false)) (0 <? d))
          (zrange (-9999) (Z.to_nat 19999)) = true.
Proof. vm_compute. reflexivity. Qed.

Lemma shl_align_value mx ex ez :
  ez <= ex -> Zpos (fst (shl_align mx ex ez)) = Zpos mx * 2 ^ (ex - ez).
Proof.
  intros H. unfold shl_align. destruct (ez - ex) as [|d|d] eqn:E.
  - replace (ex - ez) with 0 by lia. simpl. lia.
  - lia.
  - cbn [fst]. change (Pos.iter xO mx d) with (shift_pos d mx).
    rewrite shift_pos_correct. change (Zpower_pos 2 d) with (2 ^ Zpos d).
    replace (ex - ez) with (Zpos d) by lia. lia.
Qed.

(** The difference of two years is the float of their difference. *)
Lemma sub_years a b :
  0 <= a <= 9999 -> 0 <= b <= 9999 -> sub (ofZ a) (ofZ b) = ofZ (a - b).
Proof.
  intros Ha Hb.
  destruct (Z.eq_dec b 0) as [->|Hb0].
  { rewrite Z.sub_0_r. change (ofZ 0) with (S754_zero false).
    destruct (Z.eq_dec a 0) as [->|Ha0]; [reflexivity|].
    destruct (ofZ_shape a ltac:(lia)) as (p & e & -> & _). reflexivity. }
  destruct (Z.eq_dec a 0) as [->|Ha0].
  { change (ofZ 0) with (S754_zero false). simpl Z.sub.
    pose proof negate_table as H. rewrite forallb_forall in H.
    apply sameFloat_eq, H, (zrange_In (Z.to_nat 10000) 0 b). lia. }
  destruct (ofZ_shape a ltac:(lia)) as (pa & ea & -> & Hea & Hpa).
  destruct (ofZ_shape b ltac:(lia)) as (pb & eb & -> & Heb & Hpb).
  unfold sub, SFsub. cbv zeta. cbn [cond_Zopp].
  rewrite !shl_align_value by lia. rewrite Hpa, Hpb.
  set (ez := Z.min ea eb).
  replace (a * 2 ^ (- ea) * 2 ^ (ea - ez) - b * 2 ^ (- eb) * 2 ^ (eb - ez))
    with ((a - b) * 2 ^ (- ez)).
  - replace ez with (- (- ez)) at 2 by lia.
    apply normalize_shifted; subst ez; lia.
  - rewrite <- !Z.mul_assoc, <- !Z.pow_add_r by (subst ez; lia).
    replace (- ea + (ea - ez)) with (- ez) by lia.
    replace (- eb + (eb - ez)) with (- ez) by lia. ring.
Qed.

Lemma gt_years a b :
  0 <= a <= 9999 -> 0 <= b <= 9999 ->
  gt (sub (ofZ a) (ofZ b)) (S754_zero false) = (b <? a).
Proof.
  intros Ha Hb. rewrite sub_years by assumption.
  pose proof sign_table as H. rewrite forallb_forall in H.
  specialize (H (a - b) (zrange_In (Z.to_nat 19999) (-9999) (a - b) ltac:(lia))).
  apply Bool.eqb_prop in H. rewrite H.
  destruct (Z.ltb_spec 0 (a - b)), (Z.ltb_spec b a); reflexivity || lia.
Qed.

End Years.

Section Sorting.
Import JsStr JsNum JsVal JsObj.

Context {A : Type} (comparefn : A -> A -> spec_float) (key : A -> Z).

(** The comparator orders by an integer key. *)
Hypothesis by_key :
  forall x y, gt (comparefn x y) (S754_zero false) = (key y <? key x)%Z.

Lemma insertSorted_perm x l : Permutation (insertSorted comparefn x l) (x :: l).
Proof.
  induction l as [|y l IH]; simpl; [reflexivity|].
  destruct (gt _ _); [|reflexivity].
  rewrite IH. apply perm_swap.
Qed.

Lemma sort_perm l : Permutation (sort comparefn l) l.
Proof.
  induction l as [|x l IH]; simpl; [reflexivity|].
  rewrite insertSorted_perm, IH. reflexivity.
Qed.

Lemma insertSorted_sorted x l :
  StronglySorted (fun a b => (key a <= key b)%Z) l ->
  StronglySorted (fun a b => (key a <= key b)%Z) (insertSorted comparefn x l).
Proof.
  induction 1 as [|y l Hs IH Hy]; simpl.
  - repeat constructor.
  - rewrite by_key. destruct (Z.ltb_spec (key y) (key x)) as [Hlt|Hge].
    + constructor; [exact IH|].
      rewrite (Forall_forall (fun b => (key y <= key b)%Z)).
      intros z Hz. apply list_elem_of_In in Hz.
      apply (Permutation_in _ (insertSorted_perm x l)) in Hz.
      destruct Hz as [<-|Hz]; [lia|].
      rewrite Forall_forall in Hy. apply Hy, list_elem_of_In, Hz.
    + constructor; [constructor; assumption|].
      constructor; [exact Hge|].
      eapply Forall_impl; [exact Hy|]. simpl. intros; lia.
Qed.

Lemma sort_sorted l : StronglySorted (fun a b => (key a <= key b)%Z) (sort comparefn l).
Proof.
  induction l as [|x l IH]; simpl; [constructor|].
  apply insertSorted_sorted, IH.
Qed.

(** Elements of the same key keep the order they had. *)
Lemma insertSorted_stable v x l :
  List.filter (fun a => (key a =? v)%Z) (insertSorted comparefn x l)
  = List.filter (fun a => (key a =? v)%Z) (x :: l).
Proof.
  induction l as [|y l IH]; [reflexivity|].
  cbn [insertSorted]. rewrite by_key.
  destruct (Z.ltb_spec (key y) (key x)) as [Hlt|Hge]; [|reflexivity].
  cbn [List.filter] in *. rewrite IH.
  destruct (Z.eqb_spec (key x) v), (Z.eqb_spec (key y) v); try reflexivity. lia.
Qed.

Lemma sort_stable v l :
  List.filter (fun a => (key a =? v)%Z) (sort comparefn l)
  = List.filter (fun a => (key a =? v)%Z) l.
Proof.
  induction l as [|x l IH]; [reflexivity|].
  cbn [sort fold_right]. fold (sort comparefn l).
  rewrite insertSorted_stable. cbn [List.filter]. rewrite IH. reflexivity.
Qed.

End Sorting.

Lemma sort_map {A B : Type} (f : A -> B) (cmpA : A -> A -> spec_float)
    (cmpB : B -> B -> spec_float) (l : list A) :
  (forall x y, cmpB (f x) (f y) = cmpA x y) ->
  JsObj.sort cmpB (map f l) = map f (JsObj.sort cmpA l).
Proof.
  intros H. induction l as [|x l IH]; [reflexivity|].
  cbn [map JsObj.sort fold_right].
  fold (JsObj.sort cmpB (map f l)) (JsObj.sort cmpA l). rewrite IH.
  generalize (JsObj.sort cmpA l) as t. induction t as [|y t IHt]; [reflexivity|].
  cbn [map JsObj.insertSorted]. rewrite H.
  destruct (JsNum.gt _ _); cbn [map]; [rewrite IHt|]; reflexivity.
Qed.

Section Statements.
Import JsStr JsNum JsVal FileParser Spec.

Implicit Types (files : list (list N * option (list (list N * list (list jsval)))))
  (file : list N * list (list N * list (list jsval)))
  (sd : list (list jsval)) (r : result).

(** ** The key [year] is not a metric *)

Lemma extract_balance_other sd r k :
  (forall text, hasLabel balanceSheetTerms k text = false) ->
  ~ In k derivedKeys ->
  balanceSheet (extractFinancialData sd r) !! k = balanceSheet r !! k.
Proof.
  intros Hno Hd. unfold extractFinancialData. rewrite deriveMetrics_other by exact Hd.
  pose proof (scanSheet_balance sd r k) as H. unfold law in H.
  rewrite (firstHit_no_label _ _ _ Hno) in H. rewrite H.
  destruct (toBoolean _); reflexivity.
Qed.

Lemma extract_income_other sd r k :
  (forall text, hasLabel incomeTerms k text = false) ->
  incomeStatement (extractFinancialData sd r) !! k = incomeStatement r !! k.
Proof.
  intros Hno. unfold extractFinancialData. rewrite deriveMetrics_income.
  pose proof (scanSheet_income sd r k) as H. unfold law in H.
  rewrite (firstHit_no_label _ _ _ Hno) in H. rewrite H.
  destruct (toBoolean _); reflexivity.
Qed.

Lemma parseExcelFile_fold workbook : forall init,
  let res := fold_left processSheet workbook init in
  year res = year init
  /\ balanceSheet (metrics res) !! "year"%string = balanceSheet (metrics init) !! "year"%string
  /\ incomeStatement (metrics res) !! "year"%string
     = incomeStatement (metrics init) !! "year"%string.
Proof.
  induction workbook as [|sheet wb IH]; intros init; cbn [fold_left]; [auto|].
  cbv zeta in IH. destruct (IH (processSheet init sheet)) as (H1 & H2 & H3).
  rewrite H1, H2, H3. unfold processSheet. cbn [year metrics].
  split; [reflexivity|]. split.
  - apply extract_balance_other; [reflexivity|].
    unfold derivedKeys. simpl. intuition discriminate.
  - apply extract_income_other. reflexivity.
Qed.

Lemma parseExcelFile_year fileName workbook :
  year (parseExcelFile fileName workbook) = extractYearFromFileName fileName.
Proof. exact (proj1 (parseExcelFile_fold workbook _)). Qed.

(** The number an entry is ordered by is the year of its file. *)
Lemma year_number fileName :
  toNumber (orElse (extractYearFromFileName fileName) (VNum (S754_zero false)))
  = ofZ (fileYear fileName).
Proof.
  rewrite extractYear_firstFour. unfold fileYear.
  destruct (firstFour fileName) as [d|] eqn:E; [|reflexivity].
  pose proof (fourDigits_bound d (firstFour_digits _ _ E)) as Hb.
  destruct (Z.eq_dec (digitsValue d) 0) as [->|Hne]; [reflexivity|].
  destruct (ofZ_shape (digitsValue d) ltac:(lia)) as (p & e & Hp & _).
  unfold orElse. rewrite Hp. reflexivity.
Qed.

Lemma entry_year (y : jsval) (sheet : gmap string jsval) :
  sheet !! "year"%string = None -> prop (withYear y sheet) "year" = y.
Proof.
  intros H. unfold prop, withYear.
  rewrite lookup_union_r by exact H. rewrite lookup_singleton_eq. reflexivity.
Qed.

Lemma balanceEntry_year file :
  prop (balanceEntry file) "year" = extractYearFromFileName (fst file).
Proof.
  unfold balanceEntry. cbv zeta. rewrite parseExcelFile_year. apply entry_year.
  exact (proj1 (proj2 (parseExcelFile_fold (snd file) _))).
Qed.

Lemma incomeEntry_year file :
  prop (incomeEntry file) "year" = extractYearFromFileName (fst file).
Proof.
  unfold incomeEntry. cbv zeta. rewrite parseExcelFile_year. apply entry_year.
  exact (proj2 (proj2 (parseExcelFile_fold (snd file) _))).
Qed.

Lemma fileOrder_key file1 file2 :
  gt (fileOrder file1 file2) (S754_zero false)
  = (fileYear (fst file2) <? fileYear (fst file1))%Z.
Proof. apply gt_years; apply fileYear_bound. Qed.

Lemma byYear_balance file1 file2 :
  byYear (balanceEntry file1) (balanceEntry file2) = fileOrder file1 file2.
Proof. unfold byYear. rewrite !balanceEntry_year, !year_number. reflexivity. Qed.

Lemma byYear_income file1 file2 :
  byYear (incomeEntry file1) (incomeEntry file2) = fileOrder file1 file2.
Proof. unfold byYear. rewrite !incomeEntry_year, !year_number. reflexivity. Qed.

(** ** The loop over the files *)

Lemma addFile_fold files : forall acc,
  let all := fold_left addFile files acc in
  Financial.balanceSheet all
    = Financial.balanceSheet acc ++ map balanceEntry (readable files)
  /\ Financial.incomeStatement all
    = Financial.incomeStatement acc ++ map incomeEntry (readable files)
  /\ Financial.cashFlow all = Financial.cashFlow acc
  /\ (readable files = [] -> Financial.rawData all = Financial.rawData acc).
Proof.
  induction files as [|[name [wb|]] files IH]; intros acc; cbv zeta.
  - cbn. rewrite !app_nil_r. auto.
  - cbn [fold_left]. destruct (IH (addFile acc (name, Some wb))) as (H1 & H2 & H3 & H4).
    rewrite H1, H2, H3. unfold addFile at 1 2 3. cbn [fst snd].
    cbn [Financial.balanceSheet Financial.incomeStatement Financial.cashFlow].
    unfold readable. cbn [omap fmap option_fmap option_map fst snd map].
    rewrite <- !app_assoc. repeat split; try reflexivity. discriminate.
  - cbn [fold_left]. unfold addFile at 2 4 6 8. cbn [snd].
    destruct (IH acc) as (H1 & H2 & H3 & H4). auto.
Qed.

End Statements.

Section Summary.
Import JsStr JsNum JsVal FileParser Spec.

Implicit Types (files : list (list N * option (list (list N * list (list jsval)))))
  (file : list N * list (list N * list (list jsval)))
  (summary statement : gmap string jsval) (fields : list (string * string)).

(** The order of the files the two arrays are sorted into. *)
Lemma statements_order files :
  exists order,
    Permutation order (readable files)
    /\ StronglySorted (fun f g => (fileYear (fst f) <= fileYear (fst g))%Z) order
    /\ Financial.balanceSheet (parseExcelFiles files) = map balanceEntry order
    /\ Financial.incomeStatement (parseExcelFiles files) = map incomeEntry order.
Proof.
  exists (JsObj.sort fileOrder (readable files)).
  split; [apply sort_perm|].
  split; [apply (sort_sorted fileOrder (fun f => fileYear (fst f))), fileOrder_key|].
  unfold parseExcelFiles. cbn [Financial.balanceSheet Financial.incomeStatement].
  destruct (addFile_fold files
              {| Financial.balanceSheet := []; Financial.incomeStatement := [];
                 Financial.cashFlow := []; Financial.rawData := [] |}) as (H1 & H2 & _).
  cbv zeta in H1, H2. rewrite H1, H2. cbn [Financial.balanceSheet Financial.incomeStatement app].
  split; apply sort_map; [apply byYear_balance|apply byYear_income].
Qed.

(** X2.  The two statement arrays hold one entry for every file that
    could be read, and after the sort both list the files in the same
    order: by ascending year of the file name (0 for a name without a
    year), files of the same year in the order of the upload. *)
Theorem statements_ordered_by_year files :
  exists order,
    Permutation order (readable files)
    /\ StronglySorted (fun f g => (fileYear (fst f) <= fileYear (fst g))%Z) order
    /\ (forall y, List.filter (fun f => (fileYear (fst f) =? y)%Z) order
                  = List.filter (fun f => (fileYear (fst f) =? y)%Z) (readable files))
    /\ Financial.balanceSheet (parseExcelFiles files) = map balanceEntry order
    /\ Financial.incomeStatement (parseExcelFiles files) = map incomeEntry order.
Proof.
  exists (JsObj.sort fileOrder (readable files)).
  split; [apply sort_perm|].
  split; [apply (sort_sorted fileOrder (fun f => fileYear (fst f))), fileOrder_key|].
  split; [intros y; apply (sort_stable fileOrder (fun f => fileYear (fst f))), fileOrder_key|].
  unfold parseExcelFiles. cbn [Financial.balanceSheet Financial.incomeStatement].
  destruct (addFile_fold files
              {| Financial.balanceSheet := []; Financial.incomeStatement := [];
                 Financial.cashFlow := []; Financial.rawData := [] |}) as (H1 & H2 & _).
  cbv zeta in H1, H2. rewrite H1, H2. cbn [Financial.balanceSheet Financial.incomeStatement app].
  split; apply sort_map; [apply byYear_balance|apply byYear_income].
Qed.

(** ** The assignments of the summary *)

Lemma assign_other fields statement k : forall summary,
  ~ In k (map fst fields) -> assign fields statement summary !! k = summary !! k.
Proof.
  unfold assign. induction fields as [|[to from] fields IH]; intros summary Hk; [reflexivity|].
  cbn [fold_left fst snd]. rewrite IH by (intros H; apply Hk; right; exact H).
  apply lookup_insert_ne. intros ->. apply Hk. left. reflexivity.
Qed.

Lemma assign_In fields statement : forall summary,
  NoDup (map fst fields) -> filledFrom (assign fields statement summary) fields statement.
Proof.
  unfold filledFrom, assign.
  induction fields as [|[to0 from0] fields IH]; intros summary Hnd to from Hin; [destruct Hin|].
  cbn [map fst] in Hnd. apply NoDup_cons in Hnd as [Hnot Hnd].
  cbn [fold_left fst snd]. destruct Hin as [[= -> ->]|Hin].
  - fold (assign fields statement (<[to := prop statement from]> summary)).
    rewrite assign_other; [apply lookup_insert_eq|].
    intros H. apply Hnot, list_elem_of_In, H.
  - apply IH; assumption.
Qed.

Lemma filledFrom_other summary fields fields' statement statement' :
  (forall k, In k (map fst fields) -> ~ In k (map fst fields')) ->
  filledFrom summary fields statement ->
  filledFrom (assign fields' statement' summary) fields statement.
Proof.
  intros Hd H to from Hin. rewrite assign_other; [exact (H to from Hin)|].
  apply Hd. apply in_map_iff. exists (to, from). auto.
Qed.

Lemma withoutFields_other summary fields fields' statement' :
  (forall k, In k (map fst fields) -> ~ In k (map fst fields')) ->
  withoutFields summary fields ->
  withoutFields (assign fields' statement' summary) fields.
Proof.
  intros Hd H to from Hin. rewrite assign_other; [exact (H to from Hin)|].
  apply Hd. apply in_map_iff. exists (to, from). auto.
Qed.

(** The names of two groups of fields are apart. *)
Ltac apart :=
  let k := fresh in let H1 := fresh in let H2 := fresh in
  intros k H1 H2; vm_compute in H1, H2;
  repeat match goal with
  | H : _ \/ _ |- _ => destruct H
  | H : False |- _ => destruct H
  end; congruence.

Ltac nodup := apply NoDup_ListNoDup; vm_compute; repeat constructor;
  let H := fresh in intros H; vm_compute in H;
  repeat match goal with
  | H : _ \/ _ |- _ => destruct H
  | H : False |- _ => destruct H
  end; congruence.

Lemma fromEnd_last (statements : list (gmap string jsval)) :
  last statements = fromEnd statements 0.
Proof.
  unfold fromEnd. rewrite <- head_reverse, head_lookup. reflexivity.
Qed.

Lemma fromEnd_lookup (statements : list (gmap string jsval)) i :
  (i < length statements)%nat ->
  statements !! (length statements - S i)%nat = fromEnd statements i.
Proof. intros H. unfold fromEnd. rewrite reverse_lookup by exact H. reflexivity. Qed.

Lemma fromEnd_None (statements : list (gmap string jsval)) i :
  (length statements <= i)%nat -> fromEnd statements i = None.
Proof.
  intros H. unfold fromEnd. apply lookup_ge_None. rewrite length_reverse. exact H.
Qed.

Lemma fromEnd_S (statements : list (gmap string jsval)) i :
  fromEnd statements i = None -> fromEnd statements (S i) = None.
Proof.
  unfold fromEnd. rewrite !lookup_ge_None. lia.
Qed.

(** The statements the function reads, by their place from the end. *)
Lemma summaryFromStatements_fromEnd (bs ins : list (gmap string jsval)) :
  summaryFromStatements bs ins =
  let summary :=
    match fromEnd bs 0 with
    | Some latest =>
        let summary := assign (balanceFields "End") latest ∅ in
        let summary :=
          match fromEnd bs 1 with
          | Some previous => assign (balanceFields "Beginning") previous summary
          | None => summary
          end in
        match (match fromEnd bs 2 with Some e => Some e | None => fromEnd bs 1 end) with
        | Some lastYear => assign (balanceFields "LastYear") lastYear summary
        | None => summary
        end
    | None => ∅
    end in
  match fromEnd ins 0 with
  | Some latest =>
      let summary := assign (incomeFields "Current") latest summary in
      match fromEnd ins 1 with
      | Some previous => assign (incomeFields "LastYear") previous summary
      | None => summary
      end
  | None => summary
  end.
Proof.
  assert (Hprev : forall l : list (gmap string jsval),
             (if (1 <? length l)%nat then l !! (length l - 2)%nat else None) = fromEnd l 1).
  { intros l. destruct (Nat.ltb_spec 1 (length l)).
    - apply (fromEnd_lookup l 1). lia.
    - symmetry. apply fromEnd_None. lia. }
  assert (Hlast : forall l : list (gmap string jsval),
             (if (2 <? length l)%nat then l !! (length l - 3)%nat else fromEnd l 1)
             = match fromEnd l 2 with Some e => Some e | None => fromEnd l 1 end).
  { intros l. destruct (Nat.ltb_spec 2 (length l)).
    - rewrite (fromEnd_lookup l 2) by lia.
      destruct (fromEnd l 2) eqn:E; [reflexivity|].
      unfold fromEnd in E. apply lookup_ge_None in E. rewrite length_reverse in E. lia.
    - rewrite (fromEnd_None l 2) by lia. reflexivity. }
  unfold summaryFromStatements. cbv zeta.
  rewrite !fromEnd_last, !Hprev, Hlast. reflexivity.
Qed.

Ltac columns :=
  repeat first
    [ apply assign_In; nodup
    | apply filledFrom_other; [apart|]
    | apply withoutFields_other; [apart|] ].

Lemma withoutFields_empty fields : withoutFields ∅ fields.
Proof. intros to from _. apply lookup_empty. Qed.

Lemma withoutFields_app summary fields fields' :
  withoutFields summary fields -> withoutFields summary fields' ->
  withoutFields summary (fields ++ fields').
Proof.
  intros H1 H2 to from Hin. apply in_app_or in Hin as [Hin|Hin]; eauto.
Qed.

(** Which statement each group of fields of the summary is read from. *)
Lemma summary_columns (bs ins : list (gmap string jsval)) :
  let summary := summaryFromStatements bs ins in
  (forall e, fromEnd bs 0 = Some e -> filledFrom summary (balanceFields "End") e)
  /\ (forall e, fromEnd bs 1 = Some e -> filledFrom summary (balanceFields "Beginning") e)
  /\ (forall e, fromEnd bs 2 = Some e -> filledFrom summary (balanceFields "LastYear") e)
  /\ (forall e, fromEnd bs 2 = None -> fromEnd bs 1 = Some e ->
                filledFrom summary (balanceFields "LastYear") e)
  /\ (fromEnd bs 1 = None ->
      withoutFields summary (balanceFields "Beginning" ++ balanceFields "LastYear"))
  /\ (forall e, fromEnd ins 0 = Some e -> filledFrom summary (incomeFields "Current") e)
  /\ (forall e, fromEnd ins 1 = Some e -> filledFrom summary (incomeFields "LastYear") e)
  /\ (fromEnd ins 1 = None -> withoutFields summary (incomeFields "LastYear")).
Proof.
  cbv zeta. rewrite summaryFromStatements_fromEnd. cbv zeta.
  destruct (fromEnd bs 0) as [b0|] eqn:B0.
  2:{ pose proof (fromEnd_S _ _ B0) as B1. pose proof (fromEnd_S _ _ B1) as B2.
      rewrite B1, B2.
      repeat split; try discriminate.
      - intros _. destruct (fromEnd ins 0) as [i0|] eqn:I0;
          [destruct (fromEnd ins 1) as [i1|]|];
          apply withoutFields_app; columns; apply withoutFields_empty.
      - intros e I0. rewrite I0. destruct (fromEnd ins 1); columns.
      - intros e I1. destruct (fromEnd ins 0) as [i0|] eqn:I0.
        + rewrite I1. columns.
        + apply fromEnd_S in I0. congruence.
      - intros I1. rewrite I1. destruct (fromEnd ins 0); columns; apply withoutFields_empty. }
  destruct (fromEnd bs 1) as [b1|] eqn:B1.
  2:{ pose proof (fromEnd_S _ _ B1) as B2. rewrite B2.
      repeat split; try discriminate.
      - intros e [= <-]. destruct (fromEnd ins 0); [destruct (fromEnd ins 1)|]; columns.
      - intros _. destruct (fromEnd ins 0) as [i0|] eqn:I0;
          [destruct (fromEnd ins 1) as [i1|]|];
          apply withoutFields_app; columns; apply withoutFields_empty.
      - intros e I0. rewrite I0. destruct (fromEnd ins 1); columns.
      - intros e I1. destruct (fromEnd ins 0) as [i0|] eqn:I0.
        + rewrite I1. columns.
        + apply fromEnd_S in I0. congruence.
      - intros I1. rewrite I1. destruct (fromEnd ins 0); columns; apply withoutFields_empty. }
  repeat split; try discriminate.
  - intros e [= <-]. destruct (fromEnd bs 2);
      (destruct (fromEnd ins 0); [destruct (fromEnd ins 1)|]); columns.
  - intros e [= <-]. destruct (fromEnd bs 2);
      (destruct (fromEnd ins 0); [destruct (fromEnd ins 1)|]); columns.
  - intros e ->. destruct (fromEnd ins 0); [destruct (fromEnd ins 1)|]; columns.
  - intros e -> [= <-]. destruct (fromEnd ins 0); [destruct (fromEnd ins 1)|]; columns.
  - intros e I0. rewrite I0. destruct (fromEnd ins 1); columns.
  - intros e I1. destruct (fromEnd ins 0) as [i0|] eqn:I0.
    + rewrite I1. columns.
    + apply fromEnd_S in I0. congruence.
  - intros I1. rewrite I1.
    destruct (fromEnd bs 2); (destruct (fromEnd ins 0)); columns; apply withoutFields_empty.
Qed.

Lemma entry_prop (y : jsval) (sheet : gmap string jsval) k :
  k <> "year"%string -> prop (withYear y sheet) k = prop sheet k.
Proof.
  intros Hk. unfold prop, withYear. f_equal.
  destruct (sheet !! k) as [v|] eqn:E.
  - apply lookup_union_Some_l. exact E.
  - rewrite lookup_union_r by exact E. apply lookup_singleton_ne. congruence.
Qed.

Lemma filledFrom_entry summary fields (y : jsval) (sheet : gmap string jsval) :
  Forall (fun tf => snd tf <> "year"%string) fields ->
  filledFrom summary fields (withYear y sheet) -> filledFrom summary fields sheet.
Proof.
  intros Hf H to from Hin. rewrite (H to from Hin). f_equal. apply entry_prop.
  rewrite Forall_forall in Hf. exact (Hf (to, from) (proj2 (list_elem_of_In _ _) Hin)).
Qed.

(** The last element of a sorted array is above all the others. *)
Lemma sorted_last {X : Type} (R : X -> X -> Prop) (l : list X) z :
  StronglySorted R l -> last l = Some z -> forall x, In x l -> x = z \/ R x z.
Proof.
  intros Hs Hl x Hx. apply last_Some in Hl as [l' ->].
  apply in_app_or in Hx as [Hx|[<-|[]]]; [right|left; reflexivity].
  eapply StronglySorted_app_1_elem_of; [exact Hs| |apply list_elem_of_In; left; reflexivity].
  apply list_elem_of_In, Hx.
Qed.

(** The summary of parsed files is read from the two sorted arrays. *)
Lemma summary_of_files files :
  getFinancialSummary (Some (parseExcelFiles files))
  = summaryFromStatements (Financial.balanceSheet (parseExcelFiles files))
      (Financial.incomeStatement (parseExcelFiles files)).
Proof.
  unfold getFinancialSummary. cbv zeta.
  destruct (addFile_fold files
              {| Financial.balanceSheet := []; Financial.incomeStatement := [];
                 Financial.cashFlow := []; Financial.rawData := [] |}) as (H1 & _ & _ & H4).
  cbv zeta in H1, H4. cbn [Financial.balanceSheet Financial.rawData app] in H1, H4.
  destruct (Nat.eqb_spec (length (Financial.balanceSheet (parseExcelFiles files))) 0)
    as [Hlen|Hlen]; [|reflexivity].
  unfold parseExcelFiles in *. cbn [Financial.balanceSheet Financial.rawData] in *.
  rewrite (Permutation_length (sort_perm byYear _)), H1, length_map in Hlen.
  apply length_zero_iff_nil in Hlen. rewrite (H4 Hlen). reflexivity.
Qed.

(** X3.  With the files parsed by [parseExcelFiles], the end-of-period
    and current-period fields of the summary are the metrics of the
    file whose name carries the greatest year. *)
Theorem summary_of_latest_file files file :
  In file (readable files) ->
  (forall other, In other (readable files) ->
     other = file \/ (fileYear (fst other) < fileYear (fst file))%Z) ->
  let data := parseExcelFile (fst file) (snd file) in
  let summary := getFinancialSummary (Some (parseExcelFiles files)) in
  filledFrom summary (balanceFields "End") (balanceSheet (metrics data))
  /\ filledFrom summary (incomeFields "Current") (incomeStatement (metrics data)).
Proof.
  intros Hin Hmax. cbv zeta. rewrite summary_of_files.
  destruct (statements_order files) as (order & Hperm & Hsorted & Hbs & His).
  rewrite Hbs, His.
  assert (Hl : last order = Some file).
  { destruct (last order) as [z|] eqn:El.
    - f_equal. pose proof (sorted_last _ _ _ Hsorted El) as Hz.
      assert (Hzin : In z (readable files)).
      { apply (Permutation_in _ Hperm), list_elem_of_In, last_Some_elem_of, El. }
      destruct (Hmax z Hzin) as [->|Hlt]; [reflexivity|].
      destruct (Hz file (Permutation_in _ (Permutation_sym Hperm) Hin)) as [->|Hle];
        [reflexivity|]. simpl in Hle. lia.
    - apply last_None in El. subst order. apply Permutation_nil in Hperm.
      rewrite Hperm in Hin. destruct Hin. }
  destruct (summary_columns (map balanceEntry order) (map incomeEntry order))
    as (HE & _ & _ & _ & _ & HC & _).
  split.
  - apply (filledFrom_entry _ _ (year (parseExcelFile (fst file) (snd file)))).
    + repeat constructor; discriminate.
    + apply HE. rewrite <- fromEnd_last.
      change (map balanceEntry order) with (balanceEntry <$> order).
      rewrite fmap_last, Hl. reflexivity.
  - apply (filledFrom_entry _ _ (year (parseExcelFile (fst file) (snd file)))).
    + repeat constructor; discriminate.
    + apply HC. rewrite <- fromEnd_last.
      change (map incomeEntry order) with (incomeEntry <$> order).
      rewrite fmap_last, Hl. reflexivity.
Qed.

Lemma summary_of_latest_file_witness :
  filledFrom (getFinancialSummary (Some (parseExcelFiles filesTwoYears)))
    (balanceFields "End")
    (balanceSheet (metrics (parseExcelFile (L "2024年报表.xls") bookProfit)))
  /\ filledFrom (getFinancialSummary (Some (parseExcelFiles filesTwoYears)))
    (incomeFields "Current")
    (incomeStatement (metrics (parseExcelFile (L "2024年报表.xls") bookProfit))).
Proof.
  apply (summary_of_latest_file filesTwoYears (L "2024年报表.xls", bookProfit)).
  - left. reflexivity.
  - intros other [<-|[<-|[]]]; [left; reflexivity|right; vm_compute; reflexivity].
Defined.

(** X4.  Which statement each column of the summary is read from, the
    statements being in ascending order: the end-of-period fields from
    the last balance sheet, the beginning fields from the one before
    it, the last-year fields from the third from the end, or from the
    second when there are only two; with a single balance sheet the
    summary has no beginning and no last-year field.  The income fields
    of the current period come from the last income statement, those of
    last year from the one before it. *)
Theorem summary_periods (data : Financial.allData) :
  Financial.balanceSheet data <> [] ->
  let bs := Financial.balanceSheet data in
  let ins := Financial.incomeStatement data in
  let summary := getFinancialSummary (Some data) in
  (forall e, fromEnd bs 0 = Some e -> filledFrom summary (balanceFields "End") e)
  /\ (forall e, fromEnd bs 1 = Some e -> filledFrom summary (balanceFields "Beginning") e)
  /\ (forall e, fromEnd bs 2 = Some e -> filledFrom summary (balanceFields "LastYear") e)
  /\ (forall e, fromEnd bs 2 = None -> fromEnd bs 1 = Some e ->
                filledFrom summary (balanceFields "LastYear") e)
  /\ (fromEnd bs 1 = None ->
      withoutFields summary (balanceFields "Beginning" ++ balanceFields "LastYear"))
  /\ (forall e, fromEnd ins 0 = Some e -> filledFrom summary (incomeFields "Current") e)
  /\ (forall e, fromEnd ins 1 = Some e -> filledFrom summary (incomeFields "LastYear") e)
  /\ (fromEnd ins 1 = None -> withoutFields summary (incomeFields "LastYear")).
Proof.
  intros Hne. cbv zeta. unfold getFinancialSummary.
  destruct (Financial.balanceSheet data) as [|e0 bs] eqn:E; [congruence|].
  cbn [length Nat.eqb andb]. rewrite <- E.
  exact (summary_columns (Financial.balanceSheet data) (Financial.incomeStatement data)).
Qed.

Lemma summary_periods_witness :
  filledFrom (getFinancialSummary (Some twoStatements)) (balanceFields "LastYear")
    {[ "year"%string := VNum (ofZ 2023); "totalAssets"%string := VNum (ofZ 1000) ]}.
Proof.
  assert (Hne : Financial.balanceSheet twoStatements <> []) by discriminate.
  apply (proj1 (proj2 (proj2 (proj2 (summary_periods twoStatements Hne)))));
    reflexivity.
Defined.

(** X5.  The summary of files parsed by [parseExcelFiles] is always read
    from the two sorted arrays: the branch that falls back on [rawData]
    is never taken, because [rawData] is empty whenever no statement
    was collected.  Without a readable file, and before any file is
    parsed, the summary is the empty object. *)
Theorem summary_never_from_rawData files :
  getFinancialSummary (Some (parseExcelFiles files))
  = summaryFromStatements (Financial.balanceSheet (parseExcelFiles files))
      (Financial.incomeStatement (parseExcelFiles files))
  /\ (Financial.balanceSheet (parseExcelFiles files) = [] ->
      Financial.rawData (parseExcelFiles files) = [])
  /\ (readable files = [] -> getFinancialSummary (Some (parseExcelFiles files)) = ∅)
  /\ getFinancialSummary None = ∅.
Proof.
  destruct (addFile_fold files
              {| Financial.balanceSheet := []; Financial.incomeStatement := [];
                 Financial.cashFlow := []; Financial.rawData := [] |}) as (H1 & H2 & _ & H4).
  cbv zeta in H1, H2, H4.
  cbn [Financial.balanceSheet Financial.incomeStatement Financial.rawData app] in H1, H2, H4.
  split; [apply summary_of_files|]. split; [|split; [|reflexivity]].
  - unfold parseExcelFiles. cbn [Financial.balanceSheet Financial.rawData].
    intros Hnil. apply H4.
    apply (f_equal (@length _)) in Hnil.
    rewrite (Permutation_length (sort_perm byYear _)), H1, length_map in Hnil.
    apply length_zero_iff_nil, Hnil.
  - intros Hnil. rewrite summary_of_files. unfold parseExcelFiles.
    cbn [Financial.balanceSheet Financial.incomeStatement].
    rewrite H1, H2, Hnil. reflexivity.
Qed.

Lemma summary_never_from_rawData_witness :
  getFinancialSummary (Some (parseExcelFiles [(L "损坏.xls", None)])) = ∅.
Proof.
  apply (proj1 (proj2 (proj2 (summary_never_from_rawData [(L "损坏.xls", None)])))).
  reflexivity.
Defined.

End Summary.

(* ===================================================================== *)
(** * The sheets of a workbook and repeated extraction *)
(* ===================================================================== *)

Section Workbook.
Import JsStr JsNum JsVal FileParser Spec.

Implicit Types (sd : list (list jsval)) (r : result) (k : string)
  (workbook wb : list (list N * list (list jsval))).

(** ** One extraction, key by key *)

Lemma extract_balance_law sd r k :
  ~ In k derivedKeys ->
  law (balanceSheet r !! k) (balanceSheet (extractFinancialData sd r) !! k)
      (firstHit balanceSheetTerms sd k).
Proof.
  intros Hk. unfold extractFinancialData. rewrite deriveMetrics_other by exact Hk.
  apply scanSheet_balance.
Qed.

Lemma extract_income_law sd r k :
  law (incomeStatement r !! k) (incomeStatement (extractFinancialData sd r) !! k)
      (firstHit incomeTerms sd k).
Proof.
  unfold extractFinancialData. rewrite deriveMetrics_income. apply scanSheet_income.
Qed.

(** An owner equity that is set stays, through the search and through
    the derived metrics. *)
Lemma extract_keeps_equity sd r :
  isSet (balanceSheet r) "ownerEquity" = true ->
  balanceSheet (extractFinancialData sd r) !! "ownerEquity"%string
  = balanceSheet r !! "ownerEquity"%string.
Proof.
  intros Hset. unfold extractFinancialData.
  pose proof (scanSheet_balance sd r "ownerEquity") as H. unfold law in H.
  unfold isSet, prop in Hset. rewrite Hset in H.
  rewrite deriveMetrics_equity. cbv zeta.
  assert (Hs : isSet (balanceSheet (scanSheet sd r)) "ownerEquity" = true).
  { unfold isSet, prop. rewrite H. exact Hset. }
  rewrite Hs, andb_false_r. exact H.
Qed.

(** ** The loop over the sheets *)

Lemma sheets_law (get : result -> option jsval)
    (hit : list (list jsval) -> option spec_float) :
  (forall sd v, hit sd = Some v -> toBoolean (VNum v) = true) ->
  (forall sd r, law (get r) (get (extractFinancialData sd r)) (hit sd)) ->
  forall wb init,
    law (get (metrics init)) (get (metrics (fold_left processSheet wb init)))
        (firstFound (fun sheet => hit (snd sheet)) wb).
Proof.
  intros Hhit Hlaw wb. induction wb as [|sheet wb IH]; intros init; cbn [fold_left firstFound].
  - unfold law. destruct (toBoolean _); reflexivity.
  - specialize (IH (processSheet init sheet)). specialize (Hlaw (snd sheet) (metrics init)).
    change (metrics (processSheet init sheet))
      with (extractFinancialData (snd sheet) (metrics init)) in IH.
    unfold law in *. rewrite IH, Hlaw. clear IH Hlaw.
    destruct (toBoolean (default VUndefined (get (metrics init)))) eqn:E.
    + rewrite E. reflexivity.
    + destruct (hit (snd sheet)) as [v|] eqn:Eh.
      * cbn [from_option id]. rewrite (Hhit _ _ Eh). reflexivity.
      * rewrite E. reflexivity.
Qed.

Lemma sheets_keep_equity wb : forall init,
  isSet (balanceSheet (metrics init)) "ownerEquity" = true ->
  balanceSheet (metrics (fold_left processSheet wb init)) !! "ownerEquity"%string
  = balanceSheet (metrics init) !! "ownerEquity"%string.
Proof.
  induction wb as [|sheet wb IH]; intros init Hset; cbn [fold_left]; [reflexivity|].
  pose proof (extract_keeps_equity (snd sheet) (metrics init) Hset) as Hk.
  rewrite IH.
  - exact Hk.
  - unfold processSheet. cbn [metrics]. unfold isSet, prop in *. rewrite Hk. exact Hset.
Qed.

(** X6.  The sheets of a workbook are searched in their order on one
    result object, and the first sheet in which a value is found for a
    key decides it: every metric found by its label, owner equity
    apart, ends with the value of the first sheet that yields one, and
    is absent when no sheet does. *)
Theorem first_sheet_decides fileName workbook :
  (forall k, ~ In k derivedKeys ->
     balanceSheet (metrics (parseExcelFile fileName workbook)) !! k
     = VNum <$> firstFound (fun sheet => firstHit balanceSheetTerms (snd sheet) k) workbook)
  /\ (forall k,
     incomeStatement (metrics (parseExcelFile fileName workbook)) !! k
     = VNum <$> firstFound (fun sheet => firstHit incomeTerms (snd sheet) k) workbook).
Proof.
  split; intros k.
  - intros Hk. unfold parseExcelFile.
    pose proof (sheets_law (fun r => balanceSheet r !! k)
                  (fun sd => firstHit balanceSheetTerms sd k)
                  (fun sd v => firstHit_truthy balanceSheetTerms sd k v)
                  (fun sd r => extract_balance_law sd r k Hk) workbook
                  {| year := extractYearFromFileName fileName;
                     metrics := emptyResult; sheets := [] |}) as H.
    cbv beta in H. rewrite (law_unset _ _ _ H) by reflexivity.
    destruct (firstFound _ _); reflexivity.
  - unfold parseExcelFile.
    pose proof (sheets_law (fun r => incomeStatement r !! k)
                  (fun sd => firstHit incomeTerms sd k)
                  (fun sd v => firstHit_truthy incomeTerms sd k v)
                  (fun sd r => extract_income_law sd r k) workbook
                  {| year := extractYearFromFileName fileName;
                     metrics := emptyResult; sheets := [] |}) as H.
    cbv beta in H. rewrite (law_unset _ _ _ H) by reflexivity.
    destruct (firstFound _ _); reflexivity.
Qed.

Lemma first_sheet_decides_witness :
  balanceSheet (metrics (parseExcelFile (L "2024.xls")
                           [(L "封面", []); (L "资产负债表", gridDebt)])) !! "totalAssets"%string
  = Some (VNum (ofZ 1000)).
Proof.
  rewrite (proj1 (first_sheet_decides (L "2024.xls")
                    [(L "封面", []); (L "资产负债表", gridDebt)])).
  - vm_compute. reflexivity.
  - unfold derivedKeys. simpl. intuition discriminate.
Defined.

(** X7.  An owner equity inferred from an earlier sheet shadows the one
    a later sheet reports: when the first sheet yields total assets and
    total liabilities but no owner equity, and their difference is
    neither zero nor NaN, the workbook ends with that difference as
    owner equity whatever the sheets after it hold. *)
Theorem inferred_equity_shadows fileName sheetName sd workbook a l :
  firstHit balanceSheetTerms sd "totalAssets" = Some a ->
  firstHit balanceSheetTerms sd "totalLiabilities" = Some l ->
  firstHit balanceSheetTerms sd "ownerEquity" = None ->
  toBoolean (VNum (sub a l)) = true ->
  balanceSheet (metrics (parseExcelFile fileName ((sheetName, sd) :: workbook)))
    !! "ownerEquity"%string = Some (VNum (sub a l)).
Proof.
  intros Ha Hl He Ht. unfold parseExcelFile. cbn [fold_left].
  assert (H1 : balanceSheet (extractFinancialData sd emptyResult) !! "ownerEquity"%string
               = Some (VNum (sub a l))).
  { unfold extractFinancialData. rewrite deriveMetrics_equity. cbv zeta.
    rewrite !from_empty_isSet, Ha, Hl, He. cbn [andb negb].
    unfold prop. rewrite !from_empty_balance, Ha, Hl. reflexivity. }
  rewrite sheets_keep_equity.
  - exact H1.
  - unfold processSheet. cbn [metrics snd]. unfold isSet, prop. rewrite H1. exact Ht.
Qed.

Lemma inferred_equity_shadows_witness :
  balanceSheet (metrics (parseExcelFile (L "2024.xls")
                           [(L "资产负债表", gridDebt); (L "权益", gridEquity)]))
    !! "ownerEquity"%string = Some (VNum (sub (ofZ 1000) (ofZ 600))).
Proof.
  apply (inferred_equity_shadows (L "2024.xls") (L "资产负债表") gridDebt
           [(L "权益", gridEquity)] (ofZ 1000) (ofZ 600));
    vm_compute; reflexivity.
Defined.

End Workbook.

Section Stabilisation.
Import JsStr JsNum JsVal FileParser Spec.

Implicit Types (sd : list (list jsval)) (r : result) (k : string).

Lemma scanSheet_income_local sd r r' k :
  incomeStatement r !! k = incomeStatement r' !! k ->
  incomeStatement (scanSheet sd r) !! k = incomeStatement (scanSheet sd r') !! k.
Proof.
  intros H. pose proof (scanSheet_income sd r k) as H1.
  pose proof (scanSheet_income sd r' k) as H2.
  unfold law in *. rewrite H1, H2, H. reflexivity.
Qed.

(** The search of a second pass finds the record as the first search
    left it, at every key the derived metrics do not write... *)
Lemma rescan_income sd r k :
  incomeStatement (scanSheet sd (extractFinancialData sd r)) !! k = incomeStatement (scanSheet sd r) !! k.
Proof.
  unfold extractFinancialData.
  rewrite (scanSheet_income_local sd _ (scanSheet sd r) k)
    by (rewrite deriveMetrics_income; reflexivity).
  rewrite scanSheet_idempotent. reflexivity.
Qed.

(** ... and the owner equity as the first pass left it. *)
Lemma rescan_equity sd r :
  balanceSheet (scanSheet sd (extractFinancialData sd r)) !! "ownerEquity"%string
  = balanceSheet (extractFinancialData sd r) !! "ownerEquity"%string.
Proof.
  pose proof (scanSheet_balance sd (extractFinancialData sd r) "ownerEquity") as H2. unfold law in H2.
  rewrite H2. clear H2.
  destruct (toBoolean (default VUndefined (balanceSheet (extractFinancialData sd r) !! "ownerEquity"%string)))
    eqn:E1; [reflexivity|].
  destruct (firstHit balanceSheetTerms sd "ownerEquity") as [v|] eqn:Eh; [|reflexivity].
  exfalso.
  pose proof (scanSheet_balance sd r "ownerEquity") as H1. unfold law in H1.
  assert (Hs : isSet (balanceSheet (scanSheet sd r)) "ownerEquity" = true).
  { unfold isSet, prop. rewrite H1, Eh.
    destruct (toBoolean (default VUndefined (balanceSheet r !! "ownerEquity"%string))) eqn:E0;
      [exact E0|]. cbn [from_option id]. exact (firstHit_truthy _ _ _ _ Eh). }
  unfold extractFinancialData in E1. rewrite deriveMetrics_equity in E1. cbv zeta in E1.
  rewrite Hs, andb_false_r in E1. unfold isSet, prop in Hs. congruence.
Qed.

(** A key without a label is left alone by the search. *)
Lemma scan_unlabelled sd r k :
  (forall text, hasLabel balanceSheetTerms k text = false) ->
  balanceSheet (scanSheet sd r) !! k = balanceSheet r !! k.
Proof.
  intros Hno. pose proof (scanSheet_balance sd r k) as H. unfold law in H.
  rewrite (firstHit_no_label _ _ _ Hno) in H. rewrite H.
  destruct (toBoolean _); reflexivity.
Qed.

Lemma isSet_eq (m1 m2 : gmap string jsval) k :
  m1 !! k = m2 !! k -> isSet m1 k = isSet m2 k.
Proof. unfold isSet, prop. intros ->. reflexivity. Qed.

Ltac plain := unfold derivedKeys; simpl; intuition discriminate.

(** From the second pass on, a further pass over the same grid leaves
    the four ratios as they are. *)
Lemma third_pass_ratios sd r k :
  In k ["debtRatio"; "currentRatio"; "quickRatio"; "roe"]%string ->
  balanceSheet (extractFinancialData sd (extractFinancialData sd (extractFinancialData sd r))) !! k = balanceSheet (extractFinancialData sd (extractFinancialData sd r)) !! k.
Proof.
  intros Hk.
  pose (r1 := extractFinancialData sd r). pose (s2 := scanSheet sd r1).
  pose (s3 := scanSheet sd (deriveMetrics s2)).
  change (balanceSheet (deriveMetrics s3) !! k = balanceSheet (deriveMetrics s2) !! k).
  assert (Hplain : forall j, ~ In j derivedKeys ->
            balanceSheet s3 !! j = balanceSheet s2 !! j).
  { intros j Hj. apply (rerun_scan_other sd r1 j Hj). }
  assert (Hinc : forall j, incomeStatement s3 !! j = incomeStatement s2 !! j).
  { intros j. apply (rescan_income sd r1 j). }
  assert (Heq : balanceSheet s3 !! "ownerEquity"%string
                = balanceSheet s2 !! "ownerEquity"%string).
  { change (balanceSheet (scanSheet sd (extractFinancialData sd r1)) !! "ownerEquity"%string
            = balanceSheet (scanSheet sd r1) !! "ownerEquity"%string).
    rewrite (rescan_equity sd r1). unfold r1. rewrite (rerun_equity sd r).
    symmetry. apply rescan_equity. }
  assert (Hold : forall j, (forall text, hasLabel balanceSheetTerms j text = false) ->
            balanceSheet s3 !! j = balanceSheet (deriveMetrics s2) !! j).
  { intros j Hj. apply scan_unlabelled, Hj. }
  simpl in Hk. destruct Hk as [<-|[<-|[<-|[<-|[]]]]].
  - rewrite !deriveMetrics_debtRatio. cbv zeta.
    rewrite !(isSet_eq _ _ _ (Hplain "totalAssets"%string ltac:(plain))).
    rewrite !(isSet_eq _ _ _ (Hplain "totalLiabilities"%string ltac:(plain))).
    rewrite !(prop_eq _ _ _ (Hplain "totalAssets"%string ltac:(plain))).
    rewrite !(prop_eq _ _ _ (Hplain "totalLiabilities"%string ltac:(plain))).
    destruct (_ && _) eqn:Ec; [reflexivity|].
    rewrite Hold by reflexivity.
    rewrite deriveMetrics_debtRatio. cbv zeta. rewrite Ec. reflexivity.
  - rewrite !deriveMetrics_currentRatio. cbv zeta.
    rewrite !(isSet_eq _ _ _ (Hplain "currentAssets"%string ltac:(plain))).
    rewrite !(isSet_eq _ _ _ (Hplain "currentLiabilities"%string ltac:(plain))).
    rewrite !(prop_eq _ _ _ (Hplain "currentAssets"%string ltac:(plain))).
    rewrite !(prop_eq _ _ _ (Hplain "currentLiabilities"%string ltac:(plain))).
    destruct (_ && _) eqn:Ec; [reflexivity|].
    rewrite Hold by reflexivity.
    rewrite deriveMetrics_currentRatio. cbv zeta. rewrite Ec. reflexivity.
  - rewrite !deriveMetrics_quickRatio. cbv zeta.
    rewrite !(isSet_eq _ _ _ (Hplain "currentAssets"%string ltac:(plain))).
    rewrite !(isSet_eq _ _ _ (Hplain "currentLiabilities"%string ltac:(plain))).
    rewrite !(prop_eq _ _ _ (Hplain "currentAssets"%string ltac:(plain))).
    rewrite !(prop_eq _ _ _ (Hplain "currentLiabilities"%string ltac:(plain))).
    rewrite !(prop_eq _ _ _ (Hplain "inventory"%string ltac:(plain))).
    destruct (_ && _) eqn:Ec; [reflexivity|].
    rewrite Hold by reflexivity.
    rewrite deriveMetrics_quickRatio. cbv zeta. rewrite Ec. reflexivity.
  - rewrite !deriveMetrics_roe. cbv zeta.
    rewrite !(isSet_eq _ _ _ (Hinc "netProfit"%string)).
    rewrite !(isSet_eq _ _ _ Heq).
    rewrite !(prop_eq _ _ _ (Hinc "netProfit"%string)).
    rewrite !(prop_eq _ _ _ Heq).
    destruct (_ && _) eqn:Ec; [reflexivity|].
    rewrite Hold by reflexivity.
    rewrite deriveMetrics_roe. cbv zeta. rewrite Ec. reflexivity.
Qed.

Lemma derived_cases k :
  In k derivedKeys ->
  k = "ownerEquity"%string \/ In k ["debtRatio"; "currentRatio"; "quickRatio"; "roe"]%string.
Proof. unfold derivedKeys. simpl. intuition. Qed.

(** After two passes from the empty record the return on equity is
    there exactly when its two inputs are. *)
Lemma second_pass_roe sd :
  let r2 := extractFinancialData sd (extractFinancialData sd emptyResult) in
  is_Some (balanceSheet r2 !! "roe"%string)
  <-> isSet (incomeStatement r2) "netProfit" = true
      /\ isSet (balanceSheet r2) "ownerEquity" = true.
Proof.
  cbv zeta.
  set (s1 := scanSheet sd emptyResult). set (r1 := extractFinancialData sd emptyResult).
  set (s2 := scanSheet sd r1).
  assert (Hnp : isSet (incomeStatement (extractFinancialData sd r1)) "netProfit"
                = isSet (incomeStatement s2) "netProfit").
  { apply isSet_eq. unfold extractFinancialData. rewrite deriveMetrics_income. reflexivity. }
  assert (Heq2 : balanceSheet s2 !! "ownerEquity"%string
                 = balanceSheet r1 !! "ownerEquity"%string) by apply rescan_equity.
  assert (Heq : isSet (balanceSheet (extractFinancialData sd r1)) "ownerEquity"
                = isSet (balanceSheet s2) "ownerEquity").
  { apply isSet_eq. unfold r1. rewrite rerun_equity. symmetry. exact Heq2. }
  rewrite Hnp, Heq.
  change (extractFinancialData sd r1) with (deriveMetrics s2). rewrite deriveMetrics_roe. cbv zeta.
  destruct (isSet (incomeStatement s2) "netProfit" && isSet (balanceSheet s2) "ownerEquity")
    eqn:Ec.
  - apply andb_true_iff in Ec. split; [intros _; exact Ec|intros _; eexists; reflexivity].
  - split; [|intros [H1 H2]; rewrite H1, H2 in Ec; discriminate].
    intros Hsome. exfalso.
    unfold s2 in Hsome. rewrite scan_unlabelled in Hsome by reflexivity.
    unfold r1 in Hsome. change (extractFinancialData sd emptyResult) with (deriveMetrics s1) in Hsome.
    rewrite deriveMetrics_roe in Hsome. cbv zeta in Hsome.
    destruct (isSet (incomeStatement s1) "netProfit" && isSet (balanceSheet s1) "ownerEquity")
      eqn:Ec1.
    + apply andb_true_iff in Ec1 as [N1 Q1].
      assert (N2 : isSet (incomeStatement s2) "netProfit" = true).
      { unfold s2, r1.
        rewrite (isSet_eq _ _ "netProfit" (rescan_income sd emptyResult "netProfit")).
        exact N1. }
      assert (Q2 : isSet (balanceSheet s2) "ownerEquity" = true).
      { rewrite (isSet_eq _ _ _ Heq2). unfold r1.
        change (extractFinancialData sd emptyResult) with (deriveMetrics s1).
        rewrite (isSet_eq _ (balanceSheet s1) "ownerEquity"); [exact Q1|].
        rewrite deriveMetrics_equity. cbv zeta. rewrite Q1, andb_false_r. reflexivity. }
      rewrite N2, Q2 in Ec. discriminate.
    + unfold s1 in Hsome. rewrite scan_unlabelled in Hsome by reflexivity.
      destruct Hsome as [x Hx]. discriminate.
Qed.

(** X8.  Extraction over the same grid stabilises with the second
    pass: a third pass returns the record of the second, whatever the
    record the first started from.  After two passes from the empty
    record the return on equity is present exactly when net profit and
    owner equity are set.  One pass is not enough: on the grid with
    assets 1000, liabilities 600 and a net profit of 100 the second
    pass differs from the first. *)
Theorem extraction_stabilises sd :
  (forall r,
     extractFinancialData sd (extractFinancialData sd (extractFinancialData sd r))
     = extractFinancialData sd (extractFinancialData sd r))
  /\ (let r2 := extractFinancialData sd (extractFinancialData sd emptyResult) in
      is_Some (balanceSheet r2 !! "roe"%string)
      <-> isSet (incomeStatement r2) "netProfit" = true
          /\ isSet (balanceSheet r2) "ownerEquity" = true)
  /\ extractFinancialData gridProfit (extractFinancialData gridProfit emptyResult)
     <> extractFinancialData gridProfit emptyResult.
Proof.
  split; [|split; [apply second_pass_roe|]].
  - intros r. apply result_eq; apply map_eq; intros k.
    + destruct (decide (In k derivedKeys)) as [Hd|Hn].
      * apply derived_cases in Hd as [->|Hk].
        -- apply (rerun_equity sd (extractFinancialData sd r)).
        -- apply third_pass_ratios, Hk.
      * apply (rerun_balance_other sd (extractFinancialData sd r) k Hn).
    + apply (rerun_income sd (extractFinancialData sd r) k).
  - intros H. apply (f_equal (fun x => balanceSheet x !! "roe"%string)) in H.
    vm_compute in H. discriminate.
Qed.

End Stabilisation.

(* ===================================================================== *)
(** * The choice between the two ways to fill a template *)
(* ===================================================================== *)

Section Strategy.
Import JsStr JsNum JsVal Regex TemplateEngine Spec.

Implicit Types (fl : flags) (r : regex) (s w pre a b name : list N).

Lemma class_plain neg (p : N -> bool) x :
  classMatches noFlags neg p x = xorb neg (p x).
Proof. unfold classMatches. simpl. rewrite orb_false_r. reflexivity. Qed.

(** A match that exists at some position is found by the search, at
    that position or before it. *)
Lemma execFrom_reaches fl r a : forall pre s,
  matchAt fl r (pre ++ a) s <> None -> execFrom fl r pre (a ++ s) <> None.
Proof.
  induction a as [|c a IH]; intros pre s H.
  - rewrite app_nil_r in H. cbn [app].
    destruct s as [|c s]; cbn [execFrom]; destruct (matchAt fl r pre _); congruence.
  - cbn [app execFrom]. destruct (matchAt fl r pre (c :: a ++ s)); [discriminate|].
    apply IH. rewrite <- app_assoc. exact H.
Qed.

(** The pattern matches at an identifier between braces. *)
Lemma identifier_at pre name b :
  isIdentifier name ->
  matchAt noFlags identifierPattern pre (ch "{" :: name ++ ch "}" :: b) <> None.
Proof.
  intros Hn. destruct name as [|c rest]; [destruct Hn|]. destruct Hn as [Hc Hrest].
  unfold matchAt, identifierPattern, identStart, identChar. cbn [seqs].
  rewrite m_seq, m_char. cbn [app]. rewrite oneChar_cons.
  change (charMatches noFlags (ch "{") (ch "{")) with true. cbv iota.
  rewrite m_seq, m_class, oneChar_cons, class_plain. cbn [xorb]. rewrite Hc.
  rewrite m_seq.
  rewrite (star_class_greedy noFlags false _ _ rest) with
    (z := {| pos := S (S (length pre)) + length rest + 1; rest := b; caps := ∅ |}).
  - discriminate.
  - eapply Forall_impl; [exact Hrest|]. intros u Hu. cbv beta in *.
    rewrite class_plain. exact Hu.
  - rewrite class_plain. reflexivity.
  - rewrite m_char, oneChar_cons.
    change (charMatches noFlags (ch "}") (ch "}")) with true. cbv iota.
    f_equal. f_equal. lia.
Qed.

(** The shape of every match of the pattern. *)
Lemma identifier_match pre s mi :
  matchAt noFlags identifierPattern pre s = Some mi ->
  exists name, isIdentifier name /\ matched mi = ch "{" :: name ++ [ch "}"].
Proof.
  intros H. apply matchAt_sound in H. destruct H as (_ & _ & H).
  unfold identifierPattern, identStart, identChar in H. cbn [seqs] in H.
  apply Matches_Seq_inv in H. destruct H as (w1 & t1 & c1 & -> & A & H).
  apply Matches_Char_inv in A. destruct A as (u & -> & Hu & ->).
  apply Matches_Seq_inv in H. destruct H as (w2 & t2 & c2 & -> & B & H).
  apply Matches_Class_inv in B. destruct B as (c & -> & Hc & ->).
  apply Matches_Seq_inv in H. destruct H as (w3 & w4 & c3 & -> & C & D).
  apply Matches_Star_Class in C. destruct C as [C ->].
  apply Matches_Char_inv in D. destruct D as (v & -> & Hv & _).
  unfold charMatches, noFlags in Hu, Hv. cbn [ignoreCase] in Hu, Hv.
  apply N.eqb_eq in Hu, Hv. subst u v.
  exists (c :: w3). split.
  - split; [rewrite class_plain in Hc; exact Hc|].
    eapply Forall_impl; [exact C|]. intros u Hu. cbv beta in Hu.
    rewrite class_plain in Hu. exact Hu.
  - reflexivity.
Qed.

Lemma test_identifier content :
  test noFlags identifierPattern content = true <-> hasIdentifier content.
Proof.
  unfold test, exec. split.
  - destruct (execFrom noFlags identifierPattern [] content) as [mi|] eqn:E; [|discriminate].
    intros _. apply execFrom_Some in E. destruct E as (a & s' & -> & Hm).
    pose proof (matchAt_sound _ _ _ _ _ Hm) as (_ & Hs & _).
    destruct (identifier_match _ _ _ Hm) as (name & Hn & Hmt).
    exists a, name, (after mi). split; [|exact Hn].
    rewrite Hs, Hmt. simpl. rewrite <- app_assoc. reflexivity.
  - intros (a & name & b & -> & Hn).
    pose proof (execFrom_reaches noFlags identifierPattern a []
                  (ch "{" :: name ++ ch "}" :: b) (identifier_at _ name b Hn)) as H.
    destruct (execFrom _ _ _ _); [reflexivity|congruence].
Qed.




(** The path through the template library stands for any function. *)
Context {B : Type} (generateWithDocxtemplater : list N -> gmap string jsval -> option B).


End Strategy.


Section TwoScanners.
Import JsStr JsNum JsVal Regex Spec.

(** X10.  The placeholders the upload reports and those of the analyzer
    come from the same matches of the same pattern: the analyzer's list
    is the upload's list with every name trimmed and repetitions left
    out, and the two flags agree. *)
Theorem two_placeholder_lists text :
  TemplateEngine.placeholders (TemplateEngine.analyzeTemplate text)
  = distinct (map trim (FileParser.placeholders (FileParser.parseWordTemplate text)))
  /\ TemplateEngine.hasExistingPlaceholders (TemplateEngine.analyzeTemplate text)
     = FileParser.hasPlaceholders (FileParser.parseWordTemplate text)
  /\ (length (TemplateEngine.placeholders (TemplateEngine.analyzeTemplate text))
      <= length (FileParser.placeholders (FileParser.parseWordTemplate text)))%nat.
Proof.
  unfold TemplateEngine.analyzeTemplate, FileParser.parseWordTemplate.
  cbn [TemplateEngine.placeholders TemplateEngine.hasExistingPlaceholders
       FileParser.placeholders FileParser.hasPlaceholders].
  rewrite findExistingPlaceholders_distinct.
  change FileParser.placeholderRegex with TemplateEngine.placeholderPattern.
  change FileParser.noFlags with TemplateEngine.noFlags.
  rewrite map_map.
  generalize (matchAll TemplateEngine.noFlags TemplateEngine.placeholderPattern text).
  intros l. split; [reflexivity|]. split.
  - destruct l; reflexivity.
  - rewrite length_map.
    assert (H : forall names : list (list N), (length (distinct names) <= length names)%nat).
    { induction names as [|x names IH]; [reflexivity|]. cbn [distinct length].
      pose proof (filter_length_le (fun y => negb (bool_decide (y = x))) (distinct names)).
      lia. }
    rewrite <- (length_map (fun mi => trim (capture mi 1)) l). apply H.
Qed.

End TwoScanners.

(* ===================================================================== *)
(** * Escaping, read back *)
(* ===================================================================== *)

Section Escaping.
Import JsStr JsNum JsVal Regex TemplateEngine Spec.

Implicit Types (s t text : list N) (c : N).

Lemma replaceChar_flat_map c by_ (f : N -> list N) s :
  replaceChar c by_ (flat_map f s) = flat_map (fun x => replaceChar c by_ (f x)) s.
Proof.
  unfold replaceChar. induction s as [|x s IH]; cbn [flat_map]; [reflexivity|].
  rewrite flat_map_app, IH. reflexivity.
Qed.

Lemma replaceChar_single c by_ x :
  replaceChar c by_ [x] = if (x =? c)%N then by_ else [x].
Proof. unfold replaceChar. cbn [flat_map]. apply app_nil_r. Qed.

(** The five replacements in a row amount to one pass: no replacement
    writes a character that a later one replaces. *)
Lemma escapeXml_chars s : escapeXml s = flat_map escapeChar s.
Proof.
  unfold escapeXml. destruct s as [|c0 s0]; [reflexivity|].
  generalize (c0 :: s0). clear. intros s.
  assert (H0 : replaceChar (ch "&") (L "&amp;") s
               = flat_map (fun x => if (x =? ch "&")%N then L "&amp;" else [x]) s)
    by reflexivity.
  rewrite H0, !replaceChar_flat_map. apply flat_map_ext. intros x.
  unfold escapeChar.
  destruct (N.eqb_spec x (ch "&")) as [->|H1]; [reflexivity|].
  rewrite replaceChar_single.
  destruct (N.eqb_spec x (ch "<")) as [->|H2]; [reflexivity|].
  rewrite replaceChar_single.
  destruct (N.eqb_spec x (ch ">")) as [->|H3]; [reflexivity|].
  rewrite replaceChar_single.
  destruct (N.eqb_spec x 0x22) as [->|H4]; [reflexivity|].
  rewrite replaceChar_single.
  destruct (N.eqb_spec x 0x27) as [->|H5]; reflexivity.
Qed.

Lemma startsWith_app t rest : startsWith (t ++ rest) t = true.
Proof.
  induction t as [|x t IH]; [destruct rest; reflexivity|].
  cbn [app startsWith]. rewrite N.eqb_refl. exact IH.
Qed.

Lemma unescapeFrom_amp s :
  unescapeFrom 0 (ch "&" :: s) =
  if startsWith s (L "amp;") then ch "&" :: unescapeFrom 4 s
  else if startsWith s (L "lt;") then ch "<" :: unescapeFrom 3 s
  else if startsWith s (L "gt;") then ch ">" :: unescapeFrom 3 s
  else if startsWith s (L "quot;") then 0x22%N :: unescapeFrom 5 s
  else if startsWith s (L "apos;") then 0x27%N :: unescapeFrom 5 s
  else ch "&" :: unescapeFrom 0 s.
Proof. reflexivity. Qed.

Lemma unescapeFrom_skip t rest :
  unescapeFrom (length t) (t ++ rest) = unescapeFrom 0 rest.
Proof. induction t as [|x t IH]; [reflexivity|exact IH]. Qed.

Lemma unescape_escapeChar c rest :
  unescapeFrom 0 (escapeChar c ++ rest) = c :: unescapeFrom 0 rest.
Proof.
  unfold escapeChar.
  destruct (N.eqb_spec c (ch "&")) as [->|H1].
  { change (L "&amp;" ++ rest) with (ch "&" :: (L "amp;" ++ rest)).
    rewrite unescapeFrom_amp, startsWith_app.
    exact (f_equal (cons (ch "&")) (unescapeFrom_skip (L "amp;") rest)). }
  destruct (N.eqb_spec c (ch "<")) as [->|H2].
  { change (L "&lt;" ++ rest) with (ch "&" :: (L "lt;" ++ rest)).
    rewrite unescapeFrom_amp.
    change (startsWith (L "lt;" ++ rest) (L "amp;")) with false. cbv iota.
    rewrite startsWith_app.
    exact (f_equal (cons (ch "<")) (unescapeFrom_skip (L "lt;") rest)). }
  destruct (N.eqb_spec c (ch ">")) as [->|H3].
  { change (L "&gt;" ++ rest) with (ch "&" :: (L "gt;" ++ rest)).
    rewrite unescapeFrom_amp.
    change (startsWith (L "gt;" ++ rest) (L "amp;")) with false. cbv iota.
    change (startsWith (L "gt;" ++ rest) (L "lt;")) with false. cbv iota.
    rewrite startsWith_app.
    exact (f_equal (cons (ch ">")) (unescapeFrom_skip (L "gt;") rest)). }
  destruct (N.eqb_spec c 0x22) as [->|H4].
  { change (L "&quot;" ++ rest) with (ch "&" :: (L "quot;" ++ rest)).
    rewrite unescapeFrom_amp.
    change (startsWith (L "quot;" ++ rest) (L "amp;")) with false. cbv iota.
    change (startsWith (L "quot;" ++ rest) (L "lt;")) with false. cbv iota.
    change (startsWith (L "quot;" ++ rest) (L "gt;")) with false. cbv iota.
    rewrite startsWith_app.
    exact (f_equal (cons 0x22%N) (unescapeFrom_skip (L "quot;") rest)). }
  destruct (N.eqb_spec c 0x27) as [->|H5].
  { change (L "&apos;" ++ rest) with (ch "&" :: (L "apos;" ++ rest)).
    rewrite unescapeFrom_amp.
    change (startsWith (L "apos;" ++ rest) (L "amp;")) with false. cbv iota.
    change (startsWith (L "apos;" ++ rest) (L "lt;")) with false. cbv iota.
    change (startsWith (L "apos;" ++ rest) (L "gt;")) with false. cbv iota.
    change (startsWith (L "apos;" ++ rest) (L "quot;")) with false. cbv iota.
    rewrite startsWith_app.
    exact (f_equal (cons 0x27%N) (unescapeFrom_skip (L "apos;") rest)). }
  cbn [app unescapeFrom].
  destruct (N.eqb_spec c (ch "&")); [contradiction|reflexivity].
Qed.

Lemma unescape_escape s : unescapeXml (escapeXml s) = s.
Proof.
  rewrite escapeXml_chars. unfold unescapeXml.
  induction s as [|c s IH]; [reflexivity|].
  cbn [flat_map]. rewrite unescape_escapeChar, IH. reflexivity.
Qed.

(** X11.  [escapeXml] on strings loses nothing and lets no markup
    through: reading the five entities back gives the string again, so
    different strings are escaped differently; the result holds no
    angle bracket, no double quote and no apostrophe; and the result of
    a concatenation is the concatenation of the results. *)
Theorem escapeXml_reversible s :
  unescapeXml (escapeXml s) = s
  /\ (forall t, escapeXml s = escapeXml t -> s = t)
  /\ absent (ch "<") (escapeXml s) /\ absent (ch ">") (escapeXml s)
  /\ absent 0x22%N (escapeXml s) /\ absent 0x27%N (escapeXml s)
  /\ (forall t, escapeXml (s ++ t) = escapeXml s ++ escapeXml t).
Proof.
  split; [apply unescape_escape|]. split.
  - intros t H. rewrite <- (unescape_escape s), <- (unescape_escape t), H. reflexivity.
  - pose proof (escapeXml_no_markup s) as (H1 & H2 & H3 & H4).
    repeat (split; [assumption|]).
    intros t. rewrite !escapeXml_chars. apply flat_map_app.
Qed.

(** ** The markup of a paragraph *)

Lemma tagsOf_app a : forall st b,
  tagsOf st (a ++ b) = tagsOf st a ++ tagsOf (tagState st a) b.
Proof.
  induction a as [|c a IH]; intros st b; [reflexivity|].
  cbn [app tagsOf tagState fold_left].
  destruct (c =? ch "<")%N; [cbn [app]; f_equal; apply IH|].
  destruct (c =? ch ">")%N; [cbn [app]; f_equal; apply IH|].
  destruct st; [cbn [app]; f_equal|]; apply IH.
Qed.

Lemma textOf_app a : forall st b,
  textOf st (a ++ b) = textOf st a ++ textOf (tagState st a) b.
Proof.
  induction a as [|c a IH]; intros st b; [reflexivity|].
  cbn [app textOf tagState fold_left].
  destruct (c =? ch "<")%N; [apply IH|].
  destruct (c =? ch ">")%N; [apply IH|].
  destruct st; [|cbn [app]; f_equal]; apply IH.
Qed.

(** A fragment without angle brackets is text, and leaves the reader
    where it was. *)
Lemma plain_text t :
  absent (ch "<") t -> absent (ch ">") t ->
  tagsOf false t = [] /\ textOf false t = t /\ tagState false t = false.
Proof.
  unfold absent. induction t as [|c t IH]; intros H1 H2; [auto|].
  inversion H1 as [|? ? Hc1 Ht1]; inversion H2 as [|? ? Hc2 Ht2]; subst.
  destruct (IH Ht1 Ht2) as (I1 & I2 & I3).
  cbn [tagsOf textOf tagState fold_left].
  destruct (N.eqb_spec c (ch "<")); [contradiction|].
  destruct (N.eqb_spec c (ch ">")); [contradiction|].
  fold (tagState false t). rewrite I1, I2, I3. auto.
Qed.

(** A paragraph is its head, the escaped text and its tail. *)
Lemma paragraph_parts text bold align :
  createParagraph text bold align
  = paragraphHead bold align ++ escapeXml text ++ paragraphTail.
Proof.
  unfold createParagraph. generalize (escapeXml text). intros e.
  destruct bold, align; vm_compute; reflexivity.
Qed.

Lemma head_state bold align : tagState false (paragraphHead bold align) = false.
Proof. destruct bold, align; vm_compute; reflexivity. Qed.

Lemma all_white l :
  forallb isWhiteSpace l = true -> Forall (fun c => isWhiteSpace c = true) l.
Proof.
  induction l as [|c l IH]; cbn [forallb]; [constructor|].
  intros H. apply andb_prop in H as [H1 H2]. constructor; [exact H1|exact (IH H2)].
Qed.

(** X12.  The text of a paragraph of the appendix cannot change its
    markup: the tags of the paragraph are those of the paragraph with
    empty text, whatever the text, and the only text between the tags
    is the escaped text, with the white space of the template before
    and after it. *)
Theorem paragraph_markup text bold align :
  tagsOf false (createParagraph text bold align)
  = tagsOf false (createParagraph [] bold align)
  /\ exists lead trail,
       Forall (fun c => isWhiteSpace c = true) lead
       /\ Forall (fun c => isWhiteSpace c = true) trail
       /\ textOf false (createParagraph text bold align)
          = lead ++ escapeXml text ++ trail.
Proof.
  pose proof (escapeXml_no_markup text) as (H1 & H2 & _).
  destruct (plain_text _ H1 H2) as (P1 & P2 & P3).
  rewrite !paragraph_parts. split.
  - rewrite !tagsOf_app, !head_state, P1, P3. reflexivity.
  - exists (textOf false (paragraphHead bold align)), (textOf false paragraphTail).
    split; [|split].
    + apply all_white. destruct bold, align; vm_compute; reflexivity.
    + apply all_white. vm_compute. reflexivity.
    + rewrite !textOf_app, !head_state, P2, P3. reflexivity.
Qed.

End Escaping.

(* ===================================================================== *)
(** * The preview page *)
(* ===================================================================== *)

Section Preview.
Import JsStr JsNum JsVal Regex TemplateEngine Spec.

Implicit Types (data : gmap string jsval) (s t : list N).

Lemma flat_map_In {X : Type} (f : X -> list N) (l : list X) x :
  In x l -> exists a b, flat_map f l = a ++ f x ++ b.
Proof.
  intros H. apply in_split in H as (l1 & l2 & ->).
  rewrite flat_map_app. cbn [flat_map]. eauto.
Qed.

Lemma join_nil (parts : list (list N)) : join [] parts = concat parts.
Proof.
  induction parts as [|p [|q parts] IH]; [reflexivity| |].
  - cbn. rewrite app_nil_r. reflexivity.
  - change (join [] (p :: q :: parts)) with (p ++ [] ++ join [] (q :: parts)).
    rewrite IH. reflexivity.
Qed.

Lemma concat_In (parts : list (list N)) p :
  In p parts -> exists a b, concat parts = a ++ p ++ b.
Proof.
  intros H. apply in_split in H as (l1 & l2 & ->).
  rewrite concat_app. cbn [concat]. eauto.
Qed.

(** A piece that ends with an opening tag, a value and a piece that
    starts with the closing tag, somewhere in the page. *)
Lemma around (h sec a x1 t x2 v x3 b f pre post opn cls : list N) :
  x2 = pre ++ opn -> x3 = cls ++ post ->
  exists a0 b0,
    h ++ sec ++ (a ++ (x1 ++ t ++ x2 ++ v ++ x3) ++ b) ++ f
    = a0 ++ opn ++ v ++ cls ++ b0.
Proof.
  intros -> ->. exists (h ++ sec ++ a ++ x1 ++ t ++ pre), (post ++ b ++ f).
  rewrite <- !app_assoc. reflexivity.
Qed.

Lemma piece (x1 t x2 v x3 pre post opn cls : list N) :
  x2 = pre ++ opn -> x3 = cls ++ post ->
  x1 ++ t ++ x2 ++ v ++ x3 = (x1 ++ t ++ pre) ++ opn ++ v ++ cls ++ post.
Proof. intros -> ->. rewrite <- !app_assoc. reflexivity. Qed.

Lemma inside (h a x1 t x2 a' b' x3 b rest f a0 opn v cls b0 : list N) :
  exists a1 b1,
    h ++ (a ++ (x1 ++ t ++ x2 ++ (a' ++ (a0 ++ opn ++ v ++ cls ++ b0) ++ b') ++ x3) ++ b)
      ++ rest ++ f
    = a1 ++ opn ++ v ++ cls ++ b1.
Proof.
  exists (h ++ a ++ x1 ++ t ++ x2 ++ a' ++ a0), (b0 ++ b' ++ x3 ++ b ++ rest ++ f).
  rewrite <- !app_assoc. reflexivity.
Qed.

(** X13.  The preview page takes the values as they are: every narrative
    field with content stands, exactly as entered, between the tags of
    its paragraph, and every item with a value between the tags of its
    cell; no character of a value is escaped. *)
Theorem preview_takes_values_as_they_are data :
  (forall title field,
     In (title, field) previewTextSections ->
     toBoolean (prop data field) = true ->
     exists a b,
       generatePreviewHTML data
       = a ++ Q "<p class='text-sm text-gray-700 whitespace-pre-wrap'>"
           ++ toStr (prop data field) ++ Q "</p>" ++ b)
  /\ (forall title items label value,
     In (title, items) (previewSections data) ->
     In (label, value) items ->
     toBoolean value = true ->
     exists a b,
       generatePreviewHTML data
       = a ++ Q "<div class='text-gray-800'>" ++ toStr value ++ Q "</div>" ++ b).
Proof.
  split.
  - intros title field Hin Ht.
    destruct (flat_map_In (previewText data) _ _ Hin) as (a & b & Hf).
    unfold generatePreviewHTML. rewrite Hf. unfold previewText. cbv zeta.
    cbn [fst snd]. rewrite Ht.
    apply (around _ _ _ _ _ _ _ _ _ _
             (Q "</h4>
                        ")
             (Q "
                    </div>
                ")); vm_compute; reflexivity.
  - intros title items label value Hsec Hitem Ht.
    destruct (flat_map_In previewSection _ _ Hsec) as (a & b & Hf).
    unfold generatePreviewHTML. rewrite Hf. unfold previewSection. cbn [fst snd].
    assert (Hin : In (previewItem (label, value))
                    (map previewItem (List.filter (fun i => toBoolean (snd i)) items))).
    { apply in_map, filter_In. auto. }
    rewrite join_nil. destruct (concat_In _ _ Hin) as (a' & b' & ->).
    unfold previewItem. cbn [fst snd].
    rewrite (piece _ label _ (toStr value) _
               (Q "：</div>
                            ")
               (Q "
                        ")
               (Q "<div class='text-gray-800'>") (Q "</div>"))
      by (vm_compute; reflexivity).
    apply inside.
Qed.

Lemma preview_takes_values_as_they_are_witness :
  exists a b,
    generatePreviewHTML {[ "creditRisk"%string := VStr (L "<img src=x>") ]}
    = a ++ Q "<p class='text-sm text-gray-700 whitespace-pre-wrap'>"
        ++ toStr (prop {[ "creditRisk"%string := VStr (L "<img src=x>") ]} "creditRisk")
        ++ Q "</p>" ++ b.
Proof.
  apply (proj1 (preview_takes_values_as_they_are
                  {[ "creditRisk"%string := VStr (L "<img src=x>") ]})
           (L "信用风险分析") "creditRisk"%string).
  - do 3 right. left. reflexivity.
  - reflexivity.
Defined.

End Preview.

(* ===================================================================== *)
(** * The markup of the appendix *)
(* ===================================================================== *)

Section AppendixMarkup.
Import JsStr JsNum JsVal Regex TemplateEngine Spec.

Implicit Types (data : gmap string jsval) (p : list N) (ps : list (list N)).

Lemma para_isParagraph text : isParagraph (para text).
Proof. exists text, false, AlignLeft. reflexivity. Qed.

Lemma heading_isParagraph text : isParagraph (heading text).
Proof. exists text, true, AlignLeft. reflexivity. Qed.

Lemma created_isParagraph text bold align : isParagraph (createParagraph text bold align).
Proof. exists text, bold, align. reflexivity. Qed.

Lemma itemParagraphs_paragraphs data items : Forall isParagraph (itemParagraphs data items).
Proof.
  unfold itemParagraphs. induction items as [|[[label field] unit] items IH]; cbn [flat_map].
  - constructor.
  - apply Forall_app. split; [|exact IH].
    destruct (toBoolean (prop data field)); repeat constructor. apply para_isParagraph.
Qed.

Lemma companySection_paragraphs data : Forall isParagraph (companySection data).
Proof.
  unfold companySection. destruct (_ || _); [|constructor].
  apply Forall_app. split; [|apply Forall_app; split; [|apply Forall_app; split]].
  - repeat constructor; [apply heading_isParagraph|apply para_isParagraph].
  - apply itemParagraphs_paragraphs.
  - destruct (truthy data "businessScope"); repeat constructor. apply para_isParagraph.
  - repeat constructor. apply para_isParagraph.
Qed.

Lemma financialSection_paragraphs data : Forall isParagraph (financialSection data).
Proof.
  unfold financialSection. destruct (_ || _); [|constructor].
  apply Forall_app. split; [|apply Forall_app; split].
  - repeat constructor; [apply heading_isParagraph|apply para_isParagraph].
  - apply itemParagraphs_paragraphs.
  - repeat constructor. apply para_isParagraph.
Qed.

Lemma creditSection_paragraphs data : Forall isParagraph (creditSection data).
Proof.
  unfold creditSection. destruct (_ || _); [|constructor].
  apply Forall_app. split; [|apply Forall_app; split].
  - repeat constructor; [apply heading_isParagraph|apply para_isParagraph].
  - apply itemParagraphs_paragraphs.
  - repeat constructor. apply para_isParagraph.
Qed.

Lemma textSection_paragraphs data section ps :
  textSection data section = Some ps -> Forall isParagraph ps.
Proof.
  unfold textSection. destruct (toBoolean _); [|intros [= <-]; constructor].
  destruct (prop data (snd section)) as [| | | |text]; try discriminate.
  intros [= <-].
  constructor; [apply heading_isParagraph|]. constructor; [apply para_isParagraph|].
  apply Forall_app. split.
  - apply Forall_forall. intros p Hp. apply list_elem_of_In, in_map_iff in Hp.
    destruct Hp as (line & <- & _). apply para_isParagraph.
  - repeat constructor. apply para_isParagraph.
Qed.

Lemma textSectionsFrom_paragraphs data sections : forall ps,
  textSectionsFrom data sections = Some ps -> Forall isParagraph ps.
Proof.
  induction sections as [|section more IH]; intros ps; cbn [textSectionsFrom].
  - intros [= <-]. constructor.
  - destruct (textSection data section) as [qs|] eqn:E; [|discriminate].
    destruct (textSectionsFrom data more) as [rs|]; [|discriminate].
    intros [= <-]. apply Forall_app. split.
    + exact (textSection_paragraphs _ _ _ E).
    + apply IH. reflexivity.
Qed.

(** The appendix is a page break followed by paragraphs. *)
Lemma filledSections_paragraphs now data ps :
  filledSections now data = Some ps ->
  exists rest, ps = pageBreak :: rest /\ Forall isParagraph rest.
Proof.
  unfold filledSections.
  destruct (textSectionsFrom data textSections) as [narratives|] eqn:E; [|discriminate].
  intros [= <-]. eexists. split; [reflexivity|].
  constructor; [apply created_isParagraph|]. constructor; [apply para_isParagraph|].
  apply Forall_app. split; [|apply Forall_app; split; [|apply Forall_app; split;
    [|apply Forall_app; split]]].
  - apply companySection_paragraphs.
  - apply financialSection_paragraphs.
  - apply creditSection_paragraphs.
  - exact (textSectionsFrom_paragraphs _ _ _ E).
  - repeat constructor; [apply para_isParagraph|apply created_isParagraph].
Qed.

Lemma tagState_app a : forall st b, tagState st (a ++ b) = tagState (tagState st a) b.
Proof. intros st b. unfold tagState. apply fold_left_app. Qed.

(** A paragraph has the tags of its shape and ends outside a tag. *)
Lemma paragraph_tags p :
  isParagraph p ->
  tagState false p = false
  /\ exists bold align, tagsOf false p = tagsOf false (createParagraph [] bold align).
Proof.
  intros (text & bold & align & ->).
  pose proof (escapeXml_no_markup text) as (H1 & H2 & _).
  destruct (plain_text _ H1 H2) as (P1 & P2 & P3). split.
  - rewrite paragraph_parts, !tagState_app, head_state, P3. reflexivity.
  - exists bold, align. rewrite !paragraph_parts, !tagsOf_app, !head_state, P1, P3.
    reflexivity.
Qed.

Lemma join_tags ps : forall p0,
  tagState false p0 = false ->
  Forall isParagraph ps ->
  exists shapes : list (bool * alignment),
    tagsOf false (join [0x0A%N] (p0 :: ps))
    = tagsOf false p0
      ++ flat_map (fun ba => tagsOf false (createParagraph [] (fst ba) (snd ba))) shapes.
Proof.
  induction ps as [|p ps IH]; intros p0 H0 Hps.
  - exists []. cbn [join flat_map]. rewrite app_nil_r. reflexivity.
  - inversion Hps as [|? ? Hp Hrest]; subst.
    destruct (paragraph_tags p Hp) as (Hst & bold & align & Htags).
    destruct (IH p Hst Hrest) as (shapes & Hj).
    exists ((bold, align) :: shapes).
    change (join [0x0A%N] (p0 :: p :: ps)) with (p0 ++ [0x0A%N] ++ join [0x0A%N] (p :: ps)).
    rewrite !tagsOf_app, H0. cbn [flat_map fst snd].
    change (tagsOf false [0x0A%N]) with (@nil N).
    change (tagState false [0x0A%N]) with false.
    cbn [app]. rewrite Hj, Htags. reflexivity.
Qed.

(** X14.  No value can add a tag to the appendix: the tags of the
    appendix are those of the page break followed by those of a row of
    paragraphs with empty text. *)
Theorem appendix_markup now data content :
  createFilledContentSection now data = Some content ->
  exists shapes : list (bool * alignment),
    tagsOf false content
    = tagsOf false pageBreak
      ++ flat_map (fun ba => tagsOf false (createParagraph [] (fst ba) (snd ba))) shapes.
Proof.
  unfold createFilledContentSection.
  destruct (filledSections now data) as [ps|] eqn:E; [|discriminate].
  intros [= <-]. destruct (filledSections_paragraphs _ _ _ E) as (rest & -> & Hrest).
  apply join_tags; [vm_compute; reflexivity|exact Hrest].
Qed.

Lemma appendix_markup_witness :
  exists shapes : list (bool * alignment),
    tagsOf false
      (default [] (createFilledContentSection someDay
                     {[ "companyName"%string := VStr (L "</w:t><w:t>A&B") ]}))
    = tagsOf false pageBreak
      ++ flat_map (fun ba => tagsOf false (createParagraph [] (fst ba) (snd ba))) shapes.
Proof.
  apply (appendix_markup someDay {[ "companyName"%string := VStr (L "</w:t><w:t>A&B") ]}).
  vm_compute. reflexivity.
Defined.

End AppendixMarkup.

(* ===================================================================== *)
(** * The data collected from the page *)
(* ===================================================================== *)

Section Collected.
Import JsStr JsNum JsVal Regex TemplateEngine UIController Spec.

Implicit Types (document : page) (data : gmap string jsval) (k : string).

Lemma collectFields_strings document fields : forall data,
  (forall k v, data !! k = Some v -> exists s, v = VStr s) ->
  forall k v, collectFields document fields data !! k = Some v -> exists s, v = VStr s.
Proof.
  unfold collectFields. induction fields as [|f fields IH]; intros data H; [exact H|].
  cbn [fold_left]. apply IH. destruct (document !! f) as [value|]; [|exact H].
  intros k v. destruct (decide (k = f)) as [->|Hne].
  - rewrite lookup_insert_eq. intros [= <-]. eauto.
  - rewrite lookup_insert_ne by congruence. apply H.
Qed.

Lemma valueOr_string document id fallback :
  fallback <> [] -> exists s, valueOr document id fallback = VStr s /\ s <> [].
Proof.
  intros Hf. unfold valueOr, orElse.
  destruct (document !! id) as [v|]; cbn [from_option].
  - destruct v as [|c v]; cbn [toBoolean]; [eauto|].
    exists (c :: v). split; [reflexivity|discriminate].
  - cbn [toBoolean]. eauto.
Qed.

Lemma collected_strings document k v :
  collectAllData document !! k = Some v -> exists s, v = VStr s.
Proof.
  unfold collectAllData. cbv zeta.
  destruct (decide (k = "reportFormat"%string)) as [->|H1].
  { rewrite lookup_insert_eq. intros [= <-].
    destruct (valueOr_string document "reportFormat" (L "docx")) as (s & -> & _);
      [discriminate|eauto]. }
  rewrite lookup_insert_ne by congruence.
  destruct (decide (k = "reportTitle"%string)) as [->|H2].
  { rewrite lookup_insert_eq. intros [= <-].
    destruct (valueOr_string document "reportTitle" (L "企业授信调查报告")) as (s & -> & _);
      [discriminate|eauto]. }
  rewrite lookup_insert_ne by congruence.
  clear H1 H2. revert k v.
  repeat apply collectFields_strings. intros k v. rewrite lookup_empty. discriminate.
Qed.

(** X15.  Whatever the page holds, every field [collectAllData] returns
    is a string, the report title is never empty, and a document can be
    generated from the collected data: the replacement passes and the
    appendix raise no error on it, and a template without an
    identifier between braces is filled. *)
Theorem collected_data_generates {B : Type}
    (generateWithDocxtemplater : list N -> gmap string jsval -> option B)
    document now documentXml :
  (forall k v, collectAllData document !! k = Some v -> exists s, v = VStr s)
  /\ (exists title,
        collectAllData document !! "reportTitle"%string = Some (VStr title) /\ title <> [])
  /\ is_Some (generateWithSmartReplacement now (collectAllData document) documentXml)
  /\ (~ hasIdentifier documentXml ->
      is_Some (generateDocument generateWithDocxtemplater now documentXml
                 (collectAllData document))).
Proof.
  assert (Hgen : forall xml,
            is_Some (generateWithSmartReplacement now (collectAllData document) xml)).
  { intros xml. unfold generateWithSmartReplacement, appendFilledContent.
    destruct (lastIndexOf _ bodyEnd); [|eexists; reflexivity].
    unfold createFilledContentSection, filledSections.
    destruct (textSectionsFrom_total (collectAllData document) textSections) as (ps & ->).
    - intros title field _ Ht. unfold prop in *.
      destruct (collectAllData document !! field) as [v|] eqn:E.
      + destruct (collected_strings _ _ _ E) as (s & ->). eauto.
      + discriminate Ht.
    - eexists. reflexivity. }
  split; [apply collected_strings|]. split; [|split; [apply Hgen|]].
  - unfold collectAllData. cbv zeta.
    rewrite lookup_insert_ne by discriminate. rewrite lookup_insert_eq.
    destruct (valueOr_string document "reportTitle" (L "企业授信调查报告")) as (s & -> & Hs);
      [discriminate|eauto].
  - intros Hno. unfold generateDocument. cbv zeta.
    destruct (test noFlags identifierPattern documentXml) eqn:E.
    + exfalso. apply Hno, test_identifier, E.
    + destruct (Hgen documentXml) as (x & ->). eexists. reflexivity.
Qed.

Lemma collected_data_generates_witness :
  is_Some (generateDocument (fun _ _ => @None unit) someDay xmlAmountLine
             (collectAllData {[ "creditAmount"%string := L "500" ]})).
Proof.
  apply (proj2 (proj2 (proj2 (collected_data_generates (fun _ _ => @None unit)
           {[ "creditAmount"%string := L "500" ]} someDay xmlAmountLine)))).
  intros H. apply test_identifier in H. vm_compute in H. discriminate.
Defined.

End Collected.

(* ===================================================================== *)
(** * Content generated field by field *)
(* ===================================================================== *)

Section Running.
Import JsStr JsNum JsVal Net.

Context {A B : Type}.
Implicit Types (net : nat -> request -> answer) (sent : list request) (waited : N).

(** Awaiting a function continues from where its run ended. *)
Lemma runFrom_bind net (p : io A) (k : A -> io B) : forall sent waited,
  runFrom net (bind p k) sent waited
  = match returned (runFrom net p sent waited) with
    | inr a => runFrom net (k a) (requests (runFrom net p sent waited))
                 (slept (runFrom net p sent waited))
    | inl e => {| returned := inl e;
                  requests := requests (runFrom net p sent waited);
                  slept := slept (runFrom net p sent waited) |}
    end.
Proof.
  induction p as [a|e|req k' IH|ms k' IH]; intros sent waited; cbn; auto.
Qed.

Lemma runFrom_try net (p : io A) (handler : thrown -> io A) : forall sent waited,
  runFrom net (try_ p handler) sent waited
  = match returned (runFrom net p sent waited) with
    | inr a => runFrom net p sent waited
    | inl e => runFrom net (handler e) (requests (runFrom net p sent waited))
                 (slept (runFrom net p sent waited))
    end.
Proof.
  induction p as [a|e|req k' IH|ms k' IH]; intros sent waited; cbn; auto.
Qed.

End Running.

Section Immediate.
Import JsStr JsNum JsVal Net Spec.

Context {A B : Type}.

Lemma immediate_ret (a : A) : immediate (Ret a).
Proof. intros net sent waited. reflexivity. Qed.

Lemma immediate_throw (e : thrown) : immediate (@Throw A e).
Proof. intros net sent waited. reflexivity. Qed.

Lemma immediate_bind (p : io A) (k : A -> io B) :
  immediate p -> (forall a, immediate (k a)) -> immediate (bind p k).
Proof.
  intros Hp Hk net sent waited. unfold run.
  rewrite !runFrom_bind, (Hp net sent waited), (Hp (fun _ _ => NoAnswer) [] 0%N). cbn.
  destruct (returned (run (fun _ _ => NoAnswer) p)) as [e|a]; [reflexivity|].
  rewrite (Hk a net sent waited), (Hk a (fun _ _ => NoAnswer) [] 0%N). reflexivity.
Qed.

Lemma immediate_try (p : io A) (handler : thrown -> io A) :
  immediate p -> (forall e, immediate (handler e)) -> immediate (try_ p handler).
Proof.
  intros Hp Hh net sent waited. unfold run.
  rewrite !runFrom_try, (Hp net sent waited), (Hp (fun _ _ => NoAnswer) [] 0%N). cbn.
  destruct (returned (run (fun _ _ => NoAnswer) p)) as [e|a]; [|reflexivity].
  rewrite (Hh e net sent waited), (Hh e (fun _ _ => NoAnswer) [] 0%N). reflexivity.
Qed.

End Immediate.

Section Immediate2.
Import JsStr JsNum JsVal Net Spec.

Lemma immediate_read v : immediate (read v).
Proof. destruct v; [apply immediate_ret|apply immediate_throw]. Qed.

Lemma immediate_readJson r : immediate (readJson r).
Proof.
  unfold readJson. destruct (parsed r); [apply immediate_ret|apply immediate_throw].
Qed.

Lemma immediate_failure prefix r : immediate (ApiService.failure prefix r).
Proof.
  unfold ApiService.failure. apply immediate_bind; [apply immediate_read|].
  intros a. apply immediate_throw.
Qed.

Lemma immediate_firstChoice r : immediate (ApiService.firstChoice r).
Proof.
  unfold ApiService.firstChoice.
  apply immediate_bind; [apply immediate_readJson|intros data].
  apply immediate_bind; [apply immediate_read|intros choices].
  apply immediate_bind; [apply immediate_read|intros choice].
  apply immediate_ret.
Qed.

(** A function that awaits one request and nothing after it. *)
Lemma one_request {A : Type} (req : request) (k : answer -> io A) :
  (forall a, immediate (k a)) ->
  forall net sent waited,
    runFrom net (Fetch req k) sent waited
    = {| returned := returned (run (fun _ => net (length sent)) (Fetch req k));
         requests := sent ++ [req];
         slept := waited |}.
Proof.
  intros Hk net sent waited. unfold run. cbn.
  rewrite (Hk _ net), (Hk _ (fun _ => net (length sent))). reflexivity.
Qed.

End Immediate2.

Section FieldByField.
Import JsStr JsNum JsVal Net ApiService Spec.

Context (inherited : list N -> option (list N)) (this : service)
        (context : gmap string jsval).

(** The shape of [generateContent]: one request when there is a key,
    and nothing awaited after it. *)
Lemma generateContent_shape field :
  (toBoolean (deepseekApiKey this) = false
   /\ exists e, generateContent inherited this field context = Throw e)
  \/ (toBoolean (deepseekApiKey this) = true
      /\ exists req k,
           generateContent inherited this field context = Fetch req k
           /\ forall a, immediate (k a)).
Proof.
  unfold generateContent, callDeepSeek.
  destruct (toBoolean (deepseekApiKey this)) eqn:Hkey; cbn [negb].
  - right. split; [reflexivity|]. cbn [try_ bind]. eexists _, _. split; [reflexivity|].
    intros a. cbv beta.
    apply immediate_try; [|intros e; apply immediate_throw].
    apply immediate_bind.
    + apply immediate_try; [|intros e; apply immediate_throw].
      destruct a as [|r]; [apply immediate_throw|].
      destruct (negb (ok r)); [apply immediate_failure|apply immediate_firstChoice].
    + intros response. destruct response; try apply immediate_throw. apply immediate_ret.
  - left. split; [reflexivity|]. cbn [try_ bind]. eexists. reflexivity.
Qed.

Lemma generateContent_run field net sent waited :
  runFrom net (generateContent inherited this field context) sent waited
  = {| returned :=
         returned (run (fun _ => net (length sent))
                     (generateContent inherited this field context));
       requests :=
         sent ++ requests (run (fun _ _ => NoAnswer)
                             (generateContent inherited this field context));
       slept := waited |}.
Proof.
  destruct (generateContent_shape field) as [[_ [e ->]]|[_ (req & k & -> & Hk)]].
  - cbn. rewrite app_nil_r. reflexivity.
  - rewrite (one_request req k Hk). f_equal.
    unfold run. cbn. rewrite (Hk _ (fun _ _ => NoAnswer)). reflexivity.
Qed.

Lemma generateContent_requests field :
  length (requests (run (fun _ _ => NoAnswer) (generateContent inherited this field context)))
  = if toBoolean (deepseekApiKey this) then 1%nat else 0%nat.
Proof.
  destruct (generateContent_shape field) as [[-> [e ->]]|[-> (req & k & -> & Hk)]].
  - reflexivity.
  - unfold run. cbn. rewrite (Hk _ (fun _ _ => NoAnswer)). reflexivity.
Qed.

Lemma generateContent_no_key field net net' :
  toBoolean (deepseekApiKey this) = false ->
  returned (run net (generateContent inherited this field context))
  = returned (run net' (generateContent inherited this field context)).
Proof.
  intros Hkey.
  destruct (generateContent_shape field) as [[_ [e ->]]|[Hk _]]; [reflexivity|congruence].
Qed.

Lemma set_fresh {V : Type} (o : JsObj.object V) key (v : V) :
  JsObj.get o key = None -> JsObj.set o key v = o ++ [(key, v)].
Proof.
  induction o as [|[k w] o IH]; cbn; [reflexivity|].
  destruct (bool_decide (k = key)); [discriminate|]. intros H. rewrite (IH H). reflexivity.
Qed.

Lemma get_app_fresh {V : Type} (o : JsObj.object V) key k (v : V) :
  JsObj.get o key = None -> k <> key -> JsObj.get (o ++ [(k, v)]) key = None.
Proof.
  induction o as [|[k' w] o IH]; cbn.
  - intros _ Hne. rewrite bool_decide_eq_false_2 by exact Hne. reflexivity.
  - destruct (bool_decide (k' = key)); [discriminate|]. exact IH.
Qed.

(** The loop, from any point of a run: [base] is the number of requests
    made so far when there is a key. *)
Lemma generateFields_run net : forall todo results sent waited base,
  NoDup todo ->
  (forall field, In field todo -> JsObj.get results field = None) ->
  (toBoolean (deepseekApiKey this) = true -> length sent = base) ->
  let outcomes :=
    imap (fun i field =>
            returned (run (fun _ => net (base + i)%nat)
                        (generateContent inherited this field context))) todo in
  runFrom net (generateFields inherited this context todo results) sent waited
  = {| returned := inr (results ++ zip todo (textOr <$> outcomes));
       requests :=
         sent ++ flat_map (fun field =>
                     requests (run (fun _ _ => NoAnswer)
                                 (generateContent inherited this field context))) todo;
       slept := (waited + foldr N.add 0 (pause <$> outcomes))%N |}.
Proof.
  induction todo as [|field todo IH]; intros results sent waited base Hnd Hfresh Hbase.
  - cbn. rewrite !app_nil_r, N.add_0_r. reflexivity.
  - apply NoDup_cons in Hnd as [Hnotin Hnd].
    assert (Hhead : returned (run (fun _ => net (length sent))
                                (generateContent inherited this field context))
                    = returned (run (fun _ => net (base + 0)%nat)
                                  (generateContent inherited this field context))).
    { destruct (toBoolean (deepseekApiKey this)) eqn:Hkey.
      - rewrite (Hbase eq_refl), Nat.add_0_r. reflexivity.
      - apply generateContent_no_key. exact Hkey. }
    cbn [generateFields]. rewrite runFrom_bind, runFrom_try, runFrom_bind.
    rewrite generateContent_run. cbn [returned requests slept]. rewrite Hhead.
    rewrite imap_cons. cbn [fmap list_fmap zip zip_with foldr flat_map].
    set (out := returned (run (fun _ => net (base + 0)%nat)
                            (generateContent inherited this field context))).
    assert (Hlen : toBoolean (deepseekApiKey this) = true ->
                   length (sent ++ requests (run (fun _ _ => NoAnswer)
                                               (generateContent inherited this field context)))
                   = S base).
    { intros Hkey. rewrite length_app, generateContent_requests, Hkey, (Hbase Hkey). lia. }
    assert (Hnext : forall text,
              forall f, In f todo -> JsObj.get (JsObj.set results field text) f = None).
    { intros text f Hf. rewrite set_fresh by (apply Hfresh; left; reflexivity).
      apply get_app_fresh; [apply Hfresh; right; exact Hf|].
      intros Heq. subst f. apply Hnotin, list_elem_of_In, Hf. }
    assert (Himap :
      imap ((fun i f => returned (run (fun _ => net (base + i)%nat)
                                    (generateContent inherited this f context))) ∘ S) todo
      = imap (fun i f => returned (run (fun _ => net (S base + i)%nat)
                                     (generateContent inherited this f context))) todo).
    { apply imap_ext. intros i f _. cbn. replace (base + S i)%nat with (S (base + i)) by lia.
      reflexivity. }
    rewrite Himap.
    destruct out as [e|text]; cbn [returned requests slept runFrom textOr pause].
    + rewrite (IH _ _ _ (S base) Hnd (Hnext []) Hlen).
      rewrite set_fresh by (apply Hfresh; left; reflexivity).
      rewrite <- !app_assoc. cbn [app]. f_equal; lia.
    + rewrite (IH _ _ _ (S base) Hnd (Hnext text) Hlen).
      rewrite set_fresh by (apply Hfresh; left; reflexivity).
      rewrite <- !app_assoc. cbn [app]. f_equal; lia.
Qed.

Lemma fields_NoDup : NoDup fields.
Proof. apply NoDup_ListNoDup. vm_compute. repeat constructor; cbn; intuition discriminate. Qed.

Lemma requests_count (l : list (list N)) :
  length (flat_map (fun field =>
                      requests (run (fun _ _ => NoAnswer)
                                  (generateContent inherited this field context))) l)
  = if toBoolean (deepseekApiKey this) then length l else 0%nat.
Proof.
  induction l as [|f l IH]; [destruct (toBoolean _); reflexivity|].
  cbn [flat_map]. rewrite length_app, generateContent_requests, IH.
  destruct (toBoolean (deepseekApiKey this)); reflexivity.
Qed.

(** X16.  [generateAllContent] never rejects, and it works field by
    field: the object it resolves with holds the ten fields in their
    order, each with the text [generateContent] returns for it against
    the answer to its own request, and the empty string when that call
    throws; the requests are those of the ten calls, one after the
    other; and the timers add up to 500 ms for each call that
    returned. *)
Theorem generateAllContent_field_by_field net :
  let outcomes :=
    imap (fun i field =>
            returned (run (fun _ => net i)
                        (generateContent inherited this field context))) fields in
  let o := run net (generateAllContent inherited this context) in
  returned o = inr (zip fields (textOr <$> outcomes))
  /\ requests o
     = flat_map (fun field =>
                   requests (run (fun _ _ => NoAnswer)
                               (generateContent inherited this field context))) fields
  /\ slept o = foldr N.add 0%N (pause <$> outcomes)
  /\ length (requests o) = (if toBoolean (deepseekApiKey this) then 10 else 0)%nat.
Proof.
  pose proof (generateFields_run net fields [] [] 0%N 0%nat fields_NoDup
                (fun _ _ => eq_refl) (fun _ => eq_refl)) as H.
  cbv zeta in H. cbn [app Nat.add] in H. rewrite N.add_0_l in H.
  cbv zeta.
  change (run net (generateAllContent inherited this context))
    with (runFrom net (generateFields inherited this context fields []) [] 0%N).
  rewrite H. cbn [returned requests slept].
  repeat split. rewrite requests_count. destruct (toBoolean _); reflexivity.
Qed.

End FieldByField.

(* ===================================================================== *)
(** * The page behind the proxy *)
(* ===================================================================== *)

Section BehindProxy.
Import JsStr JsNum JsVal Net ApiService Proxy Spec.

Context (messageOf : thrown -> json).

Implicit Types (upstream : nat -> request -> answer) (req : incoming)
         (env : option (list N)) (this : service).

(** One upstream request, and what becomes of its answer. *)
Lemma forward_run target apiKey payload upstream :
  let asked := {| url := target; method := L "POST"; headers := bearer apiKey;
                  body := Some payload |} in
  run upstream (forward target apiKey payload)
  = {| returned :=
         match upstream 0%nat asked with
         | NoAnswer => inl FetchFailed
         | Answer u =>
             match parsed u with
             | Some data => inr (passedOn u data)
             | None => inl NotJson
             end
         end;
       requests := [asked];
       slept := 0 |}.
Proof.
  cbv zeta. unfold run, forward. cbn [runFrom length app].
  destruct (upstream 0%nat _) as [|u]; [reflexivity|].
  unfold readJson, passedOn. destruct (parsed u) as [data|]; [|reflexivity].
  cbn [bind]. destruct (ok u); reflexivity.
Qed.

(** The page reading a reply the proxy made up: the text of the reply
    is a string under [error], so that [error.message] finds nothing. *)
Lemma failure_of_own_reply prefix what r net made waited :
  ownReply messageOf what r ->
  match delivered r with
  | Answer response =>
      ok response = false
      /\ runFrom net (failure prefix response) made waited
         = {| returned := inl (Error (prefix ++ digitsOfN (code r)));
              requests := made; slept := waited |}
  | NoAnswer => False
  end.
Proof.
  intros [->|[e ->]]; unfold delivered; (split; [reflexivity|]);
    vm_compute; reflexivity.
Qed.

(** A [catch] that throws what it caught again changes nothing. *)
Lemma rethrow_run {A : Type} net (p : io A) made waited :
  runFrom net (try_ p (fun error => Throw error)) made waited = runFrom net p made waited.
Proof.
  rewrite runFrom_try. destruct (runFrom net p made waited) as [[e|a] rs w]; reflexivity.
Qed.

(** The two calls of the page on a network that gives the answer [a]. *)
Lemma callDeepSeek_answered this messages options a :
  toBoolean (deepseekApiKey this) = true ->
  returned (run (fun _ _ => a) (callDeepSeek this messages options))
  = match a with
    | NoAnswer => inl FetchFailed
    | Answer response =>
        if ok response
        then returned (run (fun _ _ => a) (firstChoice response))
        else returned (run (fun _ _ => a) (failure (L "API请求失败: ") response))
    end.
Proof.
  intros Hkey. unfold callDeepSeek. rewrite Hkey. cbn [negb]. unfold run.
  rewrite rethrow_run. cbn [runFrom]. destruct a as [|response]; [reflexivity|].
  destruct (ok response); cbn [negb].
  - rewrite (immediate_firstChoice response _ _ _), (immediate_firstChoice response _ [] 0%N).
    reflexivity.
  - rewrite (immediate_failure _ response _ _ _), (immediate_failure _ response _ [] 0%N).
    reflexivity.
Qed.

Lemma callOCR_answered this imageBase64 a :
  toBoolean (siliconflowApiKey this) = true ->
  returned (run (fun _ _ => a) (callOCR this imageBase64))
  = match a with
    | NoAnswer => inl FetchFailed
    | Answer response =>
        if ok response
        then returned (run (fun _ _ => a) (firstChoice response))
        else returned (run (fun _ _ => a) (failure (L "OCR API请求失败: ") response))
    end.
Proof.
  intros Hkey. unfold callOCR. rewrite Hkey. cbn [negb]. unfold run.
  rewrite rethrow_run. cbn [runFrom]. destruct a as [|response]; [reflexivity|].
  destruct (ok response); cbn [negb].
  - rewrite (immediate_firstChoice response _ _ _), (immediate_firstChoice response _ [] 0%N).
    reflexivity.
  - rewrite (immediate_failure _ response _ _ _), (immediate_failure _ response _ [] 0%N).
    reflexivity.
Qed.

(** The two handlers: always a reply, at most one upstream request. *)
Lemma deepseekChat_run env req upstream :
  let handled := run upstream (deepseekChat messageOf env req) in
  let asked := {| url := L "https://api.deepseek.com/chat/completions";
                  method := L "POST"; headers := bearer (apiKeyOf req env);
                  body := Some (requestBody req) |} in
  if toBoolean (apiKeyOf req env)
  then requests handled = [asked]
       /\ returned handled
          = inr match upstream 0%nat asked with
                | NoAnswer => failed messageOf (L "Failed to call DeepSeek API") FetchFailed
                | Answer u =>
                    match parsed u with
                    | Some data => passedOn u data
                    | None => failed messageOf (L "Failed to call DeepSeek API") NotJson
                    end
                end
  else requests handled = [] /\ returned handled = inr keyRequired.
Proof.
  cbv zeta. unfold deepseekChat, run. rewrite runFrom_try.
  destruct (toBoolean (apiKeyOf req env)); cbn [negb]; [|split; reflexivity].
  fold (run upstream (forward (L "https://api.deepseek.com/chat/completions")
                        (apiKeyOf req env) (requestBody req))).
  rewrite forward_run. cbn [returned requests slept].
  destruct (upstream 0%nat _) as [|u]; [split; reflexivity|].
  destruct (parsed u); split; reflexivity.
Qed.

Lemma siliconflowOcr_run env req upstream :
  let handled := run upstream (siliconflowOcr messageOf env req) in
  let what := L "Failed to call SiliconFlow OCR API" in
  if toBoolean (apiKeyOf req env)
  then match member (requestBody req) (L "messages"),
             member (requestBody req) (L "max_tokens") with
       | Some messages, Some max_tokens =>
           let asked :=
             {| url := L "https://api.siliconflow.cn/v1/chat/completions";
                method := L "POST"; headers := bearer (apiKeyOf req env);
                body := Some (JObj [ (L "model", JStr (L "Qwen/Qwen3-VL-8B-Instruct"));
                                     (L "messages", messages);
                                     (L "max_tokens", orJ max_tokens (JNum (ofZ 4096))) ]) |} in
           requests handled = [asked]
           /\ returned handled
              = inr match upstream 0%nat asked with
                    | NoAnswer => failed messageOf what FetchFailed
                    | Answer u =>
                        match parsed u with
                        | Some data => passedOn u data
                        | None => failed messageOf what NotJson
                        end
                    end
       | _, _ => requests handled = [] /\ returned handled = inr (failed messageOf what TypeError)
       end
  else requests handled = [] /\ returned handled = inr keyRequired.
Proof.
  cbv zeta. unfold siliconflowOcr, run. rewrite runFrom_try.
  destruct (toBoolean (apiKeyOf req env)); cbn [negb]; [|split; reflexivity].
  destruct (member (requestBody req) (L "messages")) as [messages|] eqn:Hm.
  2:{ assert (member (requestBody req) (L "max_tokens") = None) as ->
        by (destruct (requestBody req); try discriminate; reflexivity).
      split; reflexivity. }
  destruct (member (requestBody req) (L "max_tokens")) as [max_tokens|] eqn:Ht.
  2:{ destruct (requestBody req); discriminate. }
  cbn [read bind].
  match goal with
  | |- context [runFrom upstream (forward ?t ?k ?b) [] 0%N] =>
      fold (run upstream (forward t k b)); rewrite (forward_run t k b upstream)
  end.
  cbn [returned requests slept].
  destruct (upstream 0%nat _) as [|u]; [split; reflexivity|].
  destruct (parsed u); split; reflexivity.
Qed.

(** X17.  Both handlers of the proxy always reply.  Without a key in
    the header and in the environment they reply 401 and ask the
    upstream nothing; when the upstream gives nothing to read they
    reply 500.  The text of these replies never reaches the user: the
    page reads the message of a failure under [error.message], the
    proxy writes a string under [error], and so [callDeepSeek] and
    [callOCR] throw their own message with the status, 401 or 500. *)
Theorem proxy_failures_reach_the_page_as_a_status
    env req upstream this messages options imageBase64 :
  toBoolean (deepseekApiKey this) = true ->
  toBoolean (siliconflowApiKey this) = true ->
  let chat := run upstream (deepseekChat messageOf env req) in
  let ocr := run upstream (siliconflowOcr messageOf env req) in
  (exists r, returned chat = inr r)
  /\ (exists r, returned ocr = inr r)
  /\ (toBoolean (apiKeyOf req env) = false ->
      returned chat = inr keyRequired /\ requests chat = []
      /\ returned ocr = inr keyRequired /\ requests ocr = [])
  /\ (toBoolean (apiKeyOf req env) = true ->
      (forall asked, unreadable (upstream 0%nat asked)) ->
      (exists e, returned chat = inr (failed messageOf (L "Failed to call DeepSeek API") e))
      /\ (exists e,
            returned ocr = inr (failed messageOf (L "Failed to call SiliconFlow OCR API") e)))
  /\ (forall what r,
        ownReply messageOf what r ->
        (code r = 401%N \/ code r = 500%N)
        /\ returned (run (fun _ _ => delivered r) (callDeepSeek this messages options))
           = inl (Error (L "API请求失败: " ++ digitsOfN (code r)))
        /\ returned (run (fun _ _ => delivered r) (callOCR this imageBase64))
           = inl (Error (L "OCR API请求失败: " ++ digitsOfN (code r)))).
Proof.
  intros Hchat Hocr. cbv zeta.
  pose proof (deepseekChat_run env req upstream) as Hc.
  pose proof (siliconflowOcr_run env req upstream) as Ho.
  cbv zeta in Hc, Ho.
  split; [|split; [|split; [|split]]].
  - destruct (toBoolean (apiKeyOf req env)); destruct Hc as [_ ->]; eexists; reflexivity.
  - destruct (toBoolean (apiKeyOf req env)).
    + destruct (member (requestBody req) (L "messages")),
               (member (requestBody req) (L "max_tokens"));
        destruct Ho as [_ ->]; eexists; reflexivity.
    + destruct Ho as [_ ->]. eexists. reflexivity.
  - intros Hkey. rewrite Hkey in Hc, Ho. destruct Hc as [-> ->], Ho as [-> ->].
    repeat split.
  - intros Hkey Hup. rewrite Hkey in Hc, Ho. split.
    + destruct Hc as [_ ->]. specialize (Hup {| url := L "https://api.deepseek.com/chat/completions";
                  method := L "POST"; headers := bearer (apiKeyOf req env);
                  body := Some (requestBody req) |}).
      destruct (upstream 0%nat _) as [|u]; [eexists; reflexivity|].
      cbn in Hup. rewrite Hup. eexists. reflexivity.
    + destruct (member (requestBody req) (L "messages")) as [ms|],
               (member (requestBody req) (L "max_tokens")) as [mt|];
        try (destruct Ho as [_ ->]; eexists; reflexivity).
      destruct Ho as [_ ->].
      match goal with
      | |- context [upstream 0%nat ?q] => specialize (Hup q); destruct (upstream 0%nat q) as [|u]
      end; [eexists; reflexivity|].
      cbn in Hup. rewrite Hup. eexists. reflexivity.
  - intros what r Hr. split; [destruct Hr as [->|[e ->]]; [left|right]; reflexivity|].
    rewrite (callDeepSeek_answered this messages options _ Hchat),
            (callOCR_answered this imageBase64 _ Hocr).
    pose proof (failure_of_own_reply (L "API请求失败: ") what r
                  (fun _ _ => delivered r) [] 0%N Hr) as H1.
    pose proof (failure_of_own_reply (L "OCR API请求失败: ") what r
                  (fun _ _ => delivered r) [] 0%N Hr) as H2.
    destruct (delivered r) as [|response]; [contradiction|].
    destruct H1 as [Hok H1], H2 as [_ H2]. rewrite Hok.
    unfold run. rewrite H1, H2. split; reflexivity.
Qed.

Lemma firstChoice_parsed r r' :
  parsed r = parsed r' -> firstChoice r = firstChoice r'.
Proof. unfold firstChoice, readJson. intros ->. reflexivity. Qed.

Lemma failure_parsed prefix r r' :
  parsed r = parsed r' -> status r = status r' -> failure prefix r = failure prefix r'.
Proof. unfold failure. intros -> ->. reflexivity. Qed.

(** X18.  For an answer of the upstream that is JSON the chat handler
    is transparent.  It asks the upstream once, with the key of the
    header when there is one and the key of the environment otherwise,
    and with the body it received; and the page, reading the reply of
    the handler, returns or throws exactly what it would on the answer
    of the upstream itself: the content of the first choice, or the
    message of the upstream's error.  (The body is taken to be a value
    that reading back does not change, and the status is one the
    server sends a body with.) *)
Theorem proxy_passes_upstream_answers
    env req upstream this messages options u data :
  toBoolean (deepseekApiKey this) = true ->
  toBoolean (apiKeyOf req env) = true ->
  let asked := {| url := L "https://api.deepseek.com/chat/completions";
                  method := L "POST"; headers := bearer (apiKeyOf req env);
                  body := Some (requestBody req) |} in
  upstream 0%nat asked = Answer u ->
  parsed u = Some data ->
  wire data = data ->
  status u <> 304%N ->
  let handled := run upstream (deepseekChat messageOf env req) in
  requests handled = [asked]
  /\ (forall key, apiKeyHeader req = Some key -> key <> [] ->
        headers asked = [ (L "Content-Type", L "application/json");
                          (L "Authorization", L "Bearer " ++ key) ])
  /\ returned handled = inr (passedOn u data)
  /\ returned (run (fun _ _ => delivered (passedOn u data))
                 (callDeepSeek this messages options))
     = returned (run (fun _ _ => Answer u) (callDeepSeek this messages options)).
Proof.
  intros Hpage Hkey asked Hup Hdata Hwire H304. cbv zeta.
  pose proof (deepseekChat_run env req upstream) as Hc. cbv zeta in Hc.
  rewrite Hkey in Hc. fold asked in Hc. rewrite Hup, Hdata in Hc. destruct Hc as [Hreq Hret].
  split; [exact Hreq|]. split; [|split; [exact Hret|]].
  - intros key Hheader Hne. unfold asked, bearer, apiKeyOf. cbn [headers].
    rewrite Hheader. destruct key as [|c key]; [contradiction|]. reflexivity.
  - unfold passedOn. destruct (ok u) eqn:Hok.
    + change (delivered {| code := 200; sent := data |})
        with (Answer {| status := 200; parsed := Some (wire data) |}).
      rewrite Hwire, !(callDeepSeek_answered this messages options _ Hpage), Hok.
      change (ok {| status := 200; parsed := Some data |}) with true. cbv iota.
      unfold run.
      rewrite (immediate_firstChoice _ _ [] 0%N), (immediate_firstChoice u _ [] 0%N).
      cbn [returned]. f_equal. f_equal. apply firstChoice_parsed.
      cbn [parsed]. symmetry. exact Hdata.
    + assert (H204 : (status u =? 204)%N = false).
      { apply N.eqb_neq. intros E. unfold ok in Hok. rewrite E in Hok. discriminate. }
      assert (H304' : (status u =? 304)%N = false) by (apply N.eqb_neq; exact H304).
      unfold delivered. cbn [code sent]. rewrite H204, H304', Hwire. cbn [orb].
      rewrite !(callDeepSeek_answered this messages options _ Hpage), Hok.
      change (ok {| status := status u; parsed := Some data |}) with (ok u). rewrite Hok.
      unfold run.
      rewrite (immediate_failure _ _ _ [] 0%N), (immediate_failure _ u _ [] 0%N).
      cbn [returned]. f_equal. f_equal. apply failure_parsed; cbn [parsed status];
        [symmetry; exact Hdata|reflexivity].
Qed.

End BehindProxy.

Lemma proxy_failures_reach_the_page_as_a_status_witness :
  Net.returned (Net.run (fun _ _ => Proxy.delivered Proxy.keyRequired)
                  (ApiService.callDeepSeek Spec.serviceWithKeys (Net.JArr []) []))
  = inl (Net.Error (JsStr.L "API请求失败: "
                      ++ JsStr.digitsOfN (Proxy.code Proxy.keyRequired))).
Proof.
  apply (proj1 (proj2
    (proj2 (proj2 (proj2 (proj2
       (proxy_failures_reach_the_page_as_a_status (fun _ => Net.JUndefined) None
          Spec.chatRequest (fun _ _ => Net.NoAnswer) Spec.serviceWithKeys
          (Net.JArr []) [] [] eq_refl eq_refl))))
       [] Proxy.keyRequired (or_introl eq_refl)))).
Defined.

Lemma proxy_passes_upstream_answers_witness :
  Net.returned (Net.run (fun _ _ => Proxy.delivered (Spec.passedOn Spec.refused Spec.refusal))
                  (ApiService.callDeepSeek Spec.serviceWithKeys (Net.JArr []) []))
  = Net.returned (Net.run (fun _ _ => Net.Answer Spec.refused)
                    (ApiService.callDeepSeek Spec.serviceWithKeys (Net.JArr []) [])).
Proof.
  apply (proj2 (proj2 (proj2
    (proxy_passes_upstream_answers (fun _ => Net.JUndefined) None Spec.chatRequest
       (fun _ _ => Net.Answer Spec.refused) Spec.serviceWithKeys (Net.JArr []) []
       Spec.refused Spec.refusal eq_refl eq_refl eq_refl eq_refl eq_refl
       ltac:(discriminate))))).
Defined.

(* ===================================================================== *)
(** * The settings *)
(* ===================================================================== *)

Section Settings.
Import JsStr JsNum JsVal ApiService UIController Spec.

Implicit Types (store : storage) (this : service) (document : page).

Ltac lookups :=
  repeat first [rewrite lookup_insert_eq | rewrite lookup_insert_ne by discriminate].

(** What [saveSettings] hands to [updateConfig]: the string of an input
    that holds one, and the fallback otherwise. *)
Lemma valueOr_cases document id fallback :
  (leftEmpty document id /\ valueOr document id fallback = VStr fallback)
  \/ (exists c s, document !! id = Some (c :: s)
                  /\ valueOr document id fallback = VStr (c :: s)).
Proof.
  unfold valueOr, leftEmpty. destruct (document !! id) as [[|c s]|].
  - left. split; [right; reflexivity|reflexivity].
  - right. exists c, s. split; reflexivity.
  - left. split; [left; reflexivity|reflexivity].
Qed.

(** [updateConfig], field by field. *)
Lemma updateConfig_eq c this store :
  updateConfig c (this, store)
  = ({| proxyServer :=
          if toBoolean (newProxyServer c) then newProxyServer c else proxyServer this;
        deepseekApiKey :=
          if toBoolean (newDeepseekApiKey c) then newDeepseekApiKey c
          else deepseekApiKey this;
        siliconflowApiKey :=
          if toBoolean (newSiliconflowApiKey c) then newSiliconflowApiKey c
          else siliconflowApiKey this |},
     let store1 :=
       if toBoolean (newProxyServer c)
       then setItem store "proxyServer" (newProxyServer c) else store in
     let store2 :=
       if toBoolean (newDeepseekApiKey c)
       then setItem store1 "deepseekApiKey" (newDeepseekApiKey c) else store1 in
     if toBoolean (newSiliconflowApiKey c)
     then setItem store2 "siliconflowApiKey" (newSiliconflowApiKey c) else store2).
Proof.
  unfold updateConfig. destruct this.
  destruct (toBoolean (newProxyServer c)), (toBoolean (newDeepseekApiKey c)),
    (toBoolean (newSiliconflowApiKey c)); reflexivity.
Qed.

(** A configuration of strings keeps the service what a reload would
    construct. *)
Lemma updateConfig_invariant p d s store :
  let c := {| newProxyServer := VStr p; newDeepseekApiKey := VStr d;
              newSiliconflowApiKey := VStr s |} in
  constructor (snd (updateConfig c (constructor store, store)))
  = fst (updateConfig c (constructor store, store)).
Proof.
  cbv zeta. rewrite updateConfig_eq.
  cbn [fst snd newProxyServer newDeepseekApiKey newSiliconflowApiKey toBoolean].
  destruct p as [|p1 p], d as [|d1 d], s as [|s1 s]; cbv zeta iota;
    unfold constructor, getItem, setItem, storage in *; cbn [toStr];
    cbn [proxyServer deepseekApiKey siliconflowApiKey]; lookups;
    cbn [orElse toBoolean]; reflexivity.
Qed.

Lemma valueOr_text document id fallback :
  exists x, valueOr document id fallback = VStr x.
Proof.
  destruct (valueOr_cases document id fallback) as [[_ ->]|(c & s & _ & ->)]; eauto.
Qed.

Lemma saveSettings_invariant document this store :
  constructor store = this ->
  constructor (snd (saveSettings document (this, store)))
  = fst (saveSettings document (this, store)).
Proof.
  intros <-. unfold saveSettings.
  destruct (valueOr_text document "proxyServer" (L "http://localhost:3000")) as [p ->].
  destruct (valueOr_text document "deepseekApiKey" []) as [d ->].
  destruct (valueOr_text document "siliconflowApiKey" []) as [s ->].
  apply updateConfig_invariant.
Qed.

Lemma afterSaves_invariant store pages :
  constructor (snd (afterSaves store pages)) = fst (afterSaves store pages).
Proof.
  unfold afterSaves.
  assert (H : constructor (snd (constructor store, store)) = fst (constructor store, store))
    by reflexivity.
  revert H. generalize (constructor store, store). 
  induction pages as [|document pages IH]; intros state H; [exact H|].
  cbn [fold_left]. apply IH. destruct state as [this st]. apply saveSettings_invariant.
  exact H.
Qed.

(** What a service constructed from the storage holds: strings, and a
    proxy that is never the empty string. *)
Lemma constructor_strings store :
  exists p d s,
    constructor store
    = {| proxyServer := VStr p; deepseekApiKey := VStr d; siliconflowApiKey := VStr s |}
    /\ p <> [].
Proof.
  unfold constructor, getItem.
  destruct (store !! "proxyServer") as [[|c p]|],
           (store !! "deepseekApiKey") as [[|c2 d]|],
           (store !! "siliconflowApiKey") as [[|c3 s]|];
    cbn [orElse toBoolean]; eexists _, _, _; (split; [reflexivity|discriminate]).
Qed.

Lemma valueOr_blank document id fallback :
  leftEmpty document id -> valueOr document id fallback = VStr fallback.
Proof.
  intros Hb. destruct (valueOr_cases document id fallback) as [[_ H]|(c & s & H & _)];
    [exact H|]. destruct Hb as [Hb|Hb]; rewrite Hb in H; discriminate.
Qed.

Lemma valueOr_filled document id fallback value :
  document !! id = Some value -> value <> [] ->
  valueOr document id fallback = VStr value.
Proof.
  intros H Hne. unfold valueOr. rewrite H. destruct value; [contradiction|reflexivity].
Qed.

(** X19.  The settings survive a reload, and a key cannot be cleared.
    After any number of saves the service holds what a new service
    would construct from the storage, all three fields are strings and
    the proxy address is never empty.  Saving with a key input left
    empty keeps the key, in the service and in the storage; saving
    with the proxy input left empty sets the proxy back to
    http://localhost:3000; and what an input holds is stored as it is. *)
Theorem settings_survive_reload store pages document :
  let state := afterSaves store pages in
  let saved := saveSettings document state in
  constructor (snd state) = fst state
  /\ constructor (snd saved) = fst saved
  /\ (exists p d s,
        fst state = {| proxyServer := VStr p; deepseekApiKey := VStr d;
                       siliconflowApiKey := VStr s |}
        /\ p <> [])
  /\ (leftEmpty document "deepseekApiKey" ->
      deepseekApiKey (fst saved) = deepseekApiKey (fst state)
      /\ snd saved !! "deepseekApiKey" = snd state !! "deepseekApiKey")
  /\ (leftEmpty document "siliconflowApiKey" ->
      siliconflowApiKey (fst saved) = siliconflowApiKey (fst state)
      /\ snd saved !! "siliconflowApiKey" = snd state !! "siliconflowApiKey")
  /\ (leftEmpty document "proxyServer" ->
      proxyServer (fst saved) = VStr (L "http://localhost:3000")
      /\ snd saved !! "proxyServer" = Some (L "http://localhost:3000"))
  /\ (forall id value,
        In id ["proxyServer"; "deepseekApiKey"; "siliconflowApiKey"] ->
        document !! id = Some value -> value <> [] ->
        snd saved !! id = Some value).
Proof.
  cbv zeta. pose proof (afterSaves_invariant store pages) as Hinv.
  destruct (afterSaves store pages) as [this st] eqn:Hstate. cbn [fst snd] in *.
  split; [exact Hinv|]. split; [apply saveSettings_invariant; exact Hinv|].
  split; [rewrite <- Hinv; apply constructor_strings|].
  unfold saveSettings. rewrite updateConfig_eq.
  cbn [fst snd newProxyServer newDeepseekApiKey newSiliconflowApiKey
       proxyServer deepseekApiKey siliconflowApiKey].
  destruct (valueOr_text document "proxyServer" (L "http://localhost:3000")) as [p Hp].
  destruct (valueOr_text document "deepseekApiKey" []) as [d Hd].
  destruct (valueOr_text document "siliconflowApiKey" []) as [s Hs].
  unfold storage in *.
  split; [|split; [|split]].
  - intros Hb. rewrite (valueOr_blank _ _ _ Hb), Hp, Hs. cbn [toBoolean]. cbv zeta iota.
    split; [reflexivity|].
    destruct p, s; cbn [toBoolean]; cbv iota; unfold setItem, storage; lookups; reflexivity.
  - intros Hb. rewrite (valueOr_blank _ _ _ Hb), Hp, Hd. cbn [toBoolean]. cbv zeta iota.
    split; [reflexivity|].
    destruct p, d; cbn [toBoolean]; cbv iota; unfold setItem, storage; lookups; reflexivity.
  - intros Hb. rewrite (valueOr_blank _ _ _ Hb), Hs, Hd.
    change (toBoolean (VStr (L "http://localhost:3000"))) with true. cbv zeta iota.
    split; [reflexivity|].
    destruct s, d; cbn [toBoolean]; cbv iota; unfold setItem, storage; cbn [toStr]; lookups;
      reflexivity.
  - intros id value Hid Hv Hne.
    destruct Hid as [<-|[<-|[<-|[]]]];
      rewrite (valueOr_filled _ _ _ _ Hv Hne) in *.
    + destruct value as [|c value]; [contradiction|]. rewrite Hd, Hs.
      destruct d, s; cbn [toBoolean]; cbv zeta iota; unfold setItem, storage; cbn [toStr]; lookups;
        reflexivity.
    + destruct value as [|c value]; [contradiction|]. rewrite Hp, Hs.
      destruct p, s; cbn [toBoolean]; cbv zeta iota; unfold setItem, storage; cbn [toStr]; lookups;
        reflexivity.
    + destruct value as [|c value]; [contradiction|]. rewrite Hp, Hd.
      destruct p, d; cbn [toBoolean]; cbv zeta iota; unfold setItem, storage; cbn [toStr]; lookups;
        reflexivity.
Qed.

End Settings.

Lemma settings_survive_reload_witness :
  ApiService.deepseekApiKey
    (fst (UIController.saveSettings Spec.clearedDialog (Spec.afterSaves Spec.storeWithKey [])))
  = ApiService.deepseekApiKey (fst (Spec.afterSaves Spec.storeWithKey [])).
Proof.
  apply (proj1 (proj2 (proj2 (proj2 (settings_survive_reload Spec.storeWithKey []
           Spec.clearedDialog))))).
  right. reflexivity.
Defined.

(* ===================================================================== *)
(** * The passes and the labels *)
(* ===================================================================== *)

Section Labels.
Import JsStr JsNum JsVal Regex TemplateEngine Spec.

Implicit Types (label s w : list N) (data : gmap string jsval).

Lemma occurs_includes label s : occurs label s -> includes s label = true.
Proof.
  intros (a & b & ->). apply includes_spec. exists (length a). split.
  - rewrite length_app. lia.
  - rewrite drop_app_length. apply startsWith_app.
Qed.

Lemma occurs_context label a b s : occurs label s -> occurs label (a ++ s ++ b).
Proof.
  intros (x & y & ->). exists (a ++ x), (y ++ b). repeat rewrite <- app_assoc. reflexivity.
Qed.

(** A character that is not ASCII matches itself only, with or without
    the flag [i]. *)
Lemma charMatches_exact fl a u :
  (0x80 <= a)%N -> charMatches fl a u = true -> u = a.
Proof.
  intros Ha. unfold charMatches, asciiUpper.
  destruct (ignoreCase fl); [|intros H; apply N.eqb_eq in H; congruence].
  destruct ((0x61 <=? a) && (a <=? 0x7A))%N eqn:E1.
  { apply andb_true_iff in E1 as [_ E1]. apply N.leb_le in E1. lia. }
  destruct ((0x61 <=? u) && (u <=? 0x7A))%N eqn:E2; intros H; apply N.eqb_eq in H.
  - apply andb_true_iff in E2 as [_ E2]. apply N.leb_le in E2. lia.
  - congruence.
Qed.

Lemma label_exact fl label w :
  Forall (fun a => (0x80 <= a)%N) label ->
  Forall2 (fun a u => charMatches fl a u = true) label w -> w = label.
Proof.
  intros Hl H. induction H as [|a u label w Hau H IH]; [reflexivity|].
  apply Forall_cons in Hl as [Ha Hl]. rewrite (charMatches_exact fl a u Ha Hau), (IH Hl).
  reflexivity.
Qed.

(** Replacing the matches of a pattern that can only match around
    [label] changes nothing where [label] does not stand. *)
Lemma replaceAll_without_label fl r f label s :
  (forall pre s' mi, matchAt fl r pre s' = Some mi -> occurs label (matched mi)) ->
  ~ occurs label s -> replaceAll fl r f s = s.
Proof.
  intros Hm Hs.
  apply (replaceAll_related fl r f (fun s1 s2 => ~ occurs label s1 -> s2 = s1)); auto.
  - intros s1 s2 s3 H12 H23 H1. pose proof (H12 H1) as E. subst s2. apply H23. exact H1.
  - intros a b s1 s2 H H1. rewrite H; [reflexivity|]. intros Ho. apply H1.
    apply occurs_context. exact Ho.
  - intros pre s' mi E H. exfalso. apply H. apply (Hm _ _ _ E).
Qed.

Lemma occurs_inside label a x b : occurs label (a ++ (label ++ x) ++ b).
Proof. exists a, (x ++ b). repeat rewrite <- app_assoc. reflexivity. Qed.

(** Every match of the three patterns holds the label. *)
Lemma tablePattern_label label pre s mi :
  Forall (fun a => (0x80 <= a)%N) label ->
  matchAt gis (tablePattern label) pre s = Some mi -> occurs label (matched mi).
Proof.
  intros Hl H. apply tablePattern_match in H.
  destruct H as (c1 & u & lab & v & c3 & tag & bl & close & -> & _ & _ & _ & _ & _ & Hlab & _).
  apply (label_exact gis) in Hlab; [|exact Hl]. subst lab.
  exists (c1 ++ u), (v ++ (c3 ++ tag) ++ bl ++ close).
  repeat rewrite <- app_assoc. reflexivity.
Qed.

Lemma colonPattern_label label pre s mi :
  Forall (fun a => (0x80 <= a)%N) label ->
  matchAt gi (colonPattern label) pre s = Some mi -> occurs label (matched mi).
Proof.
  intros Hl H. apply matchAt_sound in H. destruct H as (_ & _ & H).
  unfold colonPattern in H. cbn [seqs] in H.
  apply Matches_Seq_inv in H. destruct H as (w1 & r1 & k1 & -> & _ & H).
  apply Matches_Seq_inv in H. destruct H as (w2 & r2 & k2 & -> & G2 & _).
  apply Matches_Group_inv in G2. destruct G2 as (j2 & G2 & _).
  apply Matches_Seq_inv in G2. destruct G2 as (lab & x & i & -> & B & _).
  apply Matches_lit in B. destruct B as [B _].
  apply (label_exact gi) in B; [|exact Hl]. subst lab.
  apply occurs_inside.
Qed.

Lemma blankPattern_label label pre s mi :
  Forall (fun a => (0x80 <= a)%N) label ->
  matchAt noFlags (blankPattern label) pre s = Some mi -> occurs label (matched mi).
Proof.
  intros Hl H. apply matchAt_sound in H. destruct H as (_ & _ & H).
  unfold blankPattern in H. cbn [seqs] in H.
  apply Matches_Seq_inv in H. destruct H as (w1 & r1 & k1 & -> & G1 & _).
  apply Matches_Group_inv in G1. destruct G1 as (j1 & G1 & _).
  apply Matches_Seq_inv in G1. destruct G1 as (lab & x & i & -> & B & _).
  apply Matches_lit in B. destruct B as [B _].
  apply (label_exact noFlags) in B; [|exact Hl]. subst lab.
  apply (occurs_inside label [] x r1).
Qed.

(** The labels of the three passes are written in Chinese characters. *)
Lemma labels_not_ascii lf :
  In lf (tableLabels ++ colonLabels ++ blankLabels) ->
  Forall (fun a => (0x80 <= a)%N) (fst lf).
Proof.
  assert (H : forallb (fun lf : list N * string => forallb (fun a => (0x80 <=? a)%N) (fst lf))
                (tableLabels ++ colonLabels ++ blankLabels) = true)
    by (vm_compute; reflexivity).
  rewrite forallb_forall in H. intros Hin. specialize (H lf Hin).
  rewrite forallb_forall in H. apply Forall_forall. intros a Ha.
  apply N.leb_le, H, list_elem_of_In, Ha.
Qed.

(** A pass over labels that do not stand in the body. *)
Lemma pass_without_labels (step : list N -> jsval -> list N -> list N) data labels xml :
  (forall lf value, In lf labels -> ~ occurs (fst lf) xml -> step (fst lf) value xml = xml) ->
  (forall lf, In lf labels -> ~ occurs (fst lf) xml) ->
  fold_left (forLabel step data) labels xml = xml.
Proof.
  induction labels as [|lf labels IH]; intros Hstep Hno; [reflexivity|].
  cbn [fold_left].
  assert (E : forLabel step data xml lf = xml).
  { unfold forLabel. destruct (toBoolean _); [|reflexivity].
    apply Hstep; [left; reflexivity|apply Hno; left; reflexivity]. }
  rewrite E. apply IH.
  - intros lf' value Hin. apply Hstep. right. exact Hin.
  - intros lf' Hin. apply Hno. right. exact Hin.
Qed.

(** X20.  The replacement passes touch a body only where one of their
    labels stands: a body in which no label of a pass occurs comes out
    of that pass as it went in, whatever the data, and when none of the
    labels of the three passes occurs, smart replacement does nothing
    but insert the appendix. *)
Theorem passes_need_their_labels now data documentXml :
  ((forall lf, In lf tableLabels -> ~ occurs (fst lf) documentXml) ->
   replaceTableCells documentXml data = documentXml)
  /\ ((forall lf, In lf colonLabels -> ~ occurs (fst lf) documentXml) ->
      replaceLabeledContent documentXml data = documentXml)
  /\ ((forall lf, In lf blankLabels -> ~ occurs (fst lf) documentXml) ->
      replaceBlankFields documentXml data = documentXml)
  /\ ((forall lf, In lf (tableLabels ++ colonLabels ++ blankLabels) ->
         ~ occurs (fst lf) documentXml) ->
      inlinePasses documentXml data = documentXml
      /\ generateWithSmartReplacement now data documentXml
         = appendFilledContent now documentXml data).
Proof.
  assert (H1 : (forall lf, In lf tableLabels -> ~ occurs (fst lf) documentXml) ->
               replaceTableCells documentXml data = documentXml).
  { intros Hno. apply pass_without_labels; [|exact Hno].
    intros lf value Hin Ho. apply (replaceAll_without_label _ _ _ (fst lf)); [|exact Ho].
    intros pre s mi. apply tablePattern_label, labels_not_ascii.
    apply in_or_app. left. exact Hin. }
  assert (H2 : (forall lf, In lf colonLabels -> ~ occurs (fst lf) documentXml) ->
               replaceLabeledContent documentXml data = documentXml).
  { intros Hno. apply pass_without_labels; [|exact Hno].
    intros lf value Hin Ho. apply (replaceAll_without_label _ _ _ (fst lf)); [|exact Ho].
    intros pre s mi. apply colonPattern_label, labels_not_ascii.
    apply in_or_app. right. apply in_or_app. left. exact Hin. }
  assert (H3 : (forall lf, In lf blankLabels -> ~ occurs (fst lf) documentXml) ->
               replaceBlankFields documentXml data = documentXml).
  { intros Hno. apply pass_without_labels; [|exact Hno].
    intros lf value Hin Ho. apply (replaceAll_without_label _ _ _ (fst lf)); [|exact Ho].
    intros pre s mi. apply blankPattern_label, labels_not_ascii.
    apply in_or_app. right. apply in_or_app. right. exact Hin. }
  split; [exact H1|]. split; [exact H2|]. split; [exact H3|].
  intros Hno.
  assert (E : inlinePasses documentXml data = documentXml).
  { unfold inlinePasses.
    rewrite H1 by (intros lf Hin; apply Hno, in_or_app; left; exact Hin).
    rewrite H2 by (intros lf Hin; apply Hno, in_or_app; right; apply in_or_app; left;
                   exact Hin).
    apply H3. intros lf Hin. apply Hno, in_or_app. right. apply in_or_app. right. exact Hin. }
  split; [exact E|]. unfold generateWithSmartReplacement. rewrite E. reflexivity.
Qed.

Lemma passes_need_their_labels_witness :
  inlinePasses plainBody {[ "companyName"%string := VStr (L "ACME") ]} = plainBody.
Proof.
  apply (proj2 (proj2 (proj2 (passes_need_their_labels Spec.someDay
           {[ "companyName"%string := VStr (L "ACME") ]} plainBody)))).
  assert (H : forallb (fun lf : list N * string => negb (includes plainBody (fst lf)))
                (tableLabels ++ colonLabels ++ blankLabels) = true)
    by (vm_compute; reflexivity).
  rewrite forallb_forall in H. intros lf Hin Ho. specialize (H lf Hin).
  apply occurs_includes in Ho. rewrite Ho in H. discriminate.
Defined.

End Labels.

(* ===================================================================== *)
(** * The shapes of a reply *)
(* ===================================================================== *)

Section ReplyShapes.
Import JsStr JsNum JsVal Net ApiService Spec.

Implicit Types (this : service) (data : json).

Lemma firstChoice_value data net :
  returned (run net (firstChoice {| status := 200; parsed := Some data |}))
  = match member data (L "choices") with
    | None => inl TypeError
    | Some choices =>
        match first choices with
        | None => inl TypeError
        | Some choice =>
            inr (orJ (chain (chain choice (L "message")) (L "content")) (JStr []))
        end
    end.
Proof.
  unfold firstChoice, readJson, run. cbn [parsed bind].
  destruct (member data (L "choices")) as [choices|]; [|reflexivity].
  cbn [read bind]. destruct (first choices) as [choice|]; reflexivity.
Qed.

(** X21.  What [callDeepSeek] makes of a reply with the status 200.
    Without a key it throws before any request.  With a key it makes
    one request; a body that is [null], or an object without [choices],
    makes it throw a TypeError; an empty array of choices gives the
    empty string, and so does a first choice without a message or with
    an empty content; otherwise it returns the content of the first
    choice as it is. *)
Theorem callDeepSeek_reply_shapes this messages options data :
  let called := run (fun _ _ => replied data) (callDeepSeek this messages options) in
  (toBoolean (deepseekApiKey this) = false ->
     returned called = inl (Error (L "DeepSeek API Key 未配置，请在设置中配置"))
     /\ requests called = [])
  /\ (toBoolean (deepseekApiKey this) = true ->
      length (requests called) = 1%nat
      /\ (data = JNull -> returned called = inl TypeError)
      /\ (forall props, data = JObj props -> JsObj.get props (L "choices") = None ->
            returned called = inl TypeError)
      /\ (forall props, data = JObj props ->
            JsObj.get props (L "choices") = Some (JArr []) ->
            returned called = inr (JStr []))
      /\ (forall props choice others,
            data = JObj props ->
            JsObj.get props (L "choices") = Some (JArr (JObj choice :: others)) ->
            (JsObj.get choice (L "message") = None -> returned called = inr (JStr []))
            /\ (forall message content,
                  JsObj.get choice (L "message") = Some (JObj message) ->
                  JsObj.get message (L "content") = Some content ->
                  returned called = inr (if truthy content then content else JStr [])))).
Proof.
  cbv zeta. split.
  - intros Hkey. unfold callDeepSeek. rewrite Hkey. split; reflexivity.
  - intros Hkey. split.
    { unfold callDeepSeek. rewrite Hkey. cbn [negb]. unfold run. rewrite rethrow_run.
      rewrite one_request; [reflexivity|].
      intros [|r]; [apply immediate_throw|].
      destruct (negb (ok r)); [apply immediate_failure|apply immediate_firstChoice]. }
    rewrite (callDeepSeek_answered this messages options _ Hkey). unfold replied.
    change (ok {| status := 200; parsed := Some data |}) with true. cbv iota.
    rewrite firstChoice_value.
    split; [intros ->; reflexivity|].
    split; [intros props -> Hc; cbn [member]; rewrite Hc; reflexivity|].
    split; [intros props -> Hc; cbn [member]; rewrite Hc; reflexivity|].
    intros props choice others -> Hc. cbn [member]. rewrite Hc.
    cbn [default from_option id first head].
    split.
    + intros Hm. unfold chain. cbn [member default from_option id]. rewrite Hm. reflexivity.
    + intros message content Hm Hcontent. unfold chain.
      cbn [member default from_option id]. rewrite Hm.
      cbn [member default from_option id]. rewrite Hcontent. reflexivity.
Qed.

End ReplyShapes.

Lemma callDeepSeek_reply_shapes_witness :
  Net.returned (Net.run (fun _ _ => Spec.replied (Net.JObj []))
                  (ApiService.callDeepSeek Spec.serviceWithKeys (Net.JArr []) []))
  = inl Net.TypeError.
Proof.
  apply (proj1 (proj2 (proj2
    (proj2 (callDeepSeek_reply_shapes Spec.serviceWithKeys (Net.JArr []) [] (Net.JObj []))
       eq_refl))) [] eq_refl eq_refl).
Defined.

(* ===================================================================== *)
(** * The name of the download *)
(* ===================================================================== *)

Section DownloadName.
Import JsStr JsNum JsVal TemplateEngine UIController Spec.

Implicit Types (document : page) (data : gmap string jsval) (k : string).

(** What one [forEach] of [collectAllData] leaves under a key. *)
Lemma collectFields_lookup document fields k : forall data,
  collectFields document fields data !! k
  = match (if bool_decide (k ∈ fields) then document !! k else None) with
    | Some value => Some (VStr value)
    | None => data !! k
    end.
Proof.
  unfold collectFields.
  induction fields as [|f fields IH]; intros data; [reflexivity|].
  cbn [fold_left]. rewrite IH.
  assert (Hstep : match document !! f with
                  | Some value => <[f := VStr value]> data
                  | None => data
                  end !! k
                  = match (if bool_decide (k = f) then document !! k else None) with
                    | Some value => Some (VStr value)
                    | None => data !! k
                    end).
  { destruct (decide (k = f)) as [->|Hne].
    - rewrite bool_decide_eq_true_2 by reflexivity.
      destruct (document !! f) as [value|]; [apply lookup_insert_eq|reflexivity].
    - rewrite bool_decide_eq_false_2 by exact Hne.
      destruct (document !! f) as [value|]; [apply lookup_insert_ne; auto|reflexivity]. }
  rewrite Hstep. clear Hstep IH.
  destruct (decide (k = f)) as [->|Hne].
  - rewrite (bool_decide_eq_true_2 (f = f)) by reflexivity.
    rewrite (bool_decide_eq_true_2 (f ∈ f :: fields)) by left.
    destruct (bool_decide (f ∈ fields)); destruct (document !! f); reflexivity.
  - rewrite (bool_decide_eq_false_2 (k = f)) by exact Hne.
    destruct (bool_decide (k ∈ fields)) eqn:E.
    + apply bool_decide_eq_true_1 in E.
      rewrite bool_decide_eq_true_2 by (right; exact E). reflexivity.
    + apply bool_decide_eq_false_1 in E.
      rewrite bool_decide_eq_false_2
        by (intros H; apply elem_of_cons in H as [H|H]; auto).
      reflexivity.
Qed.

Lemma collected_companyName document :
  prop (collectAllData document) "companyName"
  = from_option VStr VUndefined (document !! "companyName").
Proof.
  unfold prop, collectAllData.
  rewrite !lookup_insert_ne by discriminate.
  rewrite !collectFields_lookup.
  replace (bool_decide ("companyName" ∈ textFields)) with false by (vm_compute; reflexivity).
  replace (bool_decide ("companyName" ∈ creditFields)) with false
    by (vm_compute; reflexivity).
  replace (bool_decide ("companyName" ∈ financialFields)) with false
    by (vm_compute; reflexivity).
  replace (bool_decide ("companyName" ∈ companyFields)) with true
    by (vm_compute; reflexivity).
  destruct (document !! "companyName"); reflexivity.
Qed.

(** The digits of a year, a month and a day. *)
Lemma year_digits y :
  (1000 <= y <= 9999)%N ->
  length (digitsOfN y) = 4%nat /\ forallb isDigit (digitsOfN y) = true.
Proof.
  intros Hy.
  assert (H : forallb (fun z => let d := digitsOfN (Z.to_N z) in
                                (length d =? 4)%nat && forallb isDigit d)
                (zrange 1000 (Z.to_nat 9000)) = true) by (vm_compute; reflexivity).
  rewrite forallb_forall in H.
  specialize (H (Z.of_N y) (zrange_In (Z.to_nat 9000) 1000 (Z.of_N y) ltac:(lia))).
  cbv zeta in H. rewrite N2Z.id in H. apply andb_true_iff in H as [H1 H2].
  split; [apply Nat.eqb_eq; exact H1|exact H2].
Qed.

Lemma two_digits n :
  (1 <= n <= 31)%N ->
  length (padStart0 2 (digitsOfN n)) = 2%nat
  /\ forallb isDigit (padStart0 2 (digitsOfN n)) = true.
Proof.
  intros Hn.
  assert (H : forallb (fun z => let d := padStart0 2 (digitsOfN (Z.to_N z)) in
                                (length d =? 2)%nat && forallb isDigit d)
                (zrange 1 (Z.to_nat 31)) = true) by (vm_compute; reflexivity).
  rewrite forallb_forall in H.
  specialize (H (Z.of_N n) (zrange_In (Z.to_nat 31) 1 (Z.of_N n) ltac:(lia))).
  cbv zeta in H. rewrite N2Z.id in H. apply andb_true_iff in H as [H1 H2].
  split; [apply Nat.eqb_eq; exact H1|exact H2].
Qed.

(** X22.  The name of the download.  It is the company name of the
    form, or 企业 when the form has none, then _授信调查报告_, the date
    and .docx; and for a date of a year with four digits the date is
    written with exactly eight digits, the month and the day filled
    with a zero, so that the names of one company sort by date. *)
Theorem download_name document now :
  (1000 <= getFullYear now <= 9999)%N ->
  (getMonth now <= 11)%N ->
  (1 <= getDate now <= 31)%N ->
  exists stamp,
    fileName document now
    = match document !! "companyName" with
      | Some (c :: name) => c :: name
      | _ => L "企业"
      end ++ L "_授信调查报告_" ++ stamp ++ L ".docx"
    /\ stamp = UIController.formatDate now
    /\ length stamp = 8%nat
    /\ forallb isDigit stamp = true.
Proof.
  intros Hy Hm Hd. exists (UIController.formatDate now).
  split; [|split; [reflexivity|]].
  - unfold fileName. rewrite collected_companyName.
    destruct (document !! "companyName") as [[|c name]|]; reflexivity.
  - unfold UIController.formatDate. cbv zeta.
    destruct (year_digits _ Hy) as [Y1 Y2].
    destruct (two_digits (getMonth now + 1) ltac:(lia)) as [M1 M2].
    destruct (two_digits _ Hd) as [D1 D2].
    rewrite !length_app, Y1, M1, D1. rewrite !forallb_app, Y2, M2, D2.
    split; reflexivity.
Qed.

End DownloadName.

Lemma download_name_witness :
  exists stamp,
    UIController.fileName {[ "companyName"%string := JsStr.L "ACME" ]} Spec.someDay
    = JsStr.L "ACME" ++ JsStr.L "_授信调查报告_" ++ stamp ++ JsStr.L ".docx"
    /\ length stamp = 8%nat.
Proof.
  destruct (download_name {[ "companyName"%string := JsStr.L "ACME" ]} Spec.someDay)
    as (stamp & H1 & _ & H2 & _); [vm_compute; split; discriminate|vm_compute; discriminate|
                                   vm_compute; split; discriminate|].
  exists stamp. split; [exact H1|exact H2].
Defined.

(* ===================================================================== *)
(** * The prompts and the form *)
(* ===================================================================== *)

Section PromptsFromForm.
Import JsStr JsNum JsVal Net ApiService UIController Spec.

Implicit Types (document : page) (this : service).

(** A field of the context block is read from the input of its id. *)
Lemma collected_context_field document name :
  In name contextFields ->
  prop (collectAllData document) name = from_option VStr VUndefined (document !! name).
Proof.
  intros Hin. unfold prop, collectAllData.
  repeat (destruct Hin as [<-|Hin]; [
    rewrite !lookup_insert_ne by discriminate;
    rewrite !collectFields_lookup;
    match goal with
    | |- context [bool_decide (?k ∈ textFields)] =>
        replace (bool_decide (k ∈ textFields)) with false by (vm_compute; reflexivity)
    end;
    match goal with
    | |- context [bool_decide (?k ∈ creditFields)] =>
        let b := eval vm_compute in (bool_decide (k ∈ creditFields)) in
        replace (bool_decide (k ∈ creditFields)) with b by (vm_compute; reflexivity)
    end;
    match goal with
    | |- context [bool_decide (?k ∈ financialFields)] =>
        let b := eval vm_compute in (bool_decide (k ∈ financialFields)) in
        replace (bool_decide (k ∈ financialFields)) with b by (vm_compute; reflexivity)
    end;
    match goal with
    | |- context [bool_decide (?k ∈ companyFields)] =>
        let b := eval vm_compute in (bool_decide (k ∈ companyFields)) in
        replace (bool_decide (k ∈ companyFields)) with b by (vm_compute; reflexivity)
    end;
    match goal with
    | |- context [document !! ?k] => destruct (document !! k); reflexivity
    end |]).
  destruct Hin.
Qed.

Lemma shown_typed document name :
  In name contextFields ->
  shown (collectAllData document) name = typedOrMissing document name.
Proof.
  intros Hin. unfold shown, typedOrMissing. rewrite (collected_context_field _ _ Hin).
  destruct (document !! name) as [[|c s]|]; reflexivity.
Qed.

(** Each of the ten fields has a prompt of its own. *)
Lemma own_prompt inherited field :
  In field fields ->
  exists prompt,
    JsObj.get prompts field = Some prompt /\ prompt <> []
    /\ basePrompt inherited field = prompt.
Proof.
  intros Hin. unfold basePrompt.
  repeat (destruct Hin as [<-|Hin]; [
    match goal with
    | |- context [JsObj.get prompts ?f] =>
        let v := eval vm_compute in (JsObj.get prompts f) in
        match v with
        | Some ?p =>
            exists p; replace (JsObj.get prompts f) with (Some p) by (vm_compute; reflexivity);
            split; [reflexivity|split; [discriminate|reflexivity]]
        end
    end |]).
  destruct Hin.
Qed.

(** X23.  What is asked for a field of the ten, the context being
    the data collected from the form: one request, to the chat address
    of the proxy with the key in the header X-Api-Key, for the model
    deepseek-chat at the temperature 0.7 with at most 4096 tokens; the
    user message is the prompt of the field, a line feed and the
    context block, and each value of the block is what the input of
    its id holds, as typed, or 未提供 when the input is empty or
    missing.  How the engine prints inherited properties plays no
    part. *)
Theorem prompts_from_the_form inherited this document field net :
  In field fields ->
  toBoolean (deepseekApiKey this) = true ->
  let context := collectAllData document in
  exists prompt,
    JsObj.get prompts field = Some prompt /\ prompt <> []
    /\ requests (run net (generateContent inherited this field context))
       = [promptRequest this prompt context]
    /\ (forall name, In name contextFields ->
          shown context name = typedOrMissing document name).
Proof.
  intros Hin Hkey context.
  destruct (own_prompt inherited field Hin) as (prompt & Hget & Hne & Hbase).
  exists prompt. split; [exact Hget|]. split; [exact Hne|].
  split; [|intros name Hname; apply shown_typed; exact Hname].
  destruct (generateContent_shape inherited this context field)
    as [[Hno _]|[_ (req & k & Heq & Hk)]]; [congruence|].
  rewrite Heq. unfold run. rewrite (one_request req k Hk). cbn [requests app].
  f_equal.
  unfold generateContent, callDeepSeek in Heq. rewrite Hkey, Hbase in Heq.
  cbn [negb try_ bind] in Heq. injection Heq as <- _.
  reflexivity.
Qed.

End PromptsFromForm.

Lemma prompts_from_the_form_witness :
  ApiService.shown
    (UIController.collectAllData {[ "companyName"%string := JsStr.L "ACME" ]})
    "companyName"
  = Spec.typedOrMissing {[ "companyName"%string := JsStr.L "ACME" ]} "companyName".
Proof.
  destruct (prompts_from_the_form (fun _ => None) Spec.serviceWithKeys
              {[ "companyName"%string := JsStr.L "ACME" ]} (JsStr.L "creditRisk")
              (fun _ _ => Net.NoAnswer))
    as (prompt & _ & _ & _ & H); [do 6 right; left; reflexivity|reflexivity|].
  apply H. left. reflexivity.
Defined.

(* ===================================================================== *)
(** * The structured appendix against its description *)
(* ===================================================================== *)

Section AppendixOutline.
Import JsStr JsNum JsVal Regex TemplateEngine Spec.

Implicit Types (data : gmap string jsval) (s t text body tag : list N).

(** ** White space and lines *)

Lemma trimStart_white s : trimStart s = [] <-> forallb isWhiteSpace s = true.
Proof.
  induction s as [|c s IH]; cbn [trimStart forallb]; [tauto|].
  destruct (isWhiteSpace c); cbn [andb]; [exact IH|]. split; discriminate.
Qed.

Lemma trimStart_head s c r : trimStart s = c :: r -> isWhiteSpace c = false.
Proof.
  induction s as [|x s IH]; cbn [trimStart]; [discriminate|].
  destruct (isWhiteSpace x) eqn:E; [exact IH|]. intros [= <- _]. exact E.
Qed.

(** A line survives the filter of the code when it holds more than
    white space. *)
Lemma trim_white s :
  (match trim s with [] => false | _ => true end) = negb (forallb isWhiteSpace s).
Proof.
  unfold trim, trimEnd. destruct (forallb isWhiteSpace s) eqn:E.
  - apply trimStart_white in E. rewrite E. reflexivity.
  - cbn [negb]. destruct (trimStart s) as [|c r] eqn:Es.
    + apply trimStart_white in Es. congruence.
    + destruct (rev (trimStart (rev (c :: r)))) eqn:Er; [|reflexivity].
      exfalso. apply (f_equal (@rev N)) in Er. rewrite rev_involutive in Er.
      cbn [rev] in Er. apply trimStart_white in Er.
      rewrite forallb_app in Er. cbn [forallb] in Er.
      rewrite (trimStart_head _ _ _ Es) in Er. cbn [andb] in Er.
      rewrite andb_false_r in Er. discriminate.
Qed.

Lemma narrativeLines_written text : narrativeLines text = writtenLines text.
Proof.
  unfold narrativeLines, writtenLines. apply List.filter_ext. intros l. apply trim_white.
Qed.

(** ** The subsections *)

Lemma rendered_textLine text : rendered (textLine text) = para text.
Proof.
  unfold rendered, textLine, para. cbn [entryText entryBold entryAlign]. reflexivity.
Qed.

Lemma rendered_headLine text : rendered (headLine text) = heading text.
Proof.
  unfold rendered, headLine, heading. cbn [entryText entryBold entryAlign]. reflexivity.
Qed.

Lemma rendered_emptyLine : rendered emptyLine = para [].
Proof. unfold emptyLine. apply rendered_textLine. Qed.

Lemma valueLines_items data rows :
  map rendered (valueLines data rows) = itemParagraphs data rows.
Proof.
  unfold valueLines, itemParagraphs.
  induction rows as [|[[label field] unit] rows IH]; [reflexivity|].
  cbn [List.filter flat_map fst snd]. unfold given at 1.
  destruct (toBoolean (prop data field)).
  - cbn [map app fst snd]. rewrite rendered_textLine, IH. reflexivity.
  - exact IH.
Qed.

Lemma companyRows_table :
  companyRows = companyInfo ++ [(L "经营范围", "businessScope"%string, [])].
Proof. reflexivity. Qed.

Lemma financialRows_table : financialRows = financialInfo.
Proof. reflexivity. Qed.

Lemma creditRows_table : creditRows = creditInfo.
Proof. reflexivity. Qed.

Lemma narratives_table : narratives = textSections.
Proof. reflexivity. Qed.

Lemma scope_line v : L "经营范围" ++ L "：" ++ v ++ [] = L "经营范围：" ++ v.
Proof. rewrite app_nil_r. reflexivity. Qed.

Lemma company_lines data :
  map rendered
    (subsection data ["companyName"; "creditCode"; "legalRep"]%string
       (L "一、企业基本信息") companyRows)
  = companySection data.
Proof.
  unfold subsection, companySection, truthy, given. cbn [existsb].
  rewrite orb_false_r, orb_assoc.
  destruct (_ || _); [|reflexivity].
  rewrite !map_app, valueLines_items, companyRows_table.
  unfold itemParagraphs at 1. rewrite flat_map_app. fold (itemParagraphs data companyInfo).
  cbn [flat_map fst snd map]. rewrite app_nil_r, scope_line.
  rewrite rendered_headLine, rendered_emptyLine, <- (app_assoc (itemParagraphs _ _)).
  reflexivity.
Qed.

Lemma financial_lines data :
  map rendered
    (subsection data ["totalAssetsEnd"; "revenueCurrent"]%string
       (L "二、财务信息") financialRows)
  = financialSection data.
Proof.
  unfold subsection, financialSection, truthy, given. cbn [existsb].
  rewrite orb_false_r.
  destruct (_ || _); [|reflexivity].
  rewrite !map_app, valueLines_items, financialRows_table. cbn [map].
  rewrite rendered_headLine, rendered_emptyLine. reflexivity.
Qed.

Lemma credit_lines data :
  map rendered
    (subsection data ["creditType"; "creditAmount"]%string (L "三、授信信息") creditRows)
  = creditSection data.
Proof.
  unfold subsection, creditSection, truthy, given. cbn [existsb].
  rewrite orb_false_r.
  destruct (_ || _); [|reflexivity].
  rewrite !map_app, valueLines_items, creditRows_table. cbn [map].
  rewrite rendered_headLine, rendered_emptyLine. reflexivity.
Qed.

(** ** The narratives *)

Lemma rendered_lines (ls : list (list N)) :
  map rendered (map (fun l => textLine (L "    " ++ l)) ls)
  = map (fun line => para (L "    " ++ line)) ls.
Proof.
  induction ls as [|l ls IH]; [reflexivity|].
  cbn [map]. rewrite rendered_textLine, IH. reflexivity.
Qed.

Lemma narrative_section data (section : list N * string) :
  negb (given data (snd section)) || isText (prop data (snd section)) = true ->
  textSection data section = Some (map rendered (narrative data section)).
Proof.
  unfold textSection, narrative, given.
  generalize (prop data (snd section)). intros v H.
  destruct (toBoolean v) eqn:Et; cbn [negb orb] in H; [|reflexivity].
  destruct v as [| |b|x|text]; try discriminate H.
  rewrite narrativeLines_written, !map_app. cbn [toStr].
  rewrite rendered_lines. cbn [map].
  rewrite rendered_headLine, rendered_emptyLine. reflexivity.
Qed.

Lemma narrative_throws data (section : list N * string) :
  given data (snd section) = true -> isText (prop data (snd section)) = false ->
  textSection data section = None.
Proof.
  unfold textSection, given.
  generalize (prop data (snd section)). intros v Hg Ht. rewrite Hg.
  destruct v; try reflexivity. discriminate.
Qed.

Lemma narratives_sections data (sections : list (list N * string)) :
  forallb (fun section => negb (given data (snd section))
                          || isText (prop data (snd section))) sections = true ->
  textSectionsFrom data sections = Some (map rendered (flat_map (narrative data) sections)).
Proof.
  induction sections as [|section more IH]; cbn [forallb textSectionsFrom flat_map];
    intros H; [reflexivity|].
  apply andb_prop in H. destruct H as [H1 H2].
  rewrite (narrative_section _ _ H1), (IH H2), map_app. reflexivity.
Qed.

Lemma sections_throw data (sections : list (list N * string)) section :
  In section sections -> textSection data section = None ->
  textSectionsFrom data sections = None.
Proof.
  induction sections as [|x more IH]; intros Hin Hn; [destruct Hin|].
  cbn [textSectionsFrom]. destruct Hin as [->|Hin].
  - rewrite Hn. reflexivity.
  - rewrite (IH Hin Hn). destruct (textSection data x); reflexivity.
Qed.

(** The appendix of the code is the appendix as it is described. *)
Lemma appendix_outline now data :
  narrativesWritten data = true ->
  createFilledContentSection now data = Some (appendixOf now data).
Proof.
  intros H. unfold createFilledContentSection, filledSections, appendixOf.
  rewrite <- narratives_table, (narratives_sections data narratives H).
  cbn [option_map]. f_equal. f_equal.
  unfold outline. rewrite !map_app, company_lines, financial_lines, credit_lines.
  cbn [map app]. rewrite rendered_emptyLine.
  change (dateText now) with (formatDate now).
  unfold rendered. cbn [entryText entryBold entryAlign]. reflexivity.
Qed.

Lemma appendix_throws now data section :
  In section narratives -> given data (snd section) = true ->
  isText (prop data (snd section)) = false ->
  createFilledContentSection now data = None.
Proof.
  intros Hin Hg Ht. unfold createFilledContentSection, filledSections.
  rewrite <- narratives_table.
  rewrite (sections_throw data narratives section Hin (narrative_throws _ _ Hg Ht)).
  reflexivity.
Qed.

(** ** The place of the closing tag *)

Lemma startsWith_prefix t : forall s, startsWith s t = true -> exists b, s = t ++ b.
Proof.
  induction t as [|x t IH]; intros s; [exists s; reflexivity|].
  destruct s as [|y s]; cbn [startsWith]; [discriminate|].
  intros H. apply andb_prop in H. destruct H as [H1 H2].
  apply N.eqb_eq in H1. subst y. destruct (IH _ H2) as (b & ->). exists b. reflexivity.
Qed.

Lemma includes_occurs s t : includes s t = true -> occurs t s.
Proof.
  intros H. apply includes_spec in H. destruct H as (j & Hj & H).
  apply startsWith_prefix in H. destruct H as (b & H).
  exists (take j s), b. rewrite <- H, take_drop. reflexivity.
Qed.

Lemma lastIndexOf_last body tag i a b :
  lastIndexOf body tag = Some i -> body = a ++ tag ++ b -> (length a <= i)%nat.
Proof.
  intros H E. destruct (lastIndexOf_Some _ _ _ H) as (_ & _ & Hlast).
  destruct (le_lt_dec (length a) i) as [Hle|Hlt]; [exact Hle|]. exfalso.
  assert (Hf : startsWith (drop (length a) body) tag = false).
  { apply Hlast; [exact Hlt|]. rewrite E, length_app. lia. }
  rewrite E, drop_app_length, startsWith_app in Hf. discriminate.
Qed.

Lemma lastIndexOf_split body tag i :
  lastIndexOf body tag = Some i ->
  exists b, drop i body = tag ++ b /\ lastTagAt tag body (take i body) b
            /\ length (take i body) = i.
Proof.
  intros H. destruct (lastIndexOf_Some _ _ _ H) as (Hi & Hat & _).
  destruct (startsWith_prefix _ _ Hat) as (b & Hb).
  assert (Hl : length (take i body) = i) by (rewrite length_take; lia).
  exists b. split; [exact Hb|]. split; [|exact Hl]. split.
  - rewrite <- Hb, take_drop. reflexivity.
  - intros a' b' E. rewrite Hl. exact (lastIndexOf_last _ _ _ _ _ H E).
Qed.

(** The last closing tag is where [lastIndexOf] finds it. *)
Lemma lastTagAt_index tag body a b :
  lastTagAt tag body a b ->
  lastIndexOf body tag = Some (length a) /\ take (length a) body = a
  /\ drop (length a) body = tag ++ b.
Proof.
  intros [E Hlast].
  assert (Hin : includes body tag = true).
  { apply includes_spec. exists (length a). split.
    - rewrite E, length_app. lia.
    - rewrite E, drop_app_length. apply startsWith_app. }
  apply includes_lastIndexOf in Hin. destruct Hin as (i & Hi).
  destruct (lastIndexOf_split _ _ _ Hi) as (b0 & Hb0 & [E0 _] & Hl).
  pose proof (Hlast _ _ E0) as H1. rewrite Hl in H1.
  pose proof (lastIndexOf_last _ _ _ _ _ Hi E) as H2.
  assert (i = length a) by lia. subst i.
  split; [exact Hi|]. rewrite E at 1 2.
  rewrite take_app_length, drop_app_length. auto.
Qed.

(** ** The marks of a paragraph *)

Lemma paragraph_marks text bold align :
  tagsOf false (createParagraph text bold align)
  = tagsOf false (paragraphHead bold align) ++ tagsOf false paragraphTail.
Proof.
  pose proof (escapeXml_no_markup text) as (H1 & H2 & _).
  destruct (plain_text _ H1 H2) as (P1 & _ & P3).
  rewrite paragraph_parts, !tagsOf_app, head_state, P1, P3. reflexivity.
Qed.

Lemma paragraph_text text bold align :
  exists lead trail,
    Forall (fun c => isWhiteSpace c = true) lead
    /\ Forall (fun c => isWhiteSpace c = true) trail
    /\ textOf false (createParagraph text bold align) = lead ++ escapeXml text ++ trail.
Proof.
  pose proof (escapeXml_no_markup text) as (H1 & H2 & _).
  destruct (plain_text _ H1 H2) as (_ & P2 & P3).
  exists (textOf false (paragraphHead bold align)), (textOf false paragraphTail).
  split; [|split].
  - apply all_white. destruct bold, align; vm_compute; reflexivity.
  - apply all_white. vm_compute. reflexivity.
  - rewrite paragraph_parts, !textOf_app, !head_state, P2, P3. reflexivity.
Qed.

Lemma paragraph_bold text bold align :
  occurs boldMark (tagsOf false (createParagraph text bold align)) <-> bold = true.
Proof.
  split.
  - intros H. destruct bold; [reflexivity|]. exfalso.
    apply occurs_includes in H. rewrite paragraph_marks in H.
    destruct align; vm_compute in H; discriminate.
  - intros ->. apply includes_occurs. rewrite paragraph_marks.
    destruct align; vm_compute; reflexivity.
Qed.

Lemma paragraph_align text bold :
  occurs (alignMark (L "left")) (tagsOf false (createParagraph text bold AlignLeft))
  /\ occurs (alignMark (L "center")) (tagsOf false (createParagraph text bold AlignCenter))
  /\ occurs (alignMark (L "right")) (tagsOf false (createParagraph text bold AlignRight)).
Proof.
  repeat split; apply includes_occurs; rewrite paragraph_marks;
    destruct bold; vm_compute; reflexivity.
Qed.

(** C3, as the code has it.  When every narrative field of the context
    is a string or has no value, the appendix is the page break, the
    title in bold type and centred, the company, financial and credit
    subsections, each written when one of its leading fields has a
    value, with one line per row that has a value, then every narrative
    field that has a value under its heading, with one indented
    paragraph per line of the content that holds more than white space,
    then the report date aligned to the right; and when the body, after
    the table-cell, label and blank passes, holds the closing tag
    [</w:body>], the appendix is inserted once, immediately before the
    last occurrence of the tag, whatever the passes replaced.  A body
    without the tag is returned as the passes left it, without the
    appendix.  When a narrative field has a value that is no string the
    appendix cannot be built, and the generation of a body that holds
    the tag throws.  Every paragraph carries the mark of its alignment,
    the mark of bold type exactly when it is a heading or the title,
    and its escaped text as its only text; the page break carries the
    page mark. *)
Theorem appendix_insertion now data xml :
  let body :=
    replaceBlankFields (replaceLabeledContent (replaceTableCells xml data) data) data in
  (narrativesWritten data = true ->
   createFilledContentSection now data = Some (appendixOf now data)
   /\ (occurs bodyTag body -> exists a b, lastTagAt bodyTag body a b)
   /\ (forall a b,
         lastTagAt bodyTag body a b ->
         generateWithSmartReplacement now data xml
         = Some (a ++ appendixOf now data ++ bodyTag ++ b)))
  /\ (~ occurs bodyTag body -> generateWithSmartReplacement now data xml = Some body)
  /\ (forall section,
        In section narratives ->
        given data (snd section) = true ->
        isText (prop data (snd section)) = false ->
        createFilledContentSection now data = None
        /\ (occurs bodyTag body -> generateWithSmartReplacement now data xml = None))
  /\ (forall text bold,
        occurs (alignMark (L "left")) (tagsOf false (createParagraph text bold AlignLeft))
        /\ occurs (alignMark (L "center"))
             (tagsOf false (createParagraph text bold AlignCenter))
        /\ occurs (alignMark (L "right"))
             (tagsOf false (createParagraph text bold AlignRight)))
  /\ (forall text bold align,
        occurs boldMark (tagsOf false (createParagraph text bold align)) <-> bold = true)
  /\ (forall text bold align,
        exists lead trail,
          Forall (fun c => isWhiteSpace c = true) lead
          /\ Forall (fun c => isWhiteSpace c = true) trail
          /\ textOf false (createParagraph text bold align)
             = lead ++ escapeXml text ++ trail)
  /\ occurs pageMark pageBreak.
Proof.
  intros body.
  assert (Hgen : generateWithSmartReplacement now data xml
                 = appendFilledContent now body data) by reflexivity.
  split.
  { intros Hw. split; [exact (appendix_outline now data Hw)|]. split.
    - intros Hocc. apply occurs_includes, includes_lastIndexOf in Hocc.
      destruct Hocc as (i & Hi).
      destruct (lastIndexOf_split _ _ _ Hi) as (b & _ & Hlast & _).
      exists (take i body), b. exact Hlast.
    - intros a b Hlast. rewrite Hgen. unfold appendFilledContent.
      destruct (lastTagAt_index _ _ _ _ Hlast) as (Hi & Ha & Hb).
      change bodyEnd with bodyTag.
      rewrite Hi, (appendix_outline now data Hw), Ha, Hb. reflexivity. }
  split.
  { intros Hno. rewrite Hgen. unfold appendFilledContent. change bodyEnd with bodyTag.
    destruct (lastIndexOf body bodyTag) as [i|] eqn:E; [|reflexivity].
    exfalso. apply Hno. apply includes_occurs. apply includes_lastIndexOf. eauto. }
  split.
  { intros section Hin Hg Ht.
    pose proof (appendix_throws now data section Hin Hg Ht) as Hnone.
    split; [exact Hnone|].
    intros Hocc. apply occurs_includes, includes_lastIndexOf in Hocc.
    destruct Hocc as (i & Hi). rewrite Hgen. unfold appendFilledContent.
    change bodyEnd with bodyTag. rewrite Hi, Hnone. reflexivity. }
  split; [apply paragraph_align|].
  split; [apply paragraph_bold|].
  split; [apply paragraph_text|].
  apply includes_occurs. vm_compute. reflexivity.
Qed.

End AppendixOutline.

Lemma appendix_insertion_witness :
  Spec.narrativesWritten Spec.dataReport = true
  /\ TemplateEngine.generateWithSmartReplacement Spec.someDay Spec.dataReport Spec.xmlBody
     = Some (JsStr.L "<w:document><w:body><w:p/>"
             ++ Spec.appendixOf Spec.someDay Spec.dataReport
             ++ Spec.bodyTag ++ JsStr.L "</w:document>")
  /\ map Spec.entryText (Spec.outline Spec.someDay Spec.dataReport)
     = [ JsStr.L "授信报告填写数据汇总"; [];
         JsStr.L "一、企业基本信息"; []; JsStr.L "企业名称：X"; [];
         JsStr.L "三、授信信息"; []; JsStr.L "授信金额：500万元"; [];
         JsStr.L "四、企业基本情况"; []; JsStr.L "    first line";
         JsStr.L "    second line"; [];
         []; JsStr.L "报告日期：2026年11月02日" ]
  /\ TemplateEngine.createFilledContentSection Spec.someDay Spec.dataNumber = None
  /\ TemplateEngine.generateWithSmartReplacement Spec.someDay Spec.dataNumber Spec.xmlBody
     = None.
Proof.
  pose proof (appendix_insertion Spec.someDay Spec.dataReport Spec.xmlBody) as H.
  pose proof (appendix_insertion Spec.someDay Spec.dataNumber Spec.xmlBody) as H'.
  cbv zeta in H, H'.
  assert (Hw : Spec.narrativesWritten Spec.dataReport = true) by (vm_compute; reflexivity).
  split; [exact Hw|].
  split.
  { apply (proj2 (proj2 (proj1 H Hw))
             (JsStr.L "<w:document><w:body><w:p/>") (JsStr.L "</w:document>")).
    split.
    - vm_compute. reflexivity.
    - intros a' b' E. change (length a' <= 26)%nat.
      refine (lastIndexOf_last _ Spec.bodyTag 26%nat a' b' _ E).
      vm_compute. reflexivity. }
  split; [vm_compute; reflexivity|].
  destruct (proj1 (proj2 (proj2 H'))
              (JsStr.L "四、企业基本情况", "basicSituation"%string)) as [H1 H2].
  - left. reflexivity.
  - vm_compute. reflexivity.
  - vm_compute. reflexivity.
  - split; [exact H1|]. apply H2.
    exists (JsStr.L "<w:document><w:body><w:p/>"), (JsStr.L "</w:document>").
    vm_compute. reflexivity.
Defined.

(** C3 as it is stated fails.  A body whose closing tag is not written
    [</w:body>] comes back as it was, without the appendix, although
    the appendix for the context exists; and for a context whose
    narrative field holds the number 5 the generation of a body that
    holds the tag throws. *)
Lemma no_closing_tag_no_appendix :
  TemplateEngine.generateWithSmartReplacement Spec.someDay Spec.dataCompanyX
    Spec.xmlOtherPrefix
  = Some Spec.xmlOtherPrefix
  /\ is_Some (TemplateEngine.createFilledContentSection Spec.someDay Spec.dataCompanyX)
  /\ JsStr.includes Spec.xmlOtherPrefix (JsStr.L "授信报告填写数据汇总") = false
  /\ JsStr.includes Spec.xmlBody (JsStr.L "</w:body>") = true
  /\ TemplateEngine.generateWithSmartReplacement Spec.someDay Spec.dataNumber Spec.xmlBody
     = None.
Proof.
  split; [vm_compute; reflexivity|].
  split; [vm_compute; eexists; reflexivity|].
  split; [vm_compute; reflexivity|].
  split; vm_compute; reflexivity.
Qed.
